(* ===== verification/_CoqProject ===== *)
-Q . S2P
Prelude.v
CLib.v
Rfc3339.v
Algo.v
Session.v
Store.v
Threads.v
MemoryStore.v
MemoryThreads.v
MemoryLinear.v
Heap.v
SessionHeap.v
MemoryHeap.v
MemoryOwnership.v
Sql.v
SqliteStore.v
SqliteProps.v
OdbcStore.v
OdbcProps.v
Header.v
Base64.v
External.v
RefLibs.v
RedisStore.v
RedisSpec.v
RefRedis.v
RedisProps.v
Jwt.v
Instruction.v
InstructionHeap.v
Manager.v
Http.v
ManagerSpec.v
ManagerProps.v
Setup.v
Requests.v
Lifecycle.v
ManagerThreads.v
ManagerHeap.v
ManagerOwnership.v
RequestOwnership.v
Liveness.v
Backends.v
HttpSpec.v
HttpProps.v
ExampleServer.v
ExampleProps.v
ExampleMain.v
