(* ===== verification/Prelude.v ===== *)
(** * Verification of OpenDBSC

    OpenDBSC is a C library that lets a web server bind a browser session to a
    key of the client (Device Bound Session Credentials).  After a login the
    server sends a registration header with a challenge; the browser answers
    with a JWT signed by a fresh key; the key is stored with the session, and
    from then on every extension of the session needs a JWT for the current
    challenge, signed with that key.

    ** The parts of the program and the files that model them

    - [Prelude] (this file): C strings as [string], pointers into a buffer as
      suffixes, characters and bytes, the bit operations, tactics and hints.
    - [CLib]: the run time.  [C A] is a function of a [world] (allocator, wall
      clock, entropy, [clock_gettime], the calls of the application's [on_event]
      so far) that returns, or is undefined behaviour ([UB]), or never returns
      ([Hang]).  [wp] and its rules reason about runs in every environment;
      [wp_computes] says "this result, or NULL after a failed allocation".
    - [Algo] ([src/algo/algo.c]): the supported algorithms.
    - [Session] ([src/session/session.c]): the session record, its setters, its
      deep copy, the generation of identifiers, the request context.
    - [Store] ([include/store/store.h]): the virtual table as a class, and
      [StoreLaws], what a backend promises: an update of a map from
      identifiers to sessions.
    - [MemoryStore] ([src/store/memory.c]): the array store under its mutex, its
      refinement of a map in every environment ([store_spec]), and the instance
      of [StoreLaws].
    - [Threads]: threads that share an object under a mutex, one step of one
      thread at a time, and the proof that locked calls can be put in an order;
      [MemoryThreads], [MemoryLinear]: the calls of [memory.c] as such threads,
      every access to the array a step of its own.
    - [Heap], [SessionHeap], [MemoryHeap], [MemoryOwnership]: [session.c] and
      [memory.c] once more, over a heap of blocks that are allocated and freed;
      [hsim] relates a run over the heap to the run on values of [Session] and
      [MemoryStore], and says which blocks it takes and leaves.
      [InstructionHeap] does the same for the strings, arrays and JSON trees of
      [instruction.c]; [ManagerHeap], [ManagerOwnership] and [RequestOwnership]
      for [manager.c] over the in-memory store.
    - [Rfc3339]: the calendar functions of the C library the databases call.
    - [Sql]: the sessions table, the six statements, and [SqlBackend], what the
      two SQL stores have in common, with the instance of [StoreLaws] for it.
    - [SqliteStore], [SqliteProps] ([src/store/sqlite.c]), over any SQLite.
    - [OdbcStore], [OdbcProps] ([src/store/odbc.c]), over any ODBC driver.
    - [RedisStore] ([src/store/redis.c]), over any Redis server; [RedisSpec]: the
      commands, the keys that represent a map of sessions with its index of
      users; [RefRedis]: a small server; [RedisProps]: the theorems.
    - [Header] ([src/protocol/header.c]): the serializers and parsers of the
      structured headers, with both passes of each serializer.
    - [Base64], [Jwt] ([src/protocol/jwt.c]): base64url, the decoding of a proof,
      the conversion of keys and signatures, and the two verifications.
    - [External]: the interfaces of cJSON and OpenSSL, which the sources only
      call; [RefLibs]: small instances of them for the examples.
    - [Instruction] ([src/protocol/instruction.c]): the session instruction, its
      growable arrays and its JSON document.
    - [Manager] ([src/manager/manager.c]): the configuration, the responses and
      the requests, over any [Store].
    - [ManagerSpec]: the abstract manager ([register_spec], [refresh_spec],
      [close_spec], [login_session]) on the map of sessions, and the proof that
      the requests compute it ([run_to]).
    - [ManagerProps]: the cases of that specification and the step relation of a
      running server, which tells the challenges it draws ([server_draws],
      [server_step], [server_run]).
    - [Setup], [Requests], [Lifecycle], [Liveness]: the theorems about the manager,
      with a concrete server on the in-memory store as their witness.
    - [ManagerThreads]: the requests as threads over one store, every call of the
      store a step, and what holds of every interleaving.
    - [Backends]: a conversation with a server over one store repeated over
      another.
    - [Http] ([src/wrapper/http.c]): the event handler of the mongoose server, its
      endpoints, cookies and replies, start, the loop over the polls and stop,
      over any mongoose and any route of the application; [HttpSpec]: the
      abstract server ([http_spec]) and the proof that the handler computes it;
      [HttpProps]: its theorems.
    - [ExampleServer] ([examples/server.c]): the users, the log of events, the
      form parser, the route, the choice of the store and [main]; [ExampleProps],
      [ExampleMain]: its theorems.

    The manager calls the store only through the class, so its theorems hold for
    every backend that meets [StoreLaws]: [MemoryStore] discharges the class, and
    [Sql] does for every [SqlBackend] that takes texts of any length, which
    [SqliteStore] and [OdbcStore] are over a library that behaves as documented
    ([SqliteLaws], [OdbcLaws]; the ODBC store declares its parameters as
    VARCHAR(1024), so [OdbcAnyLength] is asked of its driver on top).  The
    Redis store does not meet it (creating a session replaces the old one but
    leaves its identifier in the index of its user, and a session created late
    makes [get] recurse), and [RedisSpec] states what it does instead.  The
    manager calls [Header], [Jwt] and [Instruction] as functions; their reference
    readings ([token_proof], [challenge_text], [instruction_document]) are the
    vocabulary of [ManagerSpec].

    ** State and calls

    A struct is a record, a pointer that may be NULL an [option], and a function
    that writes through a pointer returns what the pointer points to afterwards
    next to its return code.  The sources never keep two live pointers to one
    struct, so values suffice for what the calls answer: the store hands out deep
    copies.  Who owns the copies, and that every block is freed once, is the
    subject of the heap files.  An array with its count and capacity is the list
    of its initialised elements and the capacity.  A string buffer ([cbuf]) has
    the size it was allocated with, and writing past it, or reading it before the
    first write, is [UB]; so is NULL where C wants a string.  A mutex that is
    taken twice is [Hang].  A parser moves its pointer with [advance] and
    [skip_over], which are [UB] at the NUL.  Times and [size_t] are unbounded
    except where the sources convert: [int_of_size] is the [int] that the memory
    store finds, [to_uchar] the byte the decoder stores, and the milliseconds of
    an identifier wrap at 64 bits.  Unbounded too are the [int n] (and the
    [int length] of the skipped list) in which the serializers of [header.c] and
    [build_set_cookie_with_max_age] of [manager.c] add up what [snprintf]
    measured: a header of 2^31 characters, where they overflow, is outside the
    model.  Outside the heap files [free] only resets what the code
    resets.  The event log of the example is a function of the calls of the
    callback, each with the clock at that moment.

    ** The theorems

    - Session: the copy and the setters in every environment, the state names,
      the identifier buffer.
    - In-memory store: each call, and each whole run, in any environment returns,
      keeps the array well formed and refines the map; expiry is exact; a failed
      update loses the session it was to replace.  Over the heap, a program that
      gives its answers back frees every block once and uses none afterwards;
      only a [get] whose copy fails loses strings.  Threads that call it in any
      interleaving are answered as if their calls had been made one after the
      other, and none is stuck.
    - Databases: each call with a session they can store and texts that fit
      refines the map of sessions when the library behaves as documented; the
      replies of the SQLite store (but for [get_by_user_id], which can be
      undefined) are well formed whatever the library does, and the ODBC store
      releases its mutex with any driver whose results end; where the stores
      depart from [store.h] (identifiers that are taken, the time of creation in
      an update, long table names, years after 9999, missing sessions, failing
      memory).
    - Redis: each call with a session that has a user and has not expired refines
      a map of sessions with an index of users, the index stays exact when
      sessions keep their users, sessions survive their JSON text; a late session
      recurses.
    - Headers: quoting and parsing are inverse, serializers fit the buffers they
      measured, the skipped list round trips, its parser stays inside the value,
      and what it accepts.
    - Tokens: base64url agrees with a grouping reference, round trips, and writes
      only its alphabet; an accepted registration proof is signed under the key
      it carries, an accepted refresh proof under the registered key; the
      verdicts are exact when memory suffices, and can be wrong when it does not.
    - Instruction: the document is the reference document, has its keys, and
      the arrays grow without losing an element.  Over the heap, an instruction
      that is built in any way and freed leaves nothing behind.
    - Manager: the requests implement the abstract manager; a key is bound only
      with a proof, granted in the very run, never changes, and is needed for
      every refresh; refusals change nothing; an accepted proof cannot be
      replayed unless its challenge is drawn again, as it is when the entropy
      source fails ([replay_when_entropy_fails]); closing ends a session; a
      client that answers in time keeps its session; terms, challenges, cookies
      and configuration are exact; a login that runs out of memory can make a
      later registration undefined; and any lawful store can be exchanged for any
      other with room for the logins.  In several threads keys stay proven and ended
      sessions do not come back, but a token can be accepted twice.  Over the
      heap, a program that serves requests and frees the answers uses no freed
      block and loses at most one proof for each request it refused; a token
      that is read and refused is such a proof.
    - HTTP: the event handler implements the abstract manager for every message;
      a refresh answered with 200 carries a token under the bound key; replies
      and request texts are exact in every environment; the server runs until it
      is stopped; an internal error goes out with status 0.
    - Example: a login needs the password of a user, in any environment; what it
      answers, notes and shows; the log keeps its oldest entries and can be
      forged; the program answers every event until a signal stops it.

    ** Bounds and fuel

    Loops over an index or that shrink the array carry fuel, and running out of
    it is [Hang]; the fuel is one more than the number of iterations
    ([expire_loop], [delete_user_loop]: the length of the array; [decode_loop],
    [encode_loop], [form_loop]: the length of the text), and the theorems, which
    all exclude [Hang], show it is enough.  The rows a query delivers are bounded
    by [db_rows] and [odbc_rows], the characters a column still holds by
    [odbc_unread]; the laws of the libraries say so, and the fetching loops are
    shown to end within them.  The calls of the Redis store that recurse are
    given a depth of the stack, [stack_depth]; the theorems hold for every depth
    from the one they name, and [redis_late_session_recurses] shows a call that
    no depth is enough for.  [run_loop] of the HTTP server goes over the polls to
    come, a list of inputs, and waits for ever ([Hang]) at its end.

    The in-memory store is taken to hold fewer than 2^31 sessions, the range of
    the [int] that [memory_store_find] returns; [store_room n] is the room for [n]
    more.  The theorems of [ManagerSpec] and after are for a [quiet] world: no
    allocation fails and the clock stands still during one request (between
    requests it is arbitrary), which is also what [StoreLaws] assumes.  Times
    are between the years 1970 and 9999.

    ** What is not modelled

    - Threads outside the manager and the in-memory store: the calls of the ODBC
      store are taken one after the other, as its mutex makes them, and races on what no mutex
      protects (the event log of the example, a store destroyed while it is in
      use) cannot be seen.
    - The frees of the files other than [session.c], [memory.c], [instruction.c]
      and [manager.c], the handles of the databases after they are closed, and
      what the example prints.  Over the heap the manager calls [header.c] and
      [jwt.c] as functions that read live strings and return owned ones: the
      buffers, cJSON trees and keys that [jwt.c] makes and frees on the way are
      not blocks of the heap, so a leak of one of those cannot be seen.  The
      cJSON tree that [instruction.c] prints is: one block stands for a tree,
      whose nodes are the library's.
    - The inside of mongoose, OpenSSL, cJSON, SQLite, the ODBC driver, hiredis and
      uuidv7: classes of functions, with laws where a theorem needs what their
      documentation says.  A poll of mongoose is a list of inputs.  [localtime]
      in the example is a parameter.
    - The time conversions of [src/store/odbc.c], which repeat those of
      [src/store/sqlite.c] character by character.
    - Build files and tests. *)

From Stdlib Require Export Ascii.
From stdpp Require Export base numbers strings gmap fin_maps list.
From stdpp Require Import options.
#[global] Set Default Proof Using "Type".

(** ** C strings

    A [char *] that points to a NUL-terminated string is the [string] of the
    characters before the NUL; a pointer into the middle of a buffer is the
    suffix it points to, [*p] is [cur p], and the difference of two pointers
    into one buffer is the difference of the lengths of the two suffixes. *)

Abbreviation cstr := (option string).

Definition NUL : ascii := "000"%char.
Definition DQ : ascii := "034"%char.
Definition BSL : ascii := "092"%char.

(** [*p]: the character a pointer reads, NUL at the end of the string. *)
Definition cur (p : string) : ascii :=
  match p with String c _ => c | EmptyString => NUL end.

(** [p + 1]. *)
Definition next (p : string) : string :=
  match p with String _ s => s | EmptyString => EmptyString end.

(** [q - p] for two pointers into the same buffer. *)
Definition pdiff (q p : string) : nat := String.length p - String.length q.

(** [while (f( *p)) ++p;] for a test that is false on NUL. *)
Fixpoint skip_while (f : ascii → bool) (p : string) : string :=
  match p with
  | EmptyString => EmptyString
  | String c s => if f c then skip_while f s else p
  end.

Fixpoint str_take (n : nat) (s : string) : string :=
  match n, s with
  | S n', String c s' => String c (str_take n' s')
  | _, _ => EmptyString
  end.

Fixpoint str_forall (f : ascii → bool) (s : string) : bool :=
  match s with
  | EmptyString => true
  | String c s' => f c && str_forall f s'
  end.

Fixpoint list_of_string (s : string) : list ascii :=
  match s with EmptyString => [] | String c s' => c :: list_of_string s' end.

Fixpoint string_of_list (l : list ascii) : string :=
  match l with [] => EmptyString | c :: l' => String c (string_of_list l') end.

(** A [string] that a C program can hold: no NUL among its characters. *)
Definition c_string (s : string) : bool := str_forall (λ c, negb (Ascii.eqb c NUL)) s.

(** The code of a character, as the C source compares and subtracts them. *)
Definition ord (c : ascii) : Z := Z.of_N (N_of_ascii c).
Definition chr (z : Z) : ascii := ascii_of_N (Z.to_N z).

(** [lo <= c && c <= hi]. *)
Definition char_between (lo hi c : ascii) : bool :=
  ((ord lo <=? ord c) && (ord c <=? ord hi))%Z.

(** A C string literal that begins and ends with a double quote. *)
Definition dquoted (s : string) : string := String DQ (s +:+ String DQ "").

(** [strncmp(a, b, n) == 0]. *)
Definition strncmp_eq (a b : string) (n : nat) : bool :=
  String.eqb (str_take n a) (str_take n b).

(** [strchr(s, c)] for a character that is not NUL. *)
Fixpoint strchr (s : string) (c : ascii) : option string :=
  match s with
  | EmptyString => None
  | String d s' => if Ascii.eqb d c then Some s else strchr s' c
  end.

(** [p != NULL && *p != 0]. *)
Definition cstr_nonempty (p : cstr) : bool :=
  match p with Some (String _ _) => true | _ => false end.

(** ** Automation *)

Create Rewrite HintDb strdb.
Create Rewrite HintDb crun.
Create HintDb crun.

(** Case analysis on every [match] and [if] of the goal, closing the
    impossible branches. *)
Ltac split_matches :=
  repeat (case_match; simplify_eq/=; try done).

(** Linear arithmetic with division and remainder by constants. *)
Ltac lia_div := Z.to_euclidean_division_equations; lia.

Ltac destruct_bool b := let E := fresh "E" in destruct b eqn:E.

(** ** Strings *)

Lemma str_app_cons c s t : String c s +:+ t = String c (s +:+ t).
Proof. done. Qed.

Lemma str_app_nil_l t : "" +:+ t = t.
Proof. done. Qed.

Lemma str_app_nil_r s : s +:+ "" = s.
Proof. induction s as [|c s IH]; [done|]. by rewrite str_app_cons, IH. Qed.

Lemma str_app_assoc s t u : (s +:+ t) +:+ u = s +:+ t +:+ u.
Proof. induction s as [|c s IH]; [done|]. by rewrite !str_app_cons, IH. Qed.

Lemma str_length_app s t : String.length (s +:+ t) = String.length s + String.length t.
Proof. induction s as [|c s IH]; [done|]. rewrite str_app_cons. simpl. by rewrite IH. Qed.

Lemma str_app_inj_l s t u : s +:+ t = s +:+ u → t = u.
Proof. induction s; [done|]. rewrite !str_app_cons. naive_solver. Qed.

Lemma str_take_app s t : str_take (String.length s) (s +:+ t) = s.
Proof. induction s; simpl; [by destruct t|]. by f_equal. Qed.

Lemma str_take_all s : str_take (String.length s) s = s.
Proof. induction s; simpl; by f_equal. Qed.

Lemma pdiff_app s t : pdiff t (s +:+ t) = String.length s.
Proof. unfold pdiff. rewrite str_length_app. lia. Qed.

Lemma str_take_pdiff s t : str_take (pdiff t (s +:+ t)) (s +:+ t) = s.
Proof. by rewrite pdiff_app, str_take_app. Qed.

Lemma str_forall_app f s t : str_forall f (s +:+ t) = str_forall f s && str_forall f t.
Proof.
  induction s as [|c s IH]; [done|]. rewrite str_app_cons. simpl.
  by rewrite IH, andb_assoc.
Qed.

Lemma c_string_app s t : c_string (s +:+ t) = c_string s && c_string t.
Proof. apply str_forall_app. Qed.

Lemma c_string_cons c s : c_string (String c s) = negb (Ascii.eqb c NUL) && c_string s.
Proof. done. Qed.

Lemma string_of_list_of_string s : string_of_list (list_of_string s) = s.
Proof. induction s; simpl; by f_equal. Qed.

Lemma list_of_string_of_list l : list_of_string (string_of_list l) = l.
Proof. induction l; simpl; by f_equal. Qed.

Lemma length_list_of_string s : length (list_of_string s) = String.length s.
Proof. induction s; simpl; by f_equal. Qed.

#[export] Hint Rewrite str_app_cons str_app_nil_l str_app_nil_r str_app_assoc
  str_length_app pdiff_app str_take_app str_take_all str_forall_app
  c_string_app : strdb.

(** Induction for functions that may consume two characters at once. *)
Lemma string_ind2 (P : string → Prop) :
  P "" → (∀ c, P (String c "")) →
  (∀ c d s, P s → P (String d s) → P (String c (String d s))) → ∀ s, P s.
Proof.
  intros H0 H1 H2 s. enough (P s ∧ ∀ c, P (String c s)) by tauto.
  induction s as [|d s [IH1 IH2]]; [auto|]. split; [auto|]. intros c. auto.
Qed.

Lemma str_take_app_le n s t : n ≤ String.length s → str_take n (s +:+ t) = str_take n s.
Proof.
  revert n. induction s as [|c s IH]; intros [|n] Hn; simpl in *; try done; try lia.
  f_equal. apply IH. lia.
Qed.

Lemma str_last s : s ≠ "" → ∃ u c, s = u +:+ String c "".
Proof.
  induction s as [|c s IH]; [done|]. intros _. destruct s as [|d s]; [by exists "", c|].
  destruct IH as (u & e & ->); [done|]. by exists (String c u), e.
Qed.

Lemma str_last_inj a b c d : a +:+ String c "" = b +:+ String d "" → c = d.
Proof.
  revert b. induction a as [|x a IH]; intros [|y b] H;
    rewrite ?str_app_cons in H; simplify_eq/=; [done|by destruct b|by destruct a|eauto].
Qed.

Lemma str_take_length n s : n ≤ String.length s → String.length (str_take n s) = n.
Proof.
  revert s. induction n as [|n IH]; intros [|c s] H; simpl in *; try done; [lia|].
  rewrite IH; lia.
Qed.

Lemma str_take_ge n s : String.length s ≤ n → str_take n s = s.
Proof.
  revert n. induction s as [|c s IH]; intros [|n] H; simpl in *; try done; [lia|].
  rewrite IH by lia. done.
Qed.

Lemma str_take_split n s : n ≤ String.length s → ∃ t, s = str_take n s +:+ t.
Proof.
  revert n. induction s as [|c s IH]; intros [|n] H; simpl in *; try lia;
    [by exists ""|by exists (String c s)|].
  destruct (IH n) as [t Ht]; [lia|]. exists t. by rewrite str_app_cons, <-Ht.
Qed.

(** Lengths of strings. *)
Ltac str_lia := unfold pdiff; repeat progress (rewrite ?str_length_app; cbn [String.length]); lia.

(** ** Skipping characters *)

Lemma skip_while_split f p :
  ∃ s, p = s +:+ skip_while f p ∧ str_forall f s = true.
Proof.
  induction p as [|c p (s & Hp & Hs)]; simpl; [by exists ""|].
  destruct (f c) eqn:E; [|by exists ""].
  exists (String c s). rewrite str_app_cons. simpl. rewrite E. split; [by f_equal|done].
Qed.

Lemma skip_while_app f s t :
  str_forall f s = true → skip_while f (s +:+ t) = skip_while f t.
Proof.
  induction s as [|c s IH]; simpl; [done|]. intros [-> Hs]%andb_true_iff. by apply IH.
Qed.

Lemma skip_while_stop f c s : f c = false → skip_while f (String c s) = String c s.
Proof. simpl. by intros ->. Qed.

Lemma skip_while_head f p :
  skip_while f p = "" ∨ ∃ c s, skip_while f p = String c s ∧ f c = false.
Proof.
  induction p as [|c p IH]; simpl; [by left|].
  destruct (f c) eqn:E; [done|right; eauto].
Qed.

Lemma skip_while_all f s : str_forall f s = true → skip_while f s = "".
Proof. intros H. rewrite <-(str_app_nil_r s). by rewrite skip_while_app. Qed.

Lemma skip_while_length f p : String.length (skip_while f p) ≤ String.length p.
Proof.
  destruct (skip_while_split f p) as (s & Hp & _). rewrite Hp at 2.
  rewrite str_length_app. lia.
Qed.

Lemma strchr_Some s c q :
  strchr s c = Some q ↔
  ∃ u v, s = u +:+ String c v ∧ q = String c v ∧ str_forall (λ d, negb (Ascii.eqb d c)) u = true.
Proof.
  induction s as [|d s IH]; simpl.
  { split; [done|]. by intros ([] & v & ? & _). }
  destruct (Ascii.eqb_spec d c) as [->|Hd].
  - split; [intros [= <-]; by exists "", s|]. intros ([|e u] & v & Hs & -> & Hu).
    { rewrite str_app_nil_l in Hs. by rewrite Hs. }
    rewrite str_app_cons in Hs. simplify_eq. simpl in Hu. by rewrite Ascii.eqb_refl in Hu.
  - rewrite IH. split.
    + intros (u & v & -> & -> & Hu). exists (String d u), v. rewrite str_app_cons. simpl.
      rewrite Hu. split_and!; [done|done|]. by destruct (Ascii.eqb_spec d c).
    + intros ([|e u] & v & Hs & -> & Hu); [rewrite str_app_nil_l in Hs; by simplify_eq|].
      rewrite str_app_cons in Hs. simplify_eq. simpl in Hu.
      apply andb_true_iff in Hu as [_ Hu]. eauto.
Qed.

Lemma strchr_None s c : strchr s c = None ↔ str_forall (λ d, negb (Ascii.eqb d c)) s = true.
Proof.
  induction s as [|d s IH]; simpl; [done|]. destruct (Ascii.eqb d c); simpl; [done|exact IH].
Qed.

(** ** Characters *)

Lemma ord_range c : (0 ≤ ord c < 256)%Z.
Proof. unfold ord. pose proof (N_ascii_bounded c). lia. Qed.

Lemma chr_ord c : chr (ord c) = c.
Proof. unfold chr, ord. by rewrite N2Z.id, ascii_N_embedding. Qed.

Lemma ord_chr z : (0 ≤ z < 256)%Z → ord (chr z) = z.
Proof. intros ?. unfold chr, ord. rewrite N_ascii_embedding by lia. lia. Qed.

Lemma ord_inj c d : ord c = ord d → c = d.
Proof. intros H. by rewrite <-(chr_ord c), <-(chr_ord d), H. Qed.

(** A property of every character, checked on the 256 of them. *)
Definition ascii_forallb (P : ascii → bool) : bool :=
  forallb (λ n, P (ascii_of_nat n)) (seq 0 256).

Lemma ascii_forallb_spec P : ascii_forallb P = true → ∀ c, P c = true.
Proof.
  unfold ascii_forallb. rewrite forallb_forall. intros H c.
  rewrite <-(ascii_nat_embedding c). apply H, in_seq.
  pose proof (nat_ascii_bounded c). lia.
Qed.

(** ** Options and lists *)

Lemma omap_lookup_take_length {A} (l : list A) i x :
  l !! i = Some x → length (take i l) = i.
Proof. intros H%lookup_lt_Some. rewrite length_take. lia. Qed.

(** Induction for loops that take three or four elements at a time. *)
Lemma list_ind3 {A} (P : list A → Prop) :
  P [] → (∀ a, P [a]) → (∀ a b, P [a; b]) → (∀ a b c l, P l → P (a :: b :: c :: l)) → ∀ l, P l.
Proof.
  intros H0 H1 H2 H3. refine (fix IH l := match l with
    | [] => H0 | [a] => H1 a | [a; b] => H2 a b | a :: b :: c :: l' => H3 a b c l' (IH l') end).
Qed.

Lemma list_ind4 {A} (P : list A → Prop) :
  P [] → (∀ a, P [a]) → (∀ a b, P [a; b]) → (∀ a b c, P [a; b; c]) →
  (∀ a b c d l, P l → P (a :: b :: c :: d :: l)) → ∀ l, P l.
Proof.
  intros H0 H1 H2 H3 H4. refine (fix IH l := match l with
    | [] => H0 | [a] => H1 a | [a; b] => H2 a b | [a; b; c] => H3 a b c
    | a :: b :: c :: d :: l' => H4 a b c d l' (IH l') end).
Qed.

(** ** Bits

    [(x << n) | y] when [y] has no bit at or above [n]. *)
Lemma lor_shiftl_add x y n :
  (0 ≤ n → 0 ≤ y < 2 ^ n → Z.lor (Z.shiftl x n) y = x * 2 ^ n + y)%Z.
Proof.
  intros Hn Hy. rewrite Z.shiftl_mul_pow2 by done. symmetry. apply Z.bits_inj'.
  intros i Hi. rewrite Z.lor_spec. destruct (Z.lt_ge_cases i n).
  - rewrite Z.mul_pow2_bits_low by done. simpl.
    rewrite <-(Z.mod_pow2_bits_low _ n i), Z.add_comm, Z_mod_plus_full,
      Z.mod_small by lia. done.
  - rewrite Z.mul_pow2_bits by done.
    assert (Z.testbit y i = false) as ->.
    { destruct (decide (y = 0)%Z) as [->|]; [apply Z.bits_0|].
      apply Z.bits_above_log2; [lia|]. apply Z.log2_lt_pow2; [lia|].
      apply Z.lt_le_trans with (2 ^ n)%Z; [lia|]. apply Z.pow_le_mono_r; lia. }
    rewrite orb_false_r. replace i with ((i - n) + n)%Z at 1 by lia.
    rewrite <-Z.div_pow2_bits by lia. rewrite Z.div_add_l, Z.div_small, Z.add_0_r by lia.
    done.
Qed.

Lemma land_mask x n : (0 ≤ n)%Z → Z.land x (Z.ones n) = (x mod 2 ^ n)%Z.
Proof. apply Z.land_ones. Qed.
