(* ===== verification/CLib.v ===== *)
(** The C run time the library runs on: the outcomes a call can have, the
    environment it reads (allocator, clocks, entropy, lifecycle callback) and
    the string buffers it fills with [sprintf].  [C A] is the type of a C
    function that returns an [A]; [wp m w Q] says that running [m] in the
    environment [w] returns, without undefined behaviour, in a state where
    [Q] holds. *)

From S2P Require Export Prelude.
From stdpp Require Import options.
#[local] Open Scope Z_scope.

(** One call of the [on_event] callback. *)
Record event := Event {
  ev_type : string;
  ev_user : cstr;
  ev_session_id : cstr;
  ev_detail : cstr
}.

(** The environment.  Every list holds what the environment will answer to
    the calls to come: [w_alloc] whether the next allocations succeed (when
    it is exhausted they do), [w_ticks] by how much the wall clock has moved
    at the next readings (when it is exhausted the clock stands still),
    [w_entropy] the replies of [getentropy] and [w_realtime] those of
    [clock_gettime] ([None], or no reply left: the call fails).  Any finite
    run of the program is a choice of these lists.  [w_events] are the calls
    of the callback so far, each with the wall clock at that moment. *)
Record world := World {
  w_alloc : list bool;
  w_now : Z;
  w_ticks : list Z;
  w_entropy : list (option (list Z));
  w_realtime : list (option (Z * Z));
  w_events : list (Z * event)
}.

(** A world in which every allocation succeeds and the clock stands still. *)
Definition fair_world (now : Z) : world := World [] now [] [] [] [].

(** A call returns; or it does something C leaves undefined (a NULL pointer
    passed to [strcmp], a write past a buffer, an uninitialised read); or it
    never returns (a mutex taken twice by one thread). *)
Inductive res (A : Type) : Type :=
| Ret (a : A) (w : world)
| UB
| Hang.
Arguments Ret {_} _ _.
Arguments UB {_}.
Arguments Hang {_}.

Definition C (A : Type) : Type := world → res A.

#[export] Instance C_ret : MRet C := λ A a w, Ret a w.
#[export] Instance C_bind : MBind C := λ A B f m w,
  match m w with Ret a w' => f a w' | UB => UB | Hang => Hang end.

Definition ub {A} : C A := λ _, UB.
Definition hang {A} : C A := λ _, Hang.

(** [p->...] on a pointer that may be NULL. *)
Definition deref {A} (p : option A) : C A :=
  match p with Some a => mret a | None => ub end.

(** An argument of [strcmp], [strlen], [snprintf("%s")], ...: NULL is undefined. *)
Abbreviation need_str := (@deref string).

(** One allocation ([malloc], [strdup], [realloc], a constructor of a
    library): [true] when it succeeds. *)
Definition malloc : C bool := λ w,
  match w_alloc w with
  | [] => Ret true w
  | b :: l => Ret b (World l (w_now w) (w_ticks w) (w_entropy w) (w_realtime w) (w_events w))
  end.

(** A call that allocates its result, or returns NULL. *)
Definition alloc {A} (a : A) : C (option A) :=
  b ← malloc; mret (if b : bool then Some a else None).

Definition strdup (s : string) : C cstr := alloc s.

(** [time(NULL)]. *)
Definition time_NULL : C Z := λ w,
  match w_ticks w with
  | [] => Ret (w_now w) w
  | d :: l =>
      Ret (w_now w + d)
        (World (w_alloc w) (w_now w + d) l (w_entropy w) (w_realtime w) (w_events w))
  end.

(** The program is idle for [d] seconds. *)
Definition later (d : Z) (w : world) : world :=
  World (w_alloc w) (w_now w + d) (w_ticks w) (w_entropy w) (w_realtime w) (w_events w).
Definition wait (d : Z) : C unit := λ w, Ret tt (later d w).

(** [getentropy(buf, n)]: the [n] bytes it wrote, or [None] on failure. *)
Definition getentropy (n : nat) : C (option (list Z)) := λ w,
  match w_entropy w with
  | [] => Ret None w
  | r :: l =>
      Ret ((λ bs, take n (((λ b, b `mod` 256) <$> bs) ++ replicate n 0)) <$> r)
        (World (w_alloc w) (w_now w) (w_ticks w) l (w_realtime w) (w_events w))
  end.

(** [clock_gettime(CLOCK_REALTIME, &tp)]: seconds and nanoseconds. *)
Definition clock_gettime : C (option (Z * Z)) := λ w,
  match w_realtime w with
  | [] => Ret None w
  | r :: l => Ret r (World (w_alloc w) (w_now w) (w_ticks w) (w_entropy w) l (w_events w))
  end.

(** Calling the application's [on_event]. *)
Definition call_on_event (e : event) : C unit := λ w,
  Ret tt (World (w_alloc w) (w_now w) (w_ticks w) (w_entropy w) (w_realtime w)
            (w_events w ++ [(w_now w, e)])).

(** ** String buffers

    A heap buffer of [b_size] bytes that the code fills from the left with
    [sprintf]; [b_text] is the NUL-terminated string in it, or [None] while
    nothing has been written. *)
Record cbuf := CBuf { b_size : nat; b_text : cstr }.

Definition malloc_buf (n : nat) : C (option cbuf) := alloc (CBuf n None).

(** [w += sprintf(w, "%s", s)]: appends [s] and the NUL; writing past the
    end of the buffer is undefined. *)
Definition sprintf (b : cbuf) (s : string) : C cbuf :=
  let t := default "" (b_text b) +:+ s in
  if decide (String.length t + 1 ≤ b_size b)%nat then mret (CBuf (b_size b) (Some t))
  else ub.

(** [memcpy(out + pos, s, len); pos += len;] at the end of what is written,
    and [out[pos] = 0]. *)
Definition buf_memcpy (b : cbuf) (s : string) : C cbuf :=
  let t := default "" (b_text b) +:+ s in
  if decide (String.length t ≤ b_size b)%nat then mret (CBuf (b_size b) (Some t)) else ub.
Definition buf_nul (b : cbuf) : C cbuf :=
  let t := default "" (b_text b) in
  if decide (String.length t + 1 ≤ b_size b)%nat then mret (CBuf (b_size b) (Some t))
  else ub.

(** [snprintf(buf, size, "%s", s)] into an array of [size] bytes: what does
    not fit is cut off. *)
Definition snprintf (size : nat) (s : string) : string := str_take (size - 1) s.

(** Reading the buffer as a C string: undefined before the first write. *)
Definition buf_cstr (b : cbuf) : C string := deref (b_text b).

(** [malloc(len + 1)], [memcpy(out, src, len)], [out[len] = 0]. *)
Definition memcpy_str (src : string) (len : nat) : C cstr :=
  b ← malloc;
  if b : bool then
    (if decide (len ≤ String.length src)%nat then mret (Some (str_take len src)) else ub)
  else mret None.

(** A call through [&local]: the updated struct. *)
Definition on_local {A} (f : option A → C (Z * option A)) (a : A) : C (Z * A) :=
  '(rc, p) ← f (Some a); a ← deref p; mret (rc, a).

(** ** Reasoning about runs *)

Definition wp {A} (m : C A) (w : world) (Q : A → world → Prop) : Prop :=
  match m w with Ret a w' => Q a w' | UB => False | Hang => False end.

(** No allocation fails. *)
Definition no_oom (w : world) : Prop := w_alloc w = [].

(** No allocation fails and the clock stands still. *)
Definition quiet (w : world) : Prop := w_alloc w = [] ∧ w_ticks w = [].

(** [w'] is [w] after calls that only allocated and read the clock: nothing
    else of the environment is consumed, and in a quiet environment it is
    the same environment. *)
Record env_step (w w' : world) : Prop := {
  step_entropy : w_entropy w' = w_entropy w;
  step_realtime : w_realtime w' = w_realtime w;
  step_events : w_events w' = w_events w;
  step_no_oom : no_oom w → no_oom w';
  step_quiet : quiet w → w' = w
}.

Lemma bind_unfold {A B} (m : C A) (f : A → C B) w :
  (m ≫= f) w = match m w with Ret a w' => f a w' | UB => UB | Hang => Hang end.
Proof. done. Qed.

Lemma ret_unfold {A} (a : A) w : (mret a : C A) w = Ret a w.
Proof. done. Qed.

Lemma bind_run {A B} (m : C A) (f : A → C B) w a w' :
  m w = Ret a w' → (m ≫= f) w = f a w'.
Proof. rewrite bind_unfold. by intros ->. Qed.

Lemma wp_ret {A} (a : A) w (Q : A → world → Prop) : Q a w → wp (mret a) w Q.
Proof. done. Qed.

Lemma wp_bind {A B} (m : C A) (f : A → C B) w Q :
  wp m w (λ a w', wp (f a) w' Q) → wp (m ≫= f) w Q.
Proof. unfold wp. rewrite bind_unfold. by destruct (m w). Qed.

Lemma wp_bind_inv {A B} (m : C A) (f : A → C B) w Q :
  wp (m ≫= f) w Q → wp m w (λ a w', wp (f a) w' Q).
Proof. unfold wp. rewrite bind_unfold. by destruct (m w). Qed.

Lemma wp_mono {A} (m : C A) w (P Q : A → world → Prop) :
  wp m w P → (∀ a w', P a w' → Q a w') → wp m w Q.
Proof. unfold wp. destruct (m w); naive_solver. Qed.

Lemma wp_run {A} (m : C A) w a w' (Q : A → world → Prop) :
  m w = Ret a w' → Q a w' → wp m w Q.
Proof. unfold wp. by intros ->. Qed.

Lemma wp_and {A} (m : C A) w (P Q : A → world → Prop) :
  wp m w P → (∀ a w', m w = Ret a w' → Q a w') → wp m w (λ a w', P a w' ∧ Q a w').
Proof. unfold wp. destruct (m w); naive_solver. Qed.

Lemma wp_elim {A} (m : C A) w Q :
  wp m w Q → ∃ a w', m w = Ret a w' ∧ Q a w'.
Proof. unfold wp. destruct (m w); naive_solver. Qed.

(** A concrete run, evaluated by a test of its result. *)
Lemma run_shows {A} (m : C A) w (P : A → bool) :
  match m w with Ret a _ => P a | _ => false end = true →
  ∃ a w', m w = Ret a w' ∧ P a = true.
Proof. destruct (m w) as [a w'| |]; [by exists a, w'|done..]. Qed.

Lemma quiet_no_oom w : quiet w → no_oom w.
Proof. by intros []. Qed.

#[export] Instance env_step_preorder : PreOrder env_step.
Proof.
  split; [by split|]. intros w1 w2 w3 [???? H1] [???? H2]. split; try (by etrans; eauto).
  - auto.
  - intros Hq. pose proof (H1 Hq). subst w2. auto.
Qed.

Lemma step_oom w w' : env_step w w' → ¬ no_oom w' → ¬ no_oom w.
Proof. intros [] ? ?. auto. Qed.

(** *** The primitive calls when nothing fails *)

Lemma malloc_run w : no_oom w → malloc w = Ret true w.
Proof. unfold no_oom, malloc. by intros ->. Qed.

Lemma alloc_run {A} (a : A) w : no_oom w → alloc a w = Ret (Some a) w.
Proof. intros H. unfold alloc. by rewrite (bind_run _ _ _ _ _ (malloc_run _ H)). Qed.

Lemma strdup_run s w : no_oom w → strdup s w = Ret (Some s) w.
Proof. apply alloc_run. Qed.

Lemma malloc_buf_run n w : no_oom w → malloc_buf n w = Ret (Some (CBuf n None)) w.
Proof. apply alloc_run. Qed.

Lemma time_run w : quiet w → time_NULL w = Ret (w_now w) w.
Proof. intros [_ H]. unfold time_NULL. by rewrite H. Qed.

Lemma memcpy_str_run s n w :
  no_oom w → (n ≤ String.length s)%nat → memcpy_str s n w = Ret (Some (str_take n s)) w.
Proof.
  intros H Hn. unfold memcpy_str. rewrite (bind_run _ _ _ _ _ (malloc_run _ H)).
  by rewrite decide_True by done.
Qed.

#[export] Hint Resolve quiet_no_oom : crun.
#[export] Hint Rewrite @bind_unfold @ret_unfold : crun.
#[export] Hint Rewrite malloc_run strdup_run malloc_buf_run time_run
  using (eauto with crun) : crun.
#[export] Hint Rewrite @alloc_run using (eauto with crun) : crun.

(** *** The primitive calls in any environment *)

Lemma wp_malloc w Q :
  (∀ b w', env_step w w' → (b = false → ¬ no_oom w) → Q b w') → wp malloc w Q.
Proof.
  intros H. unfold wp, malloc. destruct (w_alloc w) as [|b l] eqn:E.
  - by apply H.
  - assert (¬ no_oom w) by (unfold no_oom; congruence).
    apply H; [|done]. split; try done. by intros [??].
Qed.

Lemma wp_alloc {A} (a : A) w Q :
  (∀ w', env_step w w' → Q (Some a) w') →
  (∀ w', env_step w w' → ¬ no_oom w → Q None w') →
  wp (alloc a) w Q.
Proof.
  intros H1 H2. apply wp_bind, wp_malloc. intros [] w' ??; apply wp_ret; auto.
Qed.

Lemma wp_time w Q : (∀ w', env_step w w' → Q (w_now w') w') → wp time_NULL w Q.
Proof.
  intros H. unfold wp, time_NULL. destruct (w_ticks w) as [|d l] eqn:E; [by apply H|].
  apply (H (World _ (w_now w + d) _ _ _ _)). split; try done.
  intros [_ ?]; congruence.
Qed.

Lemma wp_deref {A} (a : A) w (Q : A → world → Prop) : Q a w → wp (deref (Some a)) w Q.
Proof. done. Qed.

Lemma wp_sprintf b s w Q :
  (String.length (default "" (b_text b)) + String.length s + 1 ≤ b_size b)%nat →
  Q (CBuf (b_size b) (Some (default "" (b_text b) +:+ s))) w →
  wp (sprintf b s) w Q.
Proof.
  intros H HQ. unfold sprintf. rewrite decide_True; [done|].
  rewrite str_length_app. lia.
Qed.

Lemma wp_memcpy_str src n w (Q : cstr → world → Prop) :
  (n ≤ String.length src)%nat →
  (∀ w', env_step w w' → Q (Some (str_take n src)) w') →
  (∀ w', env_step w w' → ¬ no_oom w → Q None w') →
  wp (memcpy_str src n) w Q.
Proof.
  intros Hn H1 H2. apply wp_bind, wp_malloc. intros [] w' ??; [|apply wp_ret; auto].
  rewrite decide_True by done. apply wp_ret. auto.
Qed.

(** [m] returns what [r] says, or NULL after a failed allocation. *)
Definition wp_computes {A} (m : C (option A)) (r : option A) : Prop :=
  ∀ w Q, (∀ a w', env_step w w' → r = Some a → Q (Some a) w') →
         (∀ w', env_step w w' → r = None ∨ ¬ no_oom w → Q None w') → wp m w Q.

(** A call that returns NULL on failure, and what follows it. *)
Definition or_fail {A B} (m : C (option A)) (f : A → C (option B)) : C (option B) :=
  r ← m; match r with None => mret None | Some a => f a end.

Create HintDb computes.

Lemma computes_alloc {A} (a : A) : wp_computes (alloc a) (Some a).
Proof. intros w Q HS HN. apply wp_alloc; auto. Qed.

Lemma computes_ret {A} (a : A) : wp_computes (mret (Some a)) (Some a).
Proof. intros w Q HS _. by apply wp_ret, HS. Qed.

Lemma computes_or_fail {A B} (m : C (option A)) (f : A → C (option B)) a r :
  wp_computes m (Some a) → wp_computes (f a) r → wp_computes (or_fail m f) r.
Proof.
  intros Hm Hf w Q HS HN. apply wp_bind, Hm.
  - intros ? w' Hw [= <-]. apply Hf; intros; [apply HS|apply HN]; try by etrans.
    destruct H0; [by left|right; eauto using step_oom].
  - intros w' Hw [?|?]; [done|]. apply wp_ret, HN; auto.
Qed.

(** A step that is made only when [b]. *)
Lemma computes_when {A} (b : bool) (m : C (option A)) x o :
  wp_computes m (Some x) →
  wp_computes (if b then m else mret (Some o)) (Some (if b then x else o)).
Proof. destruct b; [done|]. intros _. apply computes_ret. Qed.

Lemma computes_wp {A} (m : C (option A)) r w Q :
  wp_computes m (Some r) → (∀ w', env_step w w' → Q (Some r) w') →
  (∀ w', env_step w w' → ¬ no_oom w → Q None w') → wp m w Q.
Proof.
  intros Hm HS HN. apply Hm; [by intros ? w' ? [= <-]; apply HS|].
  intros w' ? [?|?]; [done|auto].
Qed.

#[export] Hint Resolve computes_alloc computes_ret computes_or_fail computes_when : computes.

(** Steps through a run: [crun] evaluates the calls that a lemma of the
    [crun] database evaluates, [wp_step] applies the structural rules. *)
Ltac crun := repeat (progress (autorewrite with crun; cbn beta iota match)).

Ltac wp_step :=
  lazymatch goal with
  | |- wp (mret _) _ _ => apply wp_ret
  | |- wp (mbind _ _) _ _ => apply wp_bind
  | |- wp (deref (Some _)) _ _ => apply wp_deref
  | |- wp (strdup _) _ _ => unfold strdup; apply wp_alloc; intros
  | |- wp (alloc _) _ _ => apply wp_alloc; intros
  | |- wp (malloc_buf _) _ _ => unfold malloc_buf; apply wp_alloc; intros
  | |- wp malloc _ _ => apply wp_malloc; intros
  | |- wp time_NULL _ _ => apply wp_time; intros
  end.

(** The next call of a run returns as [tac] proves. *)
Ltac run_by tac := erewrite bind_run by tac; cbv beta match.

(** The tests of return codes are decided. *)
Ltac eval_tests :=
  repeat match goal with
  | |- context [Z.eqb ?a ?b] =>
      let v := eval vm_compute in (Z.eqb a b) in
      match v with
      | true => change (Z.eqb a b) with true
      | false => change (Z.eqb a b) with false
      end
  end; cbv beta iota delta [negb].

(** As [run_by], deciding the tests of the return code that follow. *)
Ltac step_by tac := run_by tac; eval_tests.
