(* ===== verification/Rfc3339.v ===== *)
(** The calendar functions of the C library that the database backends call:
    [gmtime_r], [timegm], and [strftime] and [strptime] for the one format
    they use, with the round trips between them.  Years are counted by the
    proleptic Gregorian calendar, a day has 86400 seconds. *)

From S2P Require Export Prelude.
From stdpp Require Import pretty options.
#[local] Open Scope Z_scope.

(** ** The library functions *)

(** [struct tm]: [tm_mon] counts from 0, [tm_year] from 1900. *)
Record tm := Tm {
  tm_sec : Z;
  tm_min : Z;
  tm_hour : Z;
  tm_mday : Z;
  tm_mon : Z;
  tm_year : Z
}.

Definition is_leap (y : Z) : bool :=
  (y `mod` 4 =? 0) && (negb (y `mod` 100 =? 0) || (y `mod` 400 =? 0)).

Definition year_days (y : Z) : Z := if is_leap y then 366 else 365.

Definition month_lengths (leap : bool) : list Z :=
  [31; if leap then 29 else 28; 31; 30; 31; 30; 31; 31; 30; 31; 30; 31].

(** The year that contains day [d] of the years from [y] on, and the day of
    that year. *)
Fixpoint find_year (fuel : nat) (y d : Z) : Z * Z :=
  match fuel with
  | O => (y, d)
  | S fuel' => if d <? year_days y then (y, d) else find_year fuel' (y + 1) (d - year_days y)
  end.

Fixpoint find_month (lengths : list Z) (m d : Z) : Z * Z :=
  match lengths with
  | [] => (m, d)
  | l :: lengths' => if d <? l then (m, d) else find_month lengths' (m + 1) (d - l)
  end.

(** 719528 days lead from the first day of year 0 to the epoch, and the
    calendar repeats after 146097 days.  A year that [int] cannot hold is
    refused with NULL. *)
Definition gmtime_r (t : Z) : option tm :=
  let days := t `div` 86400 + 719528 in
  let rem := t `mod` 86400 in
  let '(y, d) := find_year 400 (400 * (days `div` 146097)) (days `mod` 146097) in
  let '(mon, d) := find_month (month_lengths (is_leap y)) 0 d in
  if (- 2 ^ 31 <=? y - 1900) && (y - 1900 <? 2 ^ 31) then
    Some (Tm (rem `mod` 60) ((rem `div` 60) `mod` 60) (rem `div` 3600) (d + 1) mon (y - 1900))
  else None.

(** The days of the years before [y], counted from year 0. *)
Definition days_before_year (y : Z) : Z :=
  365 * y + (y + 3) `div` 4 - (y + 99) `div` 100 + (y + 399) `div` 400.

Definition days_before_month (leap : bool) (mon : Z) : Z :=
  foldr Z.add 0 (take (Z.to_nat mon) (month_lengths leap)).

Definition timegm (t : tm) : Z :=
  let y := tm_year t + 1900 + tm_mon t `div` 12 in
  let days := days_before_year y + days_before_month (is_leap y) (tm_mon t `mod` 12)
              + (tm_mday t - 1) - 719528 in
  days * 86400 + tm_hour t * 3600 + tm_min t * 60 + tm_sec t.

Definition digit (n : Z) : ascii := chr (48 + n).

(** [n] in [k] decimal digits. *)
Fixpoint pad (k : nat) (n : Z) : string :=
  match k with
  | O => ""
  | S k' => String (digit (n `div` 10 ^ Z.of_nat k')) (pad k' (n `mod` 10 ^ Z.of_nat k'))
  end.

(** [strftime(buf, size, "%Y-%m-%dT%H:%M:%SZ", &tm)]: the text, or [None]
    when it does not fit. *)
Definition tm_text (t : tm) : string :=
  pretty (tm_year t + 1900) +:+ "-" +:+ pad 2 (tm_mon t + 1) +:+ "-" +:+ pad 2 (tm_mday t) +:+
  "T" +:+ pad 2 (tm_hour t) +:+ ":" +:+ pad 2 (tm_min t) +:+ ":" +:+ pad 2 (tm_sec t) +:+ "Z".
Definition strftime (size : nat) (t : tm) : option string :=
  if decide (String.length (tm_text t) + 1 ≤ size)%nat then Some (tm_text t) else None.

Definition is_digit (c : ascii) : bool := char_between "0" "9" c.

(** A conversion of [strptime] that reads a number: blanks, then at most [n]
    digits, as long as the number they make can stay under [to]; it must end
    up between [from] and [to]. *)
Fixpoint get_digits (n : nat) (val to : Z) (s : string) : Z * string :=
  match n, s with
  | S n', String c s' =>
      if is_digit c && (val * 10 <=? to) then get_digits n' (val * 10 + (ord c - 48)) to s'
      else (val, s)
  | _, _ => (val, s)
  end.
Definition get_number (from to : Z) (n : nat) (s : string) : option (Z * string) :=
  match skip_while (Ascii.eqb " ") s with
  | EmptyString => None
  | String c s' =>
      if is_digit c then
        let '(val, rest) := get_digits (n - 1) (ord c - 48) to s' in
        if (from <=? val) && (val <=? to) then Some (val, rest) else None
      else None
  end.
Definition match_char (c : ascii) (s : string) : option string :=
  match s with
  | String d s' => if Ascii.eqb c d then Some s' else None
  | EmptyString => None
  end.

(** [strptime(s, "%Y-%m-%dT%H:%M:%S", &tm)]: the fields and what follows. *)
Definition strptime (s : string) : option (tm * string) :=
  '(year, s) ← get_number 0 9999 4 s;
  s ← match_char "-" s;
  '(mon, s) ← get_number 1 12 2 s;
  s ← match_char "-" s;
  '(mday, s) ← get_number 1 31 2 s;
  s ← match_char "T" s;
  '(hour, s) ← get_number 0 23 2 s;
  s ← match_char ":" s;
  '(min, s) ← get_number 0 59 2 s;
  s ← match_char ":" s;
  '(sec, s) ← get_number 0 61 2 s;
  Some (Tm sec min hour mday (mon - 1) (year - 1900), s).

(** ** The calendar *)

Lemma div_step y k : 0 < k → (y + k) `div` k - (y + k - 1) `div` k = if y `mod` k =? 0 then 1 else 0.
Proof.
  intros Hk. pose proof (Z.div_mod y k ltac:(lia)) as Hy.
  pose proof (Z.mod_pos_bound y k Hk) as Hr.
  rewrite <-(Z.mul_1_l k) at 1. rewrite Z.div_add by lia.
  destruct (Z.eqb_spec (y `mod` k) 0) as [H0|H0].
  - assert ((y + k - 1) `div` k = y `div` k) as ->; [|lia].
    symmetry. apply (Z.div_unique _ _ _ (k - 1)); lia.
  - assert ((y + k - 1) `div` k = y `div` k + 1) as ->; [|lia].
    symmetry. apply (Z.div_unique _ _ _ (y `mod` k - 1)); lia.
Qed.

Lemma days_before_year_next y : days_before_year (y + 1) = days_before_year y + year_days y.
Proof.
  unfold days_before_year, year_days, is_leap.
  pose proof (div_step y 4 ltac:(lia)) as H4. pose proof (div_step y 100 ltac:(lia)) as H100.
  pose proof (div_step y 400 ltac:(lia)) as H400.
  replace (y + 1 + 3) with (y + 4) by lia. replace (y + 1 + 99) with (y + 100) by lia.
  replace (y + 1 + 399) with (y + 400) by lia.
  replace (y + 3) with (y + 4 - 1) by lia. replace (y + 99) with (y + 100 - 1) by lia.
  replace (y + 399) with (y + 400 - 1) by lia.
  assert (y `mod` 400 = 0 → y `mod` 100 = 0).
  { intros H%Z.mod_divide; [|done]. apply Z.mod_divide; [done|].
    etrans; [|done]. by exists 4. }
  assert (y `mod` 100 = 0 → y `mod` 4 = 0).
  { intros H'%Z.mod_divide; [|done]. apply Z.mod_divide; [done|].
    etrans; [|done]. by exists 25. }
  destruct (Z.eqb_spec (y `mod` 4) 0), (Z.eqb_spec (y `mod` 100) 0),
    (Z.eqb_spec (y `mod` 400) 0); simpl; lia.
Qed.

Lemma year_days_bounds y : 365 ≤ year_days y ≤ 366.
Proof. unfold year_days. destruct (is_leap y); lia. Qed.

Lemma days_before_year_add y n :
  days_before_year y + 365 * Z.of_nat n ≤ days_before_year (y + Z.of_nat n).
Proof.
  induction n as [|n IH]; [change (Z.of_nat 0) with 0; rewrite (Z.add_0_r y); lia|].
  replace (y + Z.of_nat (S n)) with (y + Z.of_nat n + 1) by lia.
  rewrite days_before_year_next. pose proof (year_days_bounds (y + Z.of_nat n)). lia.
Qed.

Lemma days_before_year_mono y y' : y ≤ y' → days_before_year y ≤ days_before_year y'.
Proof.
  intros H. pose proof (days_before_year_add y (Z.to_nat (y' - y))) as Ha.
  rewrite Z2Nat.id in Ha by lia. replace (y + (y' - y)) with y' in Ha by lia. lia.
Qed.

Lemma days_before_era k : days_before_year (400 * k) = 146097 * k.
Proof.
  unfold days_before_year.
  replace (400 * k + 3) with (3 + 100 * k * 4) by lia.
  replace (400 * k + 99) with (99 + 4 * k * 100) by lia.
  replace (400 * k + 399) with (399 + k * 400) by lia.
  rewrite !Z.div_add by lia. change (3 / 4) with 0. change (99 / 100) with 0.
  change (399 / 400) with 0. lia.
Qed.

(** 400 years are enough to find any day of an era. *)
Lemma find_year_spec fuel y d y' d' :
  0 ≤ d < days_before_year (y + Z.of_nat fuel) - days_before_year y →
  find_year fuel y d = (y', d') →
  days_before_year y' + d' = days_before_year y + d ∧ 0 ≤ d' < year_days y' ∧ y ≤ y'.
Proof.
  revert y d. induction fuel as [|fuel IH]; intros y d Hd H; simpl in H.
  { rewrite Z.add_0_r in Hd. lia. }
  destruct (Z.ltb_spec d (year_days y)); simplify_eq; [lia|].
  apply IH in H; rewrite days_before_year_next in *; [lia|].
  replace (y + 1 + Z.of_nat fuel) with (y + Z.of_nat (S fuel)) by lia. lia.
Qed.

Lemma find_month_spec lengths m d m' d' :
  0 ≤ d < foldr Z.add 0 lengths → find_month lengths m d = (m', d') →
  foldr Z.add 0 (take (Z.to_nat (m' - m)) lengths) + d' = d ∧ m ≤ m' < m + Z.of_nat (length lengths) ∧
  ∃ l, lengths !! Z.to_nat (m' - m) = Some l ∧ 0 ≤ d' < l.
Proof.
  revert m d. induction lengths as [|l lengths IH]; intros m d Hd H; simpl in *; [lia|].
  destruct (Z.ltb_spec d l); simplify_eq.
  - rewrite Z.sub_diag. simpl. split_and!; [lia..|]. eauto with lia.
  - apply IH in H as (H1 & H2 & l' & Hl & ?); [|lia].
    replace (Z.to_nat (m' - m)) with (S (Z.to_nat (m' - (m + 1)))) by lia. simpl.
    split_and!; [lia..|]. eauto.
Qed.

Lemma month_lengths_sum y : foldr Z.add 0 (month_lengths (is_leap y)) = year_days y.
Proof. unfold year_days. by destruct (is_leap y). Qed.

Lemma month_lengths_max leap i l : month_lengths leap !! i = Some l → l ≤ 31.
Proof.
  intros H%list_elem_of_lookup_2. unfold month_lengths in H.
  repeat (apply elem_of_cons in H as [->|H]; [by destruct leap|]). by apply elem_of_nil in H.
Qed.

(** The fields of a broken-down time are in their ranges. *)
Record tm_ok (t : tm) : Prop := {
  tm_sec_ok : 0 ≤ tm_sec t < 60;
  tm_min_ok : 0 ≤ tm_min t < 60;
  tm_hour_ok : 0 ≤ tm_hour t < 24;
  tm_mday_ok : 1 ≤ tm_mday t ≤ 31;
  tm_mon_ok : 0 ≤ tm_mon t < 12
}.

(** [gmtime_r] inverts [timegm], and dates the day in the year it is in. *)
Lemma gmtime_r_spec t bt :
  gmtime_r t = Some bt → tm_ok bt ∧ timegm bt = t ∧
  days_before_year (tm_year bt + 1900) ≤ t `div` 86400 + 719528
    < days_before_year (tm_year bt + 1901).
Proof.
  unfold gmtime_r. intros H. remember (t `div` 86400 + 719528) as days eqn:Edays.
  destruct (find_year _ _ _) as [y d] eqn:Hy.
  pose proof (Z.div_mod days 146097 ltac:(lia)) as Hdm.
  pose proof (Z.mod_pos_bound days 146097 ltac:(lia)) as Hmb.
  apply find_year_spec in Hy as (Hdays & Hd & _).
  2: { change (Z.of_nat 400) with 400.
       replace (400 * (days `div` 146097) + 400) with (400 * (days `div` 146097 + 1)) by lia.
       rewrite !days_before_era. lia. }
  rewrite days_before_era in Hdays.
  destruct (find_month _ _ _) as [mon e] eqn:Hm.
  apply find_month_spec in Hm as (He & Hmon & l & Hl & Hel); [|by rewrite month_lengths_sum].
  rewrite Z.sub_0_r in *. apply month_lengths_max in Hl. simpl length in Hmon.
  destruct (_ && _); simplify_eq/=.
  pose proof (Z.mod_pos_bound t 86400 ltac:(lia)) as Ht.
  pose proof (Z.div_mod t 86400 ltac:(lia)) as Htd.
  remember (t `mod` 86400) as rem eqn:Erem. clear Erem.
  replace (y - 1900 + 1900) with y by lia. split_and!; [|unfold timegm; simpl|lia|].
  - split; simpl; try lia_div.
  - rewrite (Z.div_small mon), (Z.mod_small mon), Z.add_0_r by lia.
    replace (y - 1900 + 1900) with y by lia. unfold days_before_month.
    assert (rem = rem `div` 3600 * 3600 + (rem `div` 60) `mod` 60 * 60 + rem `mod` 60) by lia_div.
    lia.
  - replace (y - 1900 + 1901) with (y + 1) by lia.
    rewrite days_before_year_next. lia.
Qed.

(** Every time up to the end of the year 2147485547 can be broken down. *)
Lemma gmtime_r_total t :
  0 ≤ t < 67768036191676800 → is_Some (gmtime_r t).
Proof.
  intros Ht. unfold gmtime_r. destruct (find_year _ _ _) as [y d] eqn:Hy.
  destruct (find_month _ _ _) as [mon e]. remember (t `div` 86400 + 719528) as days eqn:Edays.
  assert (719528 ≤ days < 784352270737 + 719528) as Hdays by lia_div.
  pose proof (Z.div_mod days 146097 ltac:(lia)) as Hdm.
  pose proof (Z.mod_pos_bound days 146097 ltac:(lia)) as Hmb.
  apply find_year_spec in Hy as (Hd & Hd' & Hge).
  2: { change (Z.of_nat 400) with 400.
       replace (400 * (days `div` 146097) + 400) with (400 * (days `div` 146097 + 1)) by lia.
       rewrite !days_before_era. lia. }
  rewrite days_before_era in Hd.
  assert (0 ≤ days `div` 146097) by (apply Z.div_pos; lia).
  assert (y < 2147485548).
  { apply Z.nle_gt. intros Hle%days_before_year_mono.
    assert (days_before_year 2147485548 = 784352270737 + 719528) as Hv by (by vm_compute).
    rewrite Hv in Hle. lia. }
  rewrite (proj2 (Z.leb_le _ _)), (proj2 (Z.ltb_lt _ _)) by lia. by eexists.
Qed.

(** ** Numbers as text *)

Lemma is_digit_digit n : 0 ≤ n < 10 → is_digit (digit n) = true ∧ ord (digit n) = 48 + n.
Proof.
  intros H. unfold digit, is_digit, char_between. rewrite ord_chr by lia.
  change (ord "0") with 48. change (ord "9") with 57. lia.
Qed.

Lemma pow10_S k : 10 ^ Z.of_nat (S k) = 10 * 10 ^ Z.of_nat k.
Proof. rewrite Nat2Z.inj_succ, Z.pow_succ_r; lia. Qed.

Lemma pow10_pos k : 0 < 10 ^ Z.of_nat k.
Proof. apply Z.pow_pos_nonneg; lia. Qed.

Lemma pad_head k n : 0 ≤ n < 10 ^ Z.of_nat (S k) → 0 ≤ n `div` 10 ^ Z.of_nat k < 10.
Proof.
  intros H. rewrite pow10_S in H. pose proof (pow10_pos k).
  split; [apply Z.div_pos; lia|]. apply Z.div_lt_upper_bound; lia.
Qed.

Lemma pad_length k n : String.length (pad k n) = k.
Proof. revert n. induction k as [|k IH]; intros n; simpl; [done|]. by rewrite IH. Qed.

Lemma get_digits_pad k n v to s :
  0 ≤ v → 0 ≤ n < 10 ^ Z.of_nat k → v * 10 ^ Z.of_nat k + n ≤ to →
  get_digits k v to (pad k n +:+ s) = (v * 10 ^ Z.of_nat k + n, s).
Proof.
  revert n v. induction k as [|k IH]; intros n v Hv Hn Hto.
  { cbn [get_digits pad]. rewrite str_app_nil_l. f_equal. simpl in *. lia. }
  pose proof (pad_head _ _ Hn) as Hd. destruct (is_digit_digit _ Hd) as [Hdig Hord].
  pose proof (pow10_pos k) as Hp. rewrite pow10_S in *.
  pose proof (Z.div_mod n (10 ^ Z.of_nat k) ltac:(lia)) as Hdm.
  pose proof (Z.mod_pos_bound n (10 ^ Z.of_nat k) Hp).
  cbn [pad]. rewrite str_app_cons. cbn [get_digits]. rewrite Hdig, Hord.
  assert (v * 10 ≤ to) as Hle%Z.leb_le by nia. rewrite Hle. cbn [andb].
  rewrite IH by nia. f_equal. nia.
Qed.

Lemma skip_blank_digit c s : is_digit c = true → skip_while (Ascii.eqb " ") (String c s) = String c s.
Proof. intros H. apply skip_while_stop. destruct (Ascii.eqb_spec " " c); [by subst|done]. Qed.

(** A number in the right number of digits is read back. *)
Lemma get_number_pad from to k n s :
  0 ≤ n < 10 ^ Z.of_nat (S k) → from ≤ n ≤ to →
  get_number from to (S k) (pad (S k) n +:+ s) = Some (n, s).
Proof.
  intros Hn Hto. pose proof (pad_head _ _ Hn) as Hd.
  destruct (is_digit_digit _ Hd) as [Hdig Hord]. pose proof (pow10_pos k) as Hp.
  rewrite pow10_S in Hn.
  pose proof (Z.div_mod n (10 ^ Z.of_nat k) ltac:(lia)) as Hdm.
  pose proof (Z.mod_pos_bound n (10 ^ Z.of_nat k) Hp).
  cbn [pad]. rewrite str_app_cons. unfold get_number. rewrite skip_blank_digit, Hdig, Hord by done.
  replace (S k - 1)%nat with k by lia. rewrite get_digits_pad by nia.
  replace (_ * _ + _) with n by nia.
  by rewrite (proj2 (Z.leb_le from n)), (proj2 (Z.leb_le n to)) by lia.
Qed.

Lemma pretty_N_char_digit n : (n < 10)%N → pretty_N_char n = digit (Z.of_N n).
Proof.
  intros H. assert (n = 0 ∨ n = 1 ∨ n = 2 ∨ n = 3 ∨ n = 4 ∨ n = 5 ∨ n = 6 ∨ n = 7 ∨ n = 8 ∨ n = 9)%N
    as Hn by lia.
  by repeat (destruct Hn as [->|Hn]; [done|]); subst.
Qed.

Lemma pretty_N_go_digits n s :
  str_forall is_digit s = true → str_forall is_digit (pretty_N_go n s) = true.
Proof.
  revert s. induction (N.lt_wf_0 n) as [n _ IH]. intros s Hs.
  destruct (decide (n = 0)%N) as [->|]; [done|].
  rewrite pretty_N_go_step by lia. apply IH; [apply N.div_lt; lia|].
  pose proof (N.mod_lt n 10 ltac:(lia)). cbn [str_forall].
  rewrite Hs, pretty_N_char_digit by done.
  destruct (is_digit_digit (Z.of_N (n `mod` 10))) as [-> _]; [|done]. split; [apply N2Z.is_nonneg|].
  by apply (N2Z.inj_lt _ 10).
Qed.

Lemma pretty_N_go_length k n s :
  (10 ^ N.of_nat k ≤ n)%N → (S k + String.length s ≤ String.length (pretty_N_go n s))%nat.
Proof.
  revert n s. induction k as [|k IH]; intros n s Hn.
  - rewrite pretty_N_go_step by (simpl in Hn; lia). simpl in Hn.
    assert (∀ m t, (String.length t ≤ String.length (pretty_N_go m t))%nat) as Hge.
    { clear. intros m. induction (N.lt_wf_0 m) as [m _ IH]. intros t.
      destruct (decide (m = 0)%N) as [->|]; [done|]. rewrite pretty_N_go_step by lia.
      etrans; [|apply IH, N.div_lt; lia]. simpl. lia. }
    etrans; [|apply Hge]. simpl. lia.
  - rewrite Nat2N.inj_succ, N.pow_succ_r' in Hn.
    rewrite pretty_N_go_step by (assert (0 < 10 ^ N.of_nat k)%N by (apply N.neq_0_lt_0, N.pow_nonzero; lia); lia).
    etrans; [|apply IH, N.div_le_lower_bound; lia]. simpl. lia.
Qed.

Lemma pretty_Z_pos n : 0 < n → pretty n = pretty_N_go (Z.to_N n) "".
Proof. intros H. destruct n; try done. Qed.

Lemma pretty_pad4 n : 1000 ≤ n < 10000 → pretty n = pad 4 n.
Proof.
  intros Hn. rewrite pretty_Z_pos by lia. set (m := Z.to_N n).
  assert (Z.of_N m = n) as Hm by (subst m; lia).
  do 4 (rewrite pretty_N_go_step by (zify; lia_div)).
  assert (m / 10 / 10 / 10 / 10 = 0)%N as -> by (zify; lia_div). rewrite pretty_N_go_0.
  rewrite !pretty_N_char_digit by (apply N.mod_lt; lia). unfold pad.
  change (Z.of_nat 3) with 3. change (Z.of_nat 2) with 2. change (Z.of_nat 1) with 1.
  change (Z.of_nat 0) with 0. change (10 ^ 3) with 1000. change (10 ^ 2) with 100.
  change (10 ^ 1) with 10. change (10 ^ 0) with 1.
  repeat f_equal; zify; lia_div.
Qed.

(** A longer number leaves a digit behind. *)
Lemma get_digits_long k v to s t :
  str_forall is_digit s = true → (k < String.length s)%nat → (v + 1) * 10 ^ Z.of_nat k ≤ to + 1 →
  0 ≤ v → ∃ v' c s', get_digits k v to (s +:+ t) = (v', String c s') ∧ is_digit c = true.
Proof.
  revert v s. induction k as [|k IH]; intros v [|c s] Hs Hk Hto Hv; simpl in Hk; try lia;
    cbn [str_forall] in Hs; apply andb_true_iff in Hs as [Hc Hs]; rewrite str_app_cons;
    [by eexists _, _, _|].
  rewrite pow10_S in Hto. pose proof (pow10_pos k). cbn [get_digits].
  rewrite Hc, (proj2 (Z.leb_le _ _)) by nia. cbn [andb].
  unfold is_digit, char_between in Hc. change (ord "0") with 48 in Hc.
  change (ord "9") with 57 in Hc. apply IH; [done|lia|nia|lia].
Qed.

(** A year of more than four digits is cut after four, and no dash follows. *)
Lemma get_number_long_year s t :
  str_forall is_digit s = true → (5 ≤ String.length s)%nat →
  ('(_, r) ← get_number 0 9999 4 (s +:+ t); match_char "-" r) = None.
Proof.
  intros Hs Hl. destruct s as [|c s]; [simpl in Hl; lia|]. rewrite str_app_cons.
  cbn [str_forall] in Hs. apply andb_true_iff in Hs as [Hc Hs].
  unfold get_number. rewrite skip_blank_digit, Hc by done.
  unfold is_digit, char_between in Hc. change (ord "0") with 48 in Hc. change (ord "9") with 57 in Hc.
  change (4 - 1)%nat with 3%nat. simpl in Hl.
  destruct (get_digits_long 3 (ord c - 48) 9999 s t) as (v & d & r & -> & Hd); [done|lia..|].
  destruct ((0 <=? v) && (v <=? 9999)); [|done]. cbn [mbind option_bind match_char].
  destruct (Ascii.eqb_spec "-" d) as [<-|]; [by vm_compute in Hd|done].
Qed.

Lemma pretty_long n :
  10000 ≤ n → str_forall is_digit (pretty n) = true ∧ (5 ≤ String.length (pretty n))%nat.
Proof.
  intros H. rewrite pretty_Z_pos by lia. split; [by apply pretty_N_go_digits|].
  etrans; [|apply (pretty_N_go_length 4)]; [simpl; lia|]. change (10 ^ N.of_nat 4)%N with 10000%N. lia.
Qed.

Lemma pretty_N_go_length_le k n s :
  (n < 10 ^ N.of_nat k)%N → (String.length (pretty_N_go n s) ≤ k + String.length s)%nat.
Proof.
  revert n s. induction k as [|k IH]; intros n s Hn.
  { simpl in Hn. assert (n = 0)%N as -> by lia. done. }
  destruct (decide (n = 0)%N) as [->|]; [rewrite pretty_N_go_0; lia|].
  rewrite Nat2N.inj_succ, N.pow_succ_r' in Hn. rewrite pretty_N_go_step by lia.
  etrans; [apply IH, N.Div0.div_lt_upper_bound; lia|]. simpl. lia.
Qed.

(** ** The text of a time *)

(** Times from 1970 to the end of 9999, and to the last one [gmtime_r] takes. *)
Definition year_9999_end : Z := 253402300800.
Definition gmtime_end : Z := 67768036191676800.

Lemma year_of_time t bt :
  gmtime_r t = Some bt → (0 ≤ t → 1970 ≤ tm_year bt + 1900) ∧
  (t < year_9999_end → tm_year bt + 1900 < 10000) ∧
  (year_9999_end ≤ t → 10000 ≤ tm_year bt + 1900) ∧
  (t < gmtime_end → tm_year bt + 1900 < 2147485548).
Proof.
  intros (_ & _ & Hlo & Hhi)%gmtime_r_spec. unfold year_9999_end, gmtime_end.
  assert (days_before_year 1970 = 719528) as H1 by (by vm_compute).
  assert (days_before_year 10000 = 719528 + 2932897) as H2 by (by vm_compute).
  assert (days_before_year 2147485548 = 719528 + 784352270737) as H3 by (by vm_compute).
  split_and!; intros Ht; apply Z.nlt_ge || apply Z.nle_gt; intros Hy.
  - assert (tm_year bt + 1901 ≤ 1970) as Hm%days_before_year_mono by lia. lia_div.
  - apply days_before_year_mono in Hy. lia_div.
  - assert (tm_year bt + 1901 ≤ 10000) as Hm%days_before_year_mono by lia. lia_div.
  - apply days_before_year_mono in Hy. lia_div.
Qed.

Lemma tm_text_length bt :
  0 < tm_year bt + 1900 < 2147485548 → (String.length (tm_text bt) + 1 ≤ 32)%nat.
Proof.
  intros Hy. unfold tm_text. rewrite pretty_Z_pos by lia.
  pose proof (pretty_N_go_length_le 10 (Z.to_N (tm_year bt + 1900)) "") as H.
  rewrite !str_length_app, !pad_length.
  change (10 ^ N.of_nat 10)%N with 10000000000%N in H. cbn [String.length] in *. lia.
Qed.

Lemma strftime_fits t bt :
  gmtime_r t = Some bt → 0 ≤ t < gmtime_end → strftime 32 bt = Some (tm_text bt).
Proof.
  intros Hbt Ht. destruct (year_of_time _ _ Hbt) as (H1 & _ & _ & H4).
  unfold strftime. rewrite decide_True; [done|]. apply tm_text_length. lia.
Qed.

Lemma strptime_text bt :
  tm_ok bt → 1000 ≤ tm_year bt + 1900 < 10000 → strptime (tm_text bt) = Some (bt, "Z").
Proof.
  intros [] Hy. unfold tm_text. rewrite pretty_pad4 by done. unfold strptime.
  assert (∀ c s, match_char c (String c "" +:+ s) = Some s) as Hc.
  { intros c s. rewrite str_app_cons, str_app_nil_l. simpl. by rewrite Ascii.eqb_refl. }
  repeat (rewrite get_number_pad by lia; cbn [mbind option_bind]; rewrite ?Hc; cbn [mbind option_bind]).
  f_equal. f_equal. destruct bt; simpl. f_equal; lia.
Qed.

(** What is written for a time is read back. *)
Lemma rfc3339_roundtrip t :
  0 ≤ t < year_9999_end →
  ∃ bt, gmtime_r t = Some bt ∧ strftime 32 bt = Some (tm_text bt) ∧
    strptime (tm_text bt) = Some (bt, "Z") ∧ timegm bt = t.
Proof.
  intros Ht. unfold year_9999_end in Ht. destruct (gmtime_r_total t) as [bt Hbt]; [lia|].
  destruct (year_of_time _ _ Hbt) as (H1 & H2 & _). unfold year_9999_end in H2.
  exists bt. split; [done|]. split; [apply (strftime_fits t); [done|unfold gmtime_end; lia]|].
  apply gmtime_r_spec in Hbt as (Hok & Htm & _). split; [|done]. apply strptime_text; [done|lia].
Qed.

(** From the year 10000 on it is written, but it cannot be read back. *)
Lemma rfc3339_far_future t :
  year_9999_end ≤ t < gmtime_end →
  ∃ bt, gmtime_r t = Some bt ∧ strftime 32 bt = Some (tm_text bt) ∧
    strptime (tm_text bt) = None.
Proof.
  intros Ht. unfold year_9999_end, gmtime_end in Ht.
  destruct (gmtime_r_total t) as [bt Hbt]; [lia|].
  destruct (year_of_time _ _ Hbt) as (_ & _ & H3 & _). unfold year_9999_end in H3.
  exists bt. split; [done|]. split; [apply (strftime_fits t); [done|unfold gmtime_end; lia]|].
  destruct (pretty_long (tm_year bt + 1900)) as [Hd Hl]; [lia|].
  unfold tm_text, strptime.
  pose proof (get_number_long_year _ ("-" +:+ pad 2 (tm_mon bt + 1) +:+ "-" +:+ pad 2 (tm_mday bt) +:+
    "T" +:+ pad 2 (tm_hour bt) +:+ ":" +:+ pad 2 (tm_min bt) +:+ ":" +:+ pad 2 (tm_sec bt) +:+ "Z") Hd Hl) as H.
  destruct (get_number 0 9999 4 _) as [[y r]|]; [|done]. cbn [mbind option_bind] in *. by rewrite H.
Qed.

Example gmtime_leap_day : gmtime_r 1709210096 = Some (Tm 56 34 12 29 1 124).
Proof. vm_compute. reflexivity. Qed.
