(* ===== verification/Algo.v ===== *)
(** [src/algo/algo.c] and [include/algo/algo.h]: the supported signature
    algorithms.  A C enumeration is an [int], of which any value can be passed. *)

From S2P Require Export Prelude.
#[local] Open Scope Z_scope.

Inductive OpenDBSC_Algo := ALGO_ES256 | ALGO_RS256 | ALGO_NONE.

(** The value C gives each constant. *)
Definition algo_value (a : OpenDBSC_Algo) : Z :=
  match a with ALGO_ES256 => 0 | ALGO_RS256 => 1 | ALGO_NONE => 2 end.

(** The [switch], on the three constants. *)
Definition dbsc_sign_is_valid (algo : Z) : bool :=
  (algo =? algo_value ALGO_ES256) || (algo =? algo_value ALGO_RS256) ||
  (algo =? algo_value ALGO_NONE).

Lemma dbsc_sign_is_valid_spec algo :
  dbsc_sign_is_valid algo = true ↔ ∃ a, algo = algo_value a.
Proof.
  unfold dbsc_sign_is_valid. rewrite !orb_true_iff, !Z.eqb_eq. split.
  - intros [[->| ->]| ->]; by eexists.
  - intros [[] ->]; auto.
Qed.
