(* ===== verification/Session.v ===== *)
(** [src/session/session.c] and [include/session/session.h]: the session
    object, its setters, the deep copy every store relies on, the generation
    of session identifiers and the request context.  A pointer argument that
    may be NULL is an [option]; a function that writes through the pointer
    returns what it points to afterwards. *)

From S2P Require Export CLib.
From stdpp Require Import options.
#[local] Open Scope Z_scope.

(** ** Data *)

Inductive OpenDBSC_SessionState :=
| OPENDBSC_SESSION_STATE_ACTIVE
| OPENDBSC_SESSION_STATE_BOUND.

#[export] Instance SessionState_eq_dec : EqDecision OpenDBSC_SessionState.
Proof. solve_decision. Defined.

Definition OPENDBSC_STATE_ACTIVE_STR : string := "active".
Definition OPENDBSC_STATE_BOUND_STR : string := "bound".

Record OpenDBSC_Session := Session {
  s_id : cstr;
  s_user_id : cstr;
  s_state : OpenDBSC_SessionState;
  s_public_key : cstr;
  s_algorithm : cstr;
  s_challenge : cstr;
  s_expires_at : Z;
  s_has_expires : bool;
  s_created_at : Z
}.

#[export] Instance Session_eq_dec : EqDecision OpenDBSC_Session.
Proof. solve_decision. Defined.

(** Assignments to one field. *)
Definition with_id (v : cstr) (s : OpenDBSC_Session) : OpenDBSC_Session :=
  Session v (s_user_id s) (s_state s) (s_public_key s) (s_algorithm s)
    (s_challenge s) (s_expires_at s) (s_has_expires s) (s_created_at s).
Definition with_user_id (v : cstr) (s : OpenDBSC_Session) : OpenDBSC_Session :=
  Session (s_id s) v (s_state s) (s_public_key s) (s_algorithm s)
    (s_challenge s) (s_expires_at s) (s_has_expires s) (s_created_at s).
Definition with_state (v : OpenDBSC_SessionState) (s : OpenDBSC_Session) : OpenDBSC_Session :=
  Session (s_id s) (s_user_id s) v (s_public_key s) (s_algorithm s)
    (s_challenge s) (s_expires_at s) (s_has_expires s) (s_created_at s).
Definition with_public_key (v : cstr) (s : OpenDBSC_Session) : OpenDBSC_Session :=
  Session (s_id s) (s_user_id s) (s_state s) v (s_algorithm s)
    (s_challenge s) (s_expires_at s) (s_has_expires s) (s_created_at s).
Definition with_algorithm (v : cstr) (s : OpenDBSC_Session) : OpenDBSC_Session :=
  Session (s_id s) (s_user_id s) (s_state s) (s_public_key s) v
    (s_challenge s) (s_expires_at s) (s_has_expires s) (s_created_at s).
Definition with_challenge (v : cstr) (s : OpenDBSC_Session) : OpenDBSC_Session :=
  Session (s_id s) (s_user_id s) (s_state s) (s_public_key s) (s_algorithm s)
    v (s_expires_at s) (s_has_expires s) (s_created_at s).
Definition with_expires (t : Z) (b : bool) (s : OpenDBSC_Session) : OpenDBSC_Session :=
  Session (s_id s) (s_user_id s) (s_state s) (s_public_key s) (s_algorithm s)
    (s_challenge s) t b (s_created_at s).
Definition with_created_at (t : Z) (s : OpenDBSC_Session) : OpenDBSC_Session :=
  Session (s_id s) (s_user_id s) (s_state s) (s_public_key s) (s_algorithm s)
    (s_challenge s) (s_expires_at s) (s_has_expires s) t.

(** The field values [opendbsc_session_init] assigns. *)
Definition session_default : OpenDBSC_Session :=
  Session None None OPENDBSC_SESSION_STATE_ACTIVE None None None 0 false 0.

(** ** Operations *)

Definition opendbsc_session_init (session : option OpenDBSC_Session)
    : option OpenDBSC_Session :=
  match session with None => None | Some _ => Some session_default end.

Definition opendbsc_session_free (session : option OpenDBSC_Session)
    : option OpenDBSC_Session :=
  match session with None => None | Some s => opendbsc_session_init (Some s) end.

(** [set_string(&field, value)]: the return code and the new field. *)
Definition set_string (field value : cstr) : C (Z * cstr) :=
  match value with
  | None => mret (0, None)
  | Some v =>
      copy ← strdup v;
      match copy with
      | None => mret (-1, field)
      | Some c => mret (0, Some c)
      end
  end.

Definition opendbsc_session_set_id (session : option OpenDBSC_Session) (id : cstr)
    : C (Z * option OpenDBSC_Session) :=
  match session with
  | None => mret (-1, None)
  | Some s => '(rc, f) ← set_string (s_id s) id; mret (rc, Some (with_id f s))
  end.

Definition opendbsc_session_set_user_id (session : option OpenDBSC_Session) (user_id : cstr)
    : C (Z * option OpenDBSC_Session) :=
  match session with
  | None => mret (-1, None)
  | Some s => '(rc, f) ← set_string (s_user_id s) user_id; mret (rc, Some (with_user_id f s))
  end.

Definition opendbsc_session_set_public_key (session : option OpenDBSC_Session)
    (public_key : cstr) : C (Z * option OpenDBSC_Session) :=
  match session with
  | None => mret (-1, None)
  | Some s =>
      '(rc, f) ← set_string (s_public_key s) public_key;
      mret (rc, Some (with_public_key f s))
  end.

Definition opendbsc_session_set_algorithm (session : option OpenDBSC_Session)
    (algorithm : cstr) : C (Z * option OpenDBSC_Session) :=
  match session with
  | None => mret (-1, None)
  | Some s =>
      '(rc, f) ← set_string (s_algorithm s) algorithm;
      mret (rc, Some (with_algorithm f s))
  end.

Definition opendbsc_session_set_challenge (session : option OpenDBSC_Session)
    (challenge : cstr) : C (Z * option OpenDBSC_Session) :=
  match session with
  | None => mret (-1, None)
  | Some s =>
      '(rc, f) ← set_string (s_challenge s) challenge;
      mret (rc, Some (with_challenge f s))
  end.

Definition opendbsc_session_set_state (session : option OpenDBSC_Session)
    (state : OpenDBSC_SessionState) : option OpenDBSC_Session :=
  match session with None => None | Some s => Some (with_state state s) end.

Definition opendbsc_session_set_state_str (session : option OpenDBSC_Session) (state : cstr)
    : Z * option OpenDBSC_Session :=
  match session, state with
  | Some s, Some st =>
      if String.eqb st OPENDBSC_STATE_ACTIVE_STR then
        (0, Some (with_state OPENDBSC_SESSION_STATE_ACTIVE s))
      else if String.eqb st OPENDBSC_STATE_BOUND_STR then
        (0, Some (with_state OPENDBSC_SESSION_STATE_BOUND s))
      else (-1, session)
  | _, _ => (-1, session)
  end.

Definition opendbsc_session_state_str (session : option OpenDBSC_Session) : cstr :=
  match session with
  | None => None
  | Some s =>
      match s_state s with
      | OPENDBSC_SESSION_STATE_BOUND => Some OPENDBSC_STATE_BOUND_STR
      | OPENDBSC_SESSION_STATE_ACTIVE => Some OPENDBSC_STATE_ACTIVE_STR
      end
  end.

Definition opendbsc_session_is_bound (session : option OpenDBSC_Session) : bool :=
  match session with
  | None => false
  | Some s => bool_decide (s_state s = OPENDBSC_SESSION_STATE_BOUND)
  end.

Definition opendbsc_session_set_expires_at (session : option OpenDBSC_Session)
    (expires_at : Z) : option OpenDBSC_Session :=
  match session with
  | None => None
  | Some s => Some (with_expires expires_at (bool_decide (expires_at ≠ 0)) s)
  end.

Definition opendbsc_session_set_created_at (session : option OpenDBSC_Session)
    (created_at : Z) : option OpenDBSC_Session :=
  match session with None => None | Some s => Some (with_created_at created_at s) end.

(** The copy fails half way when a duplication fails: the fields copied so
    far stay in [dest]. *)
Definition opendbsc_session_copy (dest src : option OpenDBSC_Session)
    : C (Z * option OpenDBSC_Session) :=
  match dest, src with
  | Some d, Some s =>
      d ← deref (opendbsc_session_free (Some d));
      let d := with_state (s_state s) d in
      let d := with_expires (s_expires_at s) (s_has_expires s) d in
      let d := with_created_at (s_created_at s) d in
      '(rc, f) ← set_string (s_id d) (s_id s);
      let d := with_id f d in
      if negb (rc =? 0) then mret (-1, Some d) else
      '(rc, f) ← set_string (s_user_id d) (s_user_id s);
      let d := with_user_id f d in
      if negb (rc =? 0) then mret (-1, Some d) else
      '(rc, f) ← set_string (s_public_key d) (s_public_key s);
      let d := with_public_key f d in
      if negb (rc =? 0) then mret (-1, Some d) else
      '(rc, f) ← set_string (s_algorithm d) (s_algorithm s);
      let d := with_algorithm f d in
      if negb (rc =? 0) then mret (-1, Some d) else
      '(rc, f) ← set_string (s_challenge d) (s_challenge s);
      let d := with_challenge f d in
      if negb (rc =? 0) then mret (-1, Some d) else
      mret (0, Some d)
  | _, _ => mret (-1, dest)
  end.

(** The uuidv7 library (header-only, fetched by the build): generation of
    the 16 bytes (a negative status is a failure) and their canonical text. *)
Class UUIDv7 := {
  uuidv7_generate : Z → list Z → Z * list Z;
  uuidv7_to_string : list Z → string
}.

(** What its documentation says of the text: 36 characters and a NUL. *)
Class UUIDv7Laws `{UUIDv7} :=
  uuidv7_to_string_length : ∀ u, String.length (uuidv7_to_string u) = 36%nat.

Definition opendbsc_session_new_id `{UUIDv7} (out : option cbuf)
    : C (Z * option cbuf) :=
  match out with
  | None => mret (-1, None)
  | Some b =>
      if decide (b_size b < 37)%nat then mret (-1, Some b) else
      tp ← clock_gettime;
      match tp with
      | None => mret (-1, Some b)
      | Some (tv_sec, tv_nsec) =>
          let unix_ts_ms :=
            (tv_sec `mod` 2 ^ 64 * 1000 + tv_nsec `mod` 2 ^ 64 / 1000000) `mod` 2 ^ 64 in
          rand_bytes ← getentropy 10;
          match rand_bytes with
          | None => mret (-1, Some b)
          | Some rnd =>
              let '(status, uuid) := uuidv7_generate unix_ts_ms rnd in
              if status <? 0 then mret (-1, Some b) else
              b ← sprintf (CBuf (b_size b) None) (uuidv7_to_string uuid);
              mret (0, Some b)
          end
      end
  end.

Record OpenDBSC_Context := Context_ { ctx_session_id : cstr }.

Definition opendbsc_context_init (ctx : option OpenDBSC_Context) : option OpenDBSC_Context :=
  match ctx with None => None | Some _ => Some (Context_ None) end.

Definition opendbsc_context_set_session_id (ctx : option OpenDBSC_Context)
    (session_id : cstr) : option OpenDBSC_Context :=
  match ctx with None => None | Some _ => Some (Context_ session_id) end.

(** [session_id] is the output pointer ([None]: NULL) with what it points to. *)
Definition opendbsc_context_get_session_id (ctx : option OpenDBSC_Context)
    (session_id : option cstr) : bool * option cstr :=
  match ctx, session_id with
  | Some c, Some _ =>
      (bool_decide (ctx_session_id c ≠ None), Some (ctx_session_id c))
  | _, _ => (false, session_id)
  end.

(** ** What the operations do when no allocation fails *)

Lemma set_string_run field value w :
  no_oom w → set_string field value w = Ret (0, value) w.
Proof. intros H. unfold set_string. destruct value; [|done]. by crun. Qed.

Lemma session_set_id_run s v w :
  no_oom w → opendbsc_session_set_id (Some s) v w = Ret (0, Some (with_id v s)) w.
Proof. intros H. simpl. by rewrite bind_unfold, set_string_run. Qed.

Lemma session_set_user_id_run s v w :
  no_oom w → opendbsc_session_set_user_id (Some s) v w = Ret (0, Some (with_user_id v s)) w.
Proof. intros H. simpl. by rewrite bind_unfold, set_string_run. Qed.

Lemma session_set_public_key_run s v w :
  no_oom w →
  opendbsc_session_set_public_key (Some s) v w = Ret (0, Some (with_public_key v s)) w.
Proof. intros H. simpl. by rewrite bind_unfold, set_string_run. Qed.

Lemma session_set_algorithm_run s v w :
  no_oom w →
  opendbsc_session_set_algorithm (Some s) v w = Ret (0, Some (with_algorithm v s)) w.
Proof. intros H. simpl. by rewrite bind_unfold, set_string_run. Qed.

Lemma session_set_challenge_run s v w :
  no_oom w →
  opendbsc_session_set_challenge (Some s) v w = Ret (0, Some (with_challenge v s)) w.
Proof. intros H. simpl. by rewrite bind_unfold, set_string_run. Qed.

#[export] Hint Rewrite set_string_run session_set_id_run session_set_user_id_run
  session_set_public_key_run session_set_algorithm_run session_set_challenge_run
  using (eauto with crun) : crun.

Lemma session_copy_run d s w :
  no_oom w → opendbsc_session_copy (Some d) (Some s) w = Ret (0, Some s) w.
Proof.
  intros H. unfold opendbsc_session_copy. destruct s.
  repeat (rewrite bind_unfold; simpl; rewrite ?set_string_run by done; simpl).
  done.
Qed.

#[export] Hint Rewrite session_copy_run using (eauto with crun) : crun.

(** ** In any environment *)

Lemma wp_set_string field value w (Q : Z * cstr → world → Prop) :
  (∀ w', env_step w w' → Q (0, value) w') →
  (∀ w', env_step w w' → value ≠ None → ¬ no_oom w → Q (-1, field) w') →
  wp (set_string field value) w Q.
Proof.
  intros H0 H1. unfold set_string. destruct value as [v|]; [|by apply H0].
  apply wp_bind, wp_alloc; intros; apply wp_ret; auto.
Qed.

(** A session each string of which is NULL or that of [s]. *)
Definition partial_copy (s d : OpenDBSC_Session) : Prop :=
  (s_id d = None ∨ s_id d = s_id s) ∧
  (s_user_id d = None ∨ s_user_id d = s_user_id s) ∧
  (s_public_key d = None ∨ s_public_key d = s_public_key s) ∧
  (s_algorithm d = None ∨ s_algorithm d = s_algorithm s) ∧
  (s_challenge d = None ∨ s_challenge d = s_challenge s).

Lemma wp_session_copy d s w (Q : Z * option OpenDBSC_Session → world → Prop) :
  (∀ w', env_step w w' → Q (0, Some s) w') →
  (∀ d' w', env_step w w' → partial_copy s d' → ¬ no_oom w → Q (-1, Some d') w') →
  wp (opendbsc_session_copy (Some d) (Some s)) w Q.
Proof.
  intros H0 H1. unfold opendbsc_session_copy. apply wp_bind. simpl. apply wp_ret.
  do 5 (apply wp_bind, wp_set_string; simpl; intros;
    [|apply wp_ret, H1; [by repeat (etrans; [eassumption|])|by repeat split; simpl; auto
                        |by eauto 10 using step_oom]]).
  apply wp_ret. destruct s. apply H0. by repeat (etrans; [eassumption|]).
Qed.

(** ** Properties *)

(** Deep copy.  Whatever the allocator does, [opendbsc_session_copy] of a
    session into a session returns: either 0 with a destination equal to the
    source, or -1, only if an allocation failed, with a destination in which
    every string is NULL or the source's, so nothing of the destination's old
    content survives a copy that fails half way; a NULL argument is refused
    with -1 and no change. *)
Theorem session_copy_exact (d s : OpenDBSC_Session) (w : world) :
  wp (opendbsc_session_copy (Some d) (Some s)) w (λ r w', env_step w w' ∧
    (r = (0, Some s) ∨ ∃ d', r = (-1, Some d') ∧ partial_copy s d' ∧ ¬ no_oom w))
  ∧ opendbsc_session_copy None (Some s) w = Ret (-1, None) w
  ∧ opendbsc_session_copy (Some d) None w = Ret (-1, Some d) w.
Proof.
  split; [|done]. apply wp_session_copy; eauto 10.
Qed.

(** Setters.  Whatever the allocator does, setting a string of a session
    either succeeds and changes that string only, or returns -1 because the
    duplication failed and leaves the session as it was; clearing a string
    never fails. *)
Theorem session_setters_atomic (s : OpenDBSC_Session) (v : cstr) (w : world) :
  wp (opendbsc_session_set_id (Some s) v) w (λ r _,
    r = (0, Some (with_id v s)) ∨ r = (-1, Some s) ∧ v ≠ None) ∧
  wp (opendbsc_session_set_user_id (Some s) v) w (λ r _,
    r = (0, Some (with_user_id v s)) ∨ r = (-1, Some s) ∧ v ≠ None) ∧
  wp (opendbsc_session_set_public_key (Some s) v) w (λ r _,
    r = (0, Some (with_public_key v s)) ∨ r = (-1, Some s) ∧ v ≠ None) ∧
  wp (opendbsc_session_set_algorithm (Some s) v) w (λ r _,
    r = (0, Some (with_algorithm v s)) ∨ r = (-1, Some s) ∧ v ≠ None) ∧
  wp (opendbsc_session_set_challenge (Some s) v) w (λ r _,
    r = (0, Some (with_challenge v s)) ∨ r = (-1, Some s) ∧ v ≠ None).
Proof.
  repeat split; (apply wp_bind, wp_set_string; intros; apply wp_ret;
    [by left|right; split; [by destruct s|done]]).
Qed.

(** State names.  Writing a session's state as a string and reading it
    back restores the state, whatever state the reader had; a string that is
    not one of the two names is refused with -1 and no change. *)
Theorem session_state_str_roundtrip (s d : OpenDBSC_Session) (name : string) :
  opendbsc_session_set_state_str (Some d) (opendbsc_session_state_str (Some s))
    = (0, Some (with_state (s_state s) d))
  ∧ ((opendbsc_session_set_state_str (Some d) (Some name) = (-1, Some d)) ↔
     (∀ st, opendbsc_session_state_str (Some (with_state st s)) ≠ Some name)).
Proof.
  split; [by destruct s as [?? [] ???]|]. simpl.
  destruct (String.eqb_spec name OPENDBSC_STATE_ACTIVE_STR) as [->|Ha].
  { split; [done|]. intros H. by destruct (H OPENDBSC_SESSION_STATE_ACTIVE). }
  destruct (String.eqb_spec name OPENDBSC_STATE_BOUND_STR) as [->|Hb].
  { split; [done|]. intros H. by destruct (H OPENDBSC_SESSION_STATE_BOUND). }
  split; [|done]. intros _ []; simpl; congruence.
Qed.

(** Session identifiers.  With the buffer of 37 bytes the callers pass,
    [opendbsc_session_new_id] never writes past it, in any environment: it
    returns 0 with an identifier of 36 characters, or -1 with the buffer as
    it was; a buffer of less than 37 bytes is refused. *)
Theorem session_new_id_bounds `{UUIDv7, !UUIDv7Laws} (b : cbuf) (w : world) :
  wp (opendbsc_session_new_id (Some b)) w (λ '(rc, out) _,
    (rc = -1 ∧ out = Some b) ∨
    (rc = 0 ∧ (37 ≤ b_size b)%nat ∧
     ∃ id, out = Some (CBuf (b_size b) (Some id)) ∧ String.length id = 36%nat)).
Proof.
  unfold opendbsc_session_new_id. case_decide; [by apply wp_ret; left|].
  apply wp_bind. unfold wp at 1, clock_gettime.
  destruct (w_realtime w) as [|[[tv_sec tv_nsec]|] l]; try (by apply wp_ret; left).
  apply wp_bind. unfold wp at 1, getentropy. simpl.
  destruct (w_entropy w) as [|[rnd|] l']; try (by apply wp_ret; left).
  simpl. destruct (uuidv7_generate _ _) as [status uuid].
  destruct (status <? 0); [by apply wp_ret; left|].
  pose proof (uuidv7_to_string_length uuid).
  apply wp_bind, wp_sprintf; simpl; [lia|]. apply wp_ret. right. eauto with lia.
Qed.
