(* ===== verification/Store.v ===== *)
(** [include/store/store.h]: the session store as the manager sees it.  The
    class [Store] is the virtual table; [StoreLaws] is what a backend
    promises of it, as an update of an abstract map from identifiers to
    sessions, when no allocation fails.  The manager is verified against the
    class, and each backend discharges it. *)

From S2P Require Export Session.
From stdpp Require Import options.
#[local] Open Scope Z_scope.

(** The virtual table.  The state [T] is what [impl] points to; an output
    pointer is an [option] ([None]: NULL) with what it points to, and an
    array with its count is a list (the NULL array is the empty one). *)
Class Store (T : Type) := {
  st_create : T → option OpenDBSC_Session → C (Z * T);
  st_get : T → cstr → option (option OpenDBSC_Session) →
    C (Z * option (option OpenDBSC_Session) * T);
  st_update : T → option OpenDBSC_Session → C (Z * T);
  st_delete : T → cstr → C (Z * T);
  st_get_by_user_id : T → cstr → option (list OpenDBSC_Session) → option nat →
    C (Z * option (list OpenDBSC_Session) * option nat * T);
  st_delete_by_user_id : T → cstr → C (Z * T)
}.

(** [difftime(now, expires_at) > 0], for a session that has an expiry. *)
Definition expired (now : Z) (s : OpenDBSC_Session) : bool :=
  s_has_expires s && (s_expires_at s <? now).

(** The sessions a store holds, by identifier. *)
Abbreviation view := (gmap string OpenDBSC_Session).

Definition lookup_live (now : Z) (id : string) (m : view) : option OpenDBSC_Session :=
  s ← m !! id; if expired now s then None else Some s.

(** Timestamps every backend can represent: from 1970 to the end of 9999. *)
Definition time_ok (t : Z) : Prop := 0 ≤ t < 253402300800.

Record storable (s : OpenDBSC_Session) : Prop := {
  storable_id : s_id s ≠ None;
  storable_user : s_user_id s ≠ None;
  storable_created : time_ok (s_created_at s);
  storable_expires : if s_has_expires s then time_ok (s_expires_at s) ∧ s_expires_at s ≠ 0
                     else s_expires_at s = 0
}.

(** [store_room n] says that there is room for [n] more sessions; only a
    creation takes from it.  Creating a session under an identifier that is
    taken may replace the old session (the in-memory store) or be refused (the
    databases).  Deleting what is not there may be reported as an error (the ODBC store
    does), although [store.h] promises 0. *)
Class StoreLaws (T : Type) `{Store T} := {
  store_inv : T → Prop;
  store_room : nat → T → Prop;
  store_view : T → view;
  store_view_id st id s :
    store_inv st → store_view st !! id = Some s → s_id s = Some id;
  store_create n st s id w :
    quiet w → store_inv st → store_room (S n) st → storable s → s_id s = Some id →
    ∃ rc st', st_create st (Some s) w = Ret (rc, st') w ∧ store_inv st' ∧ store_room n st' ∧
      (rc = 0 ∧ store_view st' = <[id := s]> (store_view st) ∨
       rc = -1 ∧ store_view st' = store_view st ∧ is_Some (store_view st !! id));
  store_get st id w :
    quiet w → store_inv st →
    ∃ st', store_inv st' ∧ (∀ n, store_room n st → store_room n st') ∧
      match lookup_live (w_now w) id (store_view st) with
      | Some s =>
          st_get st (Some id) (Some None) w = Ret (0, Some (Some s), st') w ∧
          store_view st' = store_view st
      | None =>
          st_get st (Some id) (Some None) w = Ret (-1, Some None, st') w ∧
          store_view st' = delete id (store_view st)
      end;
  store_update st s id old w :
    quiet w → store_inv st → storable s → s_id s = Some id →
    store_view st !! id = Some old → s_created_at s = s_created_at old →
    ∃ st', st_update st (Some s) w = Ret (0, st') w ∧ store_inv st' ∧
      (∀ n, store_room n st → store_room n st') ∧
      store_view st' = <[id := s]> (store_view st);
  store_update_missing st s id w :
    quiet w → store_inv st → storable s → s_id s = Some id →
    store_view st !! id = None →
    ∃ st', st_update st (Some s) w = Ret (-1, st') w ∧ store_inv st' ∧
      store_view st' = store_view st;
  store_delete st id w :
    quiet w → store_inv st →
    ∃ rc st', st_delete st (Some id) w = Ret (rc, st') w ∧ store_inv st' ∧
      (∀ n, store_room n st → store_room n st') ∧
      store_view st' = delete id (store_view st) ∧
      (is_Some (store_view st !! id) → rc = 0);
  store_get_by_user_id st u w :
    quiet w → store_inv st →
    ∃ l st', st_get_by_user_id st (Some u) (Some []) (Some 0%nat) w
        = Ret (0, Some l, Some (length l), st') w ∧ store_inv st' ∧
      store_view st' ⊆ store_view st ∧
      (∀ id s, store_view st !! id = Some s → expired (w_now w) s = false →
         store_view st' !! id = Some s) ∧
      NoDup (s_id <$> l) ∧
      (∀ s, s ∈ l ↔ ∃ id, store_view st !! id = Some s ∧ s_user_id s = Some u ∧
                          expired (w_now w) s = false);
  store_delete_by_user_id st u w :
    quiet w → store_inv st →
    ∃ rc st', st_delete_by_user_id st (Some u) w = Ret (rc, st') w ∧ store_inv st' ∧
      store_view st' = filter (λ '(_, s), s_user_id s ≠ Some u) (store_view st) ∧
      ((∃ id s, store_view st !! id = Some s ∧ s_user_id s = Some u) → rc = 0)
}.

(** [store->get(impl, id, &session)] with [session] initialised to NULL, as
    the manager calls it. *)
Definition call_get `{Store T} (st : T) (id : string)
    : C (Z * option OpenDBSC_Session * T) :=
  '(rc, out, st) ← st_get st (Some id) (Some None);
  session ← deref out;
  mret (rc, session, st).

Lemma lookup_live_Some now id m s :
  lookup_live now id m = Some s ↔ m !! id = Some s ∧ expired now s = false.
Proof.
  unfold lookup_live. destruct (m !! id) as [s'|]; simpl; [|by split; [|intros []]].
  destruct (expired now s') eqn:E; split; try (intros [Hs ?]); try (intros Hs);
    simplify_eq/=; auto; congruence.
Qed.

Lemma lookup_live_None now id m :
  lookup_live now id m = None ↔ ∀ s, m !! id = Some s → expired now s = true.
Proof.
  unfold lookup_live. destruct (m !! id) as [s'|]; simpl; [|done].
  destruct (expired now s') eqn:E; split; intros H; simplify_eq/=; auto.
  - intros s ?. by simplify_eq.
  - specialize (H _ eq_refl). congruence.
Qed.

Section call_get.
Context `{StoreLaws T}.

Lemma call_get_live st id w s :
  quiet w → store_inv st → lookup_live (w_now w) id (store_view st) = Some s →
  ∃ st', call_get st id w = Ret (0, Some s, st') w ∧ store_inv st' ∧
    (∀ n, store_room n st → store_room n st') ∧ store_view st' = store_view st.
Proof.
  intros Hw Hst Hs. destruct (store_get st id w Hw Hst) as (st' & Hi & Hr & Hm).
  rewrite Hs in Hm. destruct Hm as [Hget Hv]. exists st'. split_and!; try done.
  unfold call_get. by rewrite bind_unfold, Hget.
Qed.

Lemma call_get_dead st id w :
  quiet w → store_inv st → lookup_live (w_now w) id (store_view st) = None →
  ∃ st', call_get st id w = Ret (-1, None, st') w ∧ store_inv st' ∧
    (∀ n, store_room n st → store_room n st') ∧ store_view st' = delete id (store_view st).
Proof.
  intros Hw Hst Hs. destruct (store_get st id w Hw Hst) as (st' & Hi & Hr & Hm).
  rewrite Hs in Hm. destruct Hm as [Hget Hv]. exists st'. split_and!; try done.
  unfold call_get. by rewrite bind_unfold, Hget.
Qed.

End call_get.

(** ** The calls of a program as data *)

Inductive store_op :=
| OpCreate (session : option OpenDBSC_Session)
| OpGet (id : cstr) (out : option (option OpenDBSC_Session))
| OpUpdate (session : option OpenDBSC_Session)
| OpDelete (id : cstr)
| OpGetByUser (user_id : cstr) (out : option (list OpenDBSC_Session)) (count : option nat)
| OpDeleteByUser (user_id : cstr).

Inductive store_reply :=
| RCode (rc : Z)
| RSession (rc : Z) (out : option (option OpenDBSC_Session))
| RSessions (rc : Z) (out : option (list OpenDBSC_Session)) (count : option nat).

Definition exec_op `{Store T} (op : store_op) (st : T) : C (store_reply * T) :=
  match op with
  | OpCreate s => '(rc, st) ← st_create st s; mret (RCode rc, st)
  | OpGet id out => '(rc, out, st) ← st_get st id out; mret (RSession rc out, st)
  | OpUpdate s => '(rc, st) ← st_update st s; mret (RCode rc, st)
  | OpDelete id => '(rc, st) ← st_delete st id; mret (RCode rc, st)
  | OpGetByUser u out cnt =>
      '(rc, out, cnt, st) ← st_get_by_user_id st u out cnt; mret (RSessions rc out cnt, st)
  | OpDeleteByUser u => '(rc, st) ← st_delete_by_user_id st u; mret (RCode rc, st)
  end.

(** Calls one after the other.  [MemoryLinear.v] shows that an interleaving of
    the calls of several threads is such a sequence. *)
Fixpoint exec_ops `{Store T} (ops : list store_op) (st : T) : C (list store_reply * T) :=
  match ops with
  | [] => mret ([], st)
  | op :: ops =>
      '(r, st) ← exec_op op st;
      '(rs, st) ← exec_ops ops st;
      mret (r :: rs, st)
  end.
