(* ===== verification/Threads.v ===== *)
(** Threads that share an object under a mutex.  A call of a thread is a
    [prog]: steps on the shared object, each of which happens at once, and the
    locking and unlocking of the mutex.  [cstep] is one step of one thread;
    any interleaving of the threads is a sequence of such steps.  [run] is the
    same program run alone.

    The theorem of the file, for calls that touch the object only while they
    hold the mutex ([atomic]): at every moment of every interleaving the calls
    so far have been answered as if they had been made one after the other, in
    an order that only grows; and no thread is ever stuck when the calls made
    one after the other are not. *)

From S2P Require Export CLib.
From stdpp Require Import options.
#[local] Open Scope Z_scope.

(** ** Programs *)

(** An object with a mutex. *)
Class Locked (T : Type) := {
  mutex : T → bool;
  set_mutex : bool → T → T
}.

Class LockedLaws (T : Type) `{Locked T} :=
  mutex_set (b : bool) (st : T) : mutex (set_mutex b st) = b.

Inductive prog (T R : Type) : Type :=
| Done (r : R)
| Act (A : Type) (a : T → C (A * T)) (k : A → prog T R)
| Lock (k : prog T R)
| Unlock (k : prog T R).
Arguments Done {_ _} _.
Arguments Act {_ _ _} _ _.
Arguments Lock {_ _} _.
Arguments Unlock {_ _} _.

Fixpoint prog_bind {T R S} (f : R → prog T S) (p : prog T R) : prog T S :=
  match p with
  | Done r => f r
  | Act a k => Act a (λ x, prog_bind f (k x))
  | Lock k => Lock (prog_bind f k)
  | Unlock k => Unlock (prog_bind f k)
  end.

#[export] Instance prog_ret {T} : MRet (prog T) := λ R r, Done r.
#[export] Instance prog_mbind {T} : MBind (prog T) := λ R S, prog_bind.

(** [pthread_mutex_lock], [pthread_mutex_unlock]. *)
Definition mutex_lock {T} : prog T unit := Lock (Done tt).
Definition mutex_unlock {T} : prog T unit := Unlock (Done tt).

(** One step on the object, and one that leaves it alone. *)
Definition act {T A} (a : T → C (A * T)) : prog T A := Act a Done.
Definition local {T A} (m : C A) : prog T A := act (λ st, x ← m; mret (x, st)).
Definition diverge {T A} : prog T A := act (λ _, hang).

Section run.
Context `{Locked T}.

(** The program run alone. *)
Fixpoint run {R} (p : prog T R) (st : T) : C (R * T) :=
  match p with
  | Done r => mret (r, st)
  | Act a k => '(x, st) ← a st; run (k x) st
  | Lock k => if mutex st then hang else run k (set_mutex true st)
  | Unlock k => run k (set_mutex false st)
  end.

Lemma run_bind {R S} (p : prog T R) (f : R → prog T S) st w :
  run (p ≫= f) st w = ('(x, st) ← run p st; run (f x) st) w.
Proof.
  revert st w. unfold mbind, prog_mbind.
  induction p as [r|A a k IH|k IH|k IH]; intros st w; cbn; [done| | |apply IH].
  - rewrite !bind_unfold. destruct (a st w) as [[x st'] w'| |]; [apply IH|done..].
  - destruct (mutex st); [done|apply IH].
Qed.

Lemma run_act {A} (a : T → C (A * T)) st w : run (act a) st w = a st w.
Proof. cbn. rewrite bind_unfold. by destruct (a st w) as [[x st'] w'| |]. Qed.

Lemma run_local {A} (m : C A) st w : run (local m) st w = (x ← m; mret (x, st)) w.
Proof. unfold local. by rewrite run_act. Qed.

(** Steps that leave the mutex as it is. *)
Definition keeps_mutex {A} (a : T → C (A * T)) : Prop :=
  ∀ st w x st' w', a st w = Ret (x, st') w' → mutex st' = mutex st.

(** Only steps on the object. *)
Fixpoint acts {R} (p : prog T R) : Prop :=
  match p with
  | Done _ => True
  | Act a k => keeps_mutex a ∧ ∀ x, acts (k x)
  | Lock _ | Unlock _ => False
  end.

(** What runs between the locking of the mutex and the end of the call. *)
Fixpoint critical {R} (p : prog T R) : Prop :=
  match p with
  | Act a k => keeps_mutex a ∧ ∀ x, critical (k x)
  | Unlock k => ∃ r, k = Done r
  | Done _ | Lock _ => False
  end.

(** A call that holds the mutex whenever it uses the object. *)
Definition atomic {R} (p : prog T R) : Prop :=
  match p with
  | Done _ => True
  | Lock k => critical k
  | Act _ _ | Unlock _ => False
  end.

Lemma acts_bind {R S} (p : prog T R) (f : R → prog T S) :
  acts p → (∀ x, acts (f x)) → acts (p ≫= f).
Proof.
  intros Hp Hf. unfold mbind, prog_mbind. induction p as [r|A a k IH|k IH|k IH]; cbn; try done.
  destruct Hp as [Ha Hk]. eauto.
Qed.

Lemma critical_bind {R S} (p : prog T R) (f : R → prog T S) :
  acts p → (∀ x, critical (f x)) → critical (p ≫= f).
Proof.
  intros Hp Hf. unfold mbind, prog_mbind. induction p as [r|A a k IH|k IH|k IH]; cbn; try done.
  destruct Hp as [Ha Hk]. eauto.
Qed.

(** What follows the unlocking may still compute the reply. *)
Lemma critical_map {R S} (p : prog T R) (g : R → S) :
  critical p → critical (p ≫= λ r, mret (g r)).
Proof.
  unfold mbind, prog_mbind. induction p as [r|A a k IH|k IH|k IH]; cbn; try done.
  - intros [Ha Hk]. eauto.
  - intros [r ->]. by exists (g r).
Qed.

Lemma atomic_map {R S} (p : prog T R) (g : R → S) :
  atomic p → atomic (p ≫= λ r, mret (g r)).
Proof. destruct p; cbn; try done. apply critical_map. Qed.

Lemma acts_act1 {A} (a : T → C (A * T)) : keeps_mutex a → acts (act a).
Proof. done. Qed.

Lemma acts_local {A} (m : C A) : acts (local (T := T) m).
Proof.
  apply acts_act1. intros st w x st' w'. rewrite bind_unfold.
  by destruct (m w) as [y w1| |]; intros [= <- <- <-].
Qed.

Lemma acts_diverge {A} : acts (diverge (T := T) (A := A)).
Proof. by apply acts_act1. Qed.

End run.

Create HintDb acts.
#[export] Hint Resolve acts_bind acts_act1 acts_local acts_diverge : acts.

(** ** Interleavings *)

Section threads.
Context `{LockedLaws T} {Op Reply : Type} (code : Op → prog T Reply).

(** A thread: the call it is in, and what is left of it; the calls it will
    make; the replies it has had. *)
Record thread := Thread {
  th_now : option (Op * prog T Reply);
  th_rest : list Op;
  th_done : list Reply
}.

Record config := Config { c_threads : list thread; c_obj : T; c_world : world }.

(** One step of one thread; a thread waits while the mutex is taken. *)
Inductive cstep : config → config → Prop :=
| step_call ts st w i o rest done :
    ts !! i = Some (Thread None (o :: rest) done) →
    cstep (Config ts st w) (Config (<[i := Thread (Some (o, code o)) rest done]> ts) st w)
| step_act ts st w i o A (a : T → C (A * T)) k rest done x st' w' :
    ts !! i = Some (Thread (Some (o, Act a k)) rest done) →
    a st w = Ret (x, st') w' →
    cstep (Config ts st w) (Config (<[i := Thread (Some (o, k x)) rest done]> ts) st' w')
| step_lock ts st w i o k rest done :
    ts !! i = Some (Thread (Some (o, Lock k)) rest done) → mutex st = false →
    cstep (Config ts st w)
      (Config (<[i := Thread (Some (o, k)) rest done]> ts) (set_mutex true st) w)
| step_unlock ts st w i o k rest done :
    ts !! i = Some (Thread (Some (o, Unlock k)) rest done) →
    cstep (Config ts st w)
      (Config (<[i := Thread (Some (o, k)) rest done]> ts) (set_mutex false st) w)
| step_return ts st w i o r rest done :
    ts !! i = Some (Thread (Some (o, Done r)) rest done) →
    cstep (Config ts st w) (Config (<[i := Thread None rest (done ++ [r])]> ts) st w).

(** The step of a given thread, when it has one, and the interleaving that a
    list of turns describes; a turn in which the thread cannot move is lost. *)
Definition advance {R} (p : prog T R) (st : T) (w : world) : option (prog T R * T * world) :=
  match p with
  | Done _ => None
  | Act a k => match a st w with Ret (x, st') w' => Some (k x, st', w') | _ => None end
  | Lock k => if mutex st then None else Some (k, set_mutex true st, w)
  | Unlock k => Some (k, set_mutex false st, w)
  end.

Definition cnext (i : nat) (c : config) : option config :=
  th ← c_threads c !! i;
  let go th' := <[i := th']> (c_threads c) in
  match th_now th with
  | None =>
      match th_rest th with
      | [] => None
      | o :: rest =>
          Some (Config (go (Thread (Some (o, code o)) rest (th_done th))) (c_obj c) (c_world c))
      end
  | Some (o, Done r) =>
      Some (Config (go (Thread None (th_rest th) (th_done th ++ [r]))) (c_obj c) (c_world c))
  | Some (o, p) =>
      '(p', st', w') ← advance p (c_obj c) (c_world c);
      Some (Config (go (Thread (Some (o, p')) (th_rest th) (th_done th))) st' w')
  end.

Definition schedule (turns : list nat) (c : config) : config :=
  foldl (λ c i, default c (cnext i c)) c turns.

Lemma cnext_step i c c' : cnext i c = Some c' → cstep c c'.
Proof.
  destruct c as [ts st w]. unfold cnext. cbn [c_threads c_obj c_world].
  destruct (ts !! i) as [[[[o p]|] rest rs]|] eqn:Hi; cbn; [|destruct rest|done].
  - destruct p as [r|A a k|k|k]; cbn.
    + intros [= <-]. by eapply step_return.
    + destruct (a st w) as [[x st'] w'| |] eqn:Ha; cbn; [|done..].
      intros [= <-]. by eapply step_act.
    + destruct (mutex st) eqn:Hm; cbn; [done|]. intros [= <-]. by eapply step_lock.
    + intros [= <-]. by eapply step_unlock.
  - done.
  - intros [= <-]. by eapply step_call.
Qed.

Lemma schedule_steps turns c : rtc cstep c (schedule turns c).
Proof.
  revert c. unfold schedule. induction turns as [|i turns IH]; intros c; cbn; [done|].
  destruct (cnext i c) as [c'|] eqn:Hc; cbn; [|apply IH].
  eapply rtc_l; [by eapply cnext_step|apply IH].
Qed.

Definition start (calls : list (list Op)) (st : T) (w : world) : config :=
  Config ((λ ops, Thread None ops []) <$> calls) st w.

Definition finished (th : thread) : Prop := th_now th = None ∧ th_rest th = [].

(** A thread whose next step has no result. *)
Definition goes_wrong (c : config) : Prop :=
  ∃ i o A (a : T → C (A * T)) k rest done,
    c_threads c !! i = Some (Thread (Some (o, Act a k)) rest done) ∧
    ∀ x st' w', a (c_obj c) (c_world c) ≠ Ret (x, st') w'.

(** ** Histories

    The calls that have been decided, each with its thread and its reply, in
    their order. *)
Abbreviation history := (list (nat * Op * Reply)).

Definition by_thread (i : nat) (hs : history) : history := filter (λ e, e.1.1 = i) hs.
Definition h_ops (hs : history) : list Op := (λ e, e.1.2) <$> hs.
Definition h_replies (hs : history) : list Reply := snd <$> hs.

(** The calls of a history made one after the other. *)
Inductive seq_run (st0 : T) (w0 : world) : history → T → world → Prop :=
| seq_nil : seq_run st0 w0 [] st0 w0
| seq_snoc hs st w i o r st' w' :
    seq_run st0 w0 hs st w → run (code o) st w = Ret (r, st') w' →
    seq_run st0 w0 (hs ++ [(i, o, r)]) st' w'.

(** The history [hs] accounts for a thread with these calls: what it has been
    answered is in the history, which may hold one call more, the one it is
    about to return from. *)
Definition accounts (hs : history) (i : nat) (calls : list Op) (th : thread) : Prop :=
  (th_now th = None ∧
     calls = h_ops (by_thread i hs) ++ th_rest th ∧ h_replies (by_thread i hs) = th_done th) ∨
  (∃ o p, th_now th = Some (o, p) ∧
     calls = h_ops (by_thread i hs) ++ o :: th_rest th ∧
     h_replies (by_thread i hs) = th_done th) ∨
  (∃ o r, th_now th = Some (o, Done r) ∧
     calls = h_ops (by_thread i hs) ++ th_rest th ∧
     h_replies (by_thread i hs) = th_done th ++ [r]).

(** [hs] explains the moment [c] of an interleaving: it is a run of the calls
    one after the other that accounts for every thread, and when the mutex is
    free the object is what that run leaves. *)
Definition explains (calls : list (list Op)) (st0 : T) (w0 : world) (c : config) (hs : history)
    : Prop :=
  (∃ st w, seq_run st0 w0 hs st w ∧
     (mutex (c_obj c) = false → c_obj c = st ∧ c_world c = w)) ∧
  length (c_threads c) = length calls ∧
  ∀ i ops th, calls !! i = Some ops → c_threads c !! i = Some th → accounts hs i ops th.

(** ** Every schedule ends *)

(** What the next step can make of a thread, whatever its object. *)
Definition tnext (th th' : thread) : Prop :=
  match th_now th with
  | None =>
      match th_rest th with
      | [] => False
      | o :: rest => th' = Thread (Some (o, code o)) rest (th_done th)
      end
  | Some (o, Act a k) => ∃ x, th' = Thread (Some (o, k x)) (th_rest th) (th_done th)
  | Some (o, Lock k) | Some (o, Unlock k) =>
      th' = Thread (Some (o, k)) (th_rest th) (th_done th)
  | Some (o, Done r) => th' = Thread None (th_rest th) (th_done th ++ [r])
  end.

Definition lnext (ts ts' : list thread) : Prop :=
  ∃ i th th', ts !! i = Some th ∧ tnext th th' ∧ ts' = <[i := th']> ts.

Lemma cstep_lnext c c' : cstep c c' → lnext (c_threads c) (c_threads c').
Proof. destruct 1; eexists i, _, _; (split; [eassumption|]); split; try done. by exists x. Qed.

Lemma thread_ends th : Acc (flip tnext) th.
Proof.
  assert (∀ rest rs, Acc (flip tnext) (Thread None rest rs)) as Hidle.
  { induction rest as [|o rest IH]; intros rs; constructor; intros th' Hth; [done|].
    cbn in Hth. subst th'. generalize (code o). intros p. revert rs.
    induction p as [r|A a k IHp|k IHp|k IHp]; intros rs; constructor; intros th' Hth; cbn in Hth;
      [subst; apply IH|destruct Hth as [x ->]; apply IHp|subst; apply IHp ..]. }
  destruct th as [[[o p]|] rest rs]; [|apply Hidle]. revert rs.
  induction p as [r|A a k IHp|k IHp|k IHp]; intros rs; constructor; intros th' Hth; cbn in Hth;
    [subst; apply Hidle|destruct Hth as [x ->]; apply IHp|subst; apply IHp ..].
Qed.

Lemma threads_end ts : Acc (flip lnext) ts.
Proof.
  induction ts as [|th ts IHts].
  { constructor. intros ts' (i & th & th' & Hi & _). done. }
  revert ts IHts. induction (thread_ends th) as [th _ IHth]. intros ts Hts.
  induction Hts as [ts Hts IHts]. constructor. intros ts' (i & th1 & th' & Hi & Hn & ->).
  destruct i as [|i]; cbn in Hi |- *.
  - simplify_eq. apply IHth; [done|by constructor].
  - apply IHts. by exists i, th1, th'.
Qed.

(** No schedule goes on for ever. *)
Lemma schedules_end : well_founded (flip cstep).
Proof.
  intros c. assert (Acc (flip lnext) (c_threads c)) as Ha by apply threads_end.
  revert Ha. generalize (eq_refl (c_threads c)). generalize (c_threads c) at 1 3.
  intros ts Hts Ha. revert c Hts. induction Ha as [ts _ IH]. intros c ->.
  constructor. intros c' Hc. eapply IH; [by apply cstep_lnext|done].
Qed.

(** ** Every moment has a history *)

Lemma by_thread_snoc i hs j o r :
  by_thread i (hs ++ [(j, o, r)]) = by_thread i hs ++ (if decide (j = i) then [(j, o, r)] else []).
Proof. unfold by_thread. rewrite filter_app, filter_cons, filter_nil. done. Qed.

Lemma h_ops_snoc i hs j o r :
  h_ops (by_thread i (hs ++ [(j, o, r)])) =
    h_ops (by_thread i hs) ++ (if decide (j = i) then [o] else []).
Proof. rewrite by_thread_snoc. unfold h_ops. rewrite fmap_app. by case_decide. Qed.

Lemma h_replies_snoc i hs j o r :
  h_replies (by_thread i (hs ++ [(j, o, r)])) =
    h_replies (by_thread i hs) ++ (if decide (j = i) then [r] else []).
Proof. rewrite by_thread_snoc. unfold h_replies. rewrite fmap_app. by case_decide. Qed.

(** A thread that does not hold the mutex: between two calls, before its
    critical section, or with its reply. *)
Definition outside (hs : history) (i : nat) (calls : list Op) (th : thread) : Prop :=
  accounts hs i calls th ∧
  match th_now th with
  | None => h_replies (by_thread i hs) = th_done th
  | Some (o, Lock k) => code o = Lock k ∧ h_replies (by_thread i hs) = th_done th
  | Some (o, Done r) => h_replies (by_thread i hs) = th_done th ++ [r]
  | Some (o, _) => False
  end.

Lemma accounts_other hs i calls th j o r :
  j ≠ i → accounts hs i calls th → accounts (hs ++ [(j, o, r)]) i calls th.
Proof.
  intros Hj. unfold accounts. by rewrite h_ops_snoc, h_replies_snoc, !decide_False, !app_nil_r by done.
Qed.

Lemma outside_other hs i calls th j o r :
  j ≠ i → outside hs i calls th → outside (hs ++ [(j, o, r)]) i calls th.
Proof.
  intros Hj [Ha Hth]. split; [by apply accounts_other|]. revert Hth.
  by rewrite h_replies_snoc, decide_False, app_nil_r by done.
Qed.

(** How much a thread still adds to the history. *)
Definition to_come (th : thread) : nat :=
  length (th_rest th) +
  match th_now th with Some (_, Done _) | None => 0 | Some _ => 1 end.

Lemma sum_insert {A} (f : A → nat) l i x y :
  l !! i = Some x → (sum_list_with f (<[i := y]> l) + f x = sum_list_with f l + f y)%nat.
Proof.
  revert i. induction l as [|z l IH]; intros [|i] Hi; simpl in *; simplify_eq; [lia|].
  specialize (IH _ Hi). lia.
Qed.

Lemma sum_start (calls : list (list Op)) :
  sum_list_with to_come ((λ ops, Thread None ops []) <$> calls) = sum_list_with length calls.
Proof. induction calls as [|ops l IH]; [done|]. cbn in *. rewrite IH. lia. Qed.

Section history.
Context (calls : list (list Op)) (st0 : T) (w0 : world).
Context (Hatomic : ∀ o, atomic (code o)).
#[local] Set Default Proof Using "Type*".

Abbreviation total := (sum_list_with length calls).

(** One after the other, the calls return and release the mutex. *)
Context (Hseq : ∀ hs st w o, seq_run st0 w0 hs st w → (length hs < total)%nat →
  ∃ r st' w', run (code o) st w = Ret (r, st') w' ∧ mutex st' = false).
Context (Hstart : mutex st0 = false).

(** The thread that holds the mutex, with its call, the calls it will make
    and the replies it has had. *)
Abbreviation holder := (option (nat * Op * list Op * list Reply)).

(** The object: what the history leaves, or in the hands of the holder, who
    will leave what the call leaves when it runs alone. *)
Definition object_ok (c : config) (ho : holder) (st : T) (w : world) : Prop :=
  match ho with
  | None => c_obj c = st ∧ c_world c = w
  | Some (j, o, rest, rs) =>
      mutex (c_obj c) = true ∧
      ∃ p, c_threads c !! j = Some (Thread (Some (o, p)) rest rs) ∧ critical p ∧
           run p (c_obj c) (c_world c) = run (code o) st w
  end.

Definition place (hs : history) (ho : holder) (i : nat) (ops : list Op) (th : thread) : Prop :=
  match ho with
  | None => outside hs i ops th
  | Some (j, o, rest, rs) =>
      if decide (i = j) then ops = h_ops (by_thread i hs) ++ o :: rest ∧
                             h_replies (by_thread i hs) = rs
      else outside hs i ops th
  end.

(** The invariant of an interleaving. *)
Definition moment (c : config) (hs : history) : Prop :=
  length (c_threads c) = length calls ∧
  (length hs + sum_list_with to_come (c_threads c) = total)%nat ∧
  ∃ st w ho, seq_run st0 w0 hs st w ∧ mutex st = false ∧ object_ok c ho st w ∧
    ∀ i ops th, calls !! i = Some ops → c_threads c !! i = Some th → place hs ho i ops th.

Lemma moment_explains c hs : moment c hs → explains calls st0 w0 c hs.
Proof.
  intros (Hlen & _ & st & w & ho & Hrun & Hst & Hobj & Hc). split; [|split; [done|]].
  - exists st, w. split; [done|]. intros Hm.
    destruct ho as [[[[j o] rest] rs]|]; [|done]. destruct Hobj. congruence.
  - intros i ops th Hi Hth. specialize (Hc i ops th Hi Hth). unfold place in Hc.
    destruct ho as [[[[j o] rest] rs]|]; [|apply Hc].
    destruct Hobj as (_ & p & Hj & _). destruct (decide (i = j)) as [->|]; [|apply Hc].
    simplify_eq. destruct Hc as [-> <-]. right. left. by exists o, p.
Qed.

(** A change of one thread. *)
Lemma update_threads (P P' : nat → list Op → thread → Prop) (ts : list thread) i th th' :
  ts !! i = Some th →
  (∀ k ops th, calls !! k = Some ops → ts !! k = Some th → P k ops th) →
  (∀ k ops th, k ≠ i → P k ops th → P' k ops th) →
  (∀ ops, P i ops th → P' i ops th') →
  ∀ k ops th1, calls !! k = Some ops → <[i := th']> ts !! k = Some th1 → P' k ops th1.
Proof.
  intros Hi HP Hother Hnew k ops th1 Hk Hth1. destruct (decide (k = i)) as [->|Hne].
  - rewrite list_lookup_insert_eq in Hth1 by (by eapply lookup_lt_Some). simplify_eq. eauto.
  - rewrite list_lookup_insert_ne in Hth1 by done. eauto.
Qed.

Lemma prefix_snoc {A} (l : list A) x : l `prefix_of` l ++ [x].
Proof. by exists [x]. Qed.

(** A change of a thread outside its critical section, to the same object. *)
Lemma moment_outside ts st w i th th' hs hs' :
  ts !! i = Some th → moment (Config ts st w) hs →
  match th_now th with
  | None => True
  | Some (_, Done _) => True
  | _ => False
  end →
  (length hs' + to_come th' = length hs + to_come th)%nat →
  (∀ st w, seq_run st0 w0 hs st w → seq_run st0 w0 hs' st w) →
  (∀ k ops th, k ≠ i → outside hs k ops th → outside hs' k ops th) →
  (∀ k, k ≠ i → by_thread k hs' = by_thread k hs) →
  (∀ ops, outside hs i ops th → outside hs' i ops th') →
  moment (Config (<[i := th']> ts) st w) hs'.
Proof.
  intros Hi (Hlen & Htot & st1 & w1 & ho & Hrun & Hst1 & Hobj & Hc) Hth Hsum Hseq' Hout Hby Hnew.
  cbn in *. pose proof (sum_insert to_come ts i _ th' Hi).
  split; [cbn; by rewrite length_insert|]. split; [cbn; lia|].
  exists st1, w1, ho. split; [by apply Hseq'|]. split; [done|].
  destruct ho as [[[[j o] rest] rs]|].
  - destruct Hobj as (Hm & p & Hj & Hp & Hr). cbn in *.
    assert (j ≠ i) as Hne. { intros ->. simplify_eq. cbn in Hth. by destruct p. }
    split; [split; [done|]|].
    + exists p. cbn. by rewrite list_lookup_insert_ne.
    + apply (update_threads (place hs (Some (j, o, rest, rs))) _ ts i th th' Hi Hc).
      * intros k ops th1 Hk. cbn. case_decide; [|by apply Hout]. by rewrite Hby.
      * intros ops. cbn. rewrite !decide_False by done. apply Hnew.
  - split; [done|]. by apply (update_threads (place hs None) _ ts i th th' Hi Hc).
Qed.

(** A call that uses nothing is decided when it is made; the others wait for
    the mutex. *)
Lemma moment_call ts st w i o rest rs hs :
  ts !! i = Some (Thread None (o :: rest) rs) → moment (Config ts st w) hs →
  ∃ hs', moment (Config (<[i := Thread (Some (o, code o)) rest rs]> ts) st w) hs' ∧
         hs `prefix_of` hs'.
Proof.
  intros Hi Hm. pose proof (Hatomic o) as Hat.
  destruct (code o) as [r| |k|] eqn:Ho; cbn in Hat; try done.
  - exists (hs ++ [(i, o, r)]). split; [|apply prefix_snoc].
    eapply moment_outside; [exact Hi|exact Hm|done|rewrite length_app; cbn; lia| | | |].
    + intros st1 w1 Hr. econstructor; [done|]. by rewrite Ho.
    + intros. by apply outside_other.
    + intros k Hk. by rewrite by_thread_snoc, decide_False, app_nil_r.
    + intros ops [[(_ & -> & Hrs)|[(? & ? & [=] & _)|(? & ? & [=] & _)]] _]. cbn in Hrs.
      split; [|cbn; by rewrite h_replies_snoc, decide_True, Hrs by done].
      right. right. exists o, r. cbn. rewrite h_ops_snoc, h_replies_snoc, !decide_True, Hrs by done.
      by rewrite <-(assoc_L (++)).
  - exists hs. split; [|done].
    eapply moment_outside; [exact Hi|exact Hm|done|cbn; lia|done..|].
    intros ops [[(_ & -> & Hrs)|[(? & ? & [=] & _)|(? & ? & [=] & _)]] _]. cbn in Hrs.
    split; cbn; [|done]. right. left. by exists o, (Lock k).
Qed.

Lemma moment_return ts st w i o r rest rs hs :
  ts !! i = Some (Thread (Some (o, Done r)) rest rs) → moment (Config ts st w) hs →
  moment (Config (<[i := Thread None rest (rs ++ [r])]> ts) st w) hs.
Proof.
  intros Hi Hm. eapply moment_outside; [exact Hi|exact Hm|done|cbn; lia|done..|].
  intros ops [Ha Hrs]. cbn in Hrs. split; [|done]. left.
  destruct Ha as [([=] & _)|[(? & ? & [= <- <-] & Hops & Hrs')|(? & ? & [= <- <-] & Hops & _)]].
  - exfalso. cbn in Hrs'. rewrite Hrs in Hrs'. apply (f_equal length) in Hrs'.
    rewrite length_app in Hrs'. cbn in Hrs'. lia.
  - done.
Qed.

Lemma moment_lock ts st w i o k rest rs hs :
  ts !! i = Some (Thread (Some (o, Lock k)) rest rs) → mutex st = false →
  moment (Config ts st w) hs →
  moment (Config (<[i := Thread (Some (o, k)) rest rs]> ts) (set_mutex true st) w) hs.
Proof.
  intros Hi Hst (Hlen & Htot & st1 & w1 & ho & Hrun & Hst1 & Hobj & Hc). cbn in *.
  destruct ho as [[[[j o1] rest1] rs1]|]; [destruct Hobj as [Hm _]; cbn in Hm; congruence|].
  destruct Hobj as [E1 E2]. cbn in E1, E2. subst st1 w1.
  assert (i < length calls)%nat as Hlt by (rewrite <-Hlen; by eapply lookup_lt_Some).
  destruct (lookup_lt_is_Some_2 _ _ Hlt) as [ops Hops].
  destruct (Hc i ops _ Hops Hi) as [Ha Hcode]. cbn in Hcode. destruct Hcode as [Hcode Hrs].
  pose proof (Hatomic o) as Hat. rewrite Hcode in Hat. cbn in Hat.
  pose proof (sum_insert to_come ts i _ (Thread (Some (o, k)) rest rs) Hi) as Hsum.
  split; [cbn; by rewrite length_insert|]. split.
  { destruct k; cbn in Hat, Hsum |- *; try done; lia. }
  exists st, w, (Some (i, o, rest, rs)). split; [done|]. split; [done|]. split.
  - split; [apply mutex_set|]. exists k. cbn.
    split; [apply list_lookup_insert_eq; by eapply lookup_lt_Some|]. split; [done|].
    rewrite Hcode. cbn. by rewrite Hst.
  - apply (update_threads (place hs None) _ ts i _ _ Hi Hc).
    + intros k1 ops1 th Hk. cbn. by rewrite decide_False.
    + intros ops1 [Ha1 _]. cbn. rewrite decide_True by done.
      destruct Ha1 as [([=] & _)|[(? & ? & [= <- <-] & Hops1 & _)|(? & ? & [=] & _)]].
      by split.
Qed.

(** A thread that uses the object, or unlocks the mutex, is its holder. *)
Lemma moment_holder ts st w i o p rest rs hs :
  ts !! i = Some (Thread (Some (o, p)) rest rs) → moment (Config ts st w) hs →
  match p with Act _ _ | Unlock _ => True | _ => False end →
  ∃ st1 w1, seq_run st0 w0 hs st1 w1 ∧ mutex st1 = false ∧ mutex st = true ∧ critical p ∧
    run p st w = run (code o) st1 w1 ∧
    ∀ k ops th, calls !! k = Some ops → ts !! k = Some th →
      place hs (Some (i, o, rest, rs)) k ops th.
Proof.
  intros Hi (Hlen & Htot & st1 & w1 & ho & Hrun & Hst1 & Hobj & Hc) Hp. cbn in *.
  assert (i < length calls)%nat as Hlt by (rewrite <-Hlen; by eapply lookup_lt_Some).
  destruct (lookup_lt_is_Some_2 _ _ Hlt) as [ops Hops].
  pose proof (Hc i ops _ Hops Hi) as Hplace. exists st1, w1.
  destruct ho as [[[[j o1] rest1] rs1]|]; [|destruct Hplace as [_ Hout]; cbn in Hout; by destruct p].
  destruct Hobj as (Hm & p1 & Hj & Hp1 & Hr). cbn in Hm, Hj, Hr.
  destruct (decide (i = j)) as [->|Hne].
  - simplify_eq. by split_and!.
  - cbn in Hplace. rewrite decide_False in Hplace by done. destruct Hplace as [_ Hout].
    cbn in Hout. by destruct p.
Qed.

Lemma moment_act ts st w i o A (a : T → C (A * T)) k rest rs x st' w' hs :
  ts !! i = Some (Thread (Some (o, Act a k)) rest rs) → a st w = Ret (x, st') w' →
  moment (Config ts st w) hs →
  moment (Config (<[i := Thread (Some (o, k x)) rest rs]> ts) st' w') hs.
Proof.
  intros Hi Ha Hmom.
  destruct (moment_holder _ _ _ _ _ _ _ _ _ Hi Hmom I)
    as (st1 & w1 & Hrun & Hst1 & Hm & [Hkeep Hk] & Hr & Hc).
  destruct Hmom as (Hlen & Htot & _). cbn in Hlen, Htot.
  pose proof (sum_insert to_come ts i _ (Thread (Some (o, k x)) rest rs) Hi) as Hsum.
  specialize (Hk x). cbn in Hr. rewrite bind_unfold, Ha in Hr.
  split; [cbn; by rewrite length_insert|]. split.
  { cbn in Hsum |- *. destruct (k x); cbn in Hk; try done; lia. }
  exists st1, w1, (Some (i, o, rest, rs)). split; [done|]. split; [done|]. split.
  - split; [cbn; by rewrite (Hkeep _ _ _ _ _ Ha)|]. exists (k x). cbn.
    split; [apply list_lookup_insert_eq; by eapply lookup_lt_Some|]. by split.
  - apply (update_threads (place hs (Some (i, o, rest, rs))) (place hs (Some (i, o, rest, rs)))
      ts i _ _ Hi Hc); [by intros|].
    intros ops. cbn. by rewrite !decide_True by done.
Qed.

Lemma moment_unlock ts st w i o k rest rs hs :
  ts !! i = Some (Thread (Some (o, Unlock k)) rest rs) → moment (Config ts st w) hs →
  ∃ r, moment (Config (<[i := Thread (Some (o, k)) rest rs]> ts) (set_mutex false st) w)
         (hs ++ [(i, o, r)]).
Proof.
  intros Hi Hmom.
  destruct (moment_holder _ _ _ _ _ _ _ _ _ Hi Hmom I)
    as (st1 & w1 & Hrun & Hst1 & Hm & [r ->] & Hr & Hc). exists r.
  destruct Hmom as (Hlen & Htot & _). cbn in Hlen, Htot, Hr.
  pose proof (sum_insert to_come ts i _ (Thread (Some (o, Done r)) rest rs) Hi) as Hsum.
  cbn in Hsum. split; [cbn; by rewrite length_insert|].
  split; [cbn; rewrite length_app; cbn; lia|].
  exists (set_mutex false st), w, None. split; [by econstructor|]. split; [apply mutex_set|].
  split; [done|].
  apply (update_threads _ (place (hs ++ [(i, o, r)]) None) ts i _ _ Hi Hc).
  - intros k ops th Hk. cbn. rewrite decide_False by done. by apply outside_other.
  - intros ops. cbn. rewrite decide_True by done. intros [-> <-].
    split; [|cbn; by rewrite h_replies_snoc, decide_True by done].
    right. right. exists o, r. cbn. rewrite h_ops_snoc, h_replies_snoc, !decide_True by done.
    by rewrite <-(assoc_L (++)).
Qed.

Lemma moment_step c c' hs :
  moment c hs → cstep c c' → ∃ hs', moment c' hs' ∧ hs `prefix_of` hs'.
Proof.
  intros Hmom Hstep. destruct Hstep.
  - by eapply moment_call.
  - exists hs. split; [by eapply moment_act|done].
  - exists hs. split; [by eapply moment_lock|done].
  - destruct (moment_unlock _ _ _ _ _ _ _ _ _ H1 Hmom) as [r Hr].
    exists (hs ++ [(i, o, r)]). split; [done|apply prefix_snoc].
  - exists hs. split; [by eapply moment_return|done].
Qed.

Lemma moment_steps c c' hs :
  moment c hs → rtc cstep c c' → ∃ hs', moment c' hs' ∧ hs `prefix_of` hs'.
Proof.
  intros Hmom Hsteps. revert hs Hmom. induction Hsteps as [|c1 c2 c3 H12 _ IH]; [eauto|].
  intros hs Hmom. destruct (moment_step _ _ _ Hmom H12) as (hs2 & H2 & Hp).
  destruct (IH _ H2) as (hs3 & H3 & Hp3). exists hs3. split; [done|by etrans].
Qed.

Lemma moment_start : moment (start calls st0 w0) [].
Proof.
  split; [apply length_fmap|]. split.
  - apply sum_start.
  - exists st0, w0, None. split; [constructor|]. split; [done|]. split; [done|].
    intros i ops th Hi Hth. cbn in Hth. rewrite list_lookup_fmap, Hi in Hth. simplify_eq/=.
    split; [by left|done].
Qed.

(** The holder's call returns when it runs alone, so its next step has a
    result. *)
Lemma holder_steps c hs st w j o rest rs :
  length (c_threads c) = length calls →
  (length hs + sum_list_with to_come (c_threads c) = total)%nat →
  seq_run st0 w0 hs st w → object_ok c (Some (j, o, rest, rs)) st w →
  ∃ p, c_threads c !! j = Some (Thread (Some (o, p)) rest rs) ∧
    match p with
    | Act a k => ∃ x st' w', a (c_obj c) (c_world c) = Ret (x, st') w'
    | Unlock _ => True
    | _ => False
    end.
Proof.
  intros Hlen Htot Hrun (Hm & p & Hj & Hp & Hr). exists p. split; [done|].
  destruct p as [r|A a k|k|k]; cbn in Hp; try done.
  pose proof (sum_insert to_come _ _ _ (Thread None rest rs) Hj) as Hsum. cbn in Hsum.
  destruct (Hseq hs st w o Hrun ltac:(lia)) as (r & st' & w' & Ho & _).
  rewrite <-Hr in Ho. cbn in Ho. rewrite bind_unfold in Ho.
  destruct (a (c_obj c) (c_world c)) as [[x st2] w2| |]; [eauto|done..].
Qed.

Lemma outside_steps ts st w hs i ops th :
  mutex st = false → ts !! i = Some th → ¬ finished th → outside hs i ops th →
  ∃ c', cstep (Config ts st w) c'.
Proof.
  intros Hst Hi Hth [_ Hout]. destruct th as [[[o p]|] rest rs]; cbn in Hout.
  - destruct p as [r|A a k|k|k]; try done.
    + by eexists; eapply step_return.
    + by eexists; eapply step_lock.
  - destruct rest as [|o rest]; [by destruct Hth|]. by eexists; eapply step_call.
Qed.

(** No step is undefined, and some thread can take a step unless all are
    finished. *)
Lemma moment_progress c hs :
  moment c hs → ¬ goes_wrong c ∧ (Forall finished (c_threads c) ∨ ∃ c', cstep c c').
Proof.
  intros Hmom. destruct c as [ts st w]. split.
  - intros (i & o & A & a & k & rest & rs & Hi & Hno). cbn in Hi, Hno.
    pose proof Hmom as (Hlen & Htot & _).
    destruct (moment_holder _ _ _ _ _ _ _ _ _ Hi Hmom I)
      as (st1 & w1 & Hrun & _ & Hm & Hp & Hr & _).
    destruct (holder_steps (Config ts st w) hs st1 w1 i o rest rs Hlen Htot Hrun)
      as (p & Hi' & Hstep); [by split; [|exists (Act a k)]|].
    cbn in Hi', Hstep. rewrite Hi in Hi'. injection Hi' as <-.
    destruct Hstep as (x & st' & w' & Hx). by apply Hno in Hx.
  - destruct Hmom as (Hlen & Htot & st1 & w1 & ho & Hrun & Hst1 & Hobj & Hc). cbn in *.
    destruct ho as [[[[j o] rest] rs]|].
    + right. destruct (holder_steps (Config ts st w) hs st1 w1 j o rest rs Hlen Htot Hrun Hobj)
        as (p & Hj & Hstep). cbn in Hj, Hstep.
      destruct p as [r|A a k|k|k]; try done; [|by eexists; eapply step_unlock].
      destruct Hstep as (x & st' & w' & Hx). by eexists; eapply step_act.
    + destruct Hobj as [E1 E2]. cbn in E1, E2. subst st1 w1.
      destruct (decide (Exists (λ th, ¬ finished th) ts)) as [He|Hn].
      * right. apply Exists_exists in He as (th & Hin & Hth).
        apply list_elem_of_lookup in Hin as [i Hi].
        assert (i < length calls)%nat as Hlt by (rewrite <-Hlen; by eapply lookup_lt_Some).
        destruct (lookup_lt_is_Some_2 _ _ Hlt) as [ops Hops].
        by eapply outside_steps, (Hc i).
      * left. apply Forall_forall. intros th Hin. apply dec_stable. intros Hth.
        apply Hn, Exists_exists. by exists th.
Qed.

(** Every moment of every interleaving is explained by a history that only
    grows, no step is undefined, and no thread waits for ever. *)
Lemma interleavings_sequential c :
  rtc cstep (start calls st0 w0) c →
  ∃ hs, explains calls st0 w0 c hs ∧ (length hs ≤ total)%nat ∧ ¬ goes_wrong c ∧
    (Forall finished (c_threads c) ∨ ∃ c', cstep c c') ∧
    ∀ c', rtc cstep c c' → ∃ hs', explains calls st0 w0 c' hs' ∧ hs `prefix_of` hs'.
Proof.
  intros Hc. destruct (moment_steps _ _ _ moment_start Hc) as (hs & Hmom & _).
  exists hs. destruct (moment_progress _ _ Hmom). split_and!;
    [by apply moment_explains|destruct Hmom as (_ & ? & _); lia|done..|].
  intros c' Hc'. destruct (moment_steps _ _ _ Hmom Hc') as (hs' & Hmom' & Hp).
  exists hs'. split; [by apply moment_explains|done].
Qed.

End history.

End threads.

(** ** Invariants of every interleaving

    What the steps of a program keep of the object, whatever the other threads
    do to it between two of them: the invariant [I], and the guarantee [R] of
    each single step.  The steps that have a result are all that counts. *)

Definition post {A} (m : C A) (Q : A → Prop) : Prop := ∀ w a w', m w = Ret a w' → Q a.

Lemma post_ret {A} (a : A) (Q : A → Prop) : Q a → post (mret a) Q.
Proof. by intros HQ w a' w' [= <- <-]. Qed.

Lemma post_bind {A B} (m : C A) (f : A → C B) (P : A → Prop) (Q : B → Prop) :
  post m P → (∀ a, P a → post (f a) Q) → post (m ≫= f) Q.
Proof.
  intros Hm Hf w b w'. rewrite bind_unfold. destruct (m w) as [a w1| |] eqn:E; [|done..].
  intros Hb. by eapply Hf; [eapply Hm|].
Qed.

Lemma post_any {A} (m : C A) : post m (λ _, True).
Proof. done. Qed.

Lemma post_wp {A} (m : C A) (Q : A → Prop) : (∀ w, wp m w (λ a _, Q a)) → post m Q.
Proof. intros Hm w a w' E. specialize (Hm w). unfold wp in Hm. by rewrite E in Hm. Qed.

Lemma wp_result {A} (m : C A) w (Q : A → world → Prop) a w' :
  wp m w Q → m w = Ret a w' → Q a w'.
Proof. unfold wp. intros Hm E. by rewrite E in Hm. Qed.

Lemma post_deref {A} (o : option A) (Q : A → Prop) : (∀ a, o = Some a → Q a) → post (deref o) Q.
Proof. intros HQ. destruct o as [a|]; [by apply post_ret, HQ|done]. Qed.

Section invariants.
Context `{Locked T} (G I : T → Prop) (R : T → T → Prop) `{!PreOrder R}.
#[local] Set Default Proof Using "Type*".

Fixpoint keeps {X} (p : prog T X) (Q : X → Prop) : Prop :=
  match p with
  | Done r => Q r
  | Act a k => ∀ st w x st' w',
      G st → I st → a st w = Ret (x, st') w' → (I st' ∧ R st st') ∧ keeps (k x) Q
  | Lock k => (∀ st, I st → I (set_mutex true st) ∧ R st (set_mutex true st)) ∧ keeps k Q
  | Unlock k => (∀ st, I st → I (set_mutex false st) ∧ R st (set_mutex false st)) ∧ keeps k Q
  end.

Lemma keeps_ret {X} (r : X) (Q : X → Prop) : Q r → keeps (mret r) Q.
Proof. done. Qed.

Lemma keeps_bind {X Y} (p : prog T X) (f : X → prog T Y) (P : X → Prop) (Q : Y → Prop) :
  keeps p P → (∀ r, P r → keeps (f r) Q) → keeps (p ≫= f) Q.
Proof.
  intros Hp Hf. unfold mbind, prog_mbind. induction p as [r|A a k IH|k IH|k IH]; cbn in *.
  - by apply Hf.
  - intros st w x st' w' HG HI Ha. destruct (Hp st w x st' w' HG HI Ha). eauto.
  - destruct Hp. eauto.
  - destruct Hp. eauto.
Qed.

Lemma keeps_local {A} (m : C A) (Q : A → Prop) : post m Q → keeps (local m) Q.
Proof.
  intros Hm st w x st' w' _ HI. cbn. rewrite bind_unfold.
  destruct (m w) as [a w1| |] eqn:E; [|done..]. intros [= <- <- <-].
  split; [by split|by eapply Hm].
Qed.

(** A step of an interleaving, at a moment when [G] holds. *)
Definition cstep_within {Op Reply} (code : Op → prog T Reply) (c c' : @config T Op Reply) : Prop :=
  G (c_obj c) ∧ cstep code c c'.

Definition thread_keeps {Op Reply} (code : Op → prog T Reply) (th : @thread T Op Reply) : Prop :=
  match th_now th with Some (_, p) => keeps p (λ _, True) | None => True end ∧
  ∀ o, o ∈ th_rest th → keeps (code o) (λ _, True).

Lemma cstep_keeps {Op Reply} (code : Op → prog T Reply) c c' :
  cstep_within code c c' → I (c_obj c) → (∀ i th, c_threads c !! i = Some th → thread_keeps code th) →
  (I (c_obj c') ∧ R (c_obj c) (c_obj c')) ∧
  ∀ i th, c_threads c' !! i = Some th → thread_keeps code th.
Proof.
  intros [HG Hstep] HI Hall.
  assert (∀ (ts : list (@thread T Op Reply)) i th,
    (∀ j th, ts !! j = Some th → thread_keeps code th) → thread_keeps code th →
    ∀ j th', <[i := th]> ts !! j = Some th' → thread_keeps code th') as Hins.
  { intros ts i th Hts Hth j th' Hj.
    apply list_lookup_insert_Some in Hj as [(_ & <- & _)|[_ ?]]; eauto. }
  destruct Hstep as [ts st w i o rest rs Hi|ts st w i o A a k rest rs x st' w' Hi Ha
    |ts st w i o k rest rs Hi Hm|ts st w i o k rest rs Hi|ts st w i o r rest rs Hi];
    cbn in *; destruct (Hall i _ Hi) as [Hnow Hrest]; cbn in Hnow, Hrest.
  - split; [by split|]. apply Hins; [done|]. split; cbn.
    + apply Hrest. by left.
    + intros o' Ho. apply Hrest. by right.
  - destruct (Hnow st w x st' w' HG HI Ha) as [HI' Hk]. split; [done|]. by apply Hins.
  - split; [by apply Hnow|]. apply Hins; [done|]. by split; [apply Hnow|].
  - split; [by apply Hnow|]. apply Hins; [done|]. by split; [apply Hnow|].
  - split; [by split|]. by apply Hins.
Qed.

Lemma csteps_keep {Op Reply} (code : Op → prog T Reply) c c' :
  rtc (cstep_within code) c c' → I (c_obj c) →
  (∀ i th, c_threads c !! i = Some th → thread_keeps code th) →
  (I (c_obj c') ∧ R (c_obj c) (c_obj c')) ∧
  ∀ i th, c_threads c' !! i = Some th → thread_keeps code th.
Proof.
  induction 1 as [c|c1 c2 c3 H12 _ IH]; [done|]. intros HI Hall.
  destruct (cstep_keeps code _ _ H12 HI Hall) as [[HI2 H2] Hall2].
  destruct (IH HI2 Hall2) as [[HI3 H3] Hall3]. split; [|done]. split; [done|by etrans].
Qed.

(** A list of turns, during which [g] is tested at every moment. *)
Fixpoint always {Op Reply} (code : Op → prog T Reply) (g : T → bool) (turns : list nat)
    (c : @config T Op Reply) : bool :=
  g (c_obj c) &&
  match turns with [] => true | i :: turns => always code g turns (default c (cnext code i c)) end.

Lemma schedule_within {Op Reply} (code : Op → prog T Reply) g turns c :
  (∀ st, g st = true → G st) → always code g turns c = true →
  rtc (cstep_within code) c (schedule code turns c).
Proof using Type.
  intros Hg. revert c. unfold schedule. induction turns as [|i turns IH]; intros c; cbn; [done|].
  intros [Hc Hall]%andb_true_iff. destruct (cnext code i c) as [c'|] eqn:E; cbn in *; [|by apply IH].
  eapply rtc_l; [|by apply IH]. split; [by apply Hg|by eapply cnext_step].
Qed.

Lemma interleavings_keep {Op Reply} (code : Op → prog T Reply) calls st w c c' :
  (∀ o, o ∈ concat calls → keeps (code o) (λ _, True)) → I st →
  rtc (cstep_within code) (start calls st w) c → rtc (cstep_within code) c c' →
  I (c_obj c) ∧ R (c_obj c) (c_obj c').
Proof.
  intros Hcode HI Hrun Hmore.
  destruct (csteps_keep code _ _ Hrun HI) as [[HI1 _] Hall].
  - intros i th Hi. cbn in Hi. apply list_lookup_fmap_Some in Hi as (ops & -> & Hi).
    split; [done|]. intros o Ho. apply Hcode, list_elem_of_In, in_concat. exists ops.
    split; apply list_elem_of_In; [by eapply list_elem_of_lookup_2|done].
  - by destruct (csteps_keep code _ _ Hmore HI1 Hall) as [[_ ?] _].
Qed.

End invariants.
