(* ===== verification/MemoryStore.v ===== *)
(** [src/store/memory.c]: the in-memory session store, a dynamic array of
    sessions under a mutex, and its refinement of the abstract map of
    [Store.v].  The live part of the array is the list [ms_sessions] (its
    length is [count]); reading or writing outside it, or past [capacity],
    is undefined behaviour, and locking the mutex twice hangs. *)

From S2P Require Export Store.
From stdpp Require Import options.
#[local] Open Scope Z_scope.

(** ** Data *)

Definition OPENDBSC_MEMORY_STORE_INITIAL_CAPACITY : nat := 8.

Record OpenDBSC_MemoryStore := MemoryStore {
  ms_sessions : list OpenDBSC_Session;
  ms_capacity : nat;
  ms_mutex : bool
}.

Definition ms_count (ms : OpenDBSC_MemoryStore) : nat := length (ms_sessions ms).

Definition with_sessions (l : list OpenDBSC_Session) (ms : OpenDBSC_MemoryStore) :=
  MemoryStore l (ms_capacity ms) (ms_mutex ms).
Definition with_capacity (n : nat) (ms : OpenDBSC_MemoryStore) :=
  MemoryStore (ms_sessions ms) n (ms_mutex ms).
Definition with_mutex (b : bool) (ms : OpenDBSC_MemoryStore) :=
  MemoryStore (ms_sessions ms) (ms_capacity ms) b.

(** [pthread_mutex_lock], [pthread_mutex_unlock]. *)
Definition lock (ms : OpenDBSC_MemoryStore) : C OpenDBSC_MemoryStore :=
  if ms_mutex ms then hang else mret (with_mutex true ms).
Definition unlock (ms : OpenDBSC_MemoryStore) : OpenDBSC_MemoryStore := with_mutex false ms.

(** [(int)i] of a [size_t]. *)
Definition int_of_size (i : Z) : Z := (i + 2 ^ 31) `mod` 2 ^ 32 - 2 ^ 31.

(** [p != NULL && strcmp(p, s) == 0]. *)
Definition str_is (p : cstr) (s : string) : bool :=
  match p with Some t => String.eqb t s | None => false end.

(** ** Operations *)

Definition memory_store_is_expired (session : option OpenDBSC_Session) : C bool :=
  match session with
  | None => mret false
  | Some s =>
      if negb (s_has_expires s) then mret false else
      now ← time_NULL;
      mret (s_expires_at s <? now)
  end.

Definition memory_store_grow (ms : OpenDBSC_MemoryStore) : C (Z * OpenDBSC_MemoryStore) :=
  if decide (ms_count ms < ms_capacity ms)%nat then mret (0, ms) else
  let new_capacity :=
    if decide (ms_capacity ms = 0%nat) then OPENDBSC_MEMORY_STORE_INITIAL_CAPACITY
    else (ms_capacity ms * 2)%nat in
  ok ← malloc;
  if negb ok then mret (-1, ms) else mret (0, with_capacity new_capacity ms).

Fixpoint find_loop (l : list OpenDBSC_Session) (id : string) (i : nat) : Z :=
  match l with
  | [] => -1
  | s :: l' => if str_is (s_id s) id then int_of_size (Z.of_nat i) else find_loop l' id (S i)
  end.

Definition memory_store_find (ms : OpenDBSC_MemoryStore) (id : cstr) : Z :=
  match id with None => -1 | Some id => find_loop (ms_sessions ms) id 0 end.

(** The array after [remove_at]: the last session takes the place [idx] of the
    one that was freed, which is [blank] by then. *)
Definition swap_remove {A} (blank : A) (idx : nat) (l : list A) : list A :=
  let count := length l in
  let l := <[idx := blank]> l in
  let l := if decide (idx = (count - 1)%nat) then l
           else match l !! (count - 1)%nat with Some last => <[idx := last]> l | None => l end in
  take (count - 1) l.

Definition memory_store_remove_at (ms : OpenDBSC_MemoryStore) (idx : nat)
    : C OpenDBSC_MemoryStore :=
  if decide (idx < ms_count ms)%nat then
    mret (with_sessions (swap_remove session_default idx (ms_sessions ms)) ms)
  else ub.

Fixpoint expire_loop (fuel : nat) (ms : OpenDBSC_MemoryStore) (i : nat)
    : C OpenDBSC_MemoryStore :=
  match fuel with
  | O => hang
  | S fuel' =>
      if decide (i < ms_count ms)%nat then
        s ← deref (ms_sessions ms !! i);
        e ← memory_store_is_expired (Some s);
        if e : bool then (ms ← memory_store_remove_at ms i; expire_loop fuel' ms i)
        else expire_loop fuel' ms (S i)
      else mret ms
  end.

Definition memory_store_expire (ms : OpenDBSC_MemoryStore) : C OpenDBSC_MemoryStore :=
  expire_loop (S (ms_count ms)) ms 0.

(** Overwriting the session at [idx] by a copy of [session], as both [create]
    (for an identifier it knows) and [update] do: free, copy, and on failure
    free again and leave an initialised slot. *)
Definition overwrite_at (ms : OpenDBSC_MemoryStore) (idx : nat)
    (session : option OpenDBSC_Session) : C (Z * OpenDBSC_MemoryStore) :=
  slot ← deref (ms_sessions ms !! idx);
  '(rc, slot) ← opendbsc_session_copy (opendbsc_session_free (Some slot)) session;
  slot ← deref slot;
  if negb (rc =? 0) then
    slot ← deref (opendbsc_session_init (opendbsc_session_free (Some slot)));
    mret (-1, unlock (with_sessions (<[idx := slot]> (ms_sessions ms)) ms))
  else mret (0, unlock (with_sessions (<[idx := slot]> (ms_sessions ms)) ms)).

Definition opendbsc_memory_store_create_impl (ms : OpenDBSC_MemoryStore)
    (session : option OpenDBSC_Session) : C (Z * OpenDBSC_MemoryStore) :=
  match session with
  | None => mret (-1, ms)
  | Some s =>
      match s_id s with
      | None => mret (-1, ms)
      | Some _ =>
          ms ← lock ms;
          let idx := memory_store_find ms (s_id s) in
          if 0 <=? idx then overwrite_at ms (Z.to_nat idx) session else
          '(rc, ms) ← memory_store_grow ms;
          if negb (rc =? 0) then mret (-1, unlock ms) else
          (* writes to sessions[count] *)
          if negb (bool_decide (ms_count ms < ms_capacity ms)%nat) then ub else
          '(rc, slot) ← opendbsc_session_copy (opendbsc_session_init (Some session_default))
                          session;
          if negb (rc =? 0) then mret (-1, unlock ms) else
          slot ← deref slot;
          mret (0, unlock (with_sessions (ms_sessions ms ++ [slot]) ms))
      end
  end.

Definition opendbsc_memory_store_get_impl (ms : OpenDBSC_MemoryStore) (id : cstr)
    (out : option (option OpenDBSC_Session))
    : C (Z * option (option OpenDBSC_Session) * OpenDBSC_MemoryStore) :=
  match out with
  | None => mret (-1, None, ms)
  | Some _ =>
      match id with
      | None => mret (-1, Some None, ms)
      | Some _ =>
          ms ← lock ms;
          let idx := memory_store_find ms id in
          if idx <? 0 then mret (-1, Some None, unlock ms) else
          stored ← deref (ms_sessions ms !! Z.to_nat idx);
          e ← memory_store_is_expired (Some stored);
          if e : bool then
            ms ← memory_store_remove_at ms (Z.to_nat idx);
            mret (-1, Some None, unlock ms)
          else
            copy ← malloc;
            if negb copy then mret (-1, Some None, unlock ms) else
            '(rc, copy) ← opendbsc_session_copy (opendbsc_session_init (Some session_default))
                            (Some stored);
            if negb (rc =? 0) then mret (-1, Some None, unlock ms) else
            mret (0, Some copy, unlock ms)
      end
  end.

Definition opendbsc_memory_store_update_impl (ms : OpenDBSC_MemoryStore)
    (session : option OpenDBSC_Session) : C (Z * OpenDBSC_MemoryStore) :=
  match session with
  | None => mret (-1, ms)
  | Some s =>
      match s_id s with
      | None => mret (-1, ms)
      | Some _ =>
          ms ← lock ms;
          let idx := memory_store_find ms (s_id s) in
          if idx <? 0 then mret (-1, unlock ms)
          else overwrite_at ms (Z.to_nat idx) session
      end
  end.

Definition opendbsc_memory_store_delete_impl (ms : OpenDBSC_MemoryStore) (id : cstr)
    : C (Z * OpenDBSC_MemoryStore) :=
  match id with
  | None => mret (0, ms)
  | Some _ =>
      ms ← lock ms;
      let idx := memory_store_find ms id in
      if 0 <=? idx then
        (ms ← memory_store_remove_at ms (Z.to_nat idx); mret (0, unlock ms))
      else mret (0, unlock ms)
  end.

(** The copying loop of [get_by_user_id]: [matches] is the array of
    [capacity] sessions being filled. *)
Fixpoint copy_matches (l : list OpenDBSC_Session) (user_id : string) (capacity : nat)
    (matches : list OpenDBSC_Session) : C (option (list OpenDBSC_Session)) :=
  match l with
  | [] => mret (Some matches)
  | s :: l' =>
      if str_is (s_user_id s) user_id then
        if negb (bool_decide (length matches < capacity)%nat) then ub else
        '(rc, d) ← opendbsc_session_copy (opendbsc_session_init (Some session_default)) (Some s);
        if negb (rc =? 0) then mret None else
        d ← deref d;
        copy_matches l' user_id capacity (matches ++ [d])
      else copy_matches l' user_id capacity matches
  end.

Definition opendbsc_memory_store_get_by_user_id_impl (ms : OpenDBSC_MemoryStore)
    (user_id : cstr) (out : option (list OpenDBSC_Session)) (count : option nat)
    : C (Z * option (list OpenDBSC_Session) * option nat * OpenDBSC_MemoryStore) :=
  match out, count, user_id with
  | Some _, Some _, Some user_id =>
      ms ← lock ms;
      ms ← memory_store_expire ms;
      let match_count :=
        length (filter (λ s, str_is (s_user_id s) user_id = true) (ms_sessions ms)) in
      if decide (match_count = 0%nat) then mret (0, Some [], Some 0%nat, unlock ms) else
      ok ← malloc;
      if negb ok then mret (-1, Some [], Some 0%nat, unlock ms) else
      matches ← copy_matches (ms_sessions ms) user_id match_count [];
      match matches with
      | None => mret (-1, Some [], Some 0%nat, unlock ms)
      | Some l => mret (0, Some l, Some match_count, unlock ms)
      end
  | _, _, _ => mret (-1, out, count, ms)
  end.

Fixpoint delete_user_loop (fuel : nat) (ms : OpenDBSC_MemoryStore) (user_id : string) (i : nat)
    : C OpenDBSC_MemoryStore :=
  match fuel with
  | O => hang
  | S fuel' =>
      if decide (i < ms_count ms)%nat then
        s ← deref (ms_sessions ms !! i);
        if str_is (s_user_id s) user_id then
          (ms ← memory_store_remove_at ms i; delete_user_loop fuel' ms user_id i)
        else delete_user_loop fuel' ms user_id (S i)
      else mret ms
  end.

Definition opendbsc_memory_store_delete_by_user_id_impl (ms : OpenDBSC_MemoryStore)
    (user_id : cstr) : C (Z * OpenDBSC_MemoryStore) :=
  match user_id with
  | None => mret (0, ms)
  | Some u =>
      ms ← lock ms;
      ms ← delete_user_loop (S (ms_count ms)) ms u 0;
      mret (0, unlock ms)
  end.

(** The store after [destroy] is gone. *)
Definition opendbsc_memory_store_destroy_impl (ms : option OpenDBSC_MemoryStore)
    : C (option OpenDBSC_MemoryStore) :=
  match ms with
  | None => mret None
  | Some ms => ms ← lock ms; mret None
  end.

(** [pthread_mutex_init] can fail like an allocation does. *)
Definition opendbsc_memory_store_create : C (option OpenDBSC_MemoryStore) :=
  ok ← malloc;
  if negb ok then mret None else
  mutex ← malloc;
  if negb mutex then mret None else
  store ← malloc;
  if negb store then mret None else
  mret (Some (MemoryStore [] 0 false)).

#[export] Instance memory_Store : Store OpenDBSC_MemoryStore := {
  st_create := opendbsc_memory_store_create_impl;
  st_get := opendbsc_memory_store_get_impl;
  st_update := opendbsc_memory_store_update_impl;
  st_delete := opendbsc_memory_store_delete_impl;
  st_get_by_user_id := opendbsc_memory_store_get_by_user_id_impl;
  st_delete_by_user_id := opendbsc_memory_store_delete_by_user_id_impl
}.

#[global] Arguments memory_store_is_expired : simpl never.
#[global] Arguments opendbsc_memory_store_create_impl : simpl never.
#[global] Arguments opendbsc_memory_store_get_impl : simpl never.
#[global] Arguments opendbsc_memory_store_update_impl : simpl never.
#[global] Arguments opendbsc_memory_store_delete_impl : simpl never.
#[global] Arguments opendbsc_memory_store_get_by_user_id_impl : simpl never.
#[global] Arguments opendbsc_memory_store_delete_by_user_id_impl : simpl never.
#[global] Arguments memory_store_remove_at : simpl never.
#[global] Arguments memory_store_find : simpl never.
#[global] Arguments swap_remove : simpl never.

(** ** The array as a map *)

Definition ids (l : list OpenDBSC_Session) : list string := omap s_id l.
#[global] Arguments ids : simpl never.

(** Sessions by identifier; slots without one do not count. *)
Definition view_of (l : list OpenDBSC_Session) : view :=
  list_to_map (omap (λ s, (λ i, (i, s)) <$> s_id s) l).

Definition ms_view (ms : OpenDBSC_MemoryStore) : view := view_of (ms_sessions ms).

(** A slot without identifier is one a failed copy has re-initialised. *)
Definition dead_ok (l : list OpenDBSC_Session) : Prop :=
  Forall (λ s, s_id s = None → s = session_default) l.

(** The invariant between calls: identifiers are unique, slots without one
    are blank, the array fits its allocation and the [int] that [find]
    returns, and the mutex is free. *)
Record ms_wf (ms : OpenDBSC_MemoryStore) : Prop := {
  ms_wf_ids : NoDup (ids (ms_sessions ms));
  ms_wf_dead : dead_ok (ms_sessions ms);
  ms_wf_capacity : (ms_count ms ≤ ms_capacity ms)%nat;
  ms_wf_int : Z.of_nat (ms_count ms) < 2 ^ 31;
  ms_wf_mutex : ms_mutex ms = false
}.

Lemma view_fst l : (omap (λ s, (λ i, (i, s)) <$> s_id s) l).*1 = ids l.
Proof.
  unfold ids. induction l as [|s l IH]; [done|]. cbn.
  destruct (s_id s); cbn; [f_equal|]; exact IH.
Qed.

#[export] Instance ids_perm : Proper ((≡ₚ) ==> (≡ₚ)) ids.
Proof. exact (omap_Permutation s_id). Qed.

#[export] Instance dead_ok_perm : Proper ((≡ₚ) ==> iff) dead_ok.
Proof. intros l1 l2 Hp. unfold dead_ok. by rewrite Hp. Qed.

Lemma view_of_perm l1 l2 : NoDup (ids l1) → l1 ≡ₚ l2 → view_of l1 = view_of l2.
Proof.
  intros Hn Hp. apply list_to_map_proper; [by rewrite view_fst|]. by rewrite Hp.
Qed.

Lemma view_of_cons_Some s l id :
  s_id s = Some id → view_of (s :: l) = <[id := s]> (view_of l).
Proof. intros H. unfold view_of. simpl. by rewrite H. Qed.

Lemma view_of_cons_None s l : s_id s = None → view_of (s :: l) = view_of l.
Proof. intros H. unfold view_of. simpl. by rewrite H. Qed.

Lemma view_of_None l id : view_of l !! id = None ↔ id ∉ ids l.
Proof. unfold view_of. by rewrite <-not_elem_of_list_to_map, view_fst. Qed.

Lemma view_of_lookup l id s :
  NoDup (ids l) → view_of l !! id = Some s ↔ s ∈ l ∧ s_id s = Some id.
Proof.
  intros Hn. unfold view_of. rewrite <-elem_of_list_to_map by (by rewrite view_fst).
  rewrite list_elem_of_omap. split.
  - intros (x & Hx & Hs). destruct (s_id x) eqn:E; naive_solver.
  - intros [Hx Hid]. exists s. by rewrite Hid.
Qed.

Lemma ids_cons_Some s l id : s_id s = Some id → ids (s :: l) = id :: ids l.
Proof. intros H. unfold ids. simpl. by rewrite H. Qed.

Lemma ids_cons_None s l : s_id s = None → ids (s :: l) = ids l.
Proof. intros H. unfold ids. simpl. by rewrite H. Qed.

(** Taking one session out of the array. *)
Lemma view_of_split l r s id :
  NoDup (ids l) → l ≡ₚ (s :: r) → s_id s = Some id →
  view_of l = <[id := s]> (view_of r) ∧ NoDup (ids r) ∧ (id ∉ ids r) ∧
  view_of r = delete id (view_of l).
Proof.
  intros Hn Hp Hid. rewrite (view_of_perm _ _ Hn Hp), (view_of_cons_Some s r id Hid).
  rewrite Hp, (ids_cons_Some _ _ id) in Hn by done.
  apply NoDup_cons in Hn as [Hnot Hn]. split_and!; try done.
  rewrite delete_insert_id; [done|]. by apply view_of_None.
Qed.

Lemma ids_not_in_perm l r s :
  NoDup (ids l) → l ≡ₚ (s :: r) → NoDup (ids r).
Proof.
  intros Hn Hp. rewrite Hp in Hn. destruct (s_id s) eqn:E.
  - rewrite (ids_cons_Some _ _ _ E) in Hn. by apply NoDup_cons in Hn as [_ ?].
  - by rewrite ids_cons_None in Hn.
Qed.

Lemma overwrite_perm {A} (l : list A) i x s :
  l !! i = Some x → ∃ r, l ≡ₚ (x :: r) ∧ (<[i := s]> l) ≡ₚ (s :: r).
Proof.
  intros Hi. exists (delete i l). split; [by apply delete_Permutation|].
  rewrite (delete_Permutation (<[i:=s]> l : list _) i s)
    by (apply list_lookup_insert_eq; by eapply lookup_lt_Some).
  by rewrite !delete_take_drop, take_insert_ge, drop_insert_lt by lia.
Qed.

Lemma swap_remove_perm {A} (d : A) l i x : l !! i = Some x → l ≡ₚ (x :: swap_remove d i l).
Proof.
  intros Hi. pose proof (lookup_lt_Some _ _ _ Hi) as Hlt. unfold swap_remove.
  destruct l as [|y l _] using rev_ind; [simpl in Hlt; lia|].
  rewrite length_app in *. simpl in *.
  replace (length l + 1 - 1)%nat with (length l) by lia. case_decide as Hlast.
  - subst i. rewrite lookup_app_r, Nat.sub_diag in Hi by lia. simplify_eq/=.
    rewrite take_insert_ge, take_app_length by lia.
    symmetry. apply Permutation_cons_append.
  - rewrite list_lookup_insert_ne, lookup_app_r, Nat.sub_diag by lia. simpl.
    rewrite list_insert_insert_eq.
    rewrite lookup_app_l in Hi by lia. rewrite insert_app_l by lia.
    rewrite take_app_le by (rewrite length_insert; lia).
    rewrite take_ge by (rewrite length_insert; lia).
    destruct (overwrite_perm l i x y Hi) as (r & Hr & ->).
    rewrite <-Permutation_cons_append, Hr. constructor.
Qed.

Lemma length_swap_remove {A} (d : A) l i :
  (i < length l)%nat → S (length (swap_remove d i l)) = length l.
Proof.
  intros [x Hx]%lookup_lt_is_Some_2. by rewrite (swap_remove_perm d l i x Hx) at 2.
Qed.

(** *** Looking up *)

Lemma int_of_size_small i : 0 ≤ i < 2 ^ 31 → int_of_size i = i.
Proof. intros ?. unfold int_of_size. rewrite Z.mod_small; lia. Qed.

Lemma str_is_spec p s : str_is p s = true ↔ p = Some s.
Proof.
  destruct p as [t|]; simpl; [|by split]. rewrite String.eqb_eq. naive_solver.
Qed.

Lemma find_loop_spec l id i :
  Z.of_nat (i + length l) < 2 ^ 31 →
  ((id ∉ ids l) ∧ find_loop l id i = -1) ∨
  ∃ j s, l !! j = Some s ∧ s_id s = Some id ∧ find_loop l id i = Z.of_nat (i + j).
Proof.
  revert i. induction l as [|s l IH]; intros i Hlen; simpl in *.
  { left. split; [apply not_elem_of_nil|done]. }
  destruct (str_is (s_id s) id) eqn:E.
  - apply str_is_spec in E. right. exists 0%nat, s.
    rewrite int_of_size_small by lia. rewrite Nat.add_0_r. done.
  - destruct (IH (S i)) as [[Hnot ->]|(j & s' & Hj & Hid & ->)]; [lia| |].
    + left. split; [|done]. destruct (s_id s) as [id'|] eqn:Eid.
      * rewrite (ids_cons_Some _ _ _ Eid). apply not_elem_of_cons. split; [|done].
        intros <-. simpl in E. by rewrite String.eqb_refl in E.
      * by rewrite ids_cons_None.
    + right. exists (S j), s'. split_and!; [done..|]. f_equal. lia.
Qed.

(** [find] is exact: it returns an index whose session has the identifier,
    or -1 when the map has none. *)
Lemma memory_store_find_spec ms id :
  ms_wf ms →
  (ms_view ms !! id = None ∧ memory_store_find ms (Some id) = -1) ∨
  ∃ i s, ms_sessions ms !! i = Some s ∧ s_id s = Some id ∧ ms_view ms !! id = Some s ∧
         memory_store_find ms (Some id) = Z.of_nat i ∧ (i < ms_count ms)%nat.
Proof.
  intros [Hn _ _ Hint _].
  destruct (find_loop_spec (ms_sessions ms) id 0) as [[H1 H2]|(i & s & Hi & Hid & Hf)].
  - by unfold ms_count in Hint.
  - left. split; [by apply view_of_None|done].
  - right. exists i, s. split_and!; try done; [|by eapply lookup_lt_Some].
    apply view_of_lookup; [done|]. split; [|done]. by eapply list_elem_of_lookup_2.
Qed.

(** *** Sweeping loops

    [expire] and [delete_by_user_id] walk the array and drop the sessions
    that satisfy a test, moving the last session into the hole; [sweep] is
    that walk for a test that does not depend on the environment. *)
Fixpoint sweep (P : OpenDBSC_Session → bool) (fuel : nat) (l : list OpenDBSC_Session) (i : nat)
    : option (list OpenDBSC_Session) :=
  match fuel with
  | O => None
  | S fuel' =>
      match l !! i with
      | None => Some l
      | Some s => if P s then sweep P fuel' (swap_remove session_default i l) i else sweep P fuel' l (S i)
      end
  end.

Lemma take_swap_remove {A} (d : A) i l :
  (i < length l)%nat → take i (swap_remove d i l) = take i l.
Proof.
  intros Hi. unfold swap_remove. rewrite take_take, Nat.min_l by lia.
  case_decide; [by rewrite take_insert_ge by lia|].
  case_match; by rewrite !take_insert_ge by lia.
Qed.

Lemma drop_swap_remove {A} (d : A) i l :
  (i < length l)%nat → drop i (swap_remove d i l) ≡ₚ drop (S i) l.
Proof.
  intros Hi. destruct (lookup_lt_is_Some_2 l i Hi) as [x Hx].
  apply (Permutation_app_inv_l (take i l ++ [x])).
  rewrite <-!(assoc_L (++)). simpl. rewrite <-(drop_S _ _ _ Hx), take_drop.
  rewrite <-Permutation_middle, <-(take_swap_remove d i l Hi), take_drop.
  symmetry. by apply swap_remove_perm.
Qed.

(** Enough fuel, and the walk keeps exactly the sessions that fail the test. *)
Lemma sweep_spec P fuel l i :
  (length l - i < fuel)%nat →
  ∃ l', sweep P fuel l i = Some l' ∧
        l' ≡ₚ take i l ++ filter (λ s, P s = false) (drop i l).
Proof.
  revert l i. induction fuel as [|fuel IH]; intros l i Hf; [lia|]. simpl.
  destruct (l !! i) as [s|] eqn:Hs.
  - pose proof (lookup_lt_Some _ _ _ Hs) as Hlt. rewrite (drop_S _ _ _ Hs).
    pose proof (length_swap_remove session_default l i Hlt). destruct (P s) eqn:HP.
    + rewrite filter_cons_False by congruence.
      destruct (IH (swap_remove session_default i l) i) as (l' & -> & Hl'); [lia|]. exists l'. split; [done|].
      by rewrite Hl', take_swap_remove, drop_swap_remove.
    + rewrite filter_cons_True by done. destruct (IH l (S i)) as (l' & -> & Hl'); [lia|].
      exists l'. split; [done|]. rewrite Hl', (take_S_r _ _ _ Hs), <-(assoc_L (++)). done.
  - apply lookup_ge_None in Hs. exists l. by rewrite drop_ge, take_ge, app_nil_r by lia.
Qed.

(** The loops of the code are sweeps, whatever they are run in. *)
Lemma remove_at_run ms i w :
  (i < ms_count ms)%nat →
  memory_store_remove_at ms i w = Ret (with_sessions (swap_remove session_default i (ms_sessions ms)) ms) w.
Proof. intros Hi. unfold memory_store_remove_at. by rewrite decide_True. Qed.

Lemma delete_user_loop_run fuel ms u i w l' :
  sweep (λ s, str_is (s_user_id s) u) fuel (ms_sessions ms) i = Some l' →
  delete_user_loop fuel ms u i w = Ret (with_sessions l' ms) w.
Proof.
  revert ms i. induction fuel as [|fuel IH]; intros ms i Hl; simpl in *; [done|].
  destruct (ms_sessions ms !! i) as [s|] eqn:Hs.
  - pose proof (lookup_lt_Some _ _ _ Hs). rewrite decide_True by done.
    rewrite bind_unfold. simpl. destruct (str_is (s_user_id s) u).
    + rewrite bind_unfold, remove_at_run by done. by rewrite (IH (with_sessions _ ms) i Hl).
    + by apply IH.
  - apply lookup_ge_None in Hs. rewrite decide_False by (unfold ms_count; lia).
    simplify_eq. by destruct ms.
Qed.

Lemma is_expired_run s w :
  quiet w → memory_store_is_expired (Some s) w = Ret (expired (w_now w) s) w.
Proof.
  intros Hw. unfold memory_store_is_expired, expired.
  destruct (s_has_expires s); simpl; [|done]. by crun.
Qed.

Lemma expire_loop_run fuel ms i w l' :
  quiet w → sweep (expired (w_now w)) fuel (ms_sessions ms) i = Some l' →
  expire_loop fuel ms i w = Ret (with_sessions l' ms) w.
Proof.
  intros Hw. revert ms i. induction fuel as [|fuel IH]; intros ms i Hl; simpl in *; [done|].
  destruct (ms_sessions ms !! i) as [s|] eqn:Hs.
  - pose proof (lookup_lt_Some _ _ _ Hs). rewrite decide_True by done.
    rewrite bind_unfold. simpl. rewrite bind_unfold, is_expired_run by done.
    destruct (expired (w_now w) s).
    + rewrite bind_unfold, remove_at_run by done. by rewrite (IH (with_sessions _ ms) i Hl).
    + by apply IH.
  - apply lookup_ge_None in Hs. rewrite decide_False by (unfold ms_count; lia).
    simplify_eq. by destruct ms.
Qed.

Lemma wp_is_expired s w (Q : bool → world → Prop) :
  (∀ w', env_step w w' → Q (expired (w_now w') s) w') →
  wp (memory_store_is_expired (Some s)) w Q.
Proof.
  intros HQ. unfold memory_store_is_expired.
  destruct (s_has_expires s) eqn:E; simpl.
  - apply wp_bind, wp_time. intros w' Hw'. apply wp_ret.
    specialize (HQ w' Hw'). unfold expired in HQ. by rewrite E in HQ.
  - apply wp_ret. specialize (HQ w). unfold expired in HQ. rewrite E in HQ. by apply HQ.
Qed.

(** Expiring in any environment: the clock may move at each reading, so all
    that is known is that only sessions with an expiry go. *)
Lemma wp_expire_loop fuel ms i w :
  (ms_count ms - i < fuel)%nat →
  wp (expire_loop fuel ms i) w (λ ms' w', env_step w w' ∧
    ∃ l' gone, ms' = with_sessions l' ms ∧ ms_sessions ms ≡ₚ gone ++ l' ∧
               Forall (λ s, s_has_expires s = true) gone).
Proof.
  revert ms i w. induction fuel as [|fuel IH]; intros ms i w Hf; [lia|]. simpl.
  case_decide as Hi.
  - destruct (lookup_lt_is_Some_2 (ms_sessions ms) i Hi) as [s Hs]. rewrite Hs.
    apply wp_bind, wp_deref, wp_bind, wp_is_expired. intros w1 Hw1.
    destruct (expired (w_now w1) s) eqn:E.
    + apply wp_bind. eapply wp_run; [by apply remove_at_run|].
      pose proof (length_swap_remove session_default (ms_sessions ms) i Hi).
      eapply wp_mono; [apply IH; unfold ms_count in *; simpl; lia|].
      intros ms' w' (Hw' & l' & gone & -> & Hp & Hg). split; [by etrans|].
      exists l', (s :: gone). split; [done|]. simpl in Hp.
      rewrite (swap_remove_perm session_default _ _ _ Hs), Hp. split; [done|]. constructor; [|done].
      unfold expired in E. by destruct (s_has_expires s).
    + eapply wp_mono; [apply IH; lia|]. intros ms' w' (Hw' & ?). split; [by etrans|done].
  - apply wp_ret. split; [done|]. exists (ms_sessions ms), []. by destruct ms.
Qed.

(** *** Views of swept and overwritten arrays *)

Lemma ids_app l1 l2 : ids (l1 ++ l2) = ids l1 ++ ids l2.
Proof. unfold ids. apply omap_app. Qed.

Lemma view_of_app_r l gone l' :
  NoDup (ids l) → l ≡ₚ gone ++ l' → NoDup (ids l') ∧ view_of l' ⊆ view_of l.
Proof.
  intros Hn Hp. assert (NoDup (ids l')) as Hn'.
  { rewrite Hp, ids_app in Hn. by apply NoDup_app in Hn as (_ & _ & ?). }
  split; [done|]. apply map_subseteq_spec. intros id s.
  rewrite !view_of_lookup by done. rewrite Hp, elem_of_app. tauto.
Qed.

Lemma dead_ok_app_r l gone l' : dead_ok l → l ≡ₚ gone ++ l' → dead_ok l'.
Proof. intros H Hp. rewrite Hp in H. by apply Forall_app in H as [_ ?]. Qed.

Lemma dead_ok_filter P l l' :
  dead_ok l → l' ≡ₚ filter (λ s, P s = false) l → dead_ok l'.
Proof.
  intros Hd Hp. apply (dead_ok_app_r l (filter (λ s, ¬ P s = false) l) l' Hd).
  rewrite Hp, Permutation_app_comm. symmetry. apply filter_app_complement.
Qed.

Lemma view_of_filter P l l' :
  NoDup (ids l) → l' ≡ₚ filter (λ s, P s = false) l →
  NoDup (ids l') ∧ view_of l' = filter (λ p, P p.2 = false) (view_of l).
Proof.
  intros Hn Hp. assert (NoDup (ids l')) as Hn'.
  { apply (view_of_app_r l (filter (λ s, ¬ P s = false) l) l' Hn).
    rewrite Hp, Permutation_app_comm. symmetry. apply filter_app_complement. }
  split; [done|]. apply map_eq. intros id. apply option_eq. intros s.
  rewrite map_lookup_filter_Some, !view_of_lookup by done. simpl.
  rewrite Hp, list_elem_of_filter. tauto.
Qed.

(** What an operation that may overwrite, add or drop sessions keeps. *)
Lemma ms_wf_sessions ms l :
  ms_wf ms → NoDup (ids l) → dead_ok l → (length l ≤ ms_count ms)%nat →
  ms_wf (unlock (with_sessions l (with_mutex true ms))).
Proof.
  intros [Hn Hd Hc Hi Hm] Hn' Hd' Hl. split; unfold ms_count in *; simpl; try done; lia.
Qed.

Lemma ms_wf_intro l n :
  NoDup (ids l) → dead_ok l → (length l ≤ n)%nat → Z.of_nat (length l) < 2 ^ 31 →
  ms_wf (MemoryStore l n false).
Proof. by split. Qed.

Lemma ms_wf_unlock ms : ms_wf ms → unlock (with_mutex true ms) = ms.
Proof. intros [_ _ _ _ Hm]. destruct ms; simpl in *; by subst. Qed.

Lemma lock_run ms w : ms_wf ms → lock ms w = Ret (with_mutex true ms) w.
Proof. intros [_ _ _ _ Hm]. unfold lock. by rewrite Hm. Qed.

Lemma find_locked ms id :
  memory_store_find (with_mutex true ms) id = memory_store_find ms id.
Proof. done. Qed.

Lemma overwrite_views ms i x y id :
  ms_wf ms → ms_sessions ms !! i = Some x → s_id x = Some id →
  s_id y = Some id ∨ y = session_default →
  NoDup (ids (<[i := y]> (ms_sessions ms))) ∧
  dead_ok (<[i := y]> (ms_sessions ms)) ∧
  view_of (<[i := y]> (ms_sessions ms))
    = if decide (s_id y = None) then delete id (ms_view ms) else <[id := y]> (ms_view ms).
Proof.
  intros Hwf Hi Hx Hy. destruct (overwrite_perm _ i x y Hi) as (r & Hr & Hr').
  destruct (view_of_split _ _ _ _ (ms_wf_ids _ Hwf) Hr Hx) as (Hv & Hn & Hnot & Hdel).
  assert (NoDup (ids (<[i := y]> (ms_sessions ms)))) as Hn'.
  { rewrite Hr'. destruct Hy as [Hy| ->]; [rewrite (ids_cons_Some _ _ _ Hy); by constructor|].
    by rewrite ids_cons_None. }
  split; [done|]. split.
  { rewrite Hr'. pose proof (ms_wf_dead _ Hwf) as Hd. rewrite Hr in Hd.
    apply Forall_cons in Hd as [_ Hd]. constructor; [|done].
    destruct Hy; [congruence|done]. }
  rewrite (view_of_perm _ _ Hn' Hr'). case_decide as E.
  - by rewrite view_of_cons_None.
  - destruct Hy as [Hy| ->]; [|done]. rewrite (view_of_cons_Some _ _ _ Hy). unfold ms_view.
    by rewrite Hv, insert_insert_eq.
Qed.

Lemma wp_overwrite_at ms i x s id w :
  ms_wf ms → ms_sessions ms !! i = Some x → s_id x = Some id → s_id s = Some id →
  wp (overwrite_at (with_mutex true ms) i (Some s)) w (λ '(rc, ms') w',
    env_step w w' ∧ ms_wf ms' ∧ ms_count ms' = ms_count ms ∧
    (rc = 0 ∧ ms_view ms' = <[id := s]> (ms_view ms) ∨
     rc = -1 ∧ ms_view ms' = delete id (ms_view ms) ∧ ¬ no_oom w)).
Proof.
  intros Hwf Hi Hx Hs. unfold overwrite_at. apply wp_bind. simpl. rewrite Hi.
  apply wp_deref, wp_bind, (wp_session_copy session_default);
    [intros w' Hw'|intros d w' Hw' _ Hoom]; apply wp_bind, wp_deref; simpl;
    [|apply wp_bind, wp_ret]; apply wp_ret; split; try done.
  - destruct (overwrite_views ms i x s id Hwf Hi Hx (or_introl Hs)) as (Hn & Hd & Hv).
    rewrite decide_False in Hv by congruence.
    split; [by apply ms_wf_sessions; [..|rewrite length_insert]|].
    split; [apply length_insert|]. by left.
  - destruct (overwrite_views ms i x session_default id Hwf Hi Hx) as (Hn & Hd & Hv); [by right|].
    rewrite decide_True in Hv by done.
    split; [by apply ms_wf_sessions; [..|rewrite length_insert]|].
    split; [apply length_insert|]. by right.
Qed.

Lemma remove_views ms i x id :
  ms_wf ms → ms_sessions ms !! i = Some x → s_id x = Some id →
  let ms' := unlock (with_sessions (swap_remove session_default i (ms_sessions ms)) (with_mutex true ms)) in
  ms_wf ms' ∧ ms_view ms' = delete id (ms_view ms) ∧ S (ms_count ms') = ms_count ms.
Proof.
  intros Hwf Hi Hx. pose proof (swap_remove_perm session_default _ _ _ Hi) as Hp.
  destruct (view_of_split _ _ _ _ (ms_wf_ids _ Hwf) Hp Hx) as (Hv & Hn & Hnot & Hdel).
  pose proof (length_swap_remove session_default (ms_sessions ms) i (lookup_lt_Some _ _ _ Hi)).
  split_and!; try done. apply ms_wf_sessions; try done; [|unfold ms_count; lia].
  by apply (dead_ok_app_r (ms_sessions ms) [x]); [apply Hwf|].
Qed.

Lemma append_views ms s id :
  ms_wf ms → ms_view ms !! id = None → s_id s = Some id →
  NoDup (ids (ms_sessions ms ++ [s])) ∧ dead_ok (ms_sessions ms ++ [s]) ∧
  view_of (ms_sessions ms ++ [s]) = <[id := s]> (ms_view ms).
Proof.
  intros [Hn Hd _ _ _] Hnone Hs. assert (ms_sessions ms ++ [s] ≡ₚ s :: ms_sessions ms) as Hp
    by (symmetry; apply Permutation_cons_append).
  assert (NoDup (ids (ms_sessions ms ++ [s]))) as Hn'.
  { rewrite Hp, (ids_cons_Some _ _ _ Hs). constructor; [by apply view_of_None|done]. }
  split; [done|]. split.
  { rewrite Hp. constructor; [congruence|done]. }
  rewrite (view_of_perm _ _ Hn' Hp). by apply view_of_cons_Some.
Qed.

(** ** The operations in any environment *)

Lemma wp_grow ms w :
  wp (memory_store_grow ms) w (λ '(rc, ms') w', env_step w w' ∧
    (rc = 0 ∧ (∃ n, ms' = with_capacity n ms ∧ (ms_capacity ms ≤ n)%nat ∧
                    ((ms_count ms ≤ ms_capacity ms)%nat → (ms_count ms < n)%nat)) ∨
     rc = -1 ∧ ms' = ms ∧ ¬ no_oom w)).
Proof.
  unfold memory_store_grow. case_decide as Hlt.
  - apply wp_ret. split; [done|]. left. split; [done|]. exists (ms_capacity ms).
    by destruct ms.
  - apply wp_bind, wp_malloc. intros [] w' Hw' Hoom; simpl; apply wp_ret; (split; [done|]).
    + left. split; [done|]. eexists. split; [done|].
      unfold OPENDBSC_MEMORY_STORE_INITIAL_CAPACITY. case_decide; lia.
    + right. auto.
Qed.

Lemma wp_memory_create ms s id w :
  ms_wf ms → Z.of_nat (ms_count ms) + 1 < 2 ^ 31 → s_id s = Some id →
  wp (opendbsc_memory_store_create_impl ms (Some s)) w (λ '(rc, ms') w',
    env_step w w' ∧ ms_wf ms' ∧ (ms_count ms' ≤ S (ms_count ms))%nat ∧
    (rc = 0 ∧ ms_view ms' = <[id := s]> (ms_view ms) ∨
     rc = -1 ∧ ms_view ms' = delete id (ms_view ms) ∧ ¬ no_oom w)).
Proof.
  intros Hwf Hroom Hs. unfold opendbsc_memory_store_create_impl. rewrite Hs.
  apply wp_bind. eapply wp_run; [by apply lock_run|]. rewrite find_locked.
  destruct (memory_store_find_spec ms id Hwf) as [[Hnone ->]|(i & x & Hi & Hx & Hv & -> & Hlt)].
  - replace (0 <=? -1) with false by done. apply wp_bind.
    eapply wp_mono; [apply wp_grow|]. intros [rc ms1] w1 [Hw1 [(-> & n & -> & Hn & Hlt)|]].
    + destruct (append_views ms s id Hwf Hnone Hs) as (Hn' & Hd' & Hv').
      specialize (Hlt (ms_wf_capacity _ Hwf)). unfold ms_count in *. simpl in *.
      rewrite bool_decide_eq_true_2 by done. simpl.
      apply wp_bind, (wp_session_copy session_default); [intros w2 Hw2|intros d w2 Hw2 _ Hoom];
        simpl; [apply wp_bind, wp_deref|]; apply wp_ret; (split; [by etrans|]).
      * split_and!; [|simpl; rewrite length_app; simpl; lia|by left].
        apply (ms_wf_intro (ms_sessions ms ++ [s]) n); rewrite ?length_app; simpl; try done; lia.
      * destruct Hwf as [???? _]. unfold ms_count in *. split_and!; [|simpl; lia|].
        { apply (ms_wf_intro (ms_sessions ms) n); try done; lia. }
        right. rewrite delete_id by done. eauto using step_oom.
    + destruct_and!. simplify_eq/=. apply wp_ret. rewrite ms_wf_unlock by done.
      split_and!; try done; [lia|]. right. by rewrite delete_id.
  - replace (0 <=? Z.of_nat i) with true by lia. rewrite Nat2Z.id.
    eapply wp_mono; [by apply (wp_overwrite_at ms i x s id)|].
    intros [rc ms'] w' (? & ? & -> & ?). auto with lia.
Qed.

Lemma wp_memory_update ms s id w :
  ms_wf ms → s_id s = Some id →
  wp (opendbsc_memory_store_update_impl ms (Some s)) w (λ '(rc, ms') w',
    env_step w w' ∧ ms_wf ms' ∧ ms_count ms' = ms_count ms ∧
    (rc = 0 ∧ is_Some (ms_view ms !! id) ∧ ms_view ms' = <[id := s]> (ms_view ms) ∨
     rc = -1 ∧ ms_view ms' = delete id (ms_view ms) ∧
       (ms_view ms !! id = None ∨ ¬ no_oom w))).
Proof.
  intros Hwf Hs. unfold opendbsc_memory_store_update_impl. rewrite Hs.
  apply wp_bind. eapply wp_run; [by apply lock_run|]. rewrite find_locked.
  destruct (memory_store_find_spec ms id Hwf) as [[Hnone ->]|(i & x & Hi & Hx & Hv & -> & Hlt)].
  - replace (-1 <? 0) with true by done. apply wp_ret. rewrite ms_wf_unlock by done.
    split_and!; try done. right. rewrite delete_id by done. auto.
  - replace (Z.of_nat i <? 0) with false by lia. rewrite Nat2Z.id.
    eapply wp_mono; [by apply (wp_overwrite_at ms i x s id)|].
    intros [rc ms'] w' (? & ? & -> & [[]|(?&?&?)]); split_and!; eauto 6.
Qed.

Lemma memory_delete_run ms id w :
  ms_wf ms → ∃ ms', opendbsc_memory_store_delete_impl ms (Some id) w = Ret (0, ms') w ∧
    ms_wf ms' ∧ (ms_count ms' ≤ ms_count ms)%nat ∧ ms_view ms' = delete id (ms_view ms).
Proof.
  intros Hwf. unfold opendbsc_memory_store_delete_impl.
  rewrite bind_unfold, lock_run, find_locked by done.
  destruct (memory_store_find_spec ms id Hwf) as [[Hnone ->]|(i & x & Hi & Hx & Hv & -> & Hlt)].
  - replace (0 <=? -1) with false by done. exists ms. rewrite ms_wf_unlock by done.
    by rewrite delete_id.
  - replace (0 <=? Z.of_nat i) with true by lia. rewrite Nat2Z.id.
    rewrite bind_unfold, remove_at_run by done.
    destruct (remove_views ms i x id Hwf Hi Hx) as (? & ? & ?).
    eexists. split; [done|]. split_and!; try done. simpl in *. lia.
Qed.

Lemma wp_memory_get ms id out w :
  ms_wf ms →
  wp (opendbsc_memory_store_get_impl ms (Some id) (Some out)) w (λ '(rc, out', ms') w',
    env_step w w' ∧ ms_wf ms' ∧ (ms_count ms' ≤ ms_count ms)%nat ∧
    ∃ now, (quiet w → now = w_now w) ∧
    (rc = 0 ∧ (∃ s, out' = Some (Some s) ∧ lookup_live now id (ms_view ms) = Some s) ∧
       ms_view ms' = ms_view ms ∨
     rc = -1 ∧ out' = Some None ∧
       (lookup_live now id (ms_view ms) = None ∧ ms_view ms' = delete id (ms_view ms) ∨
        ¬ no_oom w ∧ ms_view ms' = ms_view ms))).
Proof.
  intros Hwf. unfold opendbsc_memory_store_get_impl.
  apply wp_bind. eapply wp_run; [by apply lock_run|]. rewrite find_locked.
  destruct (memory_store_find_spec ms id Hwf) as [[Hnone ->]|(i & x & Hi & Hx & Hv & -> & Hlt)].
  - replace (-1 <? 0) with true by done. apply wp_ret. rewrite ms_wf_unlock by done.
    split_and!; try done. exists (w_now w). split; [done|]. right. split_and!; try done.
    left. unfold lookup_live. by rewrite Hnone, delete_id.
  - replace (Z.of_nat i <? 0) with false by lia. rewrite Nat2Z.id.
    apply wp_bind. simpl. rewrite Hi. apply wp_deref, wp_bind, wp_is_expired.
    intros w1 Hw1. assert (quiet w → w_now w1 = w_now w) as Hnow
      by (intros Hq; by rewrite (step_quiet _ _ Hw1 Hq)).
    destruct (expired (w_now w1) x) eqn:E.
    + apply wp_bind. eapply wp_run; [by apply remove_at_run|]. apply wp_ret.
      destruct (remove_views ms i x id Hwf Hi Hx) as (? & ? & ?).
      split_and!; try done; [simpl in *; lia|]. exists (w_now w1). split; [done|].
      right. split_and!; try done. left. split; [|done]. unfold lookup_live.
      rewrite Hv. simpl. by rewrite E.
    + assert (lookup_live (w_now w1) id (ms_view ms) = Some x) as Hlive
        by (unfold lookup_live; rewrite Hv; simpl; by rewrite E).
      assert (¬ no_oom w1 → ¬ no_oom w) by eauto using step_oom.
      apply wp_bind, wp_malloc. intros [] w2 Hw2 Hoom2; simpl.
      * apply wp_bind, (wp_session_copy session_default);
          [intros w3 Hw3|intros d w3 Hw3 _ Hoom]; simpl; apply wp_ret;
          rewrite ms_wf_unlock by done; (split; [by do 2 (etrans; [eassumption|])|]);
          (split_and!; [done..|exists (w_now w1); split; [done|]]).
        -- left. eauto.
        -- right. split_and!; [done..|]. right. split; [eauto using step_oom|done].
      * apply wp_ret. rewrite ms_wf_unlock by done. split; [by etrans|].
        split_and!; [done..|]. exists (w_now w1). split; [done|].
        right. split_and!; [done..|]. right. split; [eauto using step_oom|done].
Qed.

Definition of_user (u : string) (l : list OpenDBSC_Session) : list OpenDBSC_Session :=
  filter (λ s, str_is (s_user_id s) u = true) l.

Lemma wp_copy_matches l u cap acc w :
  (length acc + length (of_user u l) ≤ cap)%nat →
  wp (copy_matches l u cap acc) w (λ r w', env_step w w' ∧
    (r = Some (acc ++ of_user u l) ∨ r = None ∧ ¬ no_oom w)).
Proof.
  revert acc w. unfold of_user. induction l as [|s l IH]; intros acc w Hlen; simpl.
  { apply wp_ret. split; [done|]. left. by rewrite app_nil_r. }
  destruct (str_is (s_user_id s) u) eqn:E.
  - rewrite filter_cons_True in * by done. simpl in Hlen.
    rewrite bool_decide_eq_true_2 by lia. simpl.
    apply wp_bind, (wp_session_copy session_default); [intros w1 Hw1|intros d w1 Hw1 _ Hoom];
      simpl; [apply wp_bind, wp_deref|apply wp_ret; auto].
    eapply wp_mono; [apply IH; rewrite length_app; simpl; lia|].
    intros r w2 [Hw2 [->|[-> Hoom]]]; (split; [by etrans|]).
    + left. by rewrite <-(assoc_L (++)).
    + right. eauto using step_oom.
  - rewrite filter_cons_False in * by congruence. by apply IH.
Qed.

Lemma sweep_view ms P fuel :
  ms_wf ms → (ms_count ms < fuel)%nat →
  ∃ l', sweep P fuel (ms_sessions ms) 0 = Some l' ∧
    l' ≡ₚ filter (λ s, P s = false) (ms_sessions ms) ∧
    (length l' ≤ ms_count ms)%nat ∧ NoDup (ids l') ∧ dead_ok l' ∧
    view_of l' = filter (λ p, P p.2 = false) (ms_view ms).
Proof.
  intros Hwf Hf. destruct (sweep_spec P fuel (ms_sessions ms) 0) as (l' & Hl' & Hp).
  { unfold ms_count in Hf. lia. }
  rewrite take_0, drop_0 in Hp. simpl in Hp. exists l'.
  destruct (view_of_filter P (ms_sessions ms) l' (ms_wf_ids _ Hwf) Hp) as [Hn Hv].
  split_and!; try done; [rewrite Hp; apply length_filter|].
  by eapply dead_ok_filter; [apply Hwf|].
Qed.

Lemma wp_memory_expire ms w :
  ms_wf ms →
  wp (memory_store_expire (with_mutex true ms)) w (λ ms1 w', env_step w w' ∧
    ∃ l', ms1 = with_sessions l' (with_mutex true ms) ∧ ms_wf (unlock ms1) ∧
      (length l' ≤ ms_count ms)%nat ∧ view_of l' ⊆ ms_view ms ∧
      (∀ id s, ms_view ms !! id = Some s → s_has_expires s = false →
         view_of l' !! id = Some s) ∧
      (quiet w → view_of l' = filter (λ p, expired (w_now w) p.2 = false) (ms_view ms))).
Proof.
  intros Hwf. eapply wp_mono.
  - apply wp_and with (Q := λ ms1 w', quiet w → ∃ l',
      ms1 = with_sessions l' (with_mutex true ms) ∧
      view_of l' = filter (λ p, expired (w_now w) p.2 = false) (ms_view ms)).
    + apply wp_expire_loop. unfold ms_count. simpl. lia.
    + intros ms1 w' Hrun Hq.
      destruct (sweep_view ms (expired (w_now w)) (S (ms_count ms)) Hwf) as (l' & Hl' & ?); [lia|].
      pose proof (expire_loop_run (S (ms_count ms)) (with_mutex true ms) 0 w l' Hq Hl') as Hl.
      change (memory_store_expire (with_mutex true ms) w
        = Ret (with_sessions l' (with_mutex true ms)) w) in Hl.
      rewrite Hl in Hrun. simplify_eq. exists l'. tauto.
  - intros ms1 w' [(Hw & l' & gone & -> & Hp & Hg) Hq]. split; [done|]. exists l'.
    destruct (view_of_app_r _ _ _ (ms_wf_ids _ Hwf) Hp) as [Hn Hsub].
    assert (length l' ≤ ms_count ms)%nat as Hlen
      by (unfold ms_count; simpl in Hp; rewrite Hp, length_app; lia).
    split_and!; try done.
    + apply ms_wf_sessions; try done. eapply dead_ok_app_r; [apply Hwf|done].
    + intros id s. unfold ms_view. rewrite !view_of_lookup by (done || apply Hwf).
      simpl in Hp. rewrite Hp, elem_of_app. intros [[Hin|Hin] Hid] He; [|done].
      rewrite Forall_forall in Hg. by rewrite (Hg _ Hin) in He.
    + intros Hquiet. destruct (Hq Hquiet) as (l'' & Heq & ?).
      by simplify_eq/=.
Qed.

Lemma wp_memory_get_by_user_id ms u o c w :
  ms_wf ms →
  wp (opendbsc_memory_store_get_by_user_id_impl ms (Some u) (Some o) (Some c)) w
    (λ '(rc, out, cnt, ms') w', env_step w w' ∧ ms_wf ms' ∧
      (ms_count ms' ≤ ms_count ms)%nat ∧ ms_view ms' ⊆ ms_view ms ∧
      (∀ id s, ms_view ms !! id = Some s → s_has_expires s = false →
         ms_view ms' !! id = Some s) ∧
      (quiet w → ms_view ms' = filter (λ p, expired (w_now w) p.2 = false) (ms_view ms)) ∧
      (rc = 0 ∧ out = Some (of_user u (ms_sessions ms')) ∧
         cnt = Some (length (of_user u (ms_sessions ms'))) ∨
       rc = -1 ∧ out = Some [] ∧ cnt = Some 0%nat ∧ ¬ no_oom w)).
Proof.
  intros Hwf. unfold opendbsc_memory_store_get_by_user_id_impl.
  apply wp_bind. eapply wp_run; [by apply lock_run|].
  apply wp_bind. eapply wp_mono; [by apply wp_memory_expire|].
  intros ms1 w1 (Hw1 & l' & -> & Hwf1 & Hlen & Hsub & Hkeep & Hq). simpl.
  fold (of_user u l'). case_decide as Hnone.
  - apply wp_ret. split_and!; try done. left. simpl. rewrite Hnone.
    by apply nil_length_inv in Hnone as ->.
  - apply wp_bind, wp_malloc. intros [] w2 Hw2 Hoom2; simpl.
    + apply wp_bind. eapply wp_mono; [apply wp_copy_matches; simpl; lia|].
      intros r w3 [Hw3 [->|[-> Hoom]]]; apply wp_ret;
        (split; [by do 2 (etrans; [eassumption|])|]); split_and!; try done; [by left|].
      right. split_and!; eauto using step_oom.
    + apply wp_ret. split; [by etrans|]. split_and!; try done. right.
      split_and!; eauto using step_oom.
Qed.

Lemma memory_delete_by_user_id_run ms u w :
  ms_wf ms →
  ∃ ms', opendbsc_memory_store_delete_by_user_id_impl ms (Some u) w = Ret (0, ms') w ∧
    ms_wf ms' ∧ (ms_count ms' ≤ ms_count ms)%nat ∧
    ms_view ms' = filter (λ '(_, s), s_user_id s ≠ Some u) (ms_view ms).
Proof.
  intros Hwf. unfold opendbsc_memory_store_delete_by_user_id_impl.
  rewrite bind_unfold, lock_run by done.
  destruct (sweep_view ms (λ s, str_is (s_user_id s) u) (S (ms_count ms)) Hwf)
    as (l' & Hl' & _ & Hlen & Hn & Hd & Hv); [lia|].
  rewrite bind_unfold. change (ms_count (with_mutex true ms)) with (ms_count ms).
  rewrite (delete_user_loop_run (S (ms_count ms)) (with_mutex true ms) u 0 w l' Hl').
  eexists. split; [done|]. split_and!; [by apply ms_wf_sessions|done|].
  unfold ms_view at 1. simpl. rewrite Hv. apply map_filter_ext. intros id s _. simpl.
  rewrite <-not_true_iff_false, str_is_spec. done.
Qed.

(** ** Calls through the virtual table

    The specification of the store: what a call made in the environment [w]
    may answer and do to the map [m].  A failed [create] or [update] loses
    the session that had the identifier. *)
Definition store_spec (w : world) (op : store_op) (m : view) (r : store_reply) (m' : view)
    : Prop :=
  match op with
  | OpCreate (Some s) =>
      match s_id s with
      | None => r = RCode (-1) ∧ m' = m
      | Some id => r = RCode 0 ∧ m' = <[id := s]> m ∨
                   r = RCode (-1) ∧ m' = delete id m ∧ ¬ no_oom w
      end
  | OpUpdate (Some s) =>
      match s_id s with
      | None => r = RCode (-1) ∧ m' = m
      | Some id => r = RCode 0 ∧ is_Some (m !! id) ∧ m' = <[id := s]> m ∨
                   r = RCode (-1) ∧ m' = delete id m ∧ (m !! id = None ∨ ¬ no_oom w)
      end
  | OpCreate None | OpUpdate None => r = RCode (-1) ∧ m' = m
  | OpGet _ None => r = RSession (-1) None ∧ m' = m
  | OpGet None (Some _) => r = RSession (-1) (Some None) ∧ m' = m
  | OpGet (Some id) (Some _) =>
      ∃ now, (quiet w → now = w_now w) ∧
        match lookup_live now id m with
        | Some s => m' = m ∧ (r = RSession 0 (Some (Some s)) ∨
                              r = RSession (-1) (Some None) ∧ ¬ no_oom w)
        | None => r = RSession (-1) (Some None) ∧
                  (m' = delete id m ∨ ¬ no_oom w ∧ m' = m)
        end
  | OpDelete None | OpDeleteByUser None => r = RCode 0 ∧ m' = m
  | OpDelete (Some id) => r = RCode 0 ∧ m' = delete id m
  | OpDeleteByUser (Some u) =>
      r = RCode 0 ∧ m' = filter (λ '(_, s), s_user_id s ≠ Some u) m
  | OpGetByUser (Some u) (Some _) (Some _) =>
      m' ⊆ m ∧ (∀ id s, m !! id = Some s → s_has_expires s = false → m' !! id = Some s) ∧
      (quiet w → m' = filter (λ p, expired (w_now w) p.2 = false) m) ∧
      ((∃ l, r = RSessions 0 (Some l) (Some (length l)) ∧ NoDup (s_id <$> l) ∧
         ∀ s, s ∈ l ↔ ∃ id, m' !! id = Some s ∧ s_user_id s = Some u) ∨
       r = RSessions (-1) (Some []) (Some 0%nat) ∧ ¬ no_oom w)
  | OpGetByUser _ out cnt => r = RSessions (-1) out cnt ∧ m' = m
  end.

Lemma ids_fmap_Some l :
  (∀ s, s ∈ l → is_Some (s_id s)) → s_id <$> l = Some <$> ids l.
Proof.
  induction l as [|s l IH]; [done|]. intros Hl.
  destruct (Hl s) as [id Hid]; [by left|].
  rewrite (ids_cons_Some _ _ _ Hid), fmap_cons, fmap_cons, Hid. f_equal.
  apply IH. intros s' ?. apply Hl. by right.
Qed.

Lemma of_user_ids ms u :
  ms_wf ms →
  NoDup (s_id <$> of_user u (ms_sessions ms)) ∧
  ∀ s, s ∈ of_user u (ms_sessions ms) ↔
       ∃ id, ms_view ms !! id = Some s ∧ s_user_id s = Some u.
Proof.
  intros [Hn Hd _ _ _]. assert (∀ s, s ∈ of_user u (ms_sessions ms) →
      s_user_id s = Some u ∧ s ∈ ms_sessions ms ∧ is_Some (s_id s)) as Hin.
  { unfold of_user. intros s [Hu Hs]%list_elem_of_filter. apply str_is_spec in Hu.
    split_and!; try done. destruct (s_id s) eqn:E; [done|].
    rewrite (proj1 (Forall_forall _ _) Hd s Hs E) in Hu. done. }
  split.
  - rewrite ids_fmap_Some by (intros s Hs; by apply Hin). apply (NoDup_fmap_2 Some).
    eapply (view_of_app_r (ms_sessions ms) (filter (λ s, ¬ str_is (s_user_id s) u = true) _));
      [done|]. rewrite Permutation_app_comm. symmetry. apply filter_app_complement.
  - intros s. split.
    + intros Hs. destruct (Hin s Hs) as (Hu & Hs' & id & Hid). exists id.
      split; [|done]. by apply view_of_lookup.
    + intros (id & Hs & Hu). apply view_of_lookup in Hs as [Hs _]; [|done].
      apply list_elem_of_filter. split; [by apply str_is_spec|done].
Qed.

(** One call simulates the specification and keeps the invariant. *)
Lemma wp_exec_op op ms w :
  ms_wf ms → Z.of_nat (ms_count ms) + 1 < 2 ^ 31 →
  wp (exec_op op ms) w (λ '(r, ms') w', env_step w w' ∧ ms_wf ms' ∧
    (ms_count ms' ≤ S (ms_count ms))%nat ∧ store_spec w op (ms_view ms) r (ms_view ms')).
Proof.
  intros Hwf Hroom. destruct op as [[s|]|[id|] [o|]|[s|]|[id|]|[u|] [o|] [c|]|[u|]]; simpl;
    try (apply wp_bind, wp_ret, wp_ret; split_and!; (done || lia)).
  - destruct (s_id s) as [id|] eqn:Hs.
    + apply wp_bind. eapply wp_mono; [by apply (wp_memory_create _ _ id)|].
      intros [rc ms'] w' (? & ? & ? & [[-> ?]|(-> & ? & ?)]); apply wp_ret; split_and!; auto.
    + unfold opendbsc_memory_store_create_impl. rewrite Hs.
      apply wp_bind, wp_ret, wp_ret. split_and!; (done || lia).
  - apply wp_bind. eapply wp_mono; [by apply wp_memory_get|].
    intros [[rc out] ms'] w' (? & ? & ? & now & Hq & H); apply wp_ret.
    split_and!; [done|done|lia|]. exists now. split; [done|].
    destruct H as [(-> & (s & -> & ->) & ->)|(-> & -> & [[-> ?]|[? ->]])]; [by auto..|].
    destruct (lookup_live _ _ _); auto 6.
  - destruct (s_id s) as [id|] eqn:Hs.
    + apply wp_bind. eapply wp_mono; [by apply (wp_memory_update _ _ id)|].
      intros [rc ms'] w' (? & ? & Hc & [[-> ?]|(-> & ? & ?)]); apply wp_ret;
        (split_and!; [done|done|lia|auto]).
    + unfold opendbsc_memory_store_update_impl. rewrite Hs.
      apply wp_bind, wp_ret, wp_ret. split_and!; (done || lia).
  - destruct (memory_delete_run ms id w Hwf) as (ms' & Hrun & ? & ? & ?).
    apply wp_bind. eapply wp_run; [done|]. apply wp_ret. split_and!; (done || lia).
  - apply wp_bind. eapply wp_mono; [by apply wp_memory_get_by_user_id|].
    intros [[[rc out] cnt] ms'] w' (? & Hwf' & ? & ? & ? & ? & H); apply wp_ret.
    split_and!; try (done || lia).
    destruct H as [(-> & -> & ->)|(-> & -> & -> & ?)]; [left|by right].
    destruct (of_user_ids ms' u Hwf') as [Hn Hin]. by eexists.
  - destruct (memory_delete_by_user_id_run ms u w Hwf) as (ms' & Hrun & ? & ? & ?).
    apply wp_bind. eapply wp_run; [done|]. apply wp_ret. split_and!; (done || lia).
Qed.

(** The promise to the manager. *)
#[export] Program Instance memory_StoreLaws : StoreLaws OpenDBSC_MemoryStore := {
  store_inv := ms_wf;
  store_room n ms := Z.of_nat (ms_count ms) + Z.of_nat n < 2 ^ 31;
  store_view := ms_view
}.
Next Obligation.
  intros ms id s Hwf Hs. by apply view_of_lookup in Hs as [_ ?]; [|apply Hwf].
Qed.
Next Obligation.
  intros n ms s id w Hw Hwf Hroom _ Hid. cbv beta in Hroom.
  assert (Z.of_nat (ms_count ms) + 1 < 2 ^ 31) as Hroom1 by lia.
  destruct (wp_elim _ _ _ (wp_memory_create ms s id w Hwf Hroom1 Hid))
    as ([rc ms'] & w' & Hrun & Hw' & ? & ? & [[-> ?]|(_ & _ & [])]); [|by apply quiet_no_oom].
  rewrite (step_quiet _ _ Hw' Hw) in Hrun. exists 0, ms'. split_and!; [done|done|lia|by left].
Qed.
Next Obligation.
  intros ms id w Hw Hwf.
  destruct (wp_elim _ _ _ (wp_memory_get ms id None w Hwf))
    as ([[rc out] ms'] & w' & Hrun & Hw' & ? & ? & now & Hnow & H).
  rewrite (step_quiet _ _ Hw' Hw) in Hrun. rewrite <-(Hnow Hw).
  exists ms'. split_and!; [done|lia|].
  destruct H as [(-> & (s & -> & ->) & ?)|(-> & -> & [[-> ?]|[[] _]])]; [done|done|].
  by apply quiet_no_oom.
Qed.
Next Obligation.
  intros ms s id old w Hw Hwf _ Hid Hold _.
  destruct (wp_elim _ _ _ (wp_memory_update ms s id w Hwf Hid))
    as ([rc ms'] & w' & Hrun & Hw' & ? & Hc & [(-> & _ & ?)|(_ & _ & [Hnone|[]])]).
  - rewrite (step_quiet _ _ Hw' Hw) in Hrun. exists ms'. rewrite Hc. auto.
  - congruence.
  - by apply quiet_no_oom.
Qed.
Next Obligation.
  intros ms s id w Hw Hwf _ Hid Hnone.
  destruct (wp_elim _ _ _ (wp_memory_update ms s id w Hwf Hid))
    as ([rc ms'] & w' & Hrun & Hw' & ? & Hc & [(-> & [? ?] & _)|(-> & Hv & _)]); [congruence|].
  rewrite (step_quiet _ _ Hw' Hw) in Hrun. exists ms'. rewrite delete_id in Hv by done. auto.
Qed.
Next Obligation.
  intros ms id w Hw Hwf. destruct (memory_delete_run ms id w Hwf) as (ms' & ? & ? & ? & ?).
  exists 0, ms'. split_and!; (done || lia).
Qed.
Next Obligation.
  intros ms u w Hw Hwf.
  destruct (wp_elim _ _ _ (wp_memory_get_by_user_id ms u [] 0 w Hwf))
    as ([[[rc out] cnt] ms'] & w' & Hrun & Hw' & Hwf' & _ & Hsub & _ & Hq & H).
  rewrite (step_quiet _ _ Hw' Hw) in Hrun. specialize (Hq Hw).
  destruct H as [(-> & -> & ->)|(_ & _ & _ & [])]; [|by apply quiet_no_oom].
  destruct (of_user_ids ms' u Hwf') as [Hn Hin].
  exists (of_user u (ms_sessions ms')), ms'. split_and!; try done.
  - intros id s Hs He. rewrite Hq. by apply map_lookup_filter_Some.
  - intros s. rewrite Hin. split.
    + intros (id & Hs & Hu). rewrite Hq in Hs.
      apply map_lookup_filter_Some in Hs as [??]. eauto.
    + intros (id & Hs & Hu & He). exists id. split; [|done]. rewrite Hq.
      by apply map_lookup_filter_Some.
Qed.
Next Obligation.
  intros ms u w Hw Hwf.
  destruct (memory_delete_by_user_id_run ms u w Hwf) as (ms' & ? & ? & ? & ?). eauto 10.
Qed.

(** A sequence of calls as the specification sees it. *)
Inductive spec_runs : world → list store_op → view → list store_reply → view → Prop :=
| spec_done w m : spec_runs w [] m [] m
| spec_call w w1 op ops m r m1 rs m2 :
    store_spec w op m r m1 → env_step w w1 → spec_runs w1 ops m1 rs m2 →
    spec_runs w (op :: ops) m (r :: rs) m2.

Lemma wp_exec_ops ops ms w :
  ms_wf ms → Z.of_nat (ms_count ms) + Z.of_nat (length ops) < 2 ^ 31 →
  wp (exec_ops ops ms) w (λ '(rs, ms') w', env_step w w' ∧ ms_wf ms' ∧
    spec_runs w ops (ms_view ms) rs (ms_view ms')).
Proof.
  revert ms w. induction ops as [|op ops IH]; intros ms w Hwf Hroom; simpl in *.
  { apply wp_ret. split_and!; [done..|constructor]. }
  apply wp_bind. eapply wp_mono; [apply wp_exec_op; (done || lia)|].
  intros [r ms1] w1 (Hw1 & Hwf1 & Hc & Hs).
  apply wp_bind. eapply wp_mono; [apply IH; (done || lia)|].
  intros [rs ms2] w2 (Hw2 & Hwf2 & Hrs). apply wp_ret.
  split_and!; [by etrans|done|by econstructor].
Qed.

(** A store used by a program: created, called, destroyed. *)
Definition store_lifecycle (ops : list store_op)
    : C (option (list store_reply * OpenDBSC_MemoryStore)) :=
  ms ← opendbsc_memory_store_create;
  match ms with
  | None => mret None
  | Some ms =>
      '(rs, ms) ← exec_ops ops ms;
      gone ← opendbsc_memory_store_destroy_impl (Some ms);
      mret (Some (rs, ms))
  end.

Lemma wp_memory_store_new w :
  wp opendbsc_memory_store_create w (λ o w', env_step w w' ∧
    (o = Some (MemoryStore [] 0 false) ∨ o = None ∧ ¬ no_oom w)).
Proof.
  unfold opendbsc_memory_store_create.
  apply wp_bind, wp_malloc. intros [] w1 Hw1 H1; [|apply wp_ret; auto].
  apply wp_bind, wp_malloc. intros [] w2 Hw2 H2; [|apply wp_ret; simpl].
  - apply wp_bind, wp_malloc. intros [] w3 Hw3 H3; apply wp_ret;
      (split; [by do 2 (etrans; [eassumption|])|]); [by left|right].
    eauto 6 using step_oom.
  - split; [by etrans|]. eauto using step_oom.
Qed.

Lemma new_store_wf : ms_wf (MemoryStore [] 0 false).
Proof. apply ms_wf_intro; simpl; try lia; constructor. Qed.

(** ** Properties *)

(** C5. Refinement of the store's contract.  In any environment, whichever
    allocations fail and however the clock moves, a call through the virtual
    table of a well-formed in-memory store returns (no undefined behaviour,
    no deadlock, the mutex released), keeps the array well formed, and
    answers and updates the map from identifiers to sessions as
    [store_spec] says. *)
Theorem memory_store_refines_map (op : store_op) (ms : OpenDBSC_MemoryStore) (w : world) :
  ms_wf ms → Z.of_nat (ms_count ms) + 1 < 2 ^ 31 →
  wp (exec_op op ms) w (λ '(r, ms') w', env_step w w' ∧ ms_wf ms' ∧
    (ms_count ms' ≤ S (ms_count ms))%nat ∧ store_spec w op (ms_view ms) r (ms_view ms')).
Proof. apply wp_exec_op. Qed.

(** Whole runs.  A program that creates an in-memory store, makes fewer
    than 2^31 - 1 calls in any order (as any interleaving of threads is,
    every call being one critical section) and destroys it never meets
    undefined behaviour or a deadlock, whatever the environment: creation
    reports the allocation failure, or the replies are those of a run of the
    specification from the empty map. *)
Theorem memory_store_lifecycle_safe (ops : list store_op) (w : world) :
  Z.of_nat (length ops) < 2 ^ 31 - 1 →
  wp (store_lifecycle ops) w (λ r _,
    (r = None ∧ ¬ no_oom w) ∨
    ∃ rs ms w1, r = Some (rs, ms) ∧ env_step w w1 ∧ ms_wf ms ∧
                spec_runs w1 ops ∅ rs (ms_view ms)).
Proof.
  intros Hlen. unfold store_lifecycle. apply wp_bind.
  eapply wp_mono; [apply wp_memory_store_new|].
  intros o w1 [Hw1 [->|[-> ?]]]; [|apply wp_ret; by left].
  apply wp_bind. eapply wp_mono; [apply wp_exec_ops; [apply new_store_wf|unfold ms_count; simpl; lia]|].
  intros [rs ms] w2 (Hw2 & Hwf & Hrs). apply wp_bind.
  unfold opendbsc_memory_store_destroy_impl.
  apply wp_bind. eapply wp_run; [by apply lock_run|]. do 2 apply wp_ret.
  right. eauto 10.
Qed.

(** Expiry.  [memory_store_expire] terminates whatever the clock does
    during its walk, removes only sessions that have an expiry time, and,
    when the clock stands still, removes exactly those whose time is past. *)
Theorem memory_expire_exact (ms : OpenDBSC_MemoryStore) (w : world) :
  ms_wf ms →
  wp (memory_store_expire (with_mutex true ms)) w (λ ms' _,
    ms_wf (unlock ms') ∧ ms_view ms' ⊆ ms_view ms ∧
    (∀ id s, ms_view ms !! id = Some s → s_has_expires s = false →
       ms_view ms' !! id = Some s) ∧
    (quiet w → ∀ id s, ms_view ms' !! id = Some s ↔
       ms_view ms !! id = Some s ∧ expired (w_now w) s = false)).
Proof.
  intros Hwf. eapply wp_mono; [by apply wp_memory_expire|].
  intros ms' w' (_ & l' & -> & Hwf' & _ & Hsub & Hkeep & Hq). split_and!; try done.
  intros Hquiet id s. unfold ms_view at 1. simpl. rewrite (Hq Hquiet).
  apply map_lookup_filter_Some.
Qed.

(** ** Witnesses *)

Definition wit_session (id user : string) (expires : Z) : OpenDBSC_Session :=
  Session (Some id) (Some user) OPENDBSC_SESSION_STATE_ACTIVE None None (Some "c")
    expires (bool_decide (expires ≠ 0)) 100.

Definition wit_world : world := World [] 1000 [] [] [] [].

(** Two sessions, the first of which has expired at the time of [wit_world]. *)
Definition wit_store : OpenDBSC_MemoryStore :=
  MemoryStore [wit_session "a" "alice" 900; wit_session "b" "bob" 0] 8 false.

Lemma wit_store_wf : ms_wf wit_store.
Proof.
  apply ms_wf_intro; [|repeat constructor; done|simpl; lia|simpl; lia].
  apply (bool_decide_unpack _). vm_compute. exact I.
Qed.

Lemma memory_store_refines_map_witness :
  ms_wf wit_store ∧ Z.of_nat (ms_count wit_store) + 1 < 2 ^ 31 ∧
  wp (exec_op (OpGet (Some "a") (Some None)) wit_store) wit_world (λ '(r, ms') w',
    env_step wit_world w' ∧ ms_wf ms' ∧ (ms_count ms' ≤ S (ms_count wit_store))%nat ∧
    store_spec wit_world (OpGet (Some "a") (Some None)) (ms_view wit_store) r (ms_view ms')).
Proof.
  split; [apply wit_store_wf|]. split; [vm_compute; reflexivity|].
  apply memory_store_refines_map; [apply wit_store_wf|vm_compute; reflexivity].
Defined.

Lemma memory_store_lifecycle_safe_witness :
  let ops := [OpCreate (Some (wit_session "a" "alice" 900)); OpGet (Some "a") (Some None)] in
  Z.of_nat (length ops) < 2 ^ 31 - 1 ∧
  wp (store_lifecycle ops) wit_world (λ r _,
    (r = None ∧ ¬ no_oom wit_world) ∨
    ∃ rs ms w1, r = Some (rs, ms) ∧ env_step wit_world w1 ∧ ms_wf ms ∧
                spec_runs w1 ops ∅ rs (ms_view ms)).
Proof.
  intros ops. split; [vm_compute; reflexivity|].
  apply memory_store_lifecycle_safe. vm_compute. reflexivity.
Defined.

Lemma memory_expire_exact_witness :
  ms_wf wit_store ∧
  wp (memory_store_expire (with_mutex true wit_store)) wit_world (λ ms' _,
    ms_wf (unlock ms') ∧ ms_view ms' ⊆ ms_view wit_store ∧
    (∀ id s, ms_view wit_store !! id = Some s → s_has_expires s = false →
       ms_view ms' !! id = Some s) ∧
    (quiet wit_world → ∀ id s, ms_view ms' !! id = Some s ↔
       ms_view wit_store !! id = Some s ∧ expired (w_now wit_world) s = false)).
Proof. split; [apply wit_store_wf|]. apply memory_expire_exact, wit_store_wf. Defined.

(** A failed update loses the session.  When the duplication of a string
    fails, [update] returns -1, but the session it was to replace is gone
    from the store: the next [get] does not find it, although its slot still
    counts. *)
Theorem memory_update_failure_loses_session :
  exists ms w,
    opendbsc_memory_store_update_impl wit_store (Some (wit_session "b" "bob" 0))
      (World [false] 1000 [] [] [] []) = Ret (-1, ms) w
    ∧ ms_count ms = ms_count wit_store
    ∧ is_Some (ms_view wit_store !! "b")
    ∧ opendbsc_memory_store_get_impl ms (Some "b") (Some None) w = Ret (-1, Some None, ms) w.
Proof.
  do 2 eexists. split; [vm_compute; reflexivity|].
  split; [reflexivity|]. split; [vm_compute; by eexists|]. vm_compute. reflexivity.
Qed.
