(* ===== verification/MemoryThreads.v ===== *)
(** The calls of [src/store/memory.c] as programs of threads: every access to
    the array, its count or its capacity, and every allocation and reading of
    the clock, is a step of its own between which other threads may run, and
    only the mutex keeps them out.  [MemoryLinear.v] shows that a call that runs
    alone is the function of [MemoryStore.v], and that any interleaving of any
    threads is a sequence of such calls. *)

From S2P Require Export Threads MemoryStore.
From stdpp Require Import options.
#[local] Open Scope Z_scope.

#[export] Instance memory_Locked : Locked OpenDBSC_MemoryStore := {
  mutex := ms_mutex;
  set_mutex := with_mutex
}.

#[export] Instance memory_LockedLaws : LockedLaws OpenDBSC_MemoryStore.
Proof. by intros b ms. Qed.

Abbreviation mprog := (prog OpenDBSC_MemoryStore).

(** ** Accesses *)

(** [ms->count]. *)
Definition read_count : mprog nat := act (λ ms, mret (ms_count ms, ms)).

(** [ms->capacity], written by [grow] with the new array. *)
Definition read_capacity : mprog nat := act (λ ms, mret (ms_capacity ms, ms)).
Definition write_capacity (n : nat) : mprog unit := act (λ ms, mret (tt, with_capacity n ms)).

(** [ms->sessions[i]]. *)
Definition read_slot (i : nat) : mprog OpenDBSC_Session :=
  act (λ ms, s ← deref (ms_sessions ms !! i); mret (s, ms)).
Definition write_slot (i : nat) (s : OpenDBSC_Session) : mprog unit :=
  act (λ ms, _ ← deref (ms_sessions ms !! i);
             mret (tt, with_sessions (<[i := s]> (ms_sessions ms)) ms)).

(** [ms->count--], which drops the last session. *)
Definition drop_last : mprog unit :=
  act (λ ms, mret (tt, with_sessions (take (ms_count ms - 1) (ms_sessions ms)) ms)).

(** Writing [sessions[count]], which is not yet part of the array, is
    undefined when there is no room; [ms->count++] takes in what was written. *)
Definition check_room : mprog unit :=
  act (λ ms, if bool_decide (ms_count ms < ms_capacity ms)%nat then mret (tt, ms) else ub).
Definition push_slot (s : OpenDBSC_Session) : mprog unit :=
  act (λ ms, mret (tt, with_sessions (ms_sessions ms ++ [s]) ms)).

(** ** Operations *)

Definition t_is_expired (s : OpenDBSC_Session) : mprog bool :=
  if negb (s_has_expires s) then mret false else
  now ← local time_NULL;
  mret (s_expires_at s <? now).

Definition t_grow : mprog Z :=
  count ← read_count;
  capacity ← read_capacity;
  if decide (count < capacity)%nat then mret 0 else
  let new_capacity :=
    if decide (capacity = 0%nat) then OPENDBSC_MEMORY_STORE_INITIAL_CAPACITY
    else (capacity * 2)%nat in
  ok ← local malloc;
  if negb ok then mret (-1) else
  write_capacity new_capacity;;
  mret 0.

Fixpoint t_find_loop (fuel : nat) (id : string) (i : nat) : mprog Z :=
  match fuel with
  | O => diverge
  | S fuel' =>
      count ← read_count;
      if decide (i < count)%nat then
        s ← read_slot i;
        if str_is (s_id s) id then mret (int_of_size (Z.of_nat i))
        else t_find_loop fuel' id (S i)
      else mret (-1)
  end.

(** The fuel of a loop is the number of sessions and one more. *)
Definition t_find (id : cstr) : mprog Z :=
  match id with
  | None => mret (-1)
  | Some id => count ← read_count; t_find_loop (S count) id 0
  end.

Definition t_remove_at (idx : nat) : mprog unit :=
  s ← read_slot idx;
  s ← local (deref (opendbsc_session_free (Some s)));
  write_slot idx s;;
  count ← read_count;
  (if decide (idx = (count - 1)%nat) then mret tt
   else last ← read_slot (count - 1)%nat; write_slot idx last);;
  drop_last.

Fixpoint t_expire_loop (fuel : nat) (i : nat) : mprog unit :=
  match fuel with
  | O => diverge
  | S fuel' =>
      count ← read_count;
      if decide (i < count)%nat then
        s ← read_slot i;
        e ← t_is_expired s;
        if e : bool then (t_remove_at i;; t_expire_loop fuel' i)
        else t_expire_loop fuel' (S i)
      else mret tt
  end.

Definition t_expire : mprog unit := count ← read_count; t_expire_loop (S count) 0.

Definition t_overwrite_at (idx : nat) (session : option OpenDBSC_Session) : mprog Z :=
  slot ← read_slot idx;
  slot ← local (deref (opendbsc_session_free (Some slot)));
  write_slot idx slot;;
  '(rc, slot) ← local (opendbsc_session_copy (Some slot) session);
  slot ← local (deref slot);
  write_slot idx slot;;
  if negb (rc =? 0) then
    slot ← read_slot idx;
    slot ← local (deref (opendbsc_session_init (opendbsc_session_free (Some slot))));
    write_slot idx slot;;
    mutex_unlock;;
    mret (-1)
  else
    mutex_unlock;;
    mret 0.

Definition t_create (session : option OpenDBSC_Session) : mprog Z :=
  match session with
  | None => mret (-1)
  | Some s =>
      match s_id s with
      | None => mret (-1)
      | Some _ =>
          mutex_lock;;
          idx ← t_find (s_id s);
          if 0 <=? idx then t_overwrite_at (Z.to_nat idx) session else
          rc ← t_grow;
          if negb (rc =? 0) then (mutex_unlock;; mret (-1)) else
          check_room;;
          '(rc, slot) ← local (opendbsc_session_copy
                                 (opendbsc_session_init (Some session_default)) session);
          if negb (rc =? 0) then (mutex_unlock;; mret (-1)) else
          slot ← local (deref slot);
          push_slot slot;;
          mutex_unlock;;
          mret 0
      end
  end.

Definition t_get (id : cstr) (out : option (option OpenDBSC_Session))
    : mprog (Z * option (option OpenDBSC_Session)) :=
  match out with
  | None => mret (-1, None)
  | Some _ =>
      match id with
      | None => mret (-1, Some None)
      | Some _ =>
          mutex_lock;;
          idx ← t_find id;
          if idx <? 0 then (mutex_unlock;; mret (-1, Some None)) else
          stored ← read_slot (Z.to_nat idx);
          e ← t_is_expired stored;
          if e : bool then
            t_remove_at (Z.to_nat idx);;
            mutex_unlock;;
            mret (-1, Some None)
          else
            copy ← local malloc;
            if negb copy then (mutex_unlock;; mret (-1, Some None)) else
            stored ← read_slot (Z.to_nat idx);
            '(rc, copy) ← local (opendbsc_session_copy
                                   (opendbsc_session_init (Some session_default)) (Some stored));
            if negb (rc =? 0) then (mutex_unlock;; mret (-1, Some None)) else
            mutex_unlock;;
            mret (0, Some copy)
      end
  end.

Definition t_update (session : option OpenDBSC_Session) : mprog Z :=
  match session with
  | None => mret (-1)
  | Some s =>
      match s_id s with
      | None => mret (-1)
      | Some _ =>
          mutex_lock;;
          idx ← t_find (s_id s);
          if idx <? 0 then (mutex_unlock;; mret (-1))
          else t_overwrite_at (Z.to_nat idx) session
      end
  end.

Definition t_delete (id : cstr) : mprog Z :=
  match id with
  | None => mret 0
  | Some _ =>
      mutex_lock;;
      idx ← t_find id;
      (if 0 <=? idx then t_remove_at (Z.to_nat idx) else mret tt);;
      mutex_unlock;;
      mret 0
  end.

(** The counting loop of [get_by_user_id]. *)
Fixpoint t_count_loop (fuel : nat) (user_id : string) (i : nat) : mprog nat :=
  match fuel with
  | O => diverge
  | S fuel' =>
      count ← read_count;
      if decide (i < count)%nat then
        s ← read_slot i;
        n ← t_count_loop fuel' user_id (S i);
        mret (if str_is (s_user_id s) user_id then S n else n)
      else mret 0%nat
  end.

(** The copying loop: [matches] is the thread's own array. *)
Fixpoint t_copy_loop (fuel : nat) (user_id : string) (match_count : nat) (i : nat)
    (matches : list OpenDBSC_Session) : mprog (option (list OpenDBSC_Session)) :=
  match fuel with
  | O => diverge
  | S fuel' =>
      count ← read_count;
      if decide (i < count)%nat then
        s ← read_slot i;
        if str_is (s_user_id s) user_id then
          if negb (bool_decide (length matches < match_count)%nat) then local ub else
          '(rc, d) ← local (opendbsc_session_copy
                              (opendbsc_session_init (Some session_default)) (Some s));
          if negb (rc =? 0) then mret None else
          d ← local (deref d);
          t_copy_loop fuel' user_id match_count (S i) (matches ++ [d])
        else t_copy_loop fuel' user_id match_count (S i) matches
      else mret (Some matches)
  end.

Definition t_get_by_user_id (user_id : cstr) (out : option (list OpenDBSC_Session))
    (count : option nat) : mprog (Z * option (list OpenDBSC_Session) * option nat) :=
  match out, count, user_id with
  | Some _, Some _, Some user_id =>
      mutex_lock;;
      t_expire;;
      n ← read_count;
      match_count ← t_count_loop (S n) user_id 0;
      if decide (match_count = 0%nat) then (mutex_unlock;; mret (0, Some [], Some 0%nat)) else
      ok ← local malloc;
      if negb ok then (mutex_unlock;; mret (-1, Some [], Some 0%nat)) else
      n ← read_count;
      matches ← t_copy_loop (S n) user_id match_count 0 [];
      mutex_unlock;;
      match matches with
      | None => mret (-1, Some [], Some 0%nat)
      | Some l => mret (0, Some l, Some match_count)
      end
  | _, _, _ => mret (-1, out, count)
  end.

Fixpoint t_delete_user_loop (fuel : nat) (user_id : string) (i : nat) : mprog unit :=
  match fuel with
  | O => diverge
  | S fuel' =>
      count ← read_count;
      if decide (i < count)%nat then
        s ← read_slot i;
        if str_is (s_user_id s) user_id then (t_remove_at i;; t_delete_user_loop fuel' user_id i)
        else t_delete_user_loop fuel' user_id (S i)
      else mret tt
  end.

Definition t_delete_by_user_id (user_id : cstr) : mprog Z :=
  match user_id with
  | None => mret 0
  | Some u =>
      mutex_lock;;
      count ← read_count;
      t_delete_user_loop (S count) u 0;;
      mutex_unlock;;
      mret 0
  end.

(** The program of a call. *)
Definition thread_code (op : store_op) : mprog store_reply :=
  match op with
  | OpCreate s => rc ← t_create s; mret (RCode rc)
  | OpGet id out => r ← t_get id out; mret (RSession r.1 r.2)
  | OpUpdate s => rc ← t_update s; mret (RCode rc)
  | OpDelete id => rc ← t_delete id; mret (RCode rc)
  | OpGetByUser u out cnt => r ← t_get_by_user_id u out cnt; mret (RSessions r.1.1 r.1.2 r.2)
  | OpDeleteByUser u => rc ← t_delete_by_user_id u; mret (RCode rc)
  end.
