(* ===== verification/MemoryLinear.v ===== *)
(** The threads of [MemoryThreads.v]: the mutex protects every access, a call
    that runs alone is the function of [MemoryStore.v], and any interleaving of
    any threads answers as the calls made one after the other do. *)

From S2P Require Export MemoryThreads.
From stdpp Require Import options.
#[local] Open Scope Z_scope.

(** ** The mutex protects every access *)

Lemma acts_ret {R} (r : R) : acts (mret r : mprog R).
Proof. done. Qed.

Lemma acts_read_count : acts read_count.
Proof. apply acts_act1. by intros ms w x ms' w' [= <- <- <-]. Qed.

Lemma acts_read_capacity : acts read_capacity.
Proof. apply acts_act1. by intros ms w x ms' w' [= <- <- <-]. Qed.

Lemma acts_write_capacity n : acts (write_capacity n).
Proof. apply acts_act1. by intros ms w x ms' w' [= <- <- <-]. Qed.

Lemma acts_read_slot i : acts (read_slot i).
Proof.
  apply acts_act1. intros ms w x ms' w'. destruct (_ !! _); [|done]. by intros [= <- <- <-].
Qed.

Lemma acts_write_slot i s : acts (write_slot i s).
Proof.
  apply acts_act1. intros ms w x ms' w'. destruct (_ !! _); [|done]. by intros [= <- <- <-].
Qed.

Lemma acts_drop_last : acts drop_last.
Proof. apply acts_act1. by intros ms w x ms' w' [= <- <- <-]. Qed.

Lemma acts_check_room : acts check_room.
Proof.
  apply acts_act1. intros ms w x ms' w'. case_bool_decide; [|done]. by intros [= <- <- <-].
Qed.

Lemma acts_push_slot s : acts (push_slot s).
Proof. apply acts_act1. by intros ms w x ms' w' [= <- <- <-]. Qed.

#[local] Hint Resolve acts_ret acts_read_count acts_read_capacity acts_write_capacity
  acts_read_slot acts_write_slot acts_drop_last acts_check_room acts_push_slot : acts.

(** Goes through a program, one access after the other. *)
#[local] Ltac acts_step :=
  lazymatch goal with
  | |- acts (if ?b then _ else _) => destruct b
  | |- acts (match ?x with _ => _ end) => destruct x
  | |- acts (_ ≫= _) => apply acts_bind; [|intros ?]
  | |- critical (if ?b then _ else _) => destruct b
  | |- critical (match ?x with _ => _ end) => destruct x
  | |- critical (mutex_unlock ≫= _) => cbn; repeat case_match; by eexists
  | |- critical (_ ≫= _) => apply critical_bind; [|intros ?]
  | |- acts _ => by eauto with acts
  end.

Lemma acts_is_expired s : acts (t_is_expired s).
Proof. unfold t_is_expired. repeat acts_step. Qed.

Lemma acts_grow : acts t_grow.
Proof. unfold t_grow. repeat acts_step. Qed.

Lemma acts_find id : acts (t_find id).
Proof.
  assert (∀ fuel id i, acts (t_find_loop fuel id i)) as Hloop
    by (induction fuel as [|fuel IH]; intros; cbn [t_find_loop]; repeat acts_step).
  unfold t_find. repeat acts_step.
Qed.

Lemma acts_remove_at i : acts (t_remove_at i).
Proof. unfold t_remove_at. repeat acts_step. Qed.

#[local] Hint Resolve acts_is_expired acts_grow acts_find acts_remove_at : acts.

Lemma acts_expire : acts t_expire.
Proof.
  assert (∀ fuel i, acts (t_expire_loop fuel i)) as Hloop
    by (induction fuel as [|fuel IH]; intros; cbn [t_expire_loop]; repeat acts_step).
  unfold t_expire. repeat acts_step.
Qed.

Lemma acts_count_loop fuel u i : acts (t_count_loop fuel u i).
Proof. revert i. induction fuel as [|fuel IH]; intros; cbn [t_count_loop]; repeat acts_step. Qed.

Lemma acts_copy_loop fuel u n i l : acts (t_copy_loop fuel u n i l).
Proof. revert i l. induction fuel as [|fuel IH]; intros; cbn [t_copy_loop]; repeat acts_step. Qed.

Lemma acts_delete_user_loop fuel u i : acts (t_delete_user_loop fuel u i).
Proof. revert i. induction fuel as [|fuel IH]; intros; cbn [t_delete_user_loop]; repeat acts_step. Qed.

#[local] Hint Resolve acts_expire acts_count_loop acts_copy_loop acts_delete_user_loop : acts.

Lemma critical_overwrite_at i s : critical (t_overwrite_at i s).
Proof. unfold t_overwrite_at. repeat acts_step. Qed.

#[local] Hint Resolve critical_overwrite_at : acts.

Lemma atomic_locked {R} (k : mprog R) : critical k → atomic (mutex_lock ≫= λ _, k).
Proof. done. Qed.

#[local] Ltac atomic_step :=
  lazymatch goal with
  | |- atomic (match ?x with _ => _ end) => destruct x
  | |- atomic (mutex_lock ≫= _) => apply atomic_locked; repeat (acts_step || apply critical_overwrite_at)
  | |- atomic (mret _) => exact I
  end.

(** Every call locks the mutex before its first access and unlocks it, once,
    after its last. *)
Lemma thread_code_atomic op : atomic (thread_code op).
Proof.
  destruct op as [s|id out|s|id|u out cnt|u]; cbn [thread_code].
  - apply (atomic_map _ RCode). unfold t_create. repeat atomic_step.
  - apply (atomic_map _ (λ r, RSession r.1 r.2)). unfold t_get. repeat atomic_step.
  - apply (atomic_map _ RCode). unfold t_update. repeat atomic_step.
  - apply (atomic_map _ RCode). unfold t_delete. repeat atomic_step.
  - apply (atomic_map _ (λ r, RSessions r.1.1 r.1.2 r.2)). unfold t_get_by_user_id.
    repeat atomic_step.
  - apply (atomic_map _ RCode). unfold t_delete_by_user_id. repeat atomic_step.
Qed.

(** ** A call that runs alone is the call of [MemoryStore.v] *)

Section alone.
Implicit Types (ms : OpenDBSC_MemoryStore) (w : world).

Lemma run_ret {R} (r : R) ms w : run (mret r) ms w = Ret (r, ms) w.
Proof. done. Qed.

Lemma run_read_count ms w : run read_count ms w = Ret (ms_count ms, ms) w.
Proof. done. Qed.

Lemma run_read_capacity ms w : run read_capacity ms w = Ret (ms_capacity ms, ms) w.
Proof. done. Qed.

Lemma run_write_capacity n ms w : run (write_capacity n) ms w = Ret (tt, with_capacity n ms) w.
Proof. done. Qed.

Lemma run_push_slot s ms w :
  run (push_slot s) ms w = Ret (tt, with_sessions (ms_sessions ms ++ [s]) ms) w.
Proof. done. Qed.

Lemma run_drop_last ms w :
  run drop_last ms w
    = Ret (tt, with_sessions (take (ms_count ms - 1) (ms_sessions ms)) ms) w.
Proof. done. Qed.

Lemma run_read_slot i s ms w :
  ms_sessions ms !! i = Some s → run (read_slot i) ms w = Ret (s, ms) w.
Proof. intros Hi. unfold read_slot. rewrite run_act. by rewrite Hi. Qed.

Lemma run_no_slot i ms w : ms_sessions ms !! i = None → run (read_slot i) ms w = UB.
Proof. intros Hi. unfold read_slot. rewrite run_act. by rewrite Hi. Qed.

Lemma run_write_slot i x s ms w :
  ms_sessions ms !! i = Some x →
  run (write_slot i s) ms w = Ret (tt, with_sessions (<[i := s]> (ms_sessions ms)) ms) w.
Proof. intros Hi. unfold write_slot. rewrite run_act. by rewrite Hi. Qed.

Lemma run_deref {A} (a : A) ms w : run (local (deref (Some a))) ms w = Ret (a, ms) w.
Proof. done. Qed.

Lemma deref_bind {A B} (a : A) (f : A → C B) w : (deref (Some a) ≫= f) w = f a w.
Proof. done. Qed.

Lemma run_freed s ms w :
  run (local (deref (opendbsc_session_free (Some s)))) ms w = Ret (session_default, ms) w.
Proof. done. Qed.

Lemma run_reset s ms w :
  run (local (deref (opendbsc_session_init (opendbsc_session_free (Some s))))) ms w
    = Ret (session_default, ms) w.
Proof. done. Qed.

(** [trun] runs the next access of a program. *)
Ltac trun :=
  rewrite run_bind, bind_unfold;
  first [ rewrite run_read_count | rewrite run_read_capacity | rewrite run_write_capacity
        | rewrite run_push_slot | rewrite run_drop_last
        | erewrite run_read_slot by eassumption | rewrite run_no_slot by assumption
        | erewrite run_write_slot by eassumption
        | rewrite run_deref | rewrite run_freed | rewrite run_reset
        | rewrite run_local, bind_unfold ]; cbn beta match.

Lemma find_loop_alone fuel id i ms w :
  (i ≤ ms_count ms < fuel + i)%nat →
  run (t_find_loop fuel id i) ms w = Ret (find_loop (drop i (ms_sessions ms)) id i, ms) w.
Proof.
  unfold ms_count. revert i. induction fuel as [|fuel IH]; intros i Hfuel; cbn [t_find_loop]; [lia|].
  trun. unfold ms_count. case_decide as Hi; [|by rewrite drop_ge by lia].
  destruct (lookup_lt_is_Some_2 _ _ Hi) as [s Hs]. trun.
  rewrite (drop_S _ _ _ Hs). cbn. destruct (str_is _ id); [done|]. apply IH. lia.
Qed.

Lemma find_alone id ms w : run (t_find id) ms w = Ret (memory_store_find ms id, ms) w.
Proof.
  destruct id as [id|]; [|done]. unfold t_find. trun. rewrite find_loop_alone by lia. done.
Qed.

Lemma is_expired_alone s ms w :
  run (t_is_expired s) ms w = (e ← memory_store_is_expired (Some s); mret (e, ms)) w.
Proof.
  unfold t_is_expired, memory_store_is_expired. destruct (s_has_expires s); [|done]. cbn [negb].
  trun. rewrite !bind_unfold. by destruct (time_NULL w).
Qed.

(** A program whose result is the new object only. *)
Definition alone (p : mprog unit) (f : OpenDBSC_MemoryStore → C OpenDBSC_MemoryStore) : Prop :=
  ∀ ms w, run p ms w = (ms' ← f ms; mret (tt, ms')) w.

Lemma remove_at_alone i : alone (t_remove_at i) (λ ms, memory_store_remove_at ms i).
Proof.
  intros ms w. unfold t_remove_at, memory_store_remove_at. rewrite (bind_unfold _ (λ ms', _)).
  case_decide as Hi.
  - destruct (lookup_lt_is_Some_2 _ _ Hi) as [s Hs]. trun. trun. trun. trun.
    unfold ms_count in *. cbn [ms_sessions with_sessions]. rewrite length_insert.
    rewrite run_bind, bind_unfold. unfold swap_remove. case_decide as Hlast.
    + cbn. by rewrite length_insert.
    + assert (length (ms_sessions ms) - 1 < length (<[i:=session_default]> (ms_sessions ms)))%nat
        as Hlt by (rewrite length_insert; lia).
      destruct (lookup_lt_is_Some_2 _ _ Hlt) as [last Hl]. rewrite Hl.
      trun. erewrite run_write_slot by (cbn; rewrite list_lookup_insert_eq by lia; done).
      cbn beta match. rewrite run_drop_last. unfold ms_count. simpl.
      by rewrite !length_insert.
  - rewrite run_bind, bind_unfold, run_no_slot; [done|]. apply lookup_ge_None.
    unfold ms_count in Hi. lia.
Qed.

Lemma expire_loop_alone fuel i : alone (t_expire_loop fuel i) (λ ms, expire_loop fuel ms i).
Proof.
  revert i. induction fuel as [|fuel IH]; intros i ms w; cbn [t_expire_loop expire_loop]; [done|].
  trun. rewrite (bind_unfold _ (λ ms', _)). case_decide as Hi; [|done].
  destruct (lookup_lt_is_Some_2 _ _ Hi) as [s Hs]. trun. rewrite Hs, deref_bind.
  rewrite run_bind, bind_unfold, is_expired_alone, !(bind_unfold (memory_store_is_expired _)).
  destruct (memory_store_is_expired (Some s) w) as [e w1| |]; [|done..].
  rewrite ret_unfold. cbn beta match. destruct e; [|apply IH].
  rewrite run_bind, bind_unfold, remove_at_alone,
    !(bind_unfold (memory_store_remove_at _ _)).
  destruct (memory_store_remove_at ms i w1) as [ms1 w2| |]; [apply IH|done..].
Qed.

Lemma expire_alone : alone t_expire memory_store_expire.
Proof. intros ms w. unfold t_expire. trun. apply expire_loop_alone. Qed.

Lemma delete_user_loop_alone fuel u i :
  alone (t_delete_user_loop fuel u i) (λ ms, delete_user_loop fuel ms u i).
Proof.
  revert i. induction fuel as [|fuel IH]; intros i ms w; cbn [t_delete_user_loop delete_user_loop];
    [done|].
  trun. rewrite (bind_unfold _ (λ ms', _)). case_decide as Hi; [|done].
  destruct (lookup_lt_is_Some_2 _ _ Hi) as [s Hs]. trun. rewrite Hs, deref_bind.
  destruct (str_is (s_user_id s) u); [|apply IH].
  rewrite run_bind, bind_unfold, remove_at_alone,
    !(bind_unfold (memory_store_remove_at _ _)).
  destruct (memory_store_remove_at ms i w) as [ms1 w2| |]; [apply IH|done..].
Qed.
Lemma grow_alone ms w : run t_grow ms w = memory_store_grow ms w.
Proof.
  unfold t_grow, memory_store_grow. trun. trun. case_decide; [done|]. trun.
  rewrite (bind_unfold malloc (λ ok, _)). destruct (malloc w) as [ok w1| |]; [|done..].
  rewrite ret_unfold. cbn beta match. by destruct ok.
Qed.

Lemma overwrite_alone i s ms w : run (t_overwrite_at i s) ms w = overwrite_at ms i s w.
Proof.
  unfold t_overwrite_at, overwrite_at. destruct (ms_sessions ms !! i) as [x|] eqn:Hi.
  - trun. rewrite deref_bind. trun. trun. trun.
    change (opendbsc_session_free (Some x)) with (Some session_default).
    rewrite (bind_unfold (opendbsc_session_copy _ _) (λ '(rc, slot), _)).
    destruct (opendbsc_session_copy (Some session_default) s w) as [[rc [slot|]] w1| |]; [|done..].
    rewrite ret_unfold. cbn beta match. rewrite deref_bind. trun.
    assert (<[i:=session_default]> (ms_sessions ms) !! i = Some session_default) as Hi'
      by (apply list_lookup_insert_eq; by eapply lookup_lt_Some).
    rewrite run_bind, bind_unfold. erewrite run_write_slot by exact Hi'.
    cbn [ms_sessions with_sessions ms_capacity ms_mutex]. rewrite list_insert_insert_eq. cbn beta match.
    destruct (negb _); [|done].
    assert (<[i:=slot]> (ms_sessions ms) !! i = Some slot) as Hi''
      by (apply list_lookup_insert_eq; by eapply lookup_lt_Some).
    rewrite run_bind, bind_unfold. erewrite run_read_slot by exact Hi''. cbn beta match. trun.
    rewrite run_bind, bind_unfold. erewrite run_write_slot by exact Hi''.
    cbn [ms_sessions with_sessions ms_capacity ms_mutex]. by rewrite list_insert_insert_eq.
  - by trun.
Qed.

Lemma count_loop_alone fuel u i ms w :
  (i ≤ ms_count ms < fuel + i)%nat →
  run (t_count_loop fuel u i) ms w =
    Ret (length (filter (λ s, str_is (s_user_id s) u = true) (drop i (ms_sessions ms))), ms) w.
Proof.
  unfold ms_count. revert i.
  induction fuel as [|fuel IH]; intros i Hfuel; cbn [t_count_loop]; [lia|].
  trun. unfold ms_count. case_decide as Hi; [|by rewrite drop_ge by lia].
  destruct (lookup_lt_is_Some_2 _ _ Hi) as [s Hs]. trun.
  rewrite run_bind, bind_unfold, IH by lia. cbn beta match.
  rewrite (drop_S _ _ _ Hs), filter_cons. by destruct (str_is _ u).
Qed.

Lemma copy_loop_alone fuel u n i acc ms w :
  (i ≤ ms_count ms < fuel + i)%nat →
  run (t_copy_loop fuel u n i acc) ms w =
    (r ← copy_matches (drop i (ms_sessions ms)) u n acc; mret (r, ms)) w.
Proof.
  unfold ms_count. revert i acc w.
  induction fuel as [|fuel IH]; intros i acc w Hfuel; cbn [t_copy_loop]; [lia|].
  trun. unfold ms_count. case_decide as Hi; [|by rewrite drop_ge by lia].
  destruct (lookup_lt_is_Some_2 _ _ Hi) as [s Hs]. trun.
  rewrite (drop_S _ _ _ Hs). cbn [copy_matches]. destruct (str_is _ u); [|apply IH; lia].
  destruct (negb _); [done|]. trun.
  rewrite (bind_unfold (_ ≫= _) (λ r, mret _)), (bind_unfold (opendbsc_session_copy _ _)).
  destruct (opendbsc_session_copy _ (Some s) w) as [[rc [d|]] w1| |]; [| |done..];
    rewrite ret_unfold; cbn beta match; destruct (negb _); try done.
  rewrite run_bind, bind_unfold, run_deref. cbn beta match. rewrite IH by lia.
  by rewrite deref_bind, bind_unfold.
Qed.

(** *** The calls *)

Lemma locked_alone {R} (k : mprog R) f ms w :
  (∀ ms w, run k ms w = f ms w) → run (mutex_lock ≫= λ _, k) ms w = (lock ms ≫= f) w.
Proof.
  intros Hk. cbn. unfold lock. rewrite bind_unfold. destruct (ms_mutex ms); [done|]. apply Hk.
Qed.

Lemma run_unlock {R} (r : R) ms w : run (mutex_unlock ≫= λ _, mret r) ms w = Ret (r, unlock ms) w.
Proof. done. Qed.

Lemma create_alone s ms w :
  run (t_create s) ms w = opendbsc_memory_store_create_impl ms s w.
Proof.
  destruct s as [s|]; [|done]. unfold t_create, opendbsc_memory_store_create_impl.
  destruct (s_id s) as [id|]; [|done]. apply locked_alone. clear ms w. intros ms w.
  rewrite run_bind, bind_unfold, find_alone. cbn beta match.
  destruct (0 <=? _); [apply overwrite_alone|].
  rewrite run_bind, bind_unfold, grow_alone. rewrite (bind_unfold (memory_store_grow _)).
  destruct (memory_store_grow ms w) as [[rc ms1] w1| |]; [|done..].
  destruct (negb _); [done|]. rewrite run_bind, bind_unfold. unfold check_room. rewrite run_act.
  destruct (bool_decide _); [|done]. rewrite ret_unfold. cbn beta match. trun.
  cbn [negb]. rewrite (bind_unfold (opendbsc_session_copy _ _)).
  destruct (opendbsc_session_copy _ _ w1) as [[rc2 [slot|]] w2| |]; [| |done..];
    rewrite ret_unfold; cbn beta match; destruct (negb _); try done.
Qed.

Lemma update_alone s ms w :
  run (t_update s) ms w = opendbsc_memory_store_update_impl ms s w.
Proof.
  destruct s as [s|]; [|done]. unfold t_update, opendbsc_memory_store_update_impl.
  destruct (s_id s) as [id|]; [|done]. apply locked_alone. clear ms w. intros ms w.
  rewrite run_bind, bind_unfold, find_alone. cbn beta match.
  destruct (_ <? 0); [done|apply overwrite_alone].
Qed.

Lemma get_alone id out ms w :
  run (t_get id out) ms w = opendbsc_memory_store_get_impl ms id out w.
Proof.
  destruct out as [o|]; [|done]. destruct id as [id|]; [|done].
  unfold t_get, opendbsc_memory_store_get_impl. apply locked_alone. clear ms w. intros ms w.
  rewrite run_bind, bind_unfold, find_alone. cbn beta match.
  generalize (memory_store_find ms (Some id)). intros idx.
  destruct (_ <? 0); [done|]. destruct (ms_sessions ms !! Z.to_nat idx) as [s|] eqn:Hs; [|by trun].
  trun. rewrite deref_bind, run_bind, bind_unfold, is_expired_alone,
    !(bind_unfold (memory_store_is_expired _)).
  destruct (memory_store_is_expired (Some s) w) as [e w1| |]; [|done..].
  rewrite ret_unfold. cbn beta match. destruct e.
  - rewrite run_bind, bind_unfold, remove_at_alone, !(bind_unfold (memory_store_remove_at _ _)).
    by destruct (memory_store_remove_at ms _ w1).
  - trun. rewrite (bind_unfold malloc (λ copy, _)).
    destruct (malloc w1) as [ok w2| |]; [|done..]. rewrite ret_unfold. cbn beta match.
    destruct ok; [|done]. cbn [negb]. trun. trun. rewrite (bind_unfold (opendbsc_session_copy _ _)).
    destruct (opendbsc_session_copy _ _ w2) as [[rc [slot|]] w3| |]; [| |done..];
      rewrite ret_unfold; cbn beta match; by destruct (negb _).
Qed.

Lemma delete_alone id ms w :
  run (t_delete id) ms w = opendbsc_memory_store_delete_impl ms id w.
Proof.
  destruct id as [id|]; [|done]. unfold t_delete, opendbsc_memory_store_delete_impl.
  apply locked_alone. clear ms w. intros ms w.
  rewrite run_bind, bind_unfold, find_alone. cbn beta match.
  generalize (memory_store_find ms (Some id)). intros idx. destruct (0 <=? idx); [|done].
  rewrite run_bind, bind_unfold, remove_at_alone, !(bind_unfold (memory_store_remove_at _ _)).
  by destruct (memory_store_remove_at ms _ w).
Qed.

Lemma delete_by_user_alone u ms w :
  run (t_delete_by_user_id u) ms w = opendbsc_memory_store_delete_by_user_id_impl ms u w.
Proof.
  destruct u as [u|]; [|done].
  unfold t_delete_by_user_id, opendbsc_memory_store_delete_by_user_id_impl.
  apply locked_alone. clear ms w. intros ms w. trun.
  rewrite run_bind, bind_unfold, delete_user_loop_alone, !(bind_unfold (delete_user_loop _ _ _ _)).
  by destruct (delete_user_loop _ _ _ _ w).
Qed.

Lemma get_by_user_alone u out cnt ms w :
  run (t_get_by_user_id u out cnt) ms w
    = opendbsc_memory_store_get_by_user_id_impl ms u out cnt w.
Proof.
  destruct out as [o|], cnt as [c|], u as [u|]; try done.
  unfold t_get_by_user_id, opendbsc_memory_store_get_by_user_id_impl.
  apply locked_alone. clear ms w. intros ms w.
  rewrite run_bind, bind_unfold, expire_alone, !(bind_unfold (memory_store_expire _)).
  destruct (memory_store_expire ms w) as [ms1 w1| |]; [|done..].
  rewrite ret_unfold. cbn beta match. trun.
  rewrite run_bind, bind_unfold, count_loop_alone, drop_0 by lia. cbn beta match.
  case_decide; [done|]. trun. rewrite (bind_unfold malloc (λ ok, _)).
  destruct (malloc w1) as [ok w2| |]; [|done..]. rewrite ret_unfold. cbn beta match.
  destruct ok; [|done]. cbn [negb]. trun.
  rewrite run_bind, bind_unfold, copy_loop_alone, drop_0, !(bind_unfold (copy_matches _ _ _ _)) by lia.
  destruct (copy_matches _ _ _ _ w2) as [[l|] w3| |]; done.
Qed.

Lemma thread_code_run op ms w : run (thread_code op) ms w = exec_op op ms w.
Proof.
  destruct op as [s|id out|s|id|u out cnt|u]; cbn [thread_code exec_op]; rewrite run_bind, !bind_unfold.
  - rewrite create_alone. cbn. by destruct (opendbsc_memory_store_create_impl _ _ _) as [[??]?| |].
  - rewrite get_alone. cbn. by destruct (opendbsc_memory_store_get_impl _ _ _ _) as [[[??]?]?| |].
  - rewrite update_alone. cbn. by destruct (opendbsc_memory_store_update_impl _ _ _) as [[??]?| |].
  - rewrite delete_alone. cbn. by destruct (opendbsc_memory_store_delete_impl _ _ _) as [[??]?| |].
  - rewrite get_by_user_alone. cbn.
    by destruct (opendbsc_memory_store_get_by_user_id_impl _ _ _ _ _) as [[[[??]?]?]?| |].
  - rewrite delete_by_user_alone. cbn.
    by destruct (opendbsc_memory_store_delete_by_user_id_impl _ _ _) as [[??]?| |].
Qed.

End alone.

(** ** Histories and the specification *)

Lemma exec_ops_snoc ops op ms w rs ms1 w1 r ms2 w2 :
  exec_ops ops ms w = Ret (rs, ms1) w1 → exec_op op ms1 w1 = Ret (r, ms2) w2 →
  exec_ops (ops ++ [op]) ms w = Ret (rs ++ [r], ms2) w2.
Proof.
  revert ms w rs. induction ops as [|o ops IH]; intros ms w rs Hops Hop; cbn [exec_ops app] in *.
  - injection Hops as <- <- <-. by rewrite bind_unfold, Hop.
  - rewrite bind_unfold in Hops |- *. destruct (exec_op o ms w) as [[r1 ms'] w'| |]; [|done..].
    rewrite bind_unfold in Hops |- *.
    destruct (exec_ops ops ms' w') as [[rs' ms''] w''| |] eqn:E; [|done..].
    injection Hops as <- <- <-. by erewrite IH.
Qed.

(** A history is a run of the calls in its order. *)
Lemma seq_run_exec ms0 w0 hs ms w :
  seq_run thread_code ms0 w0 hs ms w →
  exec_ops (h_ops hs) ms0 w0 = Ret (h_replies hs, ms) w.
Proof.
  induction 1 as [|hs ms w i o r ms' w' _ IH Hr]; [done|].
  unfold h_ops, h_replies in *. rewrite !fmap_app. rewrite thread_code_run in Hr.
  by eapply exec_ops_snoc.
Qed.

Lemma h_ops_length (hs : list (nat * store_op * store_reply)) : length (h_ops hs) = length hs.
Proof. apply length_fmap. Qed.

Lemma seq_run_safe ms0 w0 hs ms w :
  ms_wf ms0 → seq_run thread_code ms0 w0 hs ms w →
  Z.of_nat (ms_count ms0) + Z.of_nat (length hs) < 2 ^ 31 →
  ms_wf ms ∧ (ms_count ms ≤ ms_count ms0 + length hs)%nat.
Proof.
  intros Hwf. induction 1 as [|hs ms w i o r ms' w' _ IH Hr]; [by split; [|lia]|].
  rewrite length_app. cbn. intros Hroom. destruct IH as [Hms Hc]; [lia|].
  rewrite thread_code_run in Hr.
  destruct (wp_elim _ _ _ (wp_exec_op o ms w Hms ltac:(lia))) as ([r1 ms1] & w1 & Hr1 & ? & ? & ? & _).
  rewrite Hr in Hr1. injection Hr1 as <- <- <-. split; [done|lia].
Qed.

Lemma seq_run_next ms0 w0 hs ms w o (n : nat) :
  ms_wf ms0 → Z.of_nat (ms_count ms0) + Z.of_nat n < 2 ^ 31 →
  seq_run thread_code ms0 w0 hs ms w → (length hs < n)%nat →
  ∃ r ms' w', run (thread_code o) ms w = Ret (r, ms') w' ∧ mutex ms' = false.
Proof.
  intros Hwf Hroom Hrun Hlen. destruct (seq_run_safe _ _ _ _ _ Hwf Hrun ltac:(lia)) as [Hms Hc].
  destruct (wp_elim _ _ _ (wp_exec_op o ms w Hms ltac:(lia))) as ([r ms'] & w' & Hr & _ & Hms' & _).
  exists r, ms', w'. rewrite thread_code_run. split; [done|]. apply Hms'.
Qed.

Lemma seq_run_spec ms0 w0 hs ms w :
  ms_wf ms0 → Z.of_nat (ms_count ms0) + Z.of_nat (length hs) < 2 ^ 31 →
  seq_run thread_code ms0 w0 hs ms w →
  spec_runs w0 (h_ops hs) (ms_view ms0) (h_replies hs) (ms_view ms).
Proof.
  intros Hwf Hroom Hrun. apply seq_run_exec in Hrun.
  destruct (wp_elim _ _ _ (wp_exec_ops (h_ops hs) ms0 w0 Hwf ltac:(rewrite h_ops_length; lia)))
    as ([rs ms'] & w' & Hrun' & _ & _ & Hs).
  rewrite Hrun in Hrun'. by injection Hrun' as <- <- <-.
Qed.

(** ** Properties *)

(** C6. Threads.  Any threads make any calls on one in-memory store, in any
    environment; the scheduler runs one access of one thread at a time, and a
    thread waits while another holds the mutex.  At every moment of every
    schedule no thread has met undefined behaviour, some thread can go on
    unless all have made their calls, and the schedule ends.  There is a
    history of calls, each with its thread, that every thread agrees with: its
    calls are in it in its order with the replies it had; the history only
    grows, so a call that returned comes before one made later.  The replies
    are those of the calls made one after the other on the map of sessions
    ([store_spec]), and when the mutex is free the store holds that map. *)
Theorem memory_store_linearizable (calls : list (list store_op)) (ms : OpenDBSC_MemoryStore)
    (w : world) (c : config (T := OpenDBSC_MemoryStore)) :
  ms_wf ms → Z.of_nat (ms_count ms) + Z.of_nat (sum_list_with length calls) < 2 ^ 31 →
  rtc (cstep thread_code) (start calls ms w) c →
  ¬ goes_wrong c ∧
  (Forall finished (c_threads c) ∨ ∃ c', cstep thread_code c c') ∧
  Acc (flip (cstep thread_code)) c ∧
  ∃ hs, explains thread_code calls ms w c hs ∧
    (∃ m, spec_runs w (h_ops hs) (ms_view ms) (h_replies hs) m ∧
          (ms_mutex (c_obj c) = false → ms_view (c_obj c) = m)) ∧
    ∀ c', rtc (cstep thread_code) c c' →
      ∃ hs', explains thread_code calls ms w c' hs' ∧ hs `prefix_of` hs'.
Proof.
  intros Hwf Hroom Hc.
  destruct (interleavings_sequential thread_code calls ms w thread_code_atomic
    (λ hs st w o Hrun Hlen, seq_run_next ms _ hs st w o _ Hwf Hroom Hrun Hlen)
    (ms_wf_mutex _ Hwf) c Hc) as (hs & Hhs & Hlen & Hwrong & Hgo & Hmore).
  split_and!; [done|done|apply schedules_end|]. exists hs. split_and!; [done| |done].
  destruct Hhs as [(st & w1 & Hrun & Hfree) _]. exists (ms_view st).
  split; [apply (seq_run_spec ms w hs st w1 Hwf ltac:(lia) Hrun)|].
  intros Hm. by destruct (Hfree Hm) as [-> _].
Qed.

(** ** Witnesses *)

(** One thread creates a session and looks it up while another looks for it. *)
Definition demo_calls : list (list store_op) :=
  [[OpCreate (Some (wit_session "c" "carol" 0)); OpGet (Some "c") (Some None)];
   [OpGet (Some "c") (Some None)]].

(** The first thread is in its critical section, the second one waits. *)
Lemma demo_schedule :
  ∃ c, rtc (cstep thread_code) (start demo_calls wit_store wit_world) c ∧
       ms_mutex (c_obj c) = true ∧ length (c_threads c) = 2%nat.
Proof.
  eexists. split.
  - eapply rtc_l; [by apply (step_call _ _ _ _ 0)|].
    eapply rtc_l; [by apply (step_call _ _ _ _ 1)|].
    eapply rtc_l; [by apply (step_lock _ _ _ _ 0)|].
    eapply rtc_l; [by eapply (step_act _ _ _ _ 0)|]. apply rtc_refl.
  - done.
Qed.

Lemma memory_store_linearizable_witness :
  ∃ c, ms_wf wit_store ∧
    Z.of_nat (ms_count wit_store) + Z.of_nat (sum_list_with length demo_calls) < 2 ^ 31 ∧
    rtc (cstep thread_code) (start demo_calls wit_store wit_world) c ∧ ms_mutex (c_obj c) = true ∧
    ¬ goes_wrong c ∧ ∃ hs, explains thread_code demo_calls wit_store wit_world c hs.
Proof.
  destruct demo_schedule as (c & Hc & Hm & _). exists c.
  destruct (memory_store_linearizable demo_calls wit_store wit_world c wit_store_wf
    ltac:(vm_compute; reflexivity) Hc) as (Hw & _ & _ & hs & Hhs & _).
  split; [apply wit_store_wf|]. split; [vm_compute; reflexivity|]. eauto.
Defined.
