(* ===== verification/Heap.v ===== *)
(** The heap.  The other files compute with the values that pointers lead to;
    this one and those that build on it (SessionHeap, MemoryHeap) run the same
    code over blocks that are allocated and freed, to show that every block is
    freed once, that none is used after it was freed, and which ones are lost.

    A pointer is the name of a block, NULL is [None].  Names are not used
    again, so that a pointer to a freed block never becomes valid.  [holds h L]
    says that the blocks of [h] are exactly those of [L], in any order; a
    specification names the blocks a call takes and leaves, and a frame [F] for
    all the others.  [hsim] relates a run over the heap to the run of the code
    on values. *)

From S2P Require Export CLib.
From stdpp Require Import options.
#[local] Open Scope Z_scope.

(** ** Blocks *)

Abbreviation ptr := positive.

(** A string, or the memory of a struct or of an array of structs, whose
    members the program's records hold. *)
Inductive block := Str (s : string) | Mem.

Record heap := Heap { blocks : gmap ptr block; brk : ptr }.

Definition empty_heap : heap := Heap ∅ 1.

(** A function that may allocate and free. *)
Definition HC (A : Type) : Type := heap → C (A * heap).

#[export] Instance HC_ret : MRet HC := λ A a h, mret (a, h).
#[export] Instance HC_bind : MBind HC := λ A B f m h, '(a, h) ← m h; f a h.

Definition h_ub {A} : HC A := λ _, ub.
Definition h_hang {A} : HC A := λ _, hang.

(** A call that leaves the heap alone. *)
Definition lift {A} (m : C A) : HC A := λ h, a ← m; mret (a, h).

Definition h_deref {A} (p : option A) : HC A :=
  match p with Some a => mret a | None => h_ub end.

(** [free(p)]: freeing NULL is allowed, freeing a block twice is not. *)
Definition h_free (p : option ptr) : HC unit :=
  match p with
  | None => mret tt
  | Some p => λ h,
      match blocks h !! p with
      | Some _ => mret (tt, Heap (delete p (blocks h)) (brk h))
      | None => ub
      end
  end.

Definition h_alloc (b : block) : HC (option ptr) := λ h,
  ok ← malloc;
  if ok : bool then mret (Some (brk h), Heap (<[brk h := b]> (blocks h)) (Pos.succ (brk h)))
  else mret (None, h).

Definition h_malloc : HC (option ptr) := h_alloc Mem.
Definition h_strdup (s : string) : HC (option ptr) := h_alloc (Str s).

(** [realloc(p, n)]: on success the old block is gone. *)
Definition h_realloc (p : option ptr) : HC (option ptr) :=
  q ← h_malloc;
  match q with
  | None => mret None
  | Some _ => h_free p;; mret q
  end.

(** Reading the string at a pointer. *)
Definition h_str (p : ptr) : HC string := λ h,
  match blocks h !! p with Some (Str s) => mret (s, h) | _ => ub end.

(** Using the memory at a pointer: undefined when the pointer is NULL or the
    block has been freed. *)
Definition h_live (p : option ptr) : HC unit := λ h,
  match p with
  | Some p => match blocks h !! p with Some _ => mret (tt, h) | None => ub end
  | None => ub
  end.

(** A step that reads or frees: it needs nothing of the environment. *)
Definition heap_run {A} (m : HC A) (h : heap) (a : A) (h' : heap) : Prop :=
  ∀ w, m h w = Ret (a, h') w.

Lemma heap_run_ret {A} (a : A) h : heap_run (mret a) h a h.
Proof. done. Qed.

Lemma heap_run_bind {A B} (m : HC A) (f : A → HC B) h a h1 b h2 :
  heap_run m h a h1 → heap_run (f a) h1 b h2 → heap_run (m ≫= f) h b h2.
Proof. intros Hm Hf w. unfold mbind, HC_bind. by rewrite bind_unfold, Hm. Qed.

(** ** What a heap holds *)

Abbreviation cells := (list (ptr * block)).

Record holds (h : heap) (L : cells) : Prop := {
  holds_nodup : NoDup L.*1;
  holds_blocks : blocks h = list_to_map L;
  holds_brk : Forall (λ c, (c.1 < brk h)%positive) L
}.

#[export] Instance holds_perm h : Proper ((≡ₚ) ==> iff) (holds h).
Proof.
  assert (∀ L1 L2, L1 ≡ₚ L2 → holds h L1 → holds h L2) as Hp.
  { intros L1 L2 HL [Hn Hb Hk]. split; [by rewrite <-HL| |by rewrite <-HL].
    rewrite Hb. by apply list_to_map_proper. }
  intros L1 L2 HL. split; apply Hp; [done|by symmetry].
Qed.

Lemma holds_empty : holds empty_heap [].
Proof. by split; [constructor| |constructor]. Qed.

Lemma holds_lookup h L p b : holds h L → (p, b) ∈ L → blocks h !! p = Some b.
Proof. intros [Hn -> _] Hin. by apply elem_of_list_to_map_1. Qed.

Lemma holds_fresh h L : holds h L → brk h ∉ L.*1.
Proof.
  intros [_ _ Hk] (c & Hc & Hin)%list_elem_of_fmap. rewrite Forall_forall in Hk.
  specialize (Hk c Hin). lia.
Qed.

Lemma free_run h L p b :
  holds h ((p, b) :: L) → ∃ h', holds h' L ∧ heap_run (h_free (Some p)) h tt h'.
Proof.
  intros Hh. pose proof (holds_lookup h _ p b Hh ltac:(by left)) as Hp.
  exists (Heap (delete p (blocks h)) (brk h)). split; [|intros w; cbn; by rewrite Hp].
  destruct Hh as [Hn Hb Hk]. rewrite fmap_cons in Hn. apply NoDup_cons in Hn as [Hp' Hn].
  apply Forall_cons in Hk as [_ Hk]. split; [done| |done].
  cbn. rewrite Hb. cbn. apply delete_insert_id, not_elem_of_list_to_map. exact Hp'.
Qed.

(** The block of an object that may be NULL. *)
Definition mem_cells (p : option ptr) : cells :=
  match p with Some p => [(p, Mem)] | None => [] end.

Lemma free_mem_run h p L :
  holds h (mem_cells p ++ L) → ∃ h', holds h' L ∧ heap_run (h_free p) h tt h'.
Proof. destruct p as [p|]; intros Hh; [|by exists h]. eapply free_run, Hh. Qed.

Lemma str_run h L p s : holds h L → (p, Str s) ∈ L → heap_run (h_str p) h s h.
Proof. intros Hh Hin w. unfold h_str. by rewrite (holds_lookup _ _ _ _ Hh Hin). Qed.

Lemma live_run h L p b : holds h L → (p, b) ∈ L → heap_run (h_live (Some p)) h tt h.
Proof. intros Hh Hin w. unfold h_live. by rewrite (holds_lookup _ _ _ _ Hh Hin). Qed.

Lemma holds_alloc h L b :
  holds h L → holds (Heap (<[brk h := b]> (blocks h)) (Pos.succ (brk h))) ((brk h, b) :: L).
Proof.
  intros Hh. pose proof (holds_fresh _ _ Hh). destruct Hh as [Hn Hb Hk]. split.
  - rewrite fmap_cons. by apply NoDup_cons.
  - cbn. by rewrite Hb.
  - constructor; cbn; [lia|]. eapply Forall_impl; [exact Hk|]. cbn. lia.
Qed.

(** ** Runs over the heap and runs on values *)

(** Whenever the run of [m] on values returns, so does that of [mh] over the
    heap [h], in the same environment, with related results.  [calm] is what
    is known of the allocator: when it holds no allocation fails. *)
Definition hsim {A B} (calm : Prop) (mh : HC A) (m : C B) (h : heap)
    (R : A → B → heap → Prop) : Prop :=
  ∀ w b w', (calm → no_oom w) → m w = Ret b w' →
    (calm → no_oom w') ∧ ∃ a h', mh h w = Ret (a, h') w' ∧ R a b h'.

Section hsim.
Context {A B A' B' : Type} {calm : Prop}.

Lemma hsim_ret (a : A) (b : B) h (R : A → B → heap → Prop) :
  R a b h → hsim calm (mret a) (mret b) h R.
Proof. intros HR w b' w' Hc [= <- <-]. split; [done|]. by exists a, h. Qed.

Lemma hsim_bind (mh : HC A) (m : C B) (fh : A → HC A') (f : B → C B') h R R' :
  hsim calm mh m h R → (∀ a b h', R a b h' → hsim calm (fh a) (f b) h' R') →
  hsim calm (mh ≫= fh) (m ≫= f) h R'.
Proof.
  intros Hm Hf w b' w' Hc. rewrite bind_unfold. destruct (m w) as [b w1| |] eqn:E; [|done..].
  intros Hrun. destruct (Hm _ _ _ Hc E) as (Hc1 & a & h1 & Ha & HR).
  destruct (Hf a b h1 HR _ _ _ Hc1 Hrun) as (Hc2 & a' & h2 & Ha' & HR').
  split; [done|]. exists a', h2. split; [|done].
  unfold mbind, HC_bind. by rewrite bind_unfold, Ha.
Qed.

(** A step of the heap alone. *)
Lemma hsim_heap (mh : HC A) (fh : A → HC A') (m : C B') h a h1 R' :
  heap_run mh h a h1 → hsim calm (fh a) m h1 R' → hsim calm (mh ≫= fh) m h R'.
Proof.
  intros Hm Hf w b' w' Hc Hrun. destruct (Hf _ _ _ Hc Hrun) as (Hc1 & a' & h2 & Ha' & HR').
  split; [done|]. exists a', h2. split; [|done].
  unfold mbind, HC_bind. by rewrite bind_unfold, Hm.
Qed.

Lemma hsim_last (mh : HC A) (b : B) h a h1 (R : A → B → heap → Prop) :
  heap_run mh h a h1 → R a b h1 → hsim calm mh (mret b) h R.
Proof. intros Hm HR w b' w' Hc [= <- <-]. split; [done|]. by exists a, h1. Qed.

(** A step on values alone. *)
Lemma hsim_value (mh : HC A') (m : C B) (f : B → C B') h b R' :
  (∀ w, m w = Ret b w) → hsim calm mh (f b) h R' → hsim calm mh (m ≫= f) h R'.
Proof. intros Hm Hf w b' w'. rewrite bind_unfold, Hm. apply Hf. Qed.

Lemma hsim_mono (mh : HC A) (m : C B) h (R R' : A → B → heap → Prop) :
  hsim calm mh m h R → (∀ a b h', R a b h' → R' a b h') → hsim calm mh m h R'.
Proof.
  intros Hm HR w b w' Hc Hrun. destruct (Hm _ _ _ Hc Hrun) as (? & a & h' & ? & ?).
  split; [done|]. exists a, h'. auto.
Qed.

Lemma hsim_ext (mh : HC A) (m m' : C B) h (R : A → B → heap → Prop) :
  (∀ w, m w = m' w) → hsim calm mh m' h R → hsim calm mh m h R.
Proof. intros Hm H w b w' Hc. rewrite Hm. by apply H. Qed.

Lemma hsim_ub (mh : HC A) h (R : A → B → heap → Prop) : hsim calm mh ub h R.
Proof. done. Qed.

Lemma hsim_hang (mh : HC A) h (R : A → B → heap → Prop) : hsim calm mh hang h R.
Proof. done. Qed.

End hsim.

Lemma hsim_time calm h (R : Z → Z → heap → Prop) :
  (∀ t, R t t h) → hsim calm (lift time_NULL) time_NULL h R.
Proof.
  intros HR w b w' Hc Hrun. split.
  - revert Hc. unfold time_NULL in Hrun. by destruct (w_ticks w); simplify_eq.
  - exists b, h. split; [|done]. unfold lift. by rewrite bind_unfold, Hrun.
Qed.

Lemma malloc_oom w b w' : malloc w = Ret b w' → no_oom w → b = true ∧ no_oom w'.
Proof. intros Hm Hw. rewrite malloc_run in Hm by done. by injection Hm as <- <-. Qed.

Lemma alloc_bind_run (b : block) h w :
  h_alloc b h w =
    match malloc w with
    | Ret true w' =>
        Ret (Some (brk h), Heap (<[brk h := b]> (blocks h)) (Pos.succ (brk h))) w'
    | Ret false w' => Ret (None, h) w'
    | UB => UB
    | Hang => Hang
    end.
Proof. unfold h_alloc. rewrite bind_unfold. by destruct (malloc w) as [[] w'| |]. Qed.

(** An allocation. *)
Lemma hsim_alloc_malloc calm (b : block) h L (R : option ptr → bool → heap → Prop) :
  holds h L → (∀ p h', holds h' ((p, b) :: L) → R (Some p) true h') →
  (¬ calm → R None false h) →
  hsim calm (h_alloc b) malloc h R.
Proof.
  intros Hh HS HN w r w' Hc E. pose proof (malloc_oom _ _ _ E) as Ho.
  split; [intros Hcalm; by apply Ho, Hc|].
  rewrite alloc_bind_run, E. destruct r; eexists _, _; (split; [done|]).
  - apply HS. by apply holds_alloc.
  - apply HN. intros Hcalm. by destruct (Ho (Hc Hcalm)).
Qed.

Lemma hsim_alloc {B} calm (b : block) (x : B) h L (R : option ptr → option B → heap → Prop) :
  holds h L → (∀ p h', holds h' ((p, b) :: L) → R (Some p) (Some x) h') →
  (¬ calm → R None None h) →
  hsim calm (h_alloc b) (alloc x) h R.
Proof.
  intros Hh HS HN w r w' Hc. unfold alloc. rewrite bind_unfold.
  destruct (malloc w) as [ok w1| |] eqn:E; try done. intros [= <- <-].
  apply (hsim_alloc_malloc calm b h L (λ p o, R p (if o then Some x else None)) Hh HS HN _ _ _ Hc E).
Qed.

Lemma hsim_malloc calm h L (R : option ptr → bool → heap → Prop) :
  holds h L → (∀ p h', holds h' ((p, Mem) :: L) → R (Some p) true h') →
  (¬ calm → R None false h) →
  hsim calm h_malloc malloc h R.
Proof. apply hsim_alloc_malloc. Qed.

Lemma hsim_realloc calm p h L (R : option ptr → bool → heap → Prop) :
  holds h (mem_cells p ++ L) →
  (∀ q h', holds h' ((q, Mem) :: L) → R (Some q) true h') → (¬ calm → R None false h) →
  hsim calm (h_realloc p) malloc h R.
Proof.
  intros Hh HS HN. apply (hsim_ext _ _ (malloc ≫= mret)).
  { intros w. rewrite bind_unfold. by destruct (malloc w). }
  eapply (hsim_bind _ _ _ _ _ (λ q ok h', ok = true ∧ (∃ q', q = Some q' ∧
    holds h' ((q', Mem) :: mem_cells p ++ L)) ∨ ok = false ∧ ¬ calm ∧ q = None ∧ h' = h)).
  - eapply hsim_malloc; [exact Hh| |intros ?; by right].
    intros q h1 H1. left. split; [done|]. by exists q.
  - intros q ok h1 [(-> & q' & -> & H1)|(-> & ? & -> & ->)]; [|by apply hsim_ret, HN].
    replace ((q', Mem) :: _) with ([(q', Mem)] ++ mem_cells p ++ L) in H1 by done.
    rewrite (Permutation_app_swap_app [_]) in H1.
    destruct (free_mem_run _ _ _ H1) as (h2 & H2 & R2).
    eapply hsim_heap; [exact R2|]. by apply hsim_ret, HS.
Qed.

(** An initialisation that fails like an allocation and leaves no block. *)
Lemma hsim_lift_malloc calm h (R : bool → bool → heap → Prop) :
  R true true h → (¬ calm → R false false h) → hsim calm (lift malloc) malloc h R.
Proof.
  intros HS HN w b w' Hc E. pose proof (malloc_oom _ _ _ E) as Ho.
  split; [intros Hcalm; by apply Ho, Hc|]. exists b, h.
  split; [unfold lift; by rewrite bind_unfold, E|].
  destruct b; [done|]. apply HN. intros Hcalm. by destruct (Ho (Hc Hcalm)).
Qed.

(** ** Functions that only read the heap

    A function that reads some strings and returns one it has allocated, which
    is the caller's to free: the strings are read where they are live, the
    function runs on values, and its result is a new block. *)

Definition h_read (p : option ptr) : HC cstr :=
  match p with None => mret None | Some p => s ← h_str p; mret (Some s) end.

Definition h_own (s : cstr) : HC (option ptr) :=
  match s with
  | None => mret None
  | Some s => λ h,
      mret (Some (brk h), Heap (<[brk h := Str s]> (blocks h)) (Pos.succ (brk h)))
  end.

(** Running does not make an allocator that never fails one that does. *)
Definition oom_kept {A} (m : C A) : Prop := ∀ w a w', m w = Ret a w' → no_oom w → no_oom w'.

Lemma oom_kept_wp {A} (m : C A) : (∀ w, wp m w (λ _ w', env_step w w')) → oom_kept m.
Proof. intros Hm w a w' E. specialize (Hm w). unfold wp in Hm. rewrite E in Hm. apply Hm. Qed.

Lemma oom_kept_ret {A} (a : A) : oom_kept (mret a).
Proof. by intros w b w' [= <- <-]. Qed.

Lemma oom_kept_bind {A B} (m : C A) (f : A → C B) :
  oom_kept m → (∀ a, oom_kept (f a)) → oom_kept (m ≫= f).
Proof.
  intros Hm Hf w b w'. rewrite bind_unfold. destruct (m w) as [a w1| |] eqn:E; [|done..].
  intros Hb Hw. by eapply Hf, Hm.
Qed.

Lemma oom_kept_ub {A} : oom_kept (@ub A).
Proof. done. Qed.

Lemma oom_kept_malloc : oom_kept malloc.
Proof. intros w b w' E Hw. by destruct (malloc_oom _ _ _ E Hw). Qed.

Lemma oom_kept_time : oom_kept time_NULL.
Proof. intros w b w'. unfold time_NULL. by destruct (w_ticks w); intros [= <- <-]. Qed.

Lemma oom_kept_getentropy n : oom_kept (getentropy n).
Proof. intros w b w'. unfold getentropy. by destruct (w_entropy w); intros [= <- <-]. Qed.

Lemma oom_kept_clock : oom_kept clock_gettime.
Proof. intros w b w'. unfold clock_gettime. by destruct (w_realtime w); intros [= <- <-]. Qed.

Lemma oom_kept_event e : oom_kept (call_on_event e).
Proof. by intros w b w' [= <- <-]. Qed.

Create HintDb oom.
#[export] Hint Resolve oom_kept_ret oom_kept_bind oom_kept_ub oom_kept_malloc oom_kept_time
  oom_kept_getentropy oom_kept_clock oom_kept_event : oom.

Lemma hsim_lift {A} calm (m : C A) h (R : A → A → heap → Prop) :
  oom_kept m → (∀ a, R a a h) → hsim calm (lift m) m h R.
Proof.
  intros Hm HR w b w' Hc E. split; [eauto|]. exists b, h. split; [|done].
  unfold lift. by rewrite bind_unfold, E.
Qed.
