(* ===== verification/SessionHeap.v ===== *)
(** [src/session/session.c] over the heap of [Heap.v]: a session whose strings
    are pointers to blocks it owns, and the functions that free, duplicate and
    replace them.  [osession] is the specification's view of such a session,
    pointers and strings together: its [ptrs] are what the code has in the
    struct, its [vals] the session of [Session.v], and [owned] the blocks.
    Every function is shown to return what its definition on values returns,
    and to take and leave exactly the blocks it should. *)

From S2P Require Export Heap Session.
From stdpp Require Import options.
#[local] Open Scope Z_scope.

(** ** Data *)

(** [OpenDBSC_Session] with strings of the type [S]. *)
Record session_of (S : Type) := SessionOf {
  h_id : option S;
  h_user_id : option S;
  h_state : OpenDBSC_SessionState;
  h_public_key : option S;
  h_algorithm : option S;
  h_challenge : option S;
  h_expires_at : Z;
  h_has_expires : bool;
  h_created_at : Z
}.
Arguments SessionOf {_} _ _ _ _ _ _ _ _ _.
Arguments h_id {_} _.
Arguments h_user_id {_} _.
Arguments h_state {_} _.
Arguments h_public_key {_} _.
Arguments h_algorithm {_} _.
Arguments h_challenge {_} _.
Arguments h_expires_at {_} _.
Arguments h_has_expires {_} _.
Arguments h_created_at {_} _.

(** The struct in memory. *)
Abbreviation h_session := (session_of ptr).

(** Assignments to one field. *)
Definition h_with_id {S} (v : option S) (s : session_of S) : session_of S :=
  SessionOf v (h_user_id s) (h_state s) (h_public_key s) (h_algorithm s)
    (h_challenge s) (h_expires_at s) (h_has_expires s) (h_created_at s).
Definition h_with_user_id {S} (v : option S) (s : session_of S) : session_of S :=
  SessionOf (h_id s) v (h_state s) (h_public_key s) (h_algorithm s)
    (h_challenge s) (h_expires_at s) (h_has_expires s) (h_created_at s).
Definition h_with_state {S} (v : OpenDBSC_SessionState) (s : session_of S) : session_of S :=
  SessionOf (h_id s) (h_user_id s) v (h_public_key s) (h_algorithm s)
    (h_challenge s) (h_expires_at s) (h_has_expires s) (h_created_at s).
Definition h_with_public_key {S} (v : option S) (s : session_of S) : session_of S :=
  SessionOf (h_id s) (h_user_id s) (h_state s) v (h_algorithm s)
    (h_challenge s) (h_expires_at s) (h_has_expires s) (h_created_at s).
Definition h_with_algorithm {S} (v : option S) (s : session_of S) : session_of S :=
  SessionOf (h_id s) (h_user_id s) (h_state s) (h_public_key s) v
    (h_challenge s) (h_expires_at s) (h_has_expires s) (h_created_at s).
Definition h_with_challenge {S} (v : option S) (s : session_of S) : session_of S :=
  SessionOf (h_id s) (h_user_id s) (h_state s) (h_public_key s) (h_algorithm s)
    v (h_expires_at s) (h_has_expires s) (h_created_at s).
Definition h_with_expires {S} (t : Z) (b : bool) (s : session_of S) : session_of S :=
  SessionOf (h_id s) (h_user_id s) (h_state s) (h_public_key s) (h_algorithm s)
    (h_challenge s) t b (h_created_at s).
Definition h_with_created_at {S} (t : Z) (s : session_of S) : session_of S :=
  SessionOf (h_id s) (h_user_id s) (h_state s) (h_public_key s) (h_algorithm s)
    (h_challenge s) (h_expires_at s) (h_has_expires s) t.

(** The field values [opendbsc_session_init] assigns. *)
Definition h_default {S} : session_of S :=
  SessionOf None None OPENDBSC_SESSION_STATE_ACTIVE None None None 0 false 0.

(** ** Operations *)

Definition h_session_init (session : option h_session) : option h_session :=
  match session with None => None | Some _ => Some h_default end.

Definition h_session_free (session : option h_session) : HC (option h_session) :=
  match session with
  | None => mret None
  | Some s =>
      h_free (h_id s);;
      h_free (h_user_id s);;
      h_free (h_public_key s);;
      h_free (h_algorithm s);;
      h_free (h_challenge s);;
      mret (h_session_init (Some s))
  end.

(** [set_string(&field, value)]: the return code and the new field. *)
Definition h_set_string (field value : option ptr) : HC (Z * option ptr) :=
  match value with
  | None => h_free field;; mret (0, None)
  | Some v =>
      s ← h_str v;
      copy ← h_strdup s;
      match copy with
      | None => mret (-1, field)
      | Some _ => h_free field;; mret (0, copy)
      end
  end.

Definition h_session_set_id (session : option h_session) (id : option ptr)
    : HC (Z * option h_session) :=
  match session with
  | None => mret (-1, None)
  | Some s => '(rc, f) ← h_set_string (h_id s) id; mret (rc, Some (h_with_id f s))
  end.

Definition h_session_set_user_id (session : option h_session) (user_id : option ptr)
    : HC (Z * option h_session) :=
  match session with
  | None => mret (-1, None)
  | Some s =>
      '(rc, f) ← h_set_string (h_user_id s) user_id; mret (rc, Some (h_with_user_id f s))
  end.

Definition h_session_set_public_key (session : option h_session) (public_key : option ptr)
    : HC (Z * option h_session) :=
  match session with
  | None => mret (-1, None)
  | Some s =>
      '(rc, f) ← h_set_string (h_public_key s) public_key;
      mret (rc, Some (h_with_public_key f s))
  end.

Definition h_session_set_algorithm (session : option h_session) (algorithm : option ptr)
    : HC (Z * option h_session) :=
  match session with
  | None => mret (-1, None)
  | Some s =>
      '(rc, f) ← h_set_string (h_algorithm s) algorithm;
      mret (rc, Some (h_with_algorithm f s))
  end.

Definition h_session_set_challenge (session : option h_session) (challenge : option ptr)
    : HC (Z * option h_session) :=
  match session with
  | None => mret (-1, None)
  | Some s =>
      '(rc, f) ← h_set_string (h_challenge s) challenge;
      mret (rc, Some (h_with_challenge f s))
  end.

Definition h_session_copy (dest src : option h_session) : HC (Z * option h_session) :=
  match dest, src with
  | Some d, Some s =>
      d ← h_session_free (Some d);
      d ← h_deref d;
      let d := h_with_state (h_state s) d in
      let d := h_with_expires (h_expires_at s) (h_has_expires s) d in
      let d := h_with_created_at (h_created_at s) d in
      '(rc, f) ← h_set_string (h_id d) (h_id s);
      let d := h_with_id f d in
      if negb (rc =? 0) then mret (-1, Some d) else
      '(rc, f) ← h_set_string (h_user_id d) (h_user_id s);
      let d := h_with_user_id f d in
      if negb (rc =? 0) then mret (-1, Some d) else
      '(rc, f) ← h_set_string (h_public_key d) (h_public_key s);
      let d := h_with_public_key f d in
      if negb (rc =? 0) then mret (-1, Some d) else
      '(rc, f) ← h_set_string (h_algorithm d) (h_algorithm s);
      let d := h_with_algorithm f d in
      if negb (rc =? 0) then mret (-1, Some d) else
      '(rc, f) ← h_set_string (h_challenge d) (h_challenge s);
      let d := h_with_challenge f d in
      if negb (rc =? 0) then mret (-1, Some d) else
      mret (0, Some d)
  | _, _ => mret (-1, dest)
  end.

(** ** The blocks of a session *)

(** A session with each pointer and the string it leads to. *)
Abbreviation osession := (session_of (ptr * string)).

Definition ptrs (s : osession) : h_session :=
  SessionOf (fst <$> h_id s) (fst <$> h_user_id s) (h_state s) (fst <$> h_public_key s)
    (fst <$> h_algorithm s) (fst <$> h_challenge s) (h_expires_at s) (h_has_expires s)
    (h_created_at s).

Definition vals (s : osession) : OpenDBSC_Session :=
  Session (snd <$> h_id s) (snd <$> h_user_id s) (h_state s) (snd <$> h_public_key s)
    (snd <$> h_algorithm s) (snd <$> h_challenge s) (h_expires_at s) (h_has_expires s)
    (h_created_at s).

Definition str_cells (f : option (ptr * string)) : cells :=
  match f with Some (p, s) => [(p, Str s)] | None => [] end.

Definition owned (s : osession) : cells :=
  str_cells (h_id s) ++ str_cells (h_user_id s) ++ str_cells (h_public_key s) ++
  str_cells (h_algorithm s) ++ str_cells (h_challenge s).

Lemma owned_default : owned h_default = [].
Proof. done. Qed.

Lemma free_str_run h f F :
  holds h (str_cells f ++ F) → ∃ h', holds h' F ∧ heap_run (h_free (fst <$> f)) h tt h'.
Proof. destruct f as [[p s]|]; intros Hh; [|by exists h]. eapply free_run, Hh. Qed.

(** [session_free] frees what the session owns, each block once. *)
Lemma session_free_run h s F :
  holds h (owned s ++ F) →
  ∃ h', holds h' F ∧ heap_run (h_session_free (Some (ptrs s))) h (Some h_default) h'.
Proof.
  unfold owned. rewrite <-!(assoc_L (++)). intros Hh.
  destruct (free_str_run _ _ _ Hh) as (h1 & H1 & R1).
  destruct (free_str_run _ _ _ H1) as (h2 & H2 & R2).
  destruct (free_str_run _ _ _ H2) as (h3 & H3 & R3).
  destruct (free_str_run _ _ _ H3) as (h4 & H4 & R4).
  destruct (free_str_run _ _ _ H4) as (h5 & H5 & R5).
  exists h5. split; [done|]. do 5 (eapply heap_run_bind; [eassumption|]). done.
Qed.

(** [set_string] takes the old string and leaves the new one; on failure it
    leaves the old one.  The value it copies may be any string of the heap. *)
Lemma hsim_set_string calm h f v F :
  holds h (str_cells f ++ F) → str_cells v ⊆ F →
  hsim calm (h_set_string (fst <$> f) (fst <$> v)) (set_string (snd <$> f) (snd <$> v)) h
    (λ '(rc, p) '(rc', x) h', rc = rc' ∧ (calm → rc = 0) ∧
       ∃ f', p = fst <$> f' ∧ x = snd <$> f' ∧ holds h' (str_cells f' ++ F)).
Proof.
  intros Hh Hv. destruct v as [[p s]|]; simpl.
  - eapply hsim_heap.
    { eapply str_run; [done|]. apply elem_of_app. right. apply Hv. by left. }
    eapply hsim_bind; [eapply (hsim_alloc _ _ _ _ _ (λ p x h', ¬ calm ∧ p = None ∧ x = None ∧ h' = h ∨
      ∃ q, p = Some q ∧ x = Some s ∧ holds h' ((q, Str s) :: str_cells f ++ F)))|].
    + done.
    + eauto 10.
    + by left.
    + intros a b h1 [(? & -> & -> & ->)|(q & -> & -> & H1)]; [apply hsim_ret; split_and!; eauto; done|].
      replace ((q, Str s) :: str_cells f ++ F) with ([(q, Str s)] ++ str_cells f ++ F) in H1
        by done.
      rewrite (Permutation_app_swap_app [_]) in H1.
      destruct (free_str_run _ _ _ H1) as (h2 & H2 & R2).
      eapply hsim_heap; [done|]. apply hsim_ret. split_and!; [done..|]. by exists (Some (q, s)).
  - destruct (free_str_run _ _ _ Hh) as (h1 & H1 & R1).
    eapply hsim_heap; [done|]. apply hsim_ret. split_and!; [done..|]. by exists None.
Qed.

(** Setting a string that is NULL. *)
Lemma hsim_copy_string calm h v F :
  holds h F → str_cells v ⊆ F →
  hsim calm (h_set_string None (fst <$> v)) (set_string None (snd <$> v)) h
    (λ '(rc, p) '(rc', x) h', rc = rc' ∧ (calm → rc = 0) ∧
       ∃ f', p = fst <$> f' ∧ x = snd <$> f' ∧ holds h' (str_cells f' ++ F)).
Proof. apply (hsim_set_string calm h None v F). Qed.

(** ** Setting and copying *)

(** The same code was returned (0 when no allocation fails), and a session that owns its blocks is left
    beside [F]. *)
Definition session_left (calm : Prop) (F : cells) (r : Z * option h_session) (r' : Z * option OpenDBSC_Session)
    (h : heap) : Prop :=
  ∃ rc s, r = (rc, Some (ptrs s)) ∧ r' = (rc, Some (vals s)) ∧ (calm → rc = 0) ∧
          holds h (owned s ++ F).

(** What a setter does around [set_string]. *)
Lemma hsim_setter calm h f v F (put : option ptr → h_session)
    (put' : cstr → OpenDBSC_Session) (oput : option (ptr * string) → osession) :
  (∀ x, put (fst <$> x) = ptrs (oput x)) → (∀ x, put' (snd <$> x) = vals (oput x)) →
  (∀ x, owned (oput x) ≡ₚ str_cells x ++ owned (oput None)) →
  holds h (owned (oput f) ++ F) → str_cells v ⊆ F →
  hsim calm ('(rc, p) ← h_set_string (fst <$> f) (fst <$> v); mret (rc, Some (put p)))
    ('(rc, x) ← set_string (snd <$> f) (snd <$> v); mret (rc, Some (put' x)))
    h (session_left calm F).
Proof.
  intros Hp Hv Ho Hh HF. rewrite Ho, <-(assoc_L (++)) in Hh.
  eapply hsim_bind; [apply (hsim_set_string _ _ _ v _ Hh); set_solver|].
  intros [rc p] [rc' x] h1 (-> & ? & f' & -> & -> & H1). apply hsim_ret.
  exists rc', (oput f'). by rewrite Hp, Hv, Ho, <-(assoc_L (++)).
Qed.

Section setters.
#[local] Set Default Proof Using "Type*".
Context (calm : Prop) (h : heap) (s : osession) (v : option (ptr * string)) (F : cells).
Context (Hh : holds h (owned s ++ F)) (Hv : str_cells v ⊆ F).

#[local] Ltac setter put :=
  eapply (hsim_setter _ _ _ _ _ _ _ put); [done|done| |by destruct s|done];
  intros x; unfold owned; simpl; solve_Permutation.

Lemma hsim_set_id :
  hsim calm (h_session_set_id (Some (ptrs s)) (fst <$> v))
    (opendbsc_session_set_id (Some (vals s)) (snd <$> v)) h (session_left calm F).
Proof. setter (λ x, h_with_id x s). Qed.

Lemma hsim_set_user_id :
  hsim calm (h_session_set_user_id (Some (ptrs s)) (fst <$> v))
    (opendbsc_session_set_user_id (Some (vals s)) (snd <$> v)) h (session_left calm F).
Proof. setter (λ x, h_with_user_id x s). Qed.

Lemma hsim_set_public_key :
  hsim calm (h_session_set_public_key (Some (ptrs s)) (fst <$> v))
    (opendbsc_session_set_public_key (Some (vals s)) (snd <$> v)) h (session_left calm F).
Proof. setter (λ x, h_with_public_key x s). Qed.

Lemma hsim_set_algorithm :
  hsim calm (h_session_set_algorithm (Some (ptrs s)) (fst <$> v))
    (opendbsc_session_set_algorithm (Some (vals s)) (snd <$> v)) h (session_left calm F).
Proof. setter (λ x, h_with_algorithm x s). Qed.

Lemma hsim_set_challenge :
  hsim calm (h_session_set_challenge (Some (ptrs s)) (fst <$> v))
    (opendbsc_session_set_challenge (Some (vals s)) (snd <$> v)) h (session_left calm F).
Proof. setter (λ x, h_with_challenge x s). Qed.

End setters.

#[local] Definition no_str : option (ptr * string) := None.

#[local] Ltac left_by i u k a c :=
  lazymatch goal with s : osession |- _ =>
    eexists _, (SessionOf i u (h_state s) k a c (h_expires_at s) (h_has_expires s)
                  (h_created_at s))
  end;
  split_and!; [done|done|by intros Hcalm; first [done | exfalso; eauto]|];
  match goal with Hh : holds ?h _ |- holds ?h _ =>
    eapply holds_perm; [|exact Hh]; unfold owned; simpl; solve_Permutation
  end.

(** The next string is copied; a failure leaves those copied so far. *)
#[local] Ltac copy_step f h' Hf :=
  eapply hsim_bind;
  [eapply hsim_copy_string; [eassumption|]; set_solver
  |intros [?rc ?p] [rc' ?x] h' (-> & ?Hrc & f & -> & -> & Hf); destruct (Z.eqb_spec rc' 0) as [->|?]; simpl].

(** [session_copy] frees what the destination owned and leaves it owning
    copies of the source's strings, or, when a duplication fails, of the
    first of them; the source, which must be another session, is kept. *)
Lemma hsim_session_copy calm h d s F :
  holds h (owned d ++ F) → owned s ⊆ F →
  hsim calm (h_session_copy (Some (ptrs d)) (Some (ptrs s)))
    (opendbsc_session_copy (Some (vals d)) (Some (vals s))) h (session_left calm F).
Proof.
  intros Hh Hs. destruct (session_free_run _ _ _ Hh) as (h1 & H1 & R1).
  eapply hsim_heap; [exact R1|]. eapply hsim_heap; [apply heap_run_ret|].
  eapply hsim_value; [done|].
  unfold owned in Hs.
  copy_step i h2 H2; [|apply hsim_ret; left_by i no_str no_str no_str no_str].
  copy_step u h3 H3; [|apply hsim_ret; left_by i u no_str no_str no_str].
  copy_step k h4 H4; [|apply hsim_ret; left_by i u k no_str no_str].
  copy_step a h5 H5; [|apply hsim_ret; left_by i u k a no_str].
  copy_step c h6 H6; apply hsim_ret; left_by i u k a c.
Qed.

(** ** Reading strings and owning results *)

Lemma read_run h L f :
  holds h L → str_cells f ⊆ L → heap_run (h_read (fst <$> f)) h (snd <$> f) h.
Proof.
  intros Hh Hf. destruct f as [[p s]|]; [|apply heap_run_ret].
  eapply heap_run_bind; [eapply str_run; [exact Hh|apply Hf; by left]|apply heap_run_ret].
Qed.

(** What owns a string it was given, or NULL. *)
Definition string_left (F : cells) (p : option ptr) (x : cstr) (h : heap) : Prop :=
  ∃ f, p = fst <$> f ∧ x = snd <$> f ∧ holds h (str_cells f ++ F).

Lemma hsim_own calm (m : C cstr) h F :
  oom_kept m → holds h F → hsim calm (x ← lift m; h_own x) m h (string_left F).
Proof.
  intros Hm Hh w x w' Hc E. split; [eauto|].
  destruct x as [s|]; (eexists _, _; split; [unfold lift, mbind, HC_bind;
    rewrite !bind_unfold, E; cbn; reflexivity|]).
  - exists (Some (brk h, s)). split_and!; [done..|]. by apply holds_alloc.
  - by exists None.
Qed.

(** A string that is duplicated and owned. *)
Lemma hsim_strdup calm s h F :
  holds h F → hsim calm (h_strdup s) (strdup s) h (string_left F).
Proof.
  intros Hh. eapply hsim_alloc; [exact Hh| |intros _; by exists None].
  intros p h' H'. by exists (Some (p, s)).
Qed.
