(* ===== verification/MemoryHeap.v ===== *)
(** [src/store/memory.c] over the heap of [Heap.v]: the store object, its array
    of sessions and the strings they own, with every allocation and every
    [free] of the file.  The functions are those of [MemoryStore.v] with
    pointers for strings, and those that only free; [MemoryOwnership.v] shows
    what they do with their blocks. *)

From S2P Require Export SessionHeap MemoryStore.
From stdpp Require Import options.
#[local] Open Scope Z_scope.

(** ** Data *)

(** [OpenDBSC_MemoryStore] at [hs_self], its sessions' strings of the type
    [S]: [hs_array] is [sessions], of which [hs_slots] is the live part, and
    [hs_table] the virtual table [store]. *)
Record store_of (S : Type) := StoreOf {
  hs_self : ptr;
  hs_array : option ptr;
  hs_slots : list (session_of S);
  hs_capacity : nat;
  hs_mutex : bool;
  hs_table : option ptr
}.
Arguments StoreOf {_} _ _ _ _ _ _.
Arguments hs_self {_} _.
Arguments hs_array {_} _.
Arguments hs_slots {_} _.
Arguments hs_capacity {_} _.
Arguments hs_mutex {_} _.
Arguments hs_table {_} _.

Abbreviation h_store := (store_of ptr).

Definition h_with_slots {S} (l : list (session_of S)) (ms : store_of S) : store_of S :=
  StoreOf (hs_self ms) (hs_array ms) l (hs_capacity ms) (hs_mutex ms) (hs_table ms).
Definition h_with_array {S} (a : option ptr) (n : nat) (ms : store_of S) : store_of S :=
  StoreOf (hs_self ms) a (hs_slots ms) n (hs_mutex ms) (hs_table ms).
Definition h_with_mutex {S} (b : bool) (ms : store_of S) : store_of S :=
  StoreOf (hs_self ms) (hs_array ms) (hs_slots ms) (hs_capacity ms) b (hs_table ms).

(** A block of structs handed to the caller: one session of [get], or the
    array of [get_by_user_id]. *)
Abbreviation h_block := (ptr * list h_session)%type.

(** ** Operations *)

Definition h_lock (ms : h_store) : HC h_store :=
  h_live (Some (hs_self ms));;
  if hs_mutex ms then h_hang else mret (h_with_mutex true ms).

Definition h_unlock (ms : h_store) : HC h_store :=
  h_live (Some (hs_self ms));; mret (h_with_mutex false ms).

(** [ms->sessions[i]]. *)
Definition h_slot (ms : h_store) (i : nat) : HC h_session :=
  h_live (hs_array ms);; h_deref (hs_slots ms !! i).

(** [p != NULL && strcmp(p, q) == 0]. *)
Definition h_str_is (p : option ptr) (q : ptr) : HC bool :=
  match p with
  | None => mret false
  | Some p => s ← h_str p; t ← h_str q; mret (String.eqb s t)
  end.

Definition h_is_expired (s : h_session) : HC bool :=
  if negb (h_has_expires s) then mret false else
  now ← lift time_NULL;
  mret (h_expires_at s <? now).

Definition h_grow (ms : h_store) : HC (Z * h_store) :=
  if decide (length (hs_slots ms) < hs_capacity ms)%nat then mret (0, ms) else
  let new_capacity :=
    if decide (hs_capacity ms = 0%nat) then OPENDBSC_MEMORY_STORE_INITIAL_CAPACITY
    else (hs_capacity ms * 2)%nat in
  new_sessions ← h_realloc (hs_array ms);
  match new_sessions with
  | None => mret (-1, ms)
  | Some _ => mret (0, h_with_array new_sessions new_capacity ms)
  end.

Fixpoint h_find_loop (array : option ptr) (l : list h_session) (id : ptr) (i : nat) : HC Z :=
  match l with
  | [] => mret (-1)
  | s :: l' =>
      h_live array;;
      same ← h_str_is (h_id s) id;
      if same : bool then mret (int_of_size (Z.of_nat i)) else h_find_loop array l' id (S i)
  end.

Definition h_find (ms : h_store) (id : option ptr) : HC Z :=
  match id with
  | None => mret (-1)
  | Some id => h_find_loop (hs_array ms) (hs_slots ms) id 0
  end.

Definition h_remove_at (ms : h_store) (idx : nat) : HC h_store :=
  s ← h_slot ms idx;
  s ← h_session_free (Some s);
  s ← h_deref s;
  mret (h_with_slots (swap_remove s idx (hs_slots ms)) ms).

Fixpoint h_expire_loop (fuel : nat) (ms : h_store) (i : nat) : HC h_store :=
  match fuel with
  | O => h_hang
  | S fuel' =>
      if decide (i < length (hs_slots ms))%nat then
        s ← h_slot ms i;
        e ← h_is_expired s;
        if e : bool then (ms ← h_remove_at ms i; h_expire_loop fuel' ms i)
        else h_expire_loop fuel' ms (S i)
      else mret ms
  end.

Definition h_expire (ms : h_store) : HC h_store :=
  h_expire_loop (S (length (hs_slots ms))) ms 0.

Definition h_overwrite_at (ms : h_store) (idx : nat) (session : option h_session)
    : HC (Z * h_store) :=
  slot ← h_slot ms idx;
  slot ← h_session_free (Some slot);
  '(rc, slot) ← h_session_copy slot session;
  slot ← h_deref slot;
  if negb (rc =? 0) then
    slot ← h_session_free (Some slot);
    slot ← h_deref (h_session_init slot);
    ms ← h_unlock (h_with_slots (<[idx := slot]> (hs_slots ms)) ms);
    mret (-1, ms)
  else
    ms ← h_unlock (h_with_slots (<[idx := slot]> (hs_slots ms)) ms);
    mret (0, ms).

Definition h_create_impl (ms : h_store) (session : option h_session) : HC (Z * h_store) :=
  match session with
  | None => mret (-1, ms)
  | Some s =>
      match h_id s with
      | None => mret (-1, ms)
      | Some _ =>
          ms ← h_lock ms;
          idx ← h_find ms (h_id s);
          if 0 <=? idx then h_overwrite_at ms (Z.to_nat idx) session else
          '(rc, ms) ← h_grow ms;
          if negb (rc =? 0) then (ms ← h_unlock ms; mret (-1, ms)) else
          (* writes to sessions[count] *)
          if negb (bool_decide (length (hs_slots ms) < hs_capacity ms)%nat) then h_ub else
          h_live (hs_array ms);;
          '(rc, slot) ← h_session_copy (h_session_init (Some h_default)) session;
          if negb (rc =? 0) then
            (slot ← h_session_free slot; ms ← h_unlock ms; mret (-1, ms)) else
          slot ← h_deref slot;
          ms ← h_unlock (h_with_slots (hs_slots ms ++ [slot]) ms);
          mret (0, ms)
      end
  end.

(** The answer is the block at [*out], NULL for [None]. *)
Definition h_get_impl (ms : h_store) (id : option ptr) (out : bool)
    : HC (Z * option h_block * h_store) :=
  if negb out then mret (-1, None, ms) else
  match id with
  | None => mret (-1, None, ms)
  | Some _ =>
      ms ← h_lock ms;
      idx ← h_find ms id;
      if idx <? 0 then (ms ← h_unlock ms; mret (-1, None, ms)) else
      stored ← h_slot ms (Z.to_nat idx);
      e ← h_is_expired stored;
      if e : bool then
        ms ← h_remove_at ms (Z.to_nat idx);
        ms ← h_unlock ms;
        mret (-1, None, ms)
      else
        copy ← h_malloc;
        match copy with
        | None => ms ← h_unlock ms; mret (-1, None, ms)
        | Some p =>
            '(rc, c) ← h_session_copy (h_session_init (Some h_default)) (Some stored);
            c ← h_deref c;
            if negb (rc =? 0) then
              h_free copy;;
              ms ← h_unlock ms;
              mret (-1, None, ms)
            else
              ms ← h_unlock ms;
              mret (0, Some (p, [c]), ms)
        end
  end.

Definition h_update_impl (ms : h_store) (session : option h_session) : HC (Z * h_store) :=
  match session with
  | None => mret (-1, ms)
  | Some s =>
      match h_id s with
      | None => mret (-1, ms)
      | Some _ =>
          ms ← h_lock ms;
          idx ← h_find ms (h_id s);
          if idx <? 0 then (ms ← h_unlock ms; mret (-1, ms))
          else h_overwrite_at ms (Z.to_nat idx) session
      end
  end.

Definition h_delete_impl (ms : h_store) (id : option ptr) : HC (Z * h_store) :=
  match id with
  | None => mret (0, ms)
  | Some _ =>
      ms ← h_lock ms;
      idx ← h_find ms id;
      if 0 <=? idx then
        (ms ← h_remove_at ms (Z.to_nat idx); ms ← h_unlock ms; mret (0, ms))
      else (ms ← h_unlock ms; mret (0, ms))
  end.

(** Counting the sessions of a user. *)
Fixpoint h_count_matches (array : option ptr) (l : list h_session) (user_id : ptr) : HC nat :=
  match l with
  | [] => mret 0%nat
  | s :: l' =>
      h_live array;;
      same ← h_str_is (h_user_id s) user_id;
      n ← h_count_matches array l' user_id;
      mret (if same : bool then S n else n)
  end.

(** [for (i = 0; i < count; ++i) opendbsc_session_free(&sessions[i])]: [l] is
    what is left of the array. *)
Fixpoint h_free_all (array : option ptr) (l : list h_session) (count : nat) : HC unit :=
  match count with
  | O => mret tt
  | S count' =>
      match l with
      | [] => h_ub
      | s :: l' =>
          h_live array;;
          h_session_free (Some s);;
          h_free_all array l' count'
      end
  end.

(** The copying loop: [matches] is the array being filled; when a copy fails
    what was copied is freed, and the array with it. *)
Fixpoint h_copy_matches (array : option ptr) (l : list h_session) (user_id : ptr)
    (capacity : nat) (p : option ptr) (matches : list h_session) : HC (option (list h_session)) :=
  match l with
  | [] => mret (Some matches)
  | s :: l' =>
      h_live array;;
      same ← h_str_is (h_user_id s) user_id;
      if same : bool then
        if negb (bool_decide (length matches < capacity)%nat) then h_ub else
        h_live p;;
        '(rc, d) ← h_session_copy (h_session_init (Some h_default)) (Some s);
        if negb (rc =? 0) then
          h_session_free d;;
          h_free_all p matches (length matches);;
          h_free p;;
          mret None
        else
          d ← h_deref d;
          h_copy_matches array l' user_id capacity p (matches ++ [d])
      else h_copy_matches array l' user_id capacity p matches
  end.

(** The answer is the block at [*out] and [*count]. *)
Definition h_get_by_user_id_impl (ms : h_store) (user_id : option ptr) (out count : bool)
    : HC (Z * option h_block * nat * h_store) :=
  match out, count, user_id with
  | true, true, Some u =>
      ms ← h_lock ms;
      ms ← h_expire ms;
      match_count ← h_count_matches (hs_array ms) (hs_slots ms) u;
      if decide (match_count = 0%nat) then (ms ← h_unlock ms; mret (0, None, 0%nat, ms)) else
      matches ← h_malloc;
      match matches with
      | None => ms ← h_unlock ms; mret (-1, None, 0%nat, ms)
      | Some p =>
          l ← h_copy_matches (hs_array ms) (hs_slots ms) u match_count matches [];
          ms ← h_unlock ms;
          match l with
          | None => mret (-1, None, 0%nat, ms)
          | Some l => mret (0, Some (p, l), match_count, ms)
          end
      end
  | _, _, _ => mret (-1, None, 0%nat, ms)
  end.

Fixpoint h_delete_user_loop (fuel : nat) (ms : h_store) (user_id : ptr) (i : nat)
    : HC h_store :=
  match fuel with
  | O => h_hang
  | S fuel' =>
      if decide (i < length (hs_slots ms))%nat then
        s ← h_slot ms i;
        same ← h_str_is (h_user_id s) user_id;
        if same : bool then (ms ← h_remove_at ms i; h_delete_user_loop fuel' ms user_id i)
        else h_delete_user_loop fuel' ms user_id (S i)
      else mret ms
  end.

Definition h_delete_by_user_id_impl (ms : h_store) (user_id : option ptr)
    : HC (Z * h_store) :=
  match user_id with
  | None => mret (0, ms)
  | Some u =>
      ms ← h_lock ms;
      ms ← h_delete_user_loop (S (length (hs_slots ms))) ms u 0;
      ms ← h_unlock ms;
      mret (0, ms)
  end.

(** [free_sessions(sessions, count)]. *)
Definition h_free_sessions_impl (sessions : option h_block) (count : nat) : HC unit :=
  match sessions with
  | None => mret tt
  | Some (p, l) => h_free_all (Some p) l count;; h_free (Some p)
  end.

(** The table is read before the store object is freed. *)
Definition h_destroy_impl (ms : option h_store) : HC unit :=
  match ms with
  | None => mret tt
  | Some ms =>
      ms ← h_lock ms;
      h_free_all (hs_array ms) (hs_slots ms) (length (hs_slots ms));;
      h_free (hs_array ms);;
      ms ← h_unlock (h_with_slots [] (h_with_array None 0 ms));
      h_live (Some (hs_self ms));;
      h_free (Some (hs_self ms));;
      h_free (hs_table ms)
  end.

(** [opendbsc_memory_store_create]; [pthread_mutex_init] can fail like an
    allocation does. *)
Definition h_store_create : HC (option h_store) :=
  self ← h_malloc;
  match self with
  | None => mret None
  | Some ms =>
      mutex ← lift malloc;
      if negb mutex then (h_free self;; mret None) else
      store ← h_malloc;
      match store with
      | None => h_free self;; mret None
      | Some _ => mret (Some (StoreOf ms None [] 0 false store))
      end
  end.

(** ** Programs that use a store *)

(** A call with the caller's strings of the type [S]; an output argument is
    NULL or not. *)
Inductive op_of (S : Type) :=
| HCreate (session : option (session_of S))
| HGet (id : option S) (out : bool)
| HUpdate (session : option (session_of S))
| HDelete (id : option S)
| HGetByUser (user_id : option S) (out count : bool)
| HDeleteByUser (user_id : option S).
Arguments HCreate {_} _.
Arguments HGet {_} _ _.
Arguments HUpdate {_} _.
Arguments HDelete {_} _.
Arguments HGetByUser {_} _ _ _.
Arguments HDeleteByUser {_} _.

(** The return code, and what the caller received. *)
Definition h_exec_op (op : op_of ptr) (ms : h_store) : HC (Z * option h_block * nat * h_store) :=
  match op with
  | HCreate s => '(rc, ms) ← h_create_impl ms s; mret (rc, None, 0%nat, ms)
  | HGet id out => '(rc, b, ms) ← h_get_impl ms id out; mret (rc, b, 1%nat, ms)
  | HUpdate s => '(rc, ms) ← h_update_impl ms s; mret (rc, None, 0%nat, ms)
  | HDelete id => '(rc, ms) ← h_delete_impl ms id; mret (rc, None, 0%nat, ms)
  | HGetByUser u out cnt =>
      '(rc, b, n, ms) ← h_get_by_user_id_impl ms u out cnt; mret (rc, b, n, ms)
  | HDeleteByUser u => '(rc, ms) ← h_delete_by_user_id_impl ms u; mret (rc, None, 0%nat, ms)
  end.

(** The caller gives back what each call answered with [free_sessions], as
    [store.h] asks. *)
Fixpoint h_exec_ops (ops : list (op_of ptr)) (ms : h_store) : HC (list Z * h_store) :=
  match ops with
  | [] => mret ([], ms)
  | op :: ops =>
      '(rc, b, n, ms) ← h_exec_op op ms;
      h_free_sessions_impl b n;;
      '(rcs, ms) ← h_exec_ops ops ms;
      mret (rc :: rcs, ms)
  end.

(** A store created, called and destroyed. *)
Definition h_lifecycle (ops : list (op_of ptr)) : HC (option (list Z)) :=
  ms ← h_store_create;
  match ms with
  | None => mret None
  | Some ms =>
      '(rcs, ms) ← h_exec_ops ops ms;
      h_destroy_impl (Some ms);;
      mret (Some rcs)
  end.
