(* ===== verification/MemoryOwnership.v ===== *)
(** Who owns which block of the in-memory store.  Every function of
    [MemoryHeap.v] is shown to return what its definition on values in
    [MemoryStore.v] returns, never to free a block twice or to use one that was
    freed, and to leave exactly the blocks of the store, those of its answer
    and those of the caller; what [get] loses when a duplication fails is in
    the statements. *)

From S2P Require Export MemoryHeap.
From stdpp Require Import options.
#[local] Open Scope Z_scope.

(** ** The blocks of a store *)

Abbreviation ostore := (store_of (ptr * string)).
Abbreviation oblock := (ptr * list osession)%type.

(** The sessions in a block, as values. *)
Definition answer_one (b : oblock) : option OpenDBSC_Session := vals <$> head b.2.
Definition answer_all (b : oblock) : list OpenDBSC_Session := vals <$> b.2.

Definition sptrs (o : ostore) : h_store :=
  StoreOf (hs_self o) (hs_array o) (ptrs <$> hs_slots o) (hs_capacity o) (hs_mutex o)
    (hs_table o).

Definition svals (o : ostore) : OpenDBSC_MemoryStore :=
  MemoryStore (vals <$> hs_slots o) (hs_capacity o) (hs_mutex o).

Definition store_cells (o : ostore) : cells :=
  (hs_self o, Mem) :: mem_cells (hs_table o) ++ mem_cells (hs_array o) ++
  (hs_slots o ≫= owned).

(** Without an array there are no sessions and no room for any. *)
Definition store_ok (o : ostore) : Prop :=
  hs_array o = None → hs_slots o = [] ∧ hs_capacity o = 0%nat.

Lemma fmap_swap_remove {A B} (f : A → B) d i l :
  f <$> swap_remove d i l = swap_remove (f d) i (f <$> l).
Proof.
  unfold swap_remove. rewrite fmap_take, !length_fmap. f_equal.
  rewrite <-list_fmap_insert, list_lookup_fmap. case_decide; [done|].
  destruct (_ !! _); simpl; [|done]. by rewrite list_fmap_insert.
Qed.

Lemma swap_remove_cells (l : list osession) d i s :
  l !! i = Some s → l ≫= owned ≡ₚ owned s ++ (swap_remove d i l ≫= owned).
Proof. intros Hi. by rewrite (swap_remove_perm d l i s Hi) at 1. Qed.

Lemma insert_cells (l : list osession) i s s' :
  l !! i = Some s → ∃ R, (l ≫= owned) ≡ₚ owned s ++ R ∧ (<[i := s']> l ≫= owned) ≡ₚ owned s' ++ R.
Proof.
  intros Hi. destruct (overwrite_perm l i s s' Hi) as (r & Hr & Hr').
  exists (r ≫= owned). split; [by rewrite Hr|by rewrite Hr'].
Qed.

Lemma store_cells_slots o l R :
  l ≫= owned ≡ₚ R → store_cells (h_with_slots l o) ≡ₚ store_cells (h_with_slots [] o) ++ R.
Proof. intros Hl. unfold store_cells. simpl. rewrite Hl. solve_Permutation. Qed.

(** ** Steps that read or free *)

Section store_runs.
Context (o : ostore) (F : cells) (h : heap) (Ho : store_ok o) (Hh : holds h (store_cells o ++ F)).
#[local] Set Default Proof Using "Type*".

Lemma self_run : heap_run (h_live (Some (hs_self o))) h tt h.
Proof. eapply live_run; [exact Hh|]. by left. Qed.

Lemma unlock_run : heap_run (h_unlock (sptrs o)) h (sptrs (h_with_mutex false o)) h.
Proof. eapply heap_run_bind; [exact self_run|apply heap_run_ret]. Qed.

Lemma array_run : hs_array o ≠ None → heap_run (h_live (hs_array o)) h tt h.
Proof.
  destruct (hs_array o) as [p|] eqn:E; [|done]. intros _. apply (live_run _ _ _ Mem Hh).
  unfold store_cells. rewrite E. set_solver.
Qed.

Lemma slot_run i s : hs_slots o !! i = Some s → heap_run (h_slot (sptrs o) i) h (ptrs s) h.
Proof.
  intros Hi. eapply heap_run_bind.
  - apply array_run. intros HN. by rewrite (proj1 (Ho HN)) in Hi.
  - cbn. rewrite list_lookup_fmap, Hi. apply heap_run_ret.
Qed.

Lemma slot_in i s : hs_slots o !! i = Some s → owned s ⊆ store_cells o ++ F.
Proof.
  intros Hi. unfold store_cells. rewrite (swap_remove_cells _ h_default _ _ Hi).
  intros c. rewrite !elem_of_app, elem_of_cons, !elem_of_app. tauto.
Qed.

End store_runs.

Lemma str_is_run h L f q t :
  holds h L → str_cells f ⊆ L → (q, Str t) ∈ L →
  heap_run (h_str_is (fst <$> f) q) h (str_is (snd <$> f) t) h.
Proof.
  intros Hh Hf Hq. destruct f as [[p s]|]; simpl; [|apply heap_run_ret].
  eapply heap_run_bind; [eapply str_run; [exact Hh|]; apply Hf; by left|].
  eapply heap_run_bind; [by eapply str_run|]. apply heap_run_ret.
Qed.

Lemma id_in (s : osession) : str_cells (h_id s) ⊆ owned s.
Proof. unfold owned. set_solver. Qed.

Lemma user_in (s : osession) : str_cells (h_user_id s) ⊆ owned s.
Proof. unfold owned. set_solver. Qed.

Lemma slots_in (l : list osession) s : s ∈ l → owned s ⊆ l ≫= owned.
Proof. intros Hs c Hc. apply list_elem_of_bind. eauto. Qed.

Lemma find_loop_run h L array l q t i :
  holds h L → (l ≫= owned) ⊆ L → (q, Str t) ∈ L →
  (l ≠ [] → heap_run (h_live array) h tt h) →
  heap_run (h_find_loop array (ptrs <$> l) q i) h (find_loop (vals <$> l) t i) h.
Proof.
  intros Hh Hl Hq Ha. revert i. induction l as [|s l IH]; intros i; [apply heap_run_ret|].
  eapply heap_run_bind; [by apply Ha|]. eapply heap_run_bind.
  { eapply str_is_run; [done| |done]. etrans; [apply id_in|].
    etrans; [|exact Hl]. apply slots_in. by left. }
  simpl. destruct (str_is _ t); [apply heap_run_ret|].
  apply IH; [|intros _; by apply Ha]. intros c Hc. apply Hl. simpl. apply elem_of_app. by right.
Qed.

Lemma slots_in_store o F : (hs_slots o ≫= owned) ⊆ store_cells o ++ F.
Proof.
  intros c. unfold store_cells. rewrite elem_of_app, elem_of_cons, !elem_of_app. tauto.
Qed.

Lemma array_run_slots o F h :
  store_ok o → holds h (store_cells o ++ F) → hs_slots o ≠ [] →
  heap_run (h_live (hs_array o)) h tt h.
Proof. intros Ho Hh Hn. eapply array_run; [exact Ho|exact Hh|]. intros HN. by destruct (Ho HN). Qed.

Lemma find_run o F h id :
  store_ok o → holds h (store_cells o ++ F) → str_cells id ⊆ F →
  heap_run (h_find (sptrs o) (fst <$> id)) h (memory_store_find (svals o) (snd <$> id)) h.
Proof.
  intros Ho Hh Hid. destruct id as [[q t]|]; [|apply heap_run_ret].
  eapply find_loop_run; [exact Hh|apply slots_in_store| |by eapply array_run_slots].
  apply elem_of_app. right. apply Hid. by left.
Qed.

Lemma sptrs_remove i o :
  h_with_slots (swap_remove h_default i (hs_slots (sptrs o))) (sptrs o)
    = sptrs (h_with_slots (swap_remove h_default i (hs_slots o)) o).
Proof. unfold sptrs, h_with_slots. simpl. by rewrite fmap_swap_remove. Qed.

Lemma svals_remove i o :
  with_sessions (swap_remove session_default i (ms_sessions (svals o))) (svals o)
    = svals (h_with_slots (swap_remove h_default i (hs_slots o)) o).
Proof. unfold svals, with_sessions. simpl. by rewrite fmap_swap_remove. Qed.

Lemma remove_run o F h i s :
  store_ok o → holds h (store_cells o ++ F) → hs_slots o !! i = Some s →
  ∃ h', holds h' (store_cells (h_with_slots (swap_remove h_default i (hs_slots o)) o) ++ F) ∧
    heap_run (h_remove_at (sptrs o) i) h
      (sptrs (h_with_slots (swap_remove h_default i (hs_slots o)) o)) h'.
Proof.
  intros Ho Hh Hi. pose proof Hh as Hh'.
  assert (store_cells o ++ F ≡ₚ
    owned s ++ store_cells (h_with_slots (swap_remove h_default i (hs_slots o)) o) ++ F) as Hp.
  { unfold store_cells. rewrite (swap_remove_cells _ h_default _ _ Hi). simpl. solve_Permutation. }
  rewrite Hp in Hh'. destruct (session_free_run _ _ _ Hh') as (h1 & H1 & R1).
  exists h1. split; [done|]. eapply heap_run_bind; [by eapply slot_run|].
  eapply heap_run_bind; [exact R1|]. eapply heap_run_bind; [apply heap_run_ret|].
  rewrite <-sptrs_remove. apply heap_run_ret.
Qed.

(** ** Operations over the heap and on values *)

(** The store object and its blocks, beside [F]. *)
Definition store_left (F : cells) (ms : h_store) (vs : OpenDBSC_MemoryStore) (h : heap) : Prop :=
  ∃ o, ms = sptrs o ∧ vs = svals o ∧ store_ok o ∧ holds h (store_cells o ++ F).

(** The same, after a call that returns a code and the store. *)
Definition call_left (F : cells) (r : Z * h_store) (r' : Z * OpenDBSC_MemoryStore)
    (h : heap) : Prop :=
  ∃ rc o, r = (rc, sptrs o) ∧ r' = (rc, svals o) ∧ store_ok o ∧ holds h (store_cells o ++ F).

Lemma svals_count o : ms_count (svals o) = length (hs_slots o).
Proof. apply length_fmap. Qed.

Lemma sptrs_count o : length (hs_slots (sptrs o)) = length (hs_slots o).
Proof. apply length_fmap. Qed.

Lemma svals_lookup o i : ms_sessions (svals o) !! i = vals <$> hs_slots o !! i.
Proof. apply list_lookup_fmap. Qed.

#[local] Arguments opendbsc_session_copy : simpl never.
#[local] Arguments h_session_copy : simpl never.
#[local] Arguments h_session_free : simpl never.

Section store_sims.
Context (calm : Prop) (F : cells).

Lemma store_left_intro o h :
  store_ok o → holds h (store_cells o ++ F) → store_left F (sptrs o) (svals o) h.
Proof. by exists o. Qed.

Lemma hsim_lock {A B} o h (fh : h_store → HC A) (f : OpenDBSC_MemoryStore → C B) R :
  store_ok o → holds h (store_cells o ++ F) →
  (∀ o, store_ok o → holds h (store_cells o ++ F) →
     hsim calm (fh (sptrs o)) (f (svals o)) h R) →
  hsim calm (h_lock (sptrs o) ≫= fh) (lock (svals o) ≫= f) h R.
Proof.
  intros Ho Hh Hf. eapply (hsim_bind _ _ _ _ _ (λ a b h', a = sptrs (h_with_mutex true o) ∧
    b = svals (h_with_mutex true o) ∧ h' = h)); [|intros a b h' (-> & -> & ->); by apply Hf].
  eapply hsim_heap; [by eapply self_run|]. unfold lock. simpl.
  destruct (hs_mutex o); [apply hsim_hang|by apply hsim_ret].
Qed.

Lemma hsim_expired s h :
  hsim calm (h_is_expired (ptrs s)) (memory_store_is_expired (Some (vals s))) h
    (λ a b h', a = b ∧ h' = h).
Proof.
  unfold h_is_expired, memory_store_is_expired. simpl.
  destruct (h_has_expires s); [|by apply hsim_ret]. simpl.
  eapply (hsim_bind _ _ _ _ _ (λ a b h', a = b ∧ h' = h)); [by apply hsim_time|].
  intros a b h' [-> ->]. by apply hsim_ret.
Qed.

Lemma hsim_remove o h i s :
  store_ok o → holds h (store_cells o ++ F) → hs_slots o !! i = Some s →
  hsim calm (h_remove_at (sptrs o) i) (memory_store_remove_at (svals o) i) h (store_left F).
Proof.
  intros Ho Hh Hi. destruct (remove_run _ _ _ _ _ Ho Hh Hi) as (h1 & H1 & R1).
  intros w b w' Hc. rewrite remove_at_run
    by (rewrite svals_count; by eapply lookup_lt_Some).
  intros [= <- <-]. split; [done|]. eexists _, h1. split; [apply R1|].
  exists (h_with_slots (swap_remove h_default i (hs_slots o)) o). split_and!; [done| | |done].
  - apply svals_remove.
  - intros HN. destruct (Ho HN) as [HN' ?]. simpl. by rewrite HN' in Hi.
Qed.

Lemma hsim_expire_loop fuel o h i :
  store_ok o → holds h (store_cells o ++ F) →
  hsim calm (h_expire_loop fuel (sptrs o) i) (expire_loop fuel (svals o) i) h (store_left F).
Proof.
  revert o h i. induction fuel as [|fuel IH]; intros o h i Ho Hh; [apply hsim_hang|].
  simpl. rewrite svals_count, length_fmap.
  case_decide as Hi; [|by apply hsim_ret, store_left_intro].
  destruct (lookup_lt_is_Some_2 _ _ Hi) as [s Hs].
  eapply hsim_heap; [by eapply slot_run|].
  eapply hsim_value; [by rewrite list_lookup_fmap, Hs|].
  eapply hsim_bind; [apply hsim_expired|]. intros a b ? [-> ->].
  destruct b; [|by apply IH].
  eapply hsim_bind; [by eapply hsim_remove|].
  intros ms vs h1 (o1 & -> & -> & Ho1 & H1). by apply IH.
Qed.

Lemma hsim_expire o h :
  store_ok o → holds h (store_cells o ++ F) →
  hsim calm (h_expire (sptrs o)) (memory_store_expire (svals o)) h (store_left F).
Proof.
  unfold h_expire, memory_store_expire. rewrite sptrs_count, svals_count.
  apply hsim_expire_loop.
Qed.

Lemma hsim_delete_user_loop fuel o h q u i :
  store_ok o → holds h (store_cells o ++ F) → (q, Str u) ∈ F →
  hsim calm (h_delete_user_loop fuel (sptrs o) q i) (delete_user_loop fuel (svals o) u i) h
    (store_left F).
Proof.
  intros Ho Hh Hu. revert o h i Ho Hh.
  induction fuel as [|fuel IH]; intros o h i Ho Hh; [apply hsim_hang|].
  simpl. rewrite svals_count, length_fmap.
  case_decide as Hi; [|by apply hsim_ret, store_left_intro].
  destruct (lookup_lt_is_Some_2 _ _ Hi) as [s Hs].
  eapply hsim_heap; [by eapply slot_run|].
  eapply hsim_value; [by rewrite list_lookup_fmap, Hs|].
  eapply hsim_heap.
  { apply (str_is_run _ _ _ _ u Hh); [|apply elem_of_app; by right]. etrans; [apply user_in|]. by eapply slot_in. }
  simpl. destruct (str_is _ u); [|by apply IH].
  eapply hsim_bind; [by eapply hsim_remove|].
  intros ms vs h1 (o1 & -> & -> & Ho1 & H1). by apply IH.
Qed.

(** The end of an operation. *)
Lemma hsim_unlocked (rc : Z) o h :
  store_ok o → holds h (store_cells o ++ F) →
  hsim calm (ms ← h_unlock (sptrs o); mret (rc, ms)) (mret (rc, unlock (svals o))) h
    (call_left F).
Proof.
  intros Ho Hh. eapply hsim_heap; [by eapply unlock_run|]. apply hsim_ret.
  by exists rc, (h_with_mutex false o).
Qed.

Lemma hsim_grow o h :
  store_ok o → holds h (store_cells o ++ F) →
  hsim calm (h_grow (sptrs o)) (memory_store_grow (svals o)) h (call_left F).
Proof.
  intros Ho Hh. unfold h_grow, memory_store_grow. rewrite svals_count, sptrs_count. simpl.
  case_decide; [by apply hsim_ret; exists 0, o|].
  set (n := if decide (hs_capacity o = 0%nat) then _ else _).
  assert (holds h (mem_cells (hs_array o) ++ store_cells (h_with_array None n o) ++ F)) as Hh'.
  { eapply holds_perm; [|exact Hh]. unfold store_cells. simpl. solve_Permutation. }
  eapply (hsim_bind _ _ _ _ _ (λ p ok h', ok = bool_decide (p ≠ None) ∧ holds h'
    (store_cells (if p is Some _ then h_with_array p n o else o) ++ F))).
  - eapply hsim_realloc; [exact Hh'| |done]. intros p h1 H1. split; [done|].
    eapply holds_perm; [|exact H1]. unfold store_cells. simpl. solve_Permutation.
  - intros p ok h1 [-> H1]. destruct p as [p|]; simpl; apply hsim_ret.
    + exists 0, (h_with_array (Some p) n o). by split_and!.
    + by exists (-1), o.
Qed.

(** Writing a slot. *)
Lemma sptrs_insert i s o :
  h_with_slots (<[i := ptrs s]> (ptrs <$> hs_slots o)) (sptrs o)
    = sptrs (h_with_slots (<[i := s]> (hs_slots o)) o).
Proof. unfold sptrs, h_with_slots. simpl. by rewrite list_fmap_insert. Qed.

Lemma svals_insert i s o :
  with_sessions (<[i := vals s]> (vals <$> hs_slots o)) (svals o)
    = svals (h_with_slots (<[i := s]> (hs_slots o)) o).
Proof. unfold svals, with_sessions. simpl. by rewrite list_fmap_insert. Qed.

(** The slot [i] among the blocks of the store. *)
Lemma slot_cells o i x :
  store_ok o → hs_slots o !! i = Some x →
  ∃ G, store_cells o ++ F ≡ₚ owned x ++ G ∧ F ⊆ G ∧ ∀ y,
    store_ok (h_with_slots (<[i := y]> (hs_slots o)) o) ∧
    store_cells (h_with_slots (<[i := y]> (hs_slots o)) o) ++ F ≡ₚ owned y ++ G.
Proof.
  intros Ho Hi. exists (store_cells (h_with_slots (delete i (hs_slots o)) o) ++ F).
  split_and!; [|set_solver|intros y; split].
  - unfold store_cells. rewrite (delete_Permutation _ _ _ Hi) at 1. simpl. solve_Permutation.
  - intros HN. destruct (Ho HN) as [HN' ?]. by rewrite HN' in Hi.
  - destruct (insert_cells _ _ _ y Hi) as (R & HR & HR'). unfold store_cells. simpl.
    rewrite HR'. rewrite (delete_Permutation _ _ _ Hi) in HR. apply (inj (owned x ++.)) in HR.
    rewrite <-HR. solve_Permutation.
Qed.

Lemma hsim_overwrite o h i s :
  store_ok o → holds h (store_cells o ++ F) → owned s ⊆ F →
  hsim calm (h_overwrite_at (sptrs o) i (Some (ptrs s)))
    (overwrite_at (svals o) i (Some (vals s))) h (call_left F).
Proof.
  intros Ho Hh Hs. unfold h_overwrite_at, overwrite_at.
  destruct (hs_slots o !! i) as [x|] eqn:Hi; [|apply (hsim_ext _ _ ub);
    [intros w; by rewrite svals_lookup, Hi|apply hsim_ub]].
  eapply hsim_heap; [by eapply slot_run|]. rewrite svals_lookup, Hi.
  eapply hsim_value; [done|].
  destruct (slot_cells _ _ _ Ho Hi) as (G & HG & HFG & Hput). rewrite HG in Hh.
  destruct (session_free_run _ _ _ Hh) as (h1 & H1 & R1).
  eapply hsim_heap; [exact R1|]. clear h Hh HG R1.
  eapply hsim_bind; [apply (hsim_session_copy calm h1 h_default s G H1); set_solver|].
  intros ? ? h2 (rc & y & -> & -> & _ & H2). simpl.
  eapply hsim_heap; [apply heap_run_ret|]. eapply hsim_value; [done|].
  destruct (negb _).
  - destruct (session_free_run _ _ _ H2) as (h3 & H3 & R3).
    eapply hsim_heap; [exact R3|]. eapply hsim_heap; [apply heap_run_ret|].
    eapply hsim_value; [done|]. simpl. change session_default with (vals h_default).
    change (@h_default ptr) with (ptrs h_default). rewrite sptrs_insert, svals_insert.
    destruct (Hput h_default) as [? Hc]. apply hsim_unlocked; [done|]. by rewrite Hc.
  - rewrite sptrs_insert, svals_insert. destruct (Hput y) as [? Hc].
    apply hsim_unlocked; [done|]. by rewrite Hc.
Qed.

(** The argument of [create] and [update]: NULL, or a session of the caller. *)
Definition given (s : option osession) : cells := if s is Some s then owned s else [].

Lemma hsim_refused (rc : Z) o h :
  store_ok o → holds h (store_cells o ++ F) →
  hsim calm (mret (rc, sptrs o)) (mret (rc, svals o)) h (call_left F).
Proof. intros ??. apply hsim_ret. by exists rc, o. Qed.

(** A new session at the end of the array. *)
Lemma append_left o h s :
  store_ok o → hs_array o ≠ None → holds h (owned s ++ store_cells o ++ F) →
  ∃ o', sptrs o' = h_with_slots ((ptrs <$> hs_slots o) ++ [ptrs s]) (sptrs o) ∧
    svals o' = with_sessions ((vals <$> hs_slots o) ++ [vals s]) (svals o) ∧
    store_ok o' ∧ holds h (store_cells o' ++ F).
Proof.
  intros Ho Ha Hh. exists (h_with_slots (hs_slots o ++ [s]) o). split_and!; [| |done|].
  - unfold sptrs. simpl. by rewrite fmap_app.
  - unfold svals. simpl. by rewrite fmap_app.
  - eapply holds_perm; [|exact Hh]. unfold store_cells. simpl.
    rewrite bind_app. simpl. solve_Permutation.
Qed.

Lemma hsim_create o h s :
  store_ok o → holds h (store_cells o ++ F) → given s ⊆ F →
  hsim calm (h_create_impl (sptrs o) (ptrs <$> s))
    (opendbsc_memory_store_create_impl (svals o) (vals <$> s)) h (call_left F).
Proof.
  intros Ho Hh Hs. destruct s as [s|]; [|by apply hsim_refused]. simpl in Hs.
  unfold opendbsc_memory_store_create_impl. simpl.
  destruct (h_id s) as [[q id]|] eqn:Hid; [|by apply hsim_refused].
  apply hsim_lock; [done..|]. clear o Ho Hh. intros o Ho Hh.
  eapply hsim_heap.
  { eapply (find_run _ _ _ (Some (q, id)) Ho Hh). etrans; [|exact Hs].
    pose proof (id_in s) as Hin. by rewrite Hid in Hin. }
  change (snd <$> Some (q, id)) with (Some id). destruct (0 <=? _); [by apply (hsim_overwrite _ _ _ s)|].
  eapply hsim_bind; [by apply hsim_grow|]. clear o h Ho Hh.
  intros ? ? h (rc & o & -> & -> & Ho & Hh). simpl.
  destruct (negb _); [by apply hsim_unlocked|].
  rewrite svals_count, length_fmap.
  destruct (decide (length (hs_slots o) < hs_capacity o)%nat) as [Hlt|Hlt];
    [|rewrite bool_decide_false by done; apply hsim_ub].
  rewrite bool_decide_true by done. simpl.
  assert (hs_array o ≠ None) as Ha. { intros HN. destruct (Ho HN). lia. }
  eapply hsim_heap; [by eapply array_run|].
  eapply hsim_bind; [apply (hsim_session_copy calm h h_default s _ Hh); set_solver|].
  intros ? ? h2 (rc' & y & -> & -> & _ & H2). simpl. destruct (negb _).
  - destruct (session_free_run _ _ _ H2) as (h3 & H3 & R3).
    eapply hsim_heap; [exact R3|]. by apply hsim_unlocked.
  - eapply hsim_heap; [apply heap_run_ret|]. eapply hsim_value; [done|].
    destruct (append_left o h2 y Ho Ha H2) as (o' & <- & <- & ? & ?). by apply hsim_unlocked.
Qed.

Lemma hsim_update o h s :
  store_ok o → holds h (store_cells o ++ F) → given s ⊆ F →
  hsim calm (h_update_impl (sptrs o) (ptrs <$> s))
    (opendbsc_memory_store_update_impl (svals o) (vals <$> s)) h (call_left F).
Proof.
  intros Ho Hh Hs. destruct s as [s|]; [|by apply hsim_refused]. simpl in Hs.
  unfold opendbsc_memory_store_update_impl. simpl.
  destruct (h_id s) as [[q id]|] eqn:Hid; [|by apply hsim_refused].
  apply hsim_lock; [done..|]. clear o Ho Hh. intros o Ho Hh.
  eapply hsim_heap.
  { eapply (find_run _ _ _ (Some (q, id)) Ho Hh). etrans; [|exact Hs].
    pose proof (id_in s) as Hin. by rewrite Hid in Hin. }
  change (snd <$> Some (q, id)) with (Some id). destruct (_ <? 0); [by apply hsim_unlocked|by apply (hsim_overwrite _ _ _ s)].
Qed.

Lemma hsim_delete o h id :
  store_ok o → holds h (store_cells o ++ F) → str_cells id ⊆ F →
  hsim calm (h_delete_impl (sptrs o) (fst <$> id))
    (opendbsc_memory_store_delete_impl (svals o) (snd <$> id)) h (call_left F).
Proof.
  intros Ho Hh Hid. unfold opendbsc_memory_store_delete_impl.
  destruct id as [[q id]|]; [|by apply hsim_refused].
  apply hsim_lock; [done..|]. clear o Ho Hh. intros o Ho Hh.
  eapply hsim_heap; [by eapply (find_run _ _ _ (Some (q, id)) Ho Hh)|]. change (snd <$> Some (q, id)) with (Some id).
  generalize (memory_store_find (svals o) (Some id)). intros idx.
  destruct (0 <=? _); [|by apply hsim_unlocked].
  destruct (hs_slots o !! Z.to_nat idx) as [s|] eqn:Hs.
  - eapply hsim_bind; [by eapply hsim_remove|].
    intros ? ? h1 (o1 & -> & -> & ? & ?). by apply hsim_unlocked.
  - apply (hsim_ext _ _ ub); [|apply hsim_ub]. intros w. rewrite bind_unfold.
    unfold memory_store_remove_at. rewrite decide_False; [done|].
    rewrite svals_count. by apply Nat.nlt_ge, lookup_ge_None.
Qed.

Lemma hsim_delete_by_user o h u :
  store_ok o → holds h (store_cells o ++ F) → str_cells u ⊆ F →
  hsim calm (h_delete_by_user_id_impl (sptrs o) (fst <$> u))
    (opendbsc_memory_store_delete_by_user_id_impl (svals o) (snd <$> u)) h (call_left F).
Proof.
  intros Ho Hh Hu. unfold opendbsc_memory_store_delete_by_user_id_impl.
  destruct u as [[q u]|]; [|by apply hsim_refused].
  apply hsim_lock; [done..|]. clear o Ho Hh. intros o Ho Hh. rewrite svals_count, sptrs_count.
  eapply hsim_bind; [apply hsim_delete_user_loop; [done|exact Hh|apply Hu; by left]|].
  intros ? ? h1 (o1 & -> & -> & ? & ?). by apply hsim_unlocked.
Qed.

(** *** Blocks of sessions *)

Definition bptrs (b : oblock) : h_block := (b.1, ptrs <$> b.2).
Definition block_cells (b : oblock) : cells := (b.1, Mem) :: (b.2 ≫= owned).
Definition answer_cells (b : option oblock) : cells := if b is Some b then block_cells b else [].

Lemma free_all_run h a l G :
  (a, Mem) ∈ G → holds h ((l ≫= owned) ++ G) →
  ∃ h', holds h' G ∧ heap_run (h_free_all (Some a) (ptrs <$> l) (length l)) h tt h'.
Proof.
  intros Ha. revert h. induction l as [|s l IH]; intros h Hh; [by exists h|].
  simpl in Hh. rewrite <-(assoc_L (++)) in Hh.
  destruct (session_free_run _ _ _ Hh) as (h1 & H1 & R1).
  destruct (IH _ H1) as (h2 & H2 & R2). exists h2. split; [done|].
  eapply heap_run_bind; [eapply (live_run _ _ _ Mem Hh); rewrite !elem_of_app; tauto|].
  by eapply heap_run_bind.
Qed.

Lemma free_block_run h b G :
  holds h (block_cells b ++ G) →
  ∃ h', holds h' G ∧
    heap_run (h_free_sessions_impl (Some (bptrs b)) (length b.2)) h tt h'.
Proof.
  destruct b as [a l]. unfold block_cells. simpl. intros Hh.
  assert (holds h ((l ≫= owned) ++ (a, Mem) :: G)) as Hh'.
  { eapply holds_perm; [|exact Hh]. by rewrite Permutation_middle. }
  destruct (free_all_run h a l _ ltac:(by left) Hh') as (h1 & H1 & R1).
  destruct (free_run _ _ _ _ H1) as (h2 & H2 & R2). exists h2. split; [done|].
  by eapply heap_run_bind.
Qed.

(** The array of sessions as [l] is walked: its block is in [G]. *)
Definition in_array (array : option ptr) (l : list osession) (G : cells) : Prop :=
  (l ≠ [] → ∃ a, array = Some a ∧ (a, Mem) ∈ G) ∧ (l ≫= owned) ⊆ G.

Lemma in_array_cons array s l G :
  in_array array (s :: l) G →
  (∃ a, array = Some a ∧ (a, Mem) ∈ G) ∧ owned s ⊆ G ∧ in_array array l G.
Proof.
  intros [Ha Hl]. specialize (Ha ltac:(done)). simpl in Hl.
  split_and!; [done|set_solver|split; [done|set_solver]].
Qed.

Definition of_user_val (u : string) (l : list osession) : nat :=
  length (filter (λ s, str_is (s_user_id s) u = true) (vals <$> l)).

Lemma of_user_val_cons u s l :
  of_user_val u (s :: l) =
    ((if str_is (s_user_id (vals s)) u then 1 else 0) + of_user_val u l)%nat.
Proof.
  unfold of_user_val. rewrite fmap_cons, filter_cons. by destruct (str_is _ _).
Qed.

Lemma count_run h L array l q u G :
  holds h (L ++ G) → in_array array l G → (q, Str u) ∈ G →
  heap_run (h_count_matches array (ptrs <$> l) q) h (of_user_val u l) h.
Proof.
  intros Hh Hl Hq. induction l as [|s l IH]; [apply heap_run_ret|].
  apply in_array_cons in Hl as ((a & -> & Ha) & Hs & Hl).
  eapply heap_run_bind; [apply (live_run _ _ _ Mem Hh), elem_of_app; by right|].
  eapply heap_run_bind.
  { apply (str_is_run _ _ _ _ u Hh); [|apply elem_of_app; by right].
    etrans; [apply user_in|]. set_solver. }
  eapply heap_run_bind; [by apply IH|]. rewrite of_user_val_cons. simpl.
  destruct (str_is _ u); apply heap_run_ret.
Qed.

(** The result of the copying loop: nothing of the array when it failed, all
    of the user's sessions in it otherwise. *)
Definition copies_left (p : ptr) (G : cells) (n : nat) (r : option (list h_session))
    (r' : option (list OpenDBSC_Session)) (h : heap) : Prop :=
  (r = None ∧ r' = None ∧ holds h G) ∨
  ∃ l, r = Some (ptrs <$> l) ∧ r' = Some (vals <$> l) ∧ length l = n ∧
       holds h (block_cells (p, l) ++ G).

Lemma hsim_copy_matches array q u p n l acc G h :
  holds h (block_cells (p, acc) ++ G) → in_array array l G → (q, Str u) ∈ G →
  hsim calm (h_copy_matches array (ptrs <$> l) q n (Some p) (ptrs <$> acc))
    (copy_matches (vals <$> l) u n (vals <$> acc)) h
    (copies_left p G (length acc + of_user_val u l)).
Proof.
  intros Hh Hl Hq. revert acc h Hh. induction l as [|s l IH]; intros acc h Hh.
  { apply hsim_ret. right. exists acc. split_and!; [done|done| |done].
    unfold of_user_val. simpl. lia. }
  apply in_array_cons in Hl as ((a & -> & Ha) & Hs & Hl).
  eapply hsim_heap; [apply (live_run _ _ _ Mem Hh), elem_of_app; by right|].
  eapply hsim_heap.
  { apply (str_is_run _ _ _ _ u Hh); [|apply elem_of_app; by right].
    etrans; [apply user_in|]. set_solver. }
  rewrite of_user_val_cons. simpl. destruct (str_is _ u); [|by apply IH].
  rewrite !length_fmap.
  case_bool_decide; [simpl|apply hsim_ub].
  eapply hsim_heap; [apply (live_run _ _ _ Mem Hh); by left|].
  eapply hsim_bind; [apply (hsim_session_copy calm h h_default s _ Hh); set_solver|].
  intros ? ? h1 (rc & d & -> & -> & _ & H1). simpl. destruct (negb _).
  - destruct (session_free_run _ _ _ H1) as (h2 & H2 & R2).
    eapply hsim_heap; [exact R2|]. clear h1 Hh H1 R2.
    assert (holds h2 ((acc ≫= owned) ++ (p, Mem) :: G)) as H2'.
    { eapply holds_perm; [|exact H2]. unfold block_cells. simpl. by rewrite Permutation_middle. }
    destruct (free_all_run h2 p acc _ ltac:(by left) H2') as (h3 & H3 & R3).
    eapply hsim_heap; [exact R3|].
    destruct (free_run _ _ _ _ H3) as (h4 & H4 & R4). eapply hsim_heap; [exact R4|].
    apply hsim_ret. by left.
  - eapply hsim_heap; [apply heap_run_ret|]. eapply hsim_value; [done|].
    change [ptrs d] with (ptrs <$> [d]). change [vals d] with (vals <$> [d]).
    rewrite <-!fmap_app. eapply hsim_mono; [apply IH; [done|]|].
    + eapply holds_perm; [|exact H1]. unfold block_cells. simpl. rewrite bind_app. simpl.
      solve_Permutation.
    + rewrite length_app. simpl. intros ? ? ?. by rewrite <-Nat.add_assoc.
Qed.

(** *** The calls that answer with sessions

    [b] is the block given to the caller, of [n] sessions; [lost] are sessions
    whose strings nothing points to any more. *)
Definition blocks_left (b : option oblock) (n : nat) (o : ostore) (lost : list osession)
    (h : heap) : Prop :=
  (∀ b', b = Some b' → length b'.2 = n) ∧ (calm → lost = []) ∧ store_ok o ∧
  holds h (store_cells o ++ answer_cells b ++ (lost ≫= owned) ++ F).

Definition get_left (out : bool) (r : Z * option h_block * h_store)
    (r' : Z * option (option OpenDBSC_Session) * OpenDBSC_MemoryStore) (h : heap) : Prop :=
  ∃ rc b o lost, r = (rc, bptrs <$> b, sptrs o) ∧
    r' = (rc, (if out then Some (b ≫= answer_one) else None), svals o) ∧
    (rc ≠ 0 → b = None) ∧ blocks_left b 1 o lost h.

Definition get_by_user_left (out count : bool) (r : Z * option h_block * nat * h_store)
    (r' : Z * option (list OpenDBSC_Session) * option nat * OpenDBSC_MemoryStore)
    (h : heap) : Prop :=
  ∃ rc b n o, r = (rc, bptrs <$> b, n, sptrs o) ∧
    r' = (rc, (if out then Some (default [] (answer_all <$> b)) else None),
          (if count then Some n else None), svals o) ∧
    blocks_left b n o [] h.

Lemma nothing_left n o h :
  store_ok o → holds h (store_cells o ++ F) → blocks_left None n o [] h.
Proof. intros Ho Hh. by refine (conj _ (conj _ (conj Ho Hh))). Qed.

Lemma get_refused o h (out : bool) :
  store_ok o → holds h (store_cells o ++ F) →
  hsim calm (mret (-1, None, sptrs o))
    (mret (-1, (if out then Some None else None), svals o)) h (get_left out).
Proof.
  intros ??. apply hsim_ret. exists (-1), None, o, [].
  split_and!; [done|done|done|by apply nothing_left].
Qed.

Lemma get_unlocked o h :
  store_ok o → holds h (store_cells o ++ F) →
  hsim calm (ms ← h_unlock (sptrs o); mret (-1, None, ms))
    (mret (-1, Some None, unlock (svals o))) h (get_left true).
Proof.
  intros Ho Hh. eapply hsim_heap; [by eapply unlock_run|].
  by apply (get_refused (h_with_mutex false o) h true).
Qed.

(** The copy that [get] answers with; its strings are lost when it fails. *)
Lemma hsim_get_copy o h s :
  store_ok o → holds h (store_cells o ++ F) → owned s ⊆ store_cells o ++ F →
  hsim calm
    (copy ← h_malloc;
     match copy with
     | None => ms ← h_unlock (sptrs o); mret (-1, None, ms)
     | Some p =>
         '(rc, c) ← h_session_copy (h_session_init (Some h_default)) (Some (ptrs s));
         c ← h_deref c;
         if negb (rc =? 0) then
           h_free copy;;
           ms ← h_unlock (sptrs o);
           mret (-1, None, ms)
         else
           ms ← h_unlock (sptrs o);
           mret (0, Some (p, [c]), ms)
     end)
    (copy ← malloc;
     if negb copy then mret (-1, Some None, unlock (svals o)) else
     '(rc, copy) ← opendbsc_session_copy (opendbsc_session_init (Some session_default))
                     (Some (vals s));
     if negb (rc =? 0) then mret (-1, Some None, unlock (svals o)) else
     mret (0, Some copy, unlock (svals o))) h (get_left true).
Proof.
  intros Ho Hh Hs.
  eapply (hsim_bind _ _ _ _ _ (λ p ok h', ok = bool_decide (p ≠ None) ∧
    holds h' (mem_cells p ++ store_cells o ++ F))).
  { eapply hsim_malloc; [exact Hh| |]; [intros p h1 H1|intros ?]; by split. }
  intros p ok h1 [-> H1]. destruct p as [p|]; [|by apply get_unlocked].
  rewrite bool_decide_true by done. simpl. simpl in H1.
  eapply hsim_bind; [apply (hsim_session_copy calm h1 h_default s _ H1); set_solver|].
  intros ? ? h2 (rc & c & -> & -> & Hrc & H2).
  eapply hsim_heap; [apply heap_run_ret|]. destruct (Z.eqb_spec rc 0) as [->|Hne]; simpl.
  - assert (holds h2 (store_cells o ++ block_cells (p, [c]) ++ F)) as H3.
    { eapply holds_perm; [|exact H2]. unfold block_cells. simpl. solve_Permutation. }
    eapply hsim_heap; [by eapply unlock_run|]. apply hsim_ret.
    exists 0, (Some (p, [c])), (h_with_mutex false o), [].
    unfold blocks_left. split_and!; [done|done|done|by intros ? [= <-]|done|done|exact H3].
  - assert (holds h2 ((p, Mem) :: store_cells o ++ owned c ++ F)) as H3.
    { eapply holds_perm; [|exact H2]. solve_Permutation. }
    destruct (free_run _ _ _ _ H3) as (h3 & H4 & R4). eapply hsim_heap; [exact R4|].
    eapply hsim_heap; [by eapply unlock_run|]. apply hsim_ret.
    exists (-1), None, (h_with_mutex false o), [c]. split_and!; [done|done|done|].
    split_and!; [done|intros Hc; by destruct Hne; apply Hrc|done|]. simpl.
    by rewrite app_nil_r.
Qed.

Lemma hsim_get o h id (out : bool) :
  store_ok o → holds h (store_cells o ++ F) → str_cells id ⊆ F →
  hsim calm (h_get_impl (sptrs o) (fst <$> id) out)
    (opendbsc_memory_store_get_impl (svals o) (snd <$> id) (if out then Some None else None)) h
    (get_left out).
Proof.
  intros Ho Hh Hid. unfold h_get_impl, opendbsc_memory_store_get_impl.
  destruct out; [|by apply (get_refused _ _ false)]. simpl negb. cbv iota.
  destruct id as [[q id]|]; [|by apply (get_refused _ _ true)].
  apply hsim_lock; [done..|]. clear o Ho Hh. intros o Ho Hh.
  eapply hsim_heap; [by eapply (find_run _ _ _ (Some (q, id)) Ho Hh)|].
  change (snd <$> Some (q, id)) with (Some id).
  generalize (memory_store_find (svals o) (Some id)). intros idx.
  destruct (_ <? 0); [by apply get_unlocked|].
  destruct (hs_slots o !! Z.to_nat idx) as [s|] eqn:Hs; [|apply (hsim_ext _ _ ub);
    [intros w; by rewrite svals_lookup, Hs|apply hsim_ub]].
  eapply hsim_heap; [by eapply slot_run|]. rewrite svals_lookup, Hs.
  eapply hsim_value; [done|].
  eapply hsim_bind; [apply hsim_expired|]. intros a e ? [-> ->]. destruct e.
  - eapply hsim_bind; [by eapply hsim_remove|]. intros ? ? h1 (o1 & -> & -> & ? & ?).
    by apply get_unlocked.
  - apply hsim_get_copy; [done..|]. by eapply slot_in.
Qed.

Lemma get_by_user_unlocked (rc : Z) o h :
  store_ok o → holds h (store_cells o ++ F) →
  hsim calm (ms ← h_unlock (sptrs o); mret (rc, None, 0%nat, ms))
    (mret (rc, Some [], Some 0%nat, unlock (svals o))) h (get_by_user_left true true).
Proof.
  intros Ho Hh. eapply hsim_heap; [by eapply unlock_run|]. apply hsim_ret.
  exists rc, None, 0%nat, (h_with_mutex false o). by split_and!; [| |apply nothing_left].
Qed.

Lemma hsim_get_by_user o h u (out count : bool) :
  store_ok o → holds h (store_cells o ++ F) → str_cells u ⊆ F →
  hsim calm (h_get_by_user_id_impl (sptrs o) (fst <$> u) out count)
    (opendbsc_memory_store_get_by_user_id_impl (svals o) (snd <$> u)
       (if out then Some [] else None) (if count then Some 0%nat else None)) h
    (get_by_user_left out count).
Proof.
  intros Ho Hh Hu. unfold opendbsc_memory_store_get_by_user_id_impl.
  assert (hsim calm (mret (-1, None, 0%nat, sptrs o))
    (mret (-1, (if out then Some [] else None), (if count then Some 0%nat else None), svals o)) h
    (get_by_user_left out count)) as Href.
  { apply hsim_ret. exists (-1), None, 0%nat, o. by split_and!; [| |apply nothing_left]. }
  destruct out, count, u as [[q u]|]; try exact Href. clear Href. simpl.
  apply hsim_lock; [done..|]. clear o Ho Hh. intros o Ho Hh.
  eapply hsim_bind; [by apply hsim_expire|].
  clear o h Ho Hh. intros ? ? h (o & -> & -> & Ho & Hh).
  assert ((q, Str u) ∈ store_cells o ++ F) as Hq.
  { apply elem_of_app. right. apply Hu. by left. }
  assert (in_array (hs_array o) (hs_slots o) (store_cells o ++ F)) as Hin.
  { split; [|apply slots_in_store]. intros Hn. destruct (hs_array o) as [a|] eqn:E.
    - exists a. split; [done|]. unfold store_cells. rewrite E. simpl. set_solver.
    - by destruct (Ho E). }
  eapply hsim_heap; [by apply (count_run _ [] _ _ _ u _ Hh)|]. simpl.
  fold (of_user_val u (hs_slots o)).
  destruct (decide (of_user_val u (hs_slots o) = 0%nat)); [by apply get_by_user_unlocked|].
  eapply (hsim_bind _ _ _ _ _ (λ p ok h', ok = bool_decide (p ≠ None) ∧
    holds h' (mem_cells p ++ store_cells o ++ F))).
  { eapply hsim_malloc; [exact Hh| |]; [intros p h1 H1|intros ?]; by split. }
  intros p ok h1 [-> H1]. destruct p as [p|]; [|by apply get_by_user_unlocked].
  rewrite bool_decide_true by done. simpl.
  eapply hsim_bind; [by apply (hsim_copy_matches _ q u p _ _ [])|].
  intros ? ? h2 [(-> & -> & H2)|(l & -> & -> & Hlen & H2)].
  - eapply hsim_heap; [by eapply unlock_run|]. apply hsim_ret.
    exists (-1), None, 0%nat, (h_with_mutex false o). by split_and!; [| |apply nothing_left].
  - assert (holds h2 (store_cells o ++ block_cells (p, l) ++ F)) as H3.
    { eapply holds_perm; [|exact H2]. solve_Permutation. }
    eapply hsim_heap; [by eapply unlock_run|]. apply hsim_ret.
    exists 0, (Some (p, l)), (of_user_val u (hs_slots o)), (h_with_mutex false o).
    unfold blocks_left. split_and!; [done|done|by intros ? [= <-]|done|done|exact H3].
Qed.

End store_sims.

(** ** Programs *)

(** The blocks of the caller that a call reads. *)
Definition op_cells (op : op_of (ptr * string)) : cells :=
  match op with
  | HCreate s | HUpdate s => given s
  | HGet f _ | HDelete f | HGetByUser f _ _ | HDeleteByUser f => str_cells f
  end.

(** The call as the code receives it, and as a call on values. *)
Definition op_ptrs (op : op_of (ptr * string)) : op_of ptr :=
  match op with
  | HCreate s => HCreate (ptrs <$> s)
  | HGet id out => HGet (fst <$> id) out
  | HUpdate s => HUpdate (ptrs <$> s)
  | HDelete id => HDelete (fst <$> id)
  | HGetByUser u out count => HGetByUser (fst <$> u) out count
  | HDeleteByUser u => HDeleteByUser (fst <$> u)
  end.

Definition op_vals (op : op_of (ptr * string)) : store_op :=
  match op with
  | HCreate s => OpCreate (vals <$> s)
  | HGet id out => OpGet (snd <$> id) (if out then Some None else None)
  | HUpdate s => OpUpdate (vals <$> s)
  | HDelete id => OpDelete (snd <$> id)
  | HGetByUser u out count =>
      OpGetByUser (snd <$> u) (if out then Some [] else None) (if count then Some 0%nat else None)
  | HDeleteByUser u => OpDeleteByUser (snd <$> u)
  end.

(** The reply on values when the code is [rc] and the caller got [n] sessions
    in the block [b]. *)
Definition reply_vals (op : op_of (ptr * string)) (rc : Z) (b : option oblock) (n : nat)
    : store_reply :=
  match op with
  | HGet _ out => RSession rc (if out then Some (b ≫= answer_one) else None)
  | HGetByUser _ out count =>
      RSessions rc (if out then Some (default [] (answer_all <$> b)) else None)
        (if count then Some n else None)
  | _ => RCode rc
  end.

Definition reply_code (r : store_reply) : Z :=
  match r with RCode rc | RSession rc _ | RSessions rc _ _ => rc end.

Lemma reply_code_vals op rc b n : reply_code (reply_vals op rc b n) = rc.
Proof. by destruct op. Qed.

Definition exec_left (calm : Prop) (F : cells) (op : op_of (ptr * string))
    (r : Z * option h_block * nat * h_store) (r' : store_reply * OpenDBSC_MemoryStore)
    (h : heap) : Prop :=
  ∃ rc b n o lost, r = (rc, bptrs <$> b, n, sptrs o) ∧
    r' = (reply_vals op rc b n, svals o) ∧ blocks_left calm F b n o lost h.

Lemma hsim_code calm F op h (m : HC (Z * h_store)) (m' : C (Z * OpenDBSC_MemoryStore)) :
  (∀ rc, reply_vals op rc None 0 = RCode rc) → hsim calm m m' h (call_left F) →
  hsim calm ('(rc, ms) ← m; mret (rc, None, 0%nat, ms)) ('(rc, st) ← m'; mret (RCode rc, st)) h
    (exec_left calm F op).
Proof.
  intros Hop Hm. eapply hsim_bind; [exact Hm|]. intros ? ? h1 (rc & o1 & -> & -> & ? & ?).
  apply hsim_ret. exists rc, None, 0%nat, o1, [].
  split_and!; [done|by rewrite Hop|by apply nothing_left].
Qed.

(** A call over the heap answers what it answers on values; it leaves the
    blocks of the store, the block it gives to the caller with the strings
    of its sessions, and those of the caller. *)
Lemma hsim_exec_op calm F op o h :
  store_ok o → holds h (store_cells o ++ F) → op_cells op ⊆ F →
  hsim calm (h_exec_op (op_ptrs op) (sptrs o)) (exec_op (op_vals op) (svals o)) h
    (exec_left calm F op).
Proof.
  intros Ho Hh Hop. destruct op; simpl.
  - apply hsim_code; [done..|]. by apply hsim_create.
  - eapply hsim_bind; [by apply hsim_get|]. intros ? ? h1 (rc & b & o1 & lost & -> & -> & _ & Hl).
    apply hsim_ret. by exists rc, b, 1%nat, o1, lost.
  - apply hsim_code; [done..|]. by apply hsim_update.
  - apply hsim_code; [done..|]. by apply hsim_delete.
  - eapply hsim_bind; [by apply hsim_get_by_user|].
    intros ? ? h1 (rc & b & n & o1 & -> & -> & Hl).
    apply hsim_ret. by exists rc, b, n, o1, [].
  - apply hsim_code; [done..|]. by apply hsim_delete_by_user.
Qed.

(** Giving the answer back. *)
Lemma give_back_run h b n G :
  (∀ b', b = Some b' → length b'.2 = n) → holds h (answer_cells b ++ G) →
  ∃ h', holds h' G ∧ heap_run (h_free_sessions_impl (bptrs <$> b) n) h tt h'.
Proof.
  intros Hn Hh. destruct b as [b|]; [|by exists h]. rewrite <-(Hn b eq_refl).
  by apply free_block_run.
Qed.

(** What is left of the caller's [F] when the store is in use. *)
Definition programs_left (calm : Prop) (F : cells) (r : list Z * h_store)
    (r' : list store_reply * OpenDBSC_MemoryStore) (h : heap) : Prop :=
  ∃ o lost, r.1 = reply_code <$> r'.1 ∧ r.2 = sptrs o ∧ r'.2 = svals o ∧
    blocks_left calm F None 0 o lost h.

Lemma hsim_exec_ops calm F ops o h :
  store_ok o → holds h (store_cells o ++ F) → Forall (λ op, op_cells op ⊆ F) ops →
  hsim calm (h_exec_ops (op_ptrs <$> ops) (sptrs o)) (exec_ops (op_vals <$> ops) (svals o)) h
    (programs_left calm F).
Proof.
  intros Ho Hh Hops. revert o h F Ho Hh Hops.
  induction ops as [|op ops IH]; intros o h F Ho Hh Hops.
  { apply hsim_ret. exists o, []. split_and!; [done..|by apply nothing_left]. }
  apply Forall_cons in Hops as [Hop Hops].
  eapply hsim_bind; [by apply hsim_exec_op|]. clear o h Ho Hh.
  intros ? ? h (rc & b & n & o & lost & -> & -> & Hn & Hlost & Ho & Hh).
  assert (holds h (answer_cells b ++ store_cells o ++ (lost ≫= owned) ++ F)) as Hh'.
  { eapply holds_perm; [|exact Hh]. solve_Permutation. }
  destruct (give_back_run _ _ _ _ Hn Hh') as (h1 & H1 & R1). eapply hsim_heap; [exact R1|].
  eapply hsim_bind; [apply (IH _ _ ((lost ≫= owned) ++ F) Ho H1)|].
  { eapply Forall_impl; [exact Hops|]. simpl. set_solver. }
  intros [rcs ms] [rs vs] h2 (o2 & lost2 & H1' & H2' & H3' & _ & Hlost2 & Ho2 & H2). simpl in *.
  subst. apply hsim_ret. exists o2, (lost2 ++ lost). simpl. rewrite reply_code_vals.
  split_and!; [done..|]. refine (conj _ (conj _ (conj Ho2 _))); [done| |].
  - intros Hc. by rewrite (Hlost Hc), (Hlost2 Hc).
  - simpl in H2. rewrite bind_app, <-(assoc_L (++)). exact H2.
Qed.

(** [destroy] frees the strings, the array, the store object and its table. *)
Lemma hsim_destroy calm F o h :
  store_ok o → holds h (store_cells o ++ F) →
  hsim calm (h_destroy_impl (Some (sptrs o))) (opendbsc_memory_store_destroy_impl (Some (svals o)))
    h (λ _ _ h', holds h' F).
Proof.
  intros Ho Hh. eapply hsim_lock; [done..|]. clear o Ho Hh. intros o Ho Hh.
  assert (holds h ((hs_slots o ≫= owned) ++ mem_cells (hs_array o) ++
    (hs_self o, Mem) :: mem_cells (hs_table o) ++ F)) as H1.
  { eapply holds_perm; [|exact Hh]. unfold store_cells. solve_Permutation. }
  assert (∃ h', holds h' (mem_cells (hs_array o) ++
      (hs_self o, Mem) :: mem_cells (hs_table o) ++ F) ∧
    heap_run (h_free_all (hs_array o) (ptrs <$> hs_slots o) (length (hs_slots o))) h tt h')
    as (h2 & H2 & R2).
  { destruct (hs_array o) as [a|] eqn:E; [apply free_all_run; [by left|exact H1]|].
    destruct (Ho E) as [Hs _]. rewrite Hs in H1 |- *. by exists h. }
  rewrite sptrs_count. eapply hsim_heap; [exact R2|].
  destruct (free_mem_run _ _ _ H2) as (h3 & H3 & R3). eapply hsim_heap; [exact R3|].
  assert (heap_run (h_live (Some (hs_self o))) h3 tt h3) as R4
    by (apply (live_run _ _ _ Mem H3); by left).
  eapply hsim_heap; [eapply heap_run_bind; [exact R4|apply heap_run_ret]|].
  eapply hsim_heap; [exact R4|].
  destruct (free_run _ _ _ _ H3) as (h5 & H5 & R5). eapply hsim_heap; [exact R5|].
  destruct (free_mem_run _ _ _ H5) as (h6 & H6 & R6). by eapply hsim_last.
Qed.

Lemma hsim_store_create calm F h :
  holds h F →
  hsim calm h_store_create opendbsc_memory_store_create h (λ r r' h',
    match r, r' with
    | Some ms, Some vs => store_left F ms vs h'
    | None, None => ¬ calm ∧ holds h' F
    | _, _ => False
    end).
Proof.
  intros Hh. unfold h_store_create, opendbsc_memory_store_create.
  set (made h0 G := λ (p : option ptr) (ok : bool) (h' : heap),
    ok = bool_decide (p ≠ None) ∧ (p = None → ¬ calm ∧ h' = h0) ∧ holds h' (mem_cells p ++ G)).
  assert (∀ h0 G, holds h0 G → hsim calm h_malloc malloc h0 (made h0 G)) as Hmade.
  { intros h0 G HG. eapply hsim_malloc; [exact HG|by intros p h1 H1|by intros ?]. }
  eapply hsim_bind; [apply Hmade, Hh|]. intros p ok h1 (-> & Hp & H1).
  destruct p as [p|]; [|apply hsim_ret; by destruct (Hp eq_refl)].
  rewrite bool_decide_true by done. simpl in H1 |- *.
  destruct (free_run _ _ _ _ H1) as (h2 & H2 & R2).
  eapply hsim_bind; [apply (hsim_lift_malloc _ _ (λ a b h', a = b ∧ h' = h1 ∧ (b = false → ¬ calm)));
    [done|by intros ?]|].
  intros ? ok ? (-> & -> & Hok). destruct ok; simpl.
  - eapply hsim_bind; [apply Hmade, H1|]. intros q ok h3 (-> & Hq & H3).
    destruct q as [q|]; [|destruct (Hq eq_refl) as [? ->]].
    + rewrite bool_decide_true by done. apply hsim_ret.
      exists (StoreOf p None [] 0 false (Some q)). split_and!; [done|done|done|].
      eapply holds_perm; [|exact H3]. unfold store_cells. simpl. solve_Permutation.
    + eapply hsim_heap; [exact R2|]. apply hsim_ret. done.
  - eapply hsim_heap; [exact R2|]. apply hsim_ret. auto.
Qed.

(** The return codes of a program. *)
Definition codes (v : option (list store_reply * OpenDBSC_MemoryStore)) : option (list Z) :=
  match v with Some (rs, _) => Some (reply_code <$> rs) | None => None end.

Lemma hsim_lifecycle calm F ops h :
  holds h F → Forall (λ op, op_cells op ⊆ F) ops →
  hsim calm (h_lifecycle (op_ptrs <$> ops)) (store_lifecycle (op_vals <$> ops)) h
    (λ r v h', r = codes v ∧
       ∃ lost, (calm → lost = []) ∧ holds h' ((lost ≫= owned) ++ F)).
Proof.
  intros Hh Hops. unfold h_lifecycle, store_lifecycle.
  eapply hsim_bind; [by apply hsim_store_create|]. intros [ms|] [vs|] h1 Hms; try done.
  - destruct Hms as (o & -> & -> & Ho & H1). eapply hsim_bind; [by apply hsim_exec_ops|].
    intros [rcs ms] [rs vs] h2 (o2 & lost & E1 & E2 & E3 & _ & Hlost & Ho2 & H2).
    simpl in *. subst.
    eapply hsim_bind; [by apply (hsim_destroy _ ((lost ≫= owned) ++ F))|]. intros ? ? h3 H3.
    apply hsim_ret. split; [done|]. by exists lost.
  - destruct Hms as [_ H1]. apply hsim_ret. split; [done|]. by exists [].
Qed.

(** ** Properties *)

(** C7. No leak, no double free, no use after free.  A program creates an
    in-memory store, makes any calls on it with sessions and strings of its
    own (in [F]), gives every answer back with [free_sessions], and destroys
    the store.  Over a heap where using or freeing a freed block is undefined,
    it runs to the end in any environment, with the answers of the definitions
    on values; the blocks of [F] are untouched, and when no allocation fails
    the heap is what it was.  When one fails, what is left beside [F] are the
    strings of copies that [get] lost. *)
Theorem memory_store_frees_everything (ops : list (op_of (ptr * string))) (F : cells)
    (h : heap) (w : world) :
  holds h F → Forall (λ op, op_cells op ⊆ F) ops → Z.of_nat (length ops) < 2 ^ 31 - 1 →
  ∃ r v h' w' lost,
    store_lifecycle (op_vals <$> ops) w = Ret v w' ∧
    h_lifecycle (op_ptrs <$> ops) h w = Ret (r, h') w' ∧
    r = codes v ∧
    holds h' ((lost ≫= owned) ++ F) ∧
    (no_oom w → lost = [] ∧ blocks h' = blocks h).
Proof.
  intros Hh Hops Hlen.
  destruct (wp_elim _ _ _ (memory_store_lifecycle_safe (op_vals <$> ops) w
    ltac:(by rewrite length_fmap))) as (v & w' & Hrun & _).
  destruct (hsim_lifecycle (no_oom w) F ops h Hh Hops w v w' id Hrun)
    as (_ & r & h' & Hrun' & Hr & lost & Hlost & H').
  exists r, v, h', w', lost. split_and!; [done..|]. intros Hw.
  split; [by apply Hlost|]. rewrite (Hlost Hw) in H'.
  by rewrite (holds_blocks _ _ H'), (holds_blocks _ _ Hh).
Qed.

(** ** Witnesses *)

(** The caller's session "a" of "alice" and its blocks. *)
Definition demo_osession : osession :=
  SessionOf (Some (1%positive, "a")) (Some (2%positive, "alice")) OPENDBSC_SESSION_STATE_ACTIVE
    None None (Some (3%positive, "c")) 0 false 100.

Definition demo_heap : heap := Heap (list_to_map (owned demo_osession)) 4.

Lemma demo_heap_holds : holds demo_heap (owned demo_osession).
Proof.
  split; [apply (bool_decide_unpack _); vm_compute; exact I|done|].
  repeat constructor.
Qed.

Definition demo_ops : list (op_of (ptr * string)) :=
  [HCreate (Some demo_osession); HGet (h_id demo_osession) true;
   HGetByUser (h_user_id demo_osession) true true; HUpdate (Some demo_osession);
   HDelete (h_id demo_osession)].

Lemma demo_ops_own : Forall (λ op, op_cells op ⊆ owned demo_osession) demo_ops.
Proof. repeat (apply Forall_cons; split; [unfold owned; simpl; set_solver|]). constructor. Qed.

Lemma memory_store_frees_everything_witness :
  holds demo_heap (owned demo_osession) ∧
  Forall (λ op, op_cells op ⊆ owned demo_osession) demo_ops ∧
  Z.of_nat (length demo_ops) < 2 ^ 31 - 1 ∧
  ∃ r v h' w' lost,
    store_lifecycle (op_vals <$> demo_ops) (fair_world 1000) = Ret v w' ∧
    h_lifecycle (op_ptrs <$> demo_ops) demo_heap (fair_world 1000) = Ret (r, h') w' ∧
    r = codes v ∧ holds h' ((lost ≫= owned) ++ owned demo_osession) ∧
    (no_oom (fair_world 1000) → lost = [] ∧ blocks h' = blocks demo_heap).
Proof.
  split; [apply demo_heap_holds|]. split; [apply demo_ops_own|]. split; [reflexivity|].
  apply memory_store_frees_everything;
    [apply demo_heap_holds|apply demo_ops_own|reflexivity].
Defined.

(** The leak.  The store holds the session and [get] is called when the
    second duplication of the copy fails: it frees the struct it allocated and
    not the identifier it had already copied, which nothing points to any more
    when the store has been destroyed. *)
Lemma get_failure_leaks :
  ∃ h' w',
    h_lifecycle (op_ptrs <$> [HCreate (Some demo_osession); HGet (h_id demo_osession) true])
      demo_heap (World (replicate 9 true ++ [false]) 1000 [] [] [] []) = Ret (Some [0; -1], h') w'
    ∧ size (blocks h') = S (size (blocks demo_heap)).
Proof. do 2 eexists. split; vm_compute; reflexivity. Qed.
