(* ===== verification/Sql.v ===== *)
(** What the two SQL backends share: the rows of the sessions table, the six
    statements they prepare with their SQL meaning, the form of a session as
    a row, and the proof that a backend whose calls act on the table as those
    statements say keeps the promise of [Store.v]. *)

From S2P Require Export Rfc3339 Store.
From stdpp Require Import options.
#[local] Open Scope Z_scope.

(** ** The table

    The columns that are declared [NOT NULL] are strings, the others may be
    SQL [NULL]; the primary key indexes the table. *)
Record srow := Row {
  col_id : string;
  col_user_id : string;
  col_state : string;
  col_public_key : cstr;
  col_algorithm : cstr;
  col_challenge : cstr;
  col_expires_at : cstr;
  col_created_at : string
}.

Abbreviation table := (gmap string srow).

Definition columns (r : srow) : list cstr :=
  [Some (col_id r); Some (col_user_id r); Some (col_state r); col_public_key r; col_algorithm r;
   col_challenge r; col_expires_at r; Some (col_created_at r)].

(** ** The statements *)

Inductive statement := Insert | SelectId | SelectUser | Update | DeleteId | DeleteUser.

Definition statement_text (tbl : string) (s : statement) : string :=
  match s with
  | Insert => "INSERT INTO " +:+ tbl +:+
      " (id, user_id, state, public_key, algorithm, challenge, expires_at, created_at) VALUES (?, ?, ?, ?, ?, ?, ?, ?)"
  | SelectId =>
      "SELECT id, user_id, state, public_key, algorithm, challenge, expires_at, created_at FROM "
      +:+ tbl +:+ " WHERE id = ?"
  | SelectUser =>
      "SELECT id, user_id, state, public_key, algorithm, challenge, expires_at, created_at FROM "
      +:+ tbl +:+ " WHERE user_id = ?"
  | Update => "UPDATE " +:+ tbl +:+
      " SET user_id = ?, state = ?, public_key = ?, algorithm = ?, challenge = ?, expires_at = ? WHERE id = ?"
  | DeleteId => "DELETE FROM " +:+ tbl +:+ " WHERE id = ?"
  | DeleteUser => "DELETE FROM " +:+ tbl +:+ " WHERE user_id = ?"
  end.

Definition statement_params (s : statement) : nat :=
  match s with Insert => 8 | Update => 7 | _ => 1 end.

(** The columns its parameters are stored in or compared with, by their place
    in the table. *)
Definition statement_columns (s : statement) : list nat :=
  match s with
  | Insert => seq 0 8
  | Update => [1; 2; 3; 4; 5; 6; 0]%nat
  | SelectId | DeleteId => [0%nat]
  | SelectUser | DeleteUser => [1%nat]
  end.

(** Parameters whose texts a database takes as they are, by what it takes for
    each column. *)
Definition texts_taken (takes : nat → string → Prop) (cols : list nat) (texts : list cstr) : Prop :=
  Forall2 (λ c v, from_option (takes c) True v) cols texts.
Definition row_taken (takes : nat → string → Prop) (r : srow) : Prop :=
  texts_taken takes (seq 0 8) (columns r).

(** The effect of executing a statement: the rows it returns, in any order,
    the table afterwards and the number of rows it changed; or a violated
    constraint, which changes nothing. *)
Inductive sql_effect :=
| Done (rows : list srow) (t : table) (n : Z)
| Rejected
| Unspecified.

Definition of_user_row (u : string) (r : srow) : bool := bool_decide (col_user_id r = u).

Definition statement_meaning (s : statement) (params : list cstr) (t : table) : sql_effect :=
  match s, params with
  | Insert, [Some id; user_id; state; key; algorithm; challenge; expires_at; created_at] =>
      match t !! id, user_id, state, created_at with
      | None, Some u, Some st, Some c =>
          Done [] (<[id := Row id u st key algorithm challenge expires_at c]> t) 1
      | _, _, _, _ => Rejected
      end
  | SelectId, [Some id] => Done (option_list (t !! id)) t 0
  | SelectUser, [Some u] =>
      Done (map_to_list (filter (λ p, of_user_row u p.2 = true) t)).*2 t 0
  | Update, [user_id; state; key; algorithm; challenge; expires_at; Some id] =>
      match t !! id with
      | None => Done [] t 0
      | Some r =>
          match user_id, state with
          | Some u, Some st =>
              Done [] (<[id := Row (col_id r) u st key algorithm challenge expires_at
                                   (col_created_at r)]> t) 1
          | _, _ => Rejected
          end
      end
  | DeleteId, [Some id] =>
      Done [] (delete id t) (if decide (t !! id = None) then 0 else 1)
  | DeleteUser, [Some u] =>
      Done [] (filter (λ p, of_user_row u p.2 = false) t)
        (Z.of_nat (size (filter (λ p, of_user_row u p.2 = true) t)))
  | _, _ => Unspecified
  end.

(** The parameters after the values [texts] are bound from position [i] on. *)
Fixpoint bound_from (i : nat) (texts params : list cstr) : list cstr :=
  match texts with
  | [] => params
  | v :: texts' => bound_from (S i) texts' (<[i := v]> params)
  end.

(** ** The code the two backends share

    Each of the two source files has its own copy of these.  A time that is
    one second before the epoch is taken for an error of [timegm]. *)

Definition format_rfc3339_utc (t : Z) (buf_size : nat) : option string :=
  bt ← gmtime_r t; strftime buf_size bt.

Definition parse_rfc3339_utc (s : string) : option Z :=
  '(bt, _) ← strptime s;
  if decide (timegm bt = -1) then None else Some (timegm bt).

(** A setter that must succeed, or the session is freed. *)
Definition set_or_free (f : option OpenDBSC_Session → C (Z * option OpenDBSC_Session))
    (k : OpenDBSC_Session → C (Z * OpenDBSC_Session)) (session : OpenDBSC_Session)
    : C (Z * OpenDBSC_Session) :=
  '(rc, session) ← on_local f session;
  if negb (rc =? 0) then
    session ← deref (opendbsc_session_free (Some session)); mret (-1, session)
  else k session.

(** The session filled from the columns of a row; on failure it is freed. *)
Definition fill_session
    (id user_id state public_key algorithm challenge expires_at created_at : cstr)
    (session : OpenDBSC_Session) : C (Z * OpenDBSC_Session) :=
  match id, user_id, state, created_at with
  | Some _, Some _, Some _, Some created_at =>
      session ← deref (opendbsc_session_init (Some session));
      set_or_free (λ p, opendbsc_session_set_id p id) (
      set_or_free (λ p, opendbsc_session_set_user_id p user_id) (
      set_or_free (λ p, mret (opendbsc_session_set_state_str p state)) (
      set_or_free (λ p, opendbsc_session_set_public_key p public_key) (
      set_or_free (λ p, opendbsc_session_set_algorithm p algorithm) (
      set_or_free (λ p, opendbsc_session_set_challenge p challenge) (λ session,
        let finish session :=
          match parse_rfc3339_utc created_at with
          | None => session ← deref (opendbsc_session_free (Some session)); mret (-1, session)
          | Some created =>
              session ← deref (opendbsc_session_set_created_at (Some session) created);
              mret (0, session)
          end in
        match expires_at with
        | None => finish session
        | Some expires_at =>
            match parse_rfc3339_utc expires_at with
            | None => session ← deref (opendbsc_session_free (Some session)); mret (-1, session)
            | Some expires =>
                session ← deref (opendbsc_session_set_expires_at (Some session) expires);
                finish session
            end
        end)))))) session
  | _, _, _, _ => mret (-1, session)
  end.

(** ** A session as a row *)

Definition state_text (s : OpenDBSC_Session) : string :=
  match s_state s with
  | OPENDBSC_SESSION_STATE_BOUND => OPENDBSC_STATE_BOUND_STR
  | OPENDBSC_SESSION_STATE_ACTIVE => OPENDBSC_STATE_ACTIVE_STR
  end.

Definition state_of_text (s : string) : option OpenDBSC_SessionState :=
  if String.eqb s OPENDBSC_STATE_ACTIVE_STR then Some OPENDBSC_SESSION_STATE_ACTIVE
  else if String.eqb s OPENDBSC_STATE_BOUND_STR then Some OPENDBSC_SESSION_STATE_BOUND
  else None.

(** The column [expires_at]: SQL [NULL] when the session has no expiry. *)
Definition expires_column (s : OpenDBSC_Session) : option cstr :=
  if s_has_expires s then Some <$> format_rfc3339_utc (s_expires_at s) 32 else Some None.

Definition row_of_session (s : OpenDBSC_Session) : option srow :=
  id ← s_id s; u ← s_user_id s; e ← expires_column s; c ← format_rfc3339_utc (s_created_at s) 32;
  Some (Row id u (state_text s) (s_public_key s) (s_algorithm s) (s_challenge s) e c).

Definition expiry_of_column (c : cstr) : option (Z * bool) :=
  match c with
  | None => Some (0, false)
  | Some s => t ← parse_rfc3339_utc s; Some (t, bool_decide (t ≠ 0))
  end.

Definition session_of_row (r : srow) : option OpenDBSC_Session :=
  state ← state_of_text (col_state r);
  '(t, b) ← expiry_of_column (col_expires_at r);
  created ← parse_rfc3339_utc (col_created_at r);
  Some (Session (Some (col_id r)) (Some (col_user_id r)) state (col_public_key r)
          (col_algorithm r) (col_challenge r) t b created).

Lemma format_parse_rfc3339 t :
  time_ok t → ∃ s, format_rfc3339_utc t 32 = Some s ∧ parse_rfc3339_utc s = Some t.
Proof.
  intros Ht. destruct (rfc3339_roundtrip t Ht) as (bt & H1 & H2 & H3 & H4).
  exists (tm_text bt). unfold format_rfc3339_utc, parse_rfc3339_utc. rewrite H1. cbn. rewrite H3. cbn.
  rewrite H4. destruct Ht. rewrite decide_False by lia. done.
Qed.

Lemma state_roundtrip s : state_of_text (state_text s) = Some (s_state s).
Proof. unfold state_text. by destruct (s_state s). Qed.

(** A session that can be stored has a row, and its row gives it back. *)
Lemma row_roundtrip s :
  storable s → ∃ r, row_of_session s = Some r ∧ session_of_row r = Some s.
Proof.
  intros [Hid Hu Hc He]. destruct s as [[id|] [u|] st k a c e he cr]; try done; simpl in *.
  destruct (format_parse_rfc3339 cr Hc) as (tc & Hf & Hp).
  unfold row_of_session, expires_column. simpl. rewrite Hf. destruct he.
  - destruct He as [He Hne]. destruct (format_parse_rfc3339 e He) as (te & Hfe & Hpe).
    rewrite Hfe. eexists. split; [done|]. unfold session_of_row. simpl.
    rewrite state_roundtrip, Hp, Hpe. simpl. by rewrite bool_decide_true.
  - eexists. split; [done|]. unfold session_of_row. simpl. subst e.
    rewrite state_roundtrip, Hp. done.
Qed.

Record row_fields (s : OpenDBSC_Session) (r : srow) : Prop := {
  rf_id : s_id s = Some (col_id r);
  rf_user_id : s_user_id s = Some (col_user_id r);
  rf_state : opendbsc_session_state_str (Some s) = Some (col_state r);
  rf_public_key : s_public_key s = col_public_key r;
  rf_algorithm : s_algorithm s = col_algorithm r;
  rf_challenge : s_challenge s = col_challenge r;
  rf_expires_at : expires_column s = Some (col_expires_at r);
  rf_created_at : format_rfc3339_utc (s_created_at s) 32 = Some (col_created_at r)
}.

Lemma row_of_session_fields s r : row_of_session s = Some r → row_fields s r.
Proof.
  unfold row_of_session. destruct (s_id s) as [id|] eqn:?; [|done].
  destruct (s_user_id s) eqn:?; [|done]. destruct (expires_column s) eqn:?; [|done].
  destruct (format_rfc3339_utc _ _) eqn:?; [|done]. cbn. intros ?. simplify_eq.
  split; try done. unfold state_text. simpl. by destruct (s_state s).
Qed.

Lemma row_of_session_id s r : row_of_session s = Some r → s_id s = Some (col_id r).
Proof. intros H%row_of_session_fields. apply H. Qed.

Lemma session_of_row_ids r s :
  session_of_row r = Some s → s_id s = Some (col_id r) ∧ s_user_id s = Some (col_user_id r).
Proof.
  unfold session_of_row. destruct (state_of_text _); [|done]. cbn.
  destruct (expiry_of_column _) as [[t b]|]; [|done]. cbn.
  destruct (parse_rfc3339_utc _); [|done]. cbn. intros ?. by simplify_eq.
Qed.

Lemma set_or_free_run f k s s' w :
  f (Some s) w = Ret (0, Some s') w → set_or_free f k s w = k s' w.
Proof. intros Hf. unfold set_or_free, on_local. run_by ltac:(run_by ltac:(exact Hf); done). done. Qed.

Lemma set_or_free_fail f k s s' w :
  f (Some s) w = Ret (-1, Some s') w → set_or_free f k s w = Ret (-1, session_default) w.
Proof. intros Hf. unfold set_or_free, on_local. run_by ltac:(run_by ltac:(exact Hf); done). done. Qed.

Lemma set_state_run k s text w :
  set_or_free (λ p, mret (opendbsc_session_set_state_str p (Some text))) k s w =
  match state_of_text text with
  | Some st => k (with_state st s) w
  | None => Ret (-1, session_default) w
  end.
Proof.
  unfold state_of_text.
  destruct (String.eqb text OPENDBSC_STATE_ACTIVE_STR) eqn:E1;
    [|destruct (String.eqb text OPENDBSC_STATE_BOUND_STR) eqn:E2].
  1,2: apply set_or_free_run; simpl; by rewrite E1, ?E2.
  eapply set_or_free_fail. simpl. by rewrite E1, E2.
Qed.

(** The session of a row, or a freed one when the row cannot be read. *)
Lemma fill_session_run r s0 w :
  no_oom w →
  fill_session (Some (col_id r)) (Some (col_user_id r)) (Some (col_state r)) (col_public_key r)
    (col_algorithm r) (col_challenge r) (col_expires_at r) (Some (col_created_at r)) s0 w =
    Ret (match session_of_row r with Some s => (0, s) | None => (-1, session_default) end) w.
Proof.
  intros Hw. unfold fill_session. run_by ltac:(reflexivity).
  erewrite set_or_free_run by (by apply session_set_id_run).
  erewrite set_or_free_run by (by apply session_set_user_id_run).
  rewrite set_state_run. unfold session_of_row.
  destruct (state_of_text (col_state r)) as [st|]; [|done].
  erewrite set_or_free_run by (by apply session_set_public_key_run).
  erewrite set_or_free_run by (by apply session_set_algorithm_run).
  erewrite set_or_free_run by (by apply session_set_challenge_run).
  destruct (col_expires_at r) as [e|]; simpl.
  - destruct (parse_rfc3339_utc e) as [t|]; [|done]. run_by ltac:(reflexivity).
    by destruct (parse_rfc3339_utc (col_created_at r)).
  - by destruct (parse_rfc3339_utc (col_created_at r)).
Qed.

(** ** The table as a map of sessions *)

Definition table_view (t : table) : view := omap session_of_row t.

(** Every row holds a session, under its identifier. *)
Definition table_ok (t : table) : Prop :=
  map_Forall (λ id r, col_id r = id ∧ is_Some (session_of_row r)) t.

Lemma table_view_lookup t id s :
  table_view t !! id = Some s ↔ ∃ r, t !! id = Some r ∧ session_of_row r = Some s.
Proof.
  unfold table_view. rewrite lookup_omap. destruct (t !! id) as [r|]; cbn.
  - split; [by eauto|]. by intros (r' & [= <-] & ?).
  - split; [done|]. by intros (r' & ? & _).
Qed.

Lemma table_view_None t id : table_ok t → table_view t !! id = None ↔ t !! id = None.
Proof.
  intros Hok. unfold table_view. rewrite lookup_omap. destruct (t !! id) as [r|] eqn:E; [|done].
  destruct (Hok id r E) as [_ [s Hs]]. cbn. rewrite Hs. done.
Qed.

Lemma table_ok_insert t id r s :
  table_ok t → col_id r = id → session_of_row r = Some s → table_ok (<[id := r]> t).
Proof. intros Hok Hid Hs. apply map_Forall_insert_2; [by rewrite Hs|done]. Qed.

Lemma table_view_insert t id r s :
  session_of_row r = Some s → table_view (<[id := r]> t) = <[id := s]> (table_view t).
Proof.
  intros Hs. apply map_eq. intros i. unfold table_view. rewrite lookup_omap.
  destruct (decide (i = id)) as [->|]; [by rewrite !lookup_insert_eq|].
  by rewrite !lookup_insert_ne, lookup_omap by done.
Qed.

Lemma table_ok_delete t id : table_ok t → table_ok (delete id t).
Proof. apply map_Forall_delete. Qed.

Lemma table_view_delete t id : table_view (delete id t) = delete id (table_view t).
Proof.
  apply map_eq. intros i. unfold table_view. rewrite lookup_omap.
  destruct (decide (i = id)) as [->|]; [by rewrite !lookup_delete_eq|].
  by rewrite !lookup_delete_ne, lookup_omap by done.
Qed.

Lemma table_ok_filter (P : string * srow → Prop) `{∀ p, Decision (P p)} t :
  table_ok t → table_ok (filter P t).
Proof. intros Hok id r [Hr _]%map_lookup_filter_Some. by apply Hok. Qed.

Lemma table_view_filter_user t u :
  table_view (filter (λ p, of_user_row u p.2 = false) t) =
  filter (λ '(_, s), s_user_id s ≠ Some u) (table_view t).
Proof.
  apply map_eq. intros i. apply option_eq. intros s.
  rewrite table_view_lookup, map_lookup_filter_Some, table_view_lookup. split.
  - intros (r & [Hr Hu]%map_lookup_filter_Some & Hs). simpl in Hu. split; [by eauto|].
    apply session_of_row_ids in Hs as [_ ->]. apply bool_decide_eq_false in Hu. congruence.
  - intros [(r & Hr & Hs) Hu]. exists r. split; [|done]. apply map_lookup_filter_Some.
    split; [done|]. simpl. apply bool_decide_eq_false. intros E.
    apply session_of_row_ids in Hs as [_ Hs]. apply Hu. by rewrite Hs, E.
Qed.

(** ** A backend over the table

    [with_created]: an [UPDATE] does not write the column [created_at]. *)
Definition with_created (c : string) (r : srow) : srow :=
  Row (col_id r) (col_user_id r) (col_state r) (col_public_key r) (col_algorithm r)
    (col_challenge r) (col_expires_at r) c.

(** The sessions of user [u] in the rows [l], and those of them that are live. *)
Definition user_rows (u : string) (t : table) : list srow :=
  (map_to_list (filter (λ p, of_user_row u p.2 = true) t)).*2.
Definition live_sessions (now : Z) (l : list srow) : list OpenDBSC_Session :=
  filter (λ s, expired now s = false) (omap session_of_row l).

(** A row of [u] whose session has expired. *)
Definition dead_row (now : Z) (u : string) (r : srow) : bool :=
  of_user_row u r && match session_of_row r with Some s => expired now s | None => false end.

(** What the calls of a SQL backend do to the table when nothing fails;
    [sb_missing] is the code of a deletion that found no row, [sb_takes] the
    texts that the database takes as they are for a column. *)
Class SqlBackend (T : Type) `{Store T} := {
  sb_inv : T → Prop;
  sb_table : T → table;
  sb_missing : Z;
  sb_takes : nat → string → Prop;
  sb_create st s r w :
    quiet w → sb_inv st → row_of_session s = Some r → row_taken sb_takes r → sb_table st !! col_id r = None →
    ∃ st', st_create st (Some s) w = Ret (0, st') w ∧ sb_inv st' ∧
      sb_table st' = <[col_id r := r]> (sb_table st);
  sb_create_duplicate st s r w :
    quiet w → sb_inv st → row_of_session s = Some r → row_taken sb_takes r → is_Some (sb_table st !! col_id r) →
    ∃ st', st_create st (Some s) w = Ret (-1, st') w ∧ sb_inv st' ∧ sb_table st' = sb_table st;
  sb_get st id o w :
    quiet w → sb_inv st → sb_takes 0%nat id →
    ∃ st', sb_inv st' ∧
      match sb_table st !! id ≫= session_of_row with
      | Some s =>
          if expired (w_now w) s then
            st_get st (Some id) (Some o) w = Ret (-1, Some None, st') w ∧
            sb_table st' = delete id (sb_table st)
          else
            st_get st (Some id) (Some o) w = Ret (0, Some (Some s), st') w ∧
            sb_table st' = sb_table st
      | None =>
          st_get st (Some id) (Some o) w = Ret (-1, Some None, st') w ∧
          sb_table st' = sb_table st
      end;
  sb_update st s r old w :
    quiet w → sb_inv st → row_of_session s = Some r → row_taken sb_takes r → sb_table st !! col_id r = Some old →
    col_id old = col_id r →
    ∃ st', st_update st (Some s) w = Ret (0, st') w ∧ sb_inv st' ∧
      sb_table st' = <[col_id r := with_created (col_created_at old) r]> (sb_table st);
  sb_update_missing st s r w :
    quiet w → sb_inv st → row_of_session s = Some r → row_taken sb_takes r → sb_table st !! col_id r = None →
    ∃ st', st_update st (Some s) w = Ret (-1, st') w ∧ sb_inv st' ∧ sb_table st' = sb_table st;
  sb_delete st id w :
    quiet w → sb_inv st → sb_takes 0%nat id →
    ∃ st', st_delete st (Some id) w =
        Ret (if decide (sb_table st !! id = None) then sb_missing else 0, st') w ∧ sb_inv st' ∧
      sb_table st' = delete id (sb_table st);
  sb_get_by_user_id st u o n w :
    quiet w → sb_inv st → sb_takes 1%nat u → table_ok (sb_table st) →
    ∃ rows st', rows ≡ₚ user_rows u (sb_table st) ∧
      st_get_by_user_id st (Some u) (Some o) (Some n) w =
        Ret (0, Some (live_sessions (w_now w) rows),
             Some (length (live_sessions (w_now w) rows)), st') w ∧
      sb_inv st' ∧
      sb_table st' = filter (λ p, dead_row (w_now w) u p.2 = false) (sb_table st);
  sb_delete_by_user_id st u w :
    quiet w → sb_inv st → sb_takes 1%nat u →
    ∃ st', st_delete_by_user_id st (Some u) w =
        Ret (if decide (user_rows u (sb_table st) = []) then sb_missing else 0, st') w ∧ sb_inv st' ∧
      sb_table st' = filter (λ p, of_user_row u p.2 = false) (sb_table st);
  sb_no_session st s w :
    (∀ s', s = Some s' → s_id s' = None) →
    st_create st s w = Ret (-1, st) w ∧ st_update st s w = Ret (-1, st) w;
  sb_no_id st out w :
    st_get st None out w = Ret (-1, out, st) w ∧ st_delete st None w = Ret (-1, st) w ∧
    st_delete_by_user_id st None w = Ret (-1, st) w;
  sb_no_out st id w : st_get st id None w = Ret (-1, None, st) w;
  sb_no_sessions_out st u out n w :
    u = None ∨ out = None ∨ n = None →
    st_get_by_user_id st u out n w = Ret (-1, out, n, st) w
}.

(** A backend that takes any text. *)
Class SqlTakesAll (T : Type) `{SqlBackend T} := sb_takes_all c v : sb_takes c v.

Lemma texts_taken_all (takes : nat → string → Prop) cols texts :
  (∀ c v, takes c v) → length cols = length texts → texts_taken takes cols texts.
Proof.
  intros Ht Hl. apply Forall2_same_length_lookup_2; [done|]. intros i c [v|] _ _; [apply Ht|done].
Qed.

Lemma row_taken_all `{SqlTakesAll T} r : row_taken sb_takes r.
Proof. apply texts_taken_all; [apply sb_takes_all|done]. Qed.

(** What [update] binds, when the whole row is taken. *)
Lemma row_taken_update takes r :
  row_taken takes r →
  texts_taken takes (statement_columns Update)
    [Some (col_user_id r); Some (col_state r); col_public_key r; col_algorithm r;
     col_challenge r; col_expires_at r; Some (col_id r)].
Proof.
  unfold row_taken, texts_taken. cbn [seq columns statement_columns]. intros Hr.
  repeat (apply Forall2_cons in Hr as [? Hr]). by repeat constructor.
Qed.

Lemma user_rows_spec u t r :
  table_ok t → r ∈ user_rows u t ↔ t !! col_id r = Some r ∧ col_user_id r = u.
Proof.
  intros Hok. unfold user_rows. rewrite list_elem_of_fmap. split.
  - intros ([id r'] & -> & [Hr Hu]%elem_of_map_to_list%map_lookup_filter_Some). simpl in *.
    apply bool_decide_eq_true in Hu. by destruct (Hok _ _ Hr) as [<- _].
  - intros [Hr Hu]. exists (col_id r, r). split; [done|].
    apply elem_of_map_to_list, map_lookup_filter_Some. split; [done|].
    by apply bool_decide_eq_true.
Qed.

Lemma user_rows_empty u t :
  table_ok t → user_rows u t = [] ↔ ∀ id s, table_view t !! id = Some s → s_user_id s ≠ Some u.
Proof.
  intros Hok. split.
  - intros He id s (r & Hr & Hs)%table_view_lookup Hu. destruct (Hok _ _ Hr) as [<- _].
    apply session_of_row_ids in Hs as [_ Hs].
    assert (r ∈ user_rows u t) as Hin by (apply user_rows_spec; [done|]; split; congruence).
    rewrite He in Hin. by apply elem_of_nil in Hin.
  - intros Hn. destruct (user_rows u t) as [|r l] eqn:E; [done|].
    assert (r ∈ user_rows u t) as Hin by (rewrite E; by left).
    apply user_rows_spec in Hin as [Hr Hu]; [|done]. destruct (Hok _ _ Hr) as [_ [s Hs]].
    destruct (Hn (col_id r) s); [apply table_view_lookup; eauto|].
    apply session_of_row_ids in Hs as [_ ->]. by rewrite Hu.
Qed.

Lemma map_to_list_ids t : table_ok t → col_id <$> (map_to_list t).*2 = (map_to_list t).*1.
Proof.
  intros Hok. rewrite <-list_fmap_compose. apply list_fmap_ext. intros i [id r] Hi.
  apply list_elem_of_lookup_2, elem_of_map_to_list in Hi. by apply (Hok id r).
Qed.

Lemma user_rows_ids u t : table_ok t → NoDup (col_id <$> user_rows u t).
Proof.
  intros Hok. unfold user_rows. rewrite map_to_list_ids by (by apply table_ok_filter).
  apply NoDup_fst_map_to_list.
Qed.

Lemma live_sessions_spec now rows s :
  s ∈ live_sessions now rows ↔
  expired now s = false ∧ ∃ r, r ∈ rows ∧ session_of_row r = Some s.
Proof. unfold live_sessions. by rewrite list_elem_of_filter, list_elem_of_omap. Qed.

Lemma live_sessions_ids now rows :
  NoDup (col_id <$> rows) → NoDup (s_id <$> live_sessions now rows).
Proof.
  induction rows as [|r rows IH]; intros Hn; [constructor|].
  rewrite fmap_cons in Hn. apply NoDup_cons in Hn as [Hr Hn].
  unfold live_sessions in *. cbn [omap list_omap]. destruct (session_of_row r) as [s|] eqn:E; [|by apply IH].
  rewrite filter_cons. case_decide; [|by apply IH]. rewrite fmap_cons. apply NoDup_cons.
  split; [|by apply IH]. intros Hin. apply Hr.
  apply list_elem_of_fmap in Hin as (s' & Hs & Hin).
  apply live_sessions_spec in Hin as (_ & r' & Hr' & Hs').
  apply list_elem_of_fmap. exists r'. split; [|done].
  apply session_of_row_ids in E as [E _]. apply session_of_row_ids in Hs' as [Hs' _]. congruence.
Qed.

Lemma table_view_dead now u t :
  table_view (filter (λ p, dead_row now u p.2 = false) t) ⊆ table_view t ∧
  ∀ id s, table_view t !! id = Some s → expired now s = false →
    table_view (filter (λ p, dead_row now u p.2 = false) t) !! id = Some s.
Proof.
  split.
  - apply map_subseteq_spec. intros id s (r & [Hr _]%map_lookup_filter_Some & Hs)%table_view_lookup.
    apply table_view_lookup. eauto.
  - intros id s (r & Hr & Hs)%table_view_lookup He. apply table_view_lookup. exists r.
    split; [|done]. apply map_lookup_filter_Some. split; [done|]. simpl. unfold dead_row.
    by rewrite Hs, He, andb_false_r.
Qed.

(** An [UPDATE] that keeps the column [created_at] stores the session with
    the old time. *)
Lemma session_of_updated_row r ro s old :
  session_of_row r = Some s → session_of_row ro = Some old →
  session_of_row (with_created (col_created_at ro) r) = Some (with_created_at (s_created_at old) s).
Proof.
  unfold session_of_row. simpl.
  destruct (state_of_text (col_state r)); [|done]. cbn.
  destruct (expiry_of_column (col_expires_at r)) as [[t b]|]; [|done]. cbn.
  destruct (parse_rfc3339_utc (col_created_at r)); [|done]. cbn. intros [= <-].
  destruct (state_of_text (col_state ro)); [|done]. cbn.
  destruct (expiry_of_column (col_expires_at ro)) as [[t' b']|]; [|done]. cbn.
  destruct (parse_rfc3339_utc (col_created_at ro)); [|done]. cbn. by intros [= <-].
Qed.

Lemma user_gone u t :
  table_ok t →
  user_rows u t = [] ↔ filter (λ '(_, s), s_user_id s ≠ Some u) (table_view t) = table_view t.
Proof.
  intros Hok. rewrite user_rows_empty by done. split.
  - intros Hn. by apply map_filter_id.
  - intros Hf id s Hs. rewrite <-Hf in Hs. by apply map_lookup_filter_Some in Hs as [_ ?].
Qed.

(** A SQL backend that takes any text keeps the promise to the manager, on
    tables all rows of which can be read. *)
#[export] Program Instance sql_StoreLaws `{SqlBackend T, !SqlTakesAll T} : StoreLaws T := {
  store_inv st := sb_inv st ∧ table_ok (sb_table st);
  store_room n st := True;
  store_view st := table_view (sb_table st)
}.
Next Obligation.
  intros T ??? st id s [_ Hok] (r & Hr & Hs)%table_view_lookup.
  apply session_of_row_ids in Hs as [-> _]. by destruct (Hok _ _ Hr) as [-> _].
Qed.
Next Obligation.
  intros T ??? n st s id w Hw [Hi Hok] _ Hs Hid.
  destruct (row_roundtrip s Hs) as (r & Hr & Hrs).
  assert (col_id r = id) as <- by (apply row_of_session_id in Hr; congruence).
  destruct (sb_table st !! col_id r) as [r0|] eqn:Hnone.
  - destruct (sb_create_duplicate st s r w Hw Hi Hr (row_taken_all r)) as (st' & Hrun & Hi' & Ht); [by rewrite Hnone|].
    exists (-1), st'. rewrite Ht. split_and!; [done|done|done|done|]. right. split_and!; [done..|].
    apply not_eq_None_Some. rewrite table_view_None by done. congruence.
  - destruct (sb_create st s r w Hw Hi Hr (row_taken_all r) Hnone) as (st' & Hrun & Hi' & Ht). exists 0, st'. rewrite Ht.
    split_and!; [done|done|by eapply table_ok_insert|done|left; split; [done|by apply table_view_insert]].
Qed.
Next Obligation.
  intros T ??? st id w Hw [Hi Hok].
  destruct (sb_get st id None w Hw Hi (sb_takes_all _ _)) as (st' & Hi' & Hm). exists st'.
  unfold lookup_live, table_view at 1 2. rewrite lookup_omap.
  destruct (sb_table st !! id ≫= session_of_row) as [s|] eqn:E; cbn.
  - destruct (expired _ _); destruct Hm as [Hrun Ht]; rewrite Ht; [|done].
    split_and!; [done|by apply table_ok_delete|done|done|apply table_view_delete].
  - destruct Hm as [Hrun Ht]. rewrite Ht. split_and!; try done.
    symmetry. apply delete_id. unfold table_view. by rewrite lookup_omap.
Qed.
Next Obligation.
  intros T ??? st s id old w Hw [Hi Hok] Hs Hid (ro & Hro & Hold)%table_view_lookup Hc.
  destruct (row_roundtrip s Hs) as (r & Hr & Hrs).
  assert (col_id r = id) as <- by (apply row_of_session_id in Hr; congruence).
  destruct (sb_update st s r ro w Hw Hi Hr (row_taken_all r) Hro (proj1 (Hok _ _ Hro))) as (st' & Hrun & Hi' & Ht).
  assert (session_of_row (with_created (col_created_at ro) r) = Some s) as Hw'.
  { rewrite (session_of_updated_row r ro s old), <-Hc by done. by destruct s. }
  exists st'. rewrite Ht. split_and!; [done|done|by eapply table_ok_insert|done|by apply table_view_insert].
Qed.
Next Obligation.
  intros T ??? st s id w Hw [Hi Hok] Hs Hid Hnone.
  destruct (row_roundtrip s Hs) as (r & Hr & _).
  assert (col_id r = id) as <- by (apply row_of_session_id in Hr; congruence).
  apply table_view_None in Hnone; [|done].
  destruct (sb_update_missing st s r w Hw Hi Hr (row_taken_all r) Hnone) as (st' & Hrun & Hi' & Ht).
  exists st'. by rewrite Ht.
Qed.
Next Obligation.
  intros T ??? st id w Hw [Hi Hok].
  destruct (sb_delete st id w Hw Hi (sb_takes_all _ _)) as (st' & Hrun & Hi' & Ht). do 2 eexists. rewrite Ht.
  split_and!; [done|done|by apply table_ok_delete|done|apply table_view_delete|].
  intros [s (r & Hr & _)%table_view_lookup]. by rewrite decide_False by (by rewrite Hr).
Qed.
Next Obligation.
  intros T ??? st u w Hw [Hi Hok].
  destruct (sb_get_by_user_id st u [] 0%nat w Hw Hi (sb_takes_all _ _) Hok) as (rows & st' & Hrows & Hrun & Hi' & Ht).
  exists (live_sessions (w_now w) rows), st'. rewrite Ht.
  destruct (table_view_dead (w_now w) u (sb_table st)) as [Hsub Hkeep].
  split_and!; [done|done|by apply table_ok_filter|done|done| |].
  - apply live_sessions_ids. rewrite Hrows. by apply user_rows_ids.
  - intros s. rewrite live_sessions_spec. setoid_rewrite Hrows. split.
    + intros (He & r & Hr & Hs). apply user_rows_spec in Hr as [Hr Hu]; [|done].
      exists (col_id r). split_and!; [apply table_view_lookup; eauto| |done].
      apply session_of_row_ids in Hs as [_ ->]. by rewrite Hu.
    + intros (id & (r & Hr & Hs)%table_view_lookup & Hu & He). split; [done|]. exists r.
      split; [|done]. apply user_rows_spec; [done|]. apply session_of_row_ids in Hs as [_ Hs].
      destruct (Hok _ _ Hr) as [-> _]. split; [done|congruence].
Qed.
Next Obligation.
  intros T ??? st u w Hw [Hi Hok].
  destruct (sb_delete_by_user_id st u w Hw Hi (sb_takes_all _ _)) as (st' & Hrun & Hi' & Ht). do 2 eexists. rewrite Ht.
  split_and!; [done|done|by apply table_ok_filter|apply table_view_filter_user|].
  intros (id & s & Hs & Hu). rewrite decide_False; [done|].
  rewrite user_rows_empty by done. intros Hn. by apply (Hn id s).
Qed.

(** ** The expired rows a backend deletes one by one *)

Definition delete_all (ids : list string) (t : table) : table :=
  foldl (λ t id, delete id t) t ids.

Definition dead_ids (now : Z) (l : list srow) : list string :=
  omap (λ r, s ← session_of_row r; if expired now s then Some (col_id r) else None) l.

Lemma delete_all_lookup ids t i :
  delete_all ids t !! i = if decide (i ∈ ids) then None else t !! i.
Proof.
  revert t. unfold delete_all. induction ids as [|id ids IH]; intros t; cbn [foldl].
  { rewrite decide_False; [done|]. apply not_elem_of_nil. }
  rewrite IH. destruct (decide (i ∈ ids)).
  { by rewrite decide_True by (by right). }
  destruct (decide (i = id)) as [->|].
  - by rewrite decide_True, lookup_delete_eq by (by left).
  - rewrite decide_False by (by rewrite not_elem_of_cons). by apply lookup_delete_ne.
Qed.

Lemma delete_dead_rows now u t rows :
  table_ok t → rows ≡ₚ user_rows u t →
  delete_all (dead_ids now rows) t = filter (λ p, dead_row now u p.2 = false) t.
Proof.
  intros Hok Hrows. apply map_eq. intros i. rewrite delete_all_lookup.
  assert (i ∈ dead_ids now rows ↔ ∃ r, t !! i = Some r ∧ dead_row now u r = true) as Hd.
  { unfold dead_ids. rewrite Hrows, list_elem_of_omap. unfold dead_row. split.
    - intros (r & Hr & Hs). apply user_rows_spec in Hr as [Hr Hu]; [|done].
      destruct (session_of_row r) as [s|] eqn:E; [|done]. cbn in Hs.
      destruct (expired now s) eqn:Ee; simplify_eq. exists r. split; [done|].
      unfold of_user_row. by rewrite bool_decide_true, E, Ee.
    - intros (r & Hr & [Hu Hs]%andb_true_iff). exists r. destruct (Hok _ _ Hr) as [<- _].
      split; [apply user_rows_spec; [done|]; split; [done|by apply bool_decide_eq_true in Hu]|].
      destruct (session_of_row r); [|done]. cbn. by rewrite Hs. }
  symmetry. destruct (decide _) as [Hi|Hi].
  - apply Hd in Hi as (r & Hr & Hdead). apply map_lookup_filter_None. right.
    intros r' Hr'. simplify_eq/=. by rewrite Hdead.
  - destruct (t !! i) as [r|] eqn:Hr.
    + apply map_lookup_filter_Some. split; [done|]. simpl.
      destruct (dead_row now u r) eqn:E; [|done]. destruct Hi. apply Hd. eauto.
    + apply map_lookup_filter_None. by left.
Qed.

Lemma user_rows_readable u t rows r :
  table_ok t → rows ≡ₚ user_rows u t → r ∈ rows → is_Some (session_of_row r).
Proof.
  intros Hok Hrows Hr. rewrite Hrows in Hr. apply user_rows_spec in Hr as [Hr _]; [|done].
  by apply (Hok _ _ Hr).
Qed.

Lemma user_rows_size u t : (length (user_rows u t) ≤ size t)%nat.
Proof.
  unfold user_rows. rewrite length_fmap, length_map_to_list. apply map_size_filter.
Qed.

(** ** The abstract store of a SQL backend

    It differs from the in-memory one: an identifier is not created twice, a
    NULL identifier is refused by every call, [update] keeps the time of
    creation of the stored session, and a deletion that finds nothing answers
    [missing]. *)
Definition sql_spec (missing now : Z) (op : store_op) (m : view) (r : store_reply) (m' : view) : Prop :=
  match op with
  | OpCreate (Some s) =>
      match s_id s with
      | None => r = RCode (-1) ∧ m' = m
      | Some id =>
          match m !! id with
          | None => r = RCode 0 ∧ m' = <[id := s]> m
          | Some _ => r = RCode (-1) ∧ m' = m
          end
      end
  | OpUpdate (Some s) =>
      match s_id s with
      | None => r = RCode (-1) ∧ m' = m
      | Some id =>
          match m !! id with
          | None => r = RCode (-1) ∧ m' = m
          | Some old => r = RCode 0 ∧ m' = <[id := with_created_at (s_created_at old) s]> m
          end
      end
  | OpGet (Some id) (Some _) =>
      match lookup_live now id m with
      | Some s => r = RSession 0 (Some (Some s)) ∧ m' = m
      | None => r = RSession (-1) (Some None) ∧ m' = delete id m
      end
  | OpDelete (Some id) =>
      r = RCode (if decide (m !! id = None) then missing else 0) ∧ m' = delete id m
  | OpDeleteByUser (Some u) =>
      m' = filter (λ '(_, s), s_user_id s ≠ Some u) m ∧
      r = RCode (if decide (m' = m) then missing else 0)
  | OpGetByUser (Some u) (Some _) (Some _) =>
      m' = filter (λ '(_, s), s_user_id s = Some u → expired now s = false) m ∧
      ∃ l, r = RSessions 0 (Some l) (Some (length l)) ∧ NoDup (s_id <$> l) ∧
        ∀ s, s ∈ l ↔ ∃ id, m' !! id = Some s ∧ s_user_id s = Some u
  | OpGet _ out => r = RSession (-1) out ∧ m' = m
  | OpGetByUser _ out n => r = RSessions (-1) out n ∧ m' = m
  | OpCreate None | OpUpdate None | OpDelete None | OpDeleteByUser None =>
      r = RCode (-1) ∧ m' = m
  end.

(** The sessions a call hands over can be stored, once they have an identifier. *)
Definition op_storable (op : store_op) : Prop :=
  match op with
  | OpCreate (Some s) | OpUpdate (Some s) => s_id s ≠ None → storable s
  | _ => True
  end.

(** The texts of a call that the statements bind. *)
Definition op_taken (takes : nat → string → Prop) (op : store_op) : Prop :=
  match op with
  | OpCreate (Some s) | OpUpdate (Some s) => ∀ r, row_of_session s = Some r → row_taken takes r
  | OpGet (Some id) _ | OpDelete (Some id) => takes 0%nat id
  | OpGetByUser (Some u) _ _ | OpDeleteByUser (Some u) => takes 1%nat u
  | _ => True
  end.

Lemma op_taken_all (takes : nat → string → Prop) op :
  (∀ c v, takes c v) → op_taken takes op.
Proof.
  intros Ht. destruct op as [[s|]|[id|] o|[s|]|[id|]|[u|] o n|[u|]]; cbn; try done;
    intros r _; by apply texts_taken_all.
Qed.

Lemma table_view_dead_exact now u t :
  table_view (filter (λ p, dead_row now u p.2 = false) t) =
  filter (λ '(_, s), s_user_id s = Some u → expired now s = false) (table_view t).
Proof.
  apply map_eq. intros i. apply option_eq. intros s.
  rewrite table_view_lookup, map_lookup_filter_Some, table_view_lookup. unfold dead_row. split.
  - intros (r & [Hr Hd]%map_lookup_filter_Some & Hs). simpl in Hd. split; [by eauto|].
    rewrite Hs in Hd. apply session_of_row_ids in Hs as [_ ->]. intros [= <-].
    unfold of_user_row in Hd. by rewrite bool_decide_true in Hd.
  - intros [(r & Hr & Hs) Hu]. exists r. split; [|done]. apply map_lookup_filter_Some.
    split; [done|]. simpl. rewrite Hs. unfold of_user_row. case_bool_decide as E; [|done].
    simpl. apply Hu. apply session_of_row_ids in Hs as [_ ->]. by rewrite E.
Qed.


Section refinement.
Context `{SqlBackend T}.
Implicit Types (st : T) (w : world).

(** What a call leaves: the reply, the invariant and the new map. *)
Definition sql_result (op : store_op) st w (r : store_reply) st' : Prop :=
  exec_op op st w = Ret (r, st') w ∧ sb_inv st' ∧ table_ok (sb_table st') ∧
  sql_spec sb_missing (w_now w) op (table_view (sb_table st)) r (table_view (sb_table st')).

Lemma sql_exec_create st s w :
  quiet w → sb_inv st → table_ok (sb_table st) → (s_id s ≠ None → storable s) →
  op_taken sb_takes (OpCreate (Some s)) →
  ∃ r st', sql_result (OpCreate (Some s)) st w r st'.
Proof.
  intros Hw Hi Hok Hs Htk. unfold sql_result. cbn [exec_op sql_spec].
  destruct (s_id s) as [id|] eqn:Hid.
  2: { exists (RCode (-1)), st. split; [|done]. run_by ltac:(apply (sb_no_session st); by intros ? [= <-]). done. }
  destruct (row_roundtrip s (Hs ltac:(done))) as (r & Hr & Hrs).
  assert (col_id r = id) as <- by (apply row_of_session_id in Hr; congruence).
  destruct (sb_table st !! col_id r) as [old|] eqn:Hold.
  - destruct (sb_create_duplicate st s r w Hw Hi Hr (Htk r Hr)) as (st' & Hrun & Hi' & Ht); [by rewrite Hold|].
    exists (RCode (-1)), st'. rewrite Ht. split; [by run_by ltac:(exact Hrun)|].
    split_and!; [done..|]. destruct (Hok _ _ Hold) as [_ [so Hso]].
    assert (table_view (sb_table st) !! col_id r = Some so) as -> by (apply table_view_lookup; eauto).
    done.
  - destruct (sb_create st s r w Hw Hi Hr (Htk r Hr) Hold) as (st' & Hrun & Hi' & Ht).
    exists (RCode 0), st'. rewrite Ht. split; [by run_by ltac:(exact Hrun)|].
    split; [done|]. split; [by eapply table_ok_insert|].
    rewrite (proj2 (table_view_None _ _ Hok) Hold). split; [done|by apply table_view_insert].
Qed.

Lemma sql_exec_update st s w :
  quiet w → sb_inv st → table_ok (sb_table st) → (s_id s ≠ None → storable s) →
  op_taken sb_takes (OpUpdate (Some s)) →
  ∃ r st', sql_result (OpUpdate (Some s)) st w r st'.
Proof.
  intros Hw Hi Hok Hs Htk. unfold sql_result. cbn [exec_op sql_spec].
  destruct (s_id s) as [id|] eqn:Hid.
  2: { exists (RCode (-1)), st. split; [|done]. run_by ltac:(apply (sb_no_session st); by intros ? [= <-]). done. }
  destruct (row_roundtrip s (Hs ltac:(done))) as (r & Hr & Hrs).
  assert (col_id r = id) as <- by (apply row_of_session_id in Hr; congruence).
  destruct (sb_table st !! col_id r) as [old|] eqn:Hold.
  - destruct (Hok _ _ Hold) as [Hoid [so Hso]].
    destruct (sb_update st s r old w Hw Hi Hr (Htk r Hr) Hold Hoid) as (st' & Hrun & Hi' & Ht).
    exists (RCode 0), st'. rewrite Ht. split; [by run_by ltac:(exact Hrun)|].
    pose proof (session_of_updated_row _ _ _ _ Hrs Hso).
    split; [done|]. split; [by eapply table_ok_insert|].
    assert (table_view (sb_table st) !! col_id r = Some so) as -> by (apply table_view_lookup; eauto).
    split; [done|by apply table_view_insert].
  - destruct (sb_update_missing st s r w Hw Hi Hr (Htk r Hr) Hold) as (st' & Hrun & Hi' & Ht).
    exists (RCode (-1)), st'. rewrite Ht. split; [by run_by ltac:(exact Hrun)|].
    split_and!; [done..|]. by rewrite (proj2 (table_view_None _ _ Hok) Hold).
Qed.

Lemma sql_exec_get st id o w :
  quiet w → sb_inv st → table_ok (sb_table st) → sb_takes 0%nat id →
  ∃ r st', sql_result (OpGet (Some id) (Some o)) st w r st'.
Proof.
  intros Hw Hi Hok Htk. unfold sql_result. cbn [exec_op sql_spec].
  destruct (sb_get st id o w Hw Hi Htk) as (st' & Hi' & Hm).
  unfold lookup_live, table_view at 1 2. rewrite lookup_omap.
  destruct (sb_table st !! id ≫= session_of_row) as [s|] eqn:E; cbn.
  - destruct (expired _ _); destruct Hm as [Hrun Ht]; do 2 eexists; rewrite Ht;
      (split; [by run_by ltac:(exact Hrun)|split; [done|]]); [|done].
    split; [by apply table_ok_delete|]. split; [done|apply table_view_delete].
  - destruct Hm as [Hrun Ht]. do 2 eexists. rewrite Ht.
    split; [by run_by ltac:(exact Hrun)|]. split_and!; [done..|].
    symmetry. apply delete_id. unfold table_view. by rewrite lookup_omap.
Qed.

Lemma sql_exec_get_by_user st u o n w :
  quiet w → sb_inv st → table_ok (sb_table st) → sb_takes 1%nat u →
  ∃ r st', sql_result (OpGetByUser (Some u) (Some o) (Some n)) st w r st'.
Proof.
  intros Hw Hi Hok Htk. unfold sql_result. cbn [exec_op sql_spec].
  destruct (sb_get_by_user_id st u o n w Hw Hi Htk Hok) as (rows & st' & Hrows & Hrun & Hi' & Ht).
  do 2 eexists. rewrite Ht. split; [by run_by ltac:(exact Hrun)|]. split; [done|].
  split; [by apply table_ok_filter|]. split; [apply table_view_dead_exact|].
  eexists. split; [done|]. split; [apply live_sessions_ids; rewrite Hrows; by apply user_rows_ids|].
  intros s. rewrite live_sessions_spec, table_view_dead_exact. setoid_rewrite Hrows. split.
  - intros (He & r & Hr & Hs). apply user_rows_spec in Hr as [Hr Hu]; [|done].
    assert (s_user_id s = Some u) by (apply session_of_row_ids in Hs as [_ ->]; by rewrite Hu).
    exists (col_id r). split; [|done]. apply map_lookup_filter_Some.
    split; [apply table_view_lookup; eauto|done].
  - intros (id & [(r & Hr & Hs)%table_view_lookup He]%map_lookup_filter_Some & Hu).
    split; [by apply He|]. exists r. split; [|done]. apply user_rows_spec; [done|].
    apply session_of_row_ids in Hs as [_ Hs]. destruct (Hok _ _ Hr) as [-> _]. split; [done|congruence].
Qed.

Lemma sql_exec_op op st w :
  quiet w → sb_inv st → table_ok (sb_table st) → op_storable op → op_taken sb_takes op →
  ∃ r st', sql_result op st w r st'.
Proof.
  intros Hw Hi Hok Hop Htk. destruct op as [[s|]|[id|] [o|]|[s|]|[id|]|[u|] [o|] [n|]|[u|]];
    [by apply sql_exec_create| |by apply sql_exec_get| | | |by apply sql_exec_update| | | |
     by apply sql_exec_get_by_user|..];
    unfold sql_result; cbn [exec_op sql_spec].
  6: { destruct (sb_delete st id w Hw Hi Htk) as (st' & Hrun & Hi' & Ht). do 2 eexists. rewrite Ht.
       split; [by run_by ltac:(exact Hrun)|]. split; [done|]. split; [by apply table_ok_delete|].
       split; [|apply table_view_delete].
       by rewrite (decide_ext _ _ _ _ (table_view_None (sb_table st) id Hok)). }
  14: { destruct (sb_delete_by_user_id st u w Hw Hi Htk) as (st' & Hrun & Hi' & Ht). do 2 eexists. rewrite Ht.
        split; [by run_by ltac:(exact Hrun)|]. split; [done|]. split; [by apply table_ok_filter|].
        split; [apply table_view_filter_user|]. rewrite table_view_filter_user.
        by rewrite (decide_ext _ _ _ _ (user_gone u (sb_table st) Hok)). }
  all: do 2 eexists; split; [|by split_and!].
  all: first [by run_by ltac:(by apply (sb_no_session st))|by run_by ltac:(apply sb_no_out)
    |by run_by ltac:(apply sb_no_id)|by run_by ltac:(apply (sb_no_id st None))
    |by run_by ltac:(apply sb_no_sessions_out; auto)].
Qed.

End refinement.

(** ** In any environment *)

(** A session as [fill_session] leaves it: it has its two identifiers, and
    its expiry flag agrees with its expiry. *)
Definition filled (s : OpenDBSC_Session) : Prop :=
  s_id s ≠ None ∧ s_user_id s ≠ None ∧ s_has_expires s = bool_decide (s_expires_at s ≠ 0).

Lemma wp_set_or_free f k s w Q :
  wp (f (Some s)) w (λ '(rc, s') w', ∃ s1, s' = Some s1 ∧
    (if rc =? 0 then wp (k s1) w' Q else Q (-1, session_default) w')) →
  wp (set_or_free f k s) w Q.
Proof.
  intros Hf. unfold set_or_free, on_local. apply wp_bind, wp_bind.
  eapply wp_mono; [exact Hf|]. intros [rc s'] w' (s1 & -> & H1). apply wp_bind, wp_ret, wp_ret.
  destruct (rc =? 0); done.
Qed.

(** One setter of a string field. *)
Lemma wp_set_field_or_free get put v k s w (Q : Z * OpenDBSC_Session → world → Prop) :
  (∀ w', env_step w w' → wp (k (put v s)) w' Q) →
  (∀ w', env_step w w' → Q (-1, session_default) w') →
  wp (set_or_free (λ p, match p with
                        | None => mret (-1, None)
                        | Some s => '(rc, f) ← set_string (get s) v; mret (rc, Some (put f s))
                        end) k s) w Q.
Proof.
  intros H0 H1. apply wp_set_or_free, wp_bind, wp_set_string.
  - intros w' ?. apply wp_ret. eexists. split; [done|]. by apply H0.
  - intros w' ???. apply wp_ret. eexists. split; [done|]. by apply H1.
Qed.

Lemma wp_fill_session id u st k a c e cr s w Q :
  (∀ s' w', env_step w w' → filled s' → Q (0, s') w') →
  (∀ s' w', env_step w w' → Q (-1, s') w') →
  wp (fill_session id u st k a c e cr s) w Q.
Proof.
  intros HS HF. unfold fill_session.
  destruct id as [id|]; [|by apply wp_ret, HF]. destruct u as [u|]; [|by apply wp_ret, HF].
  destruct st as [st|]; [|by apply wp_ret, HF]. destruct cr as [cr|]; [|by apply wp_ret, HF].
  apply wp_bind, wp_ret.
  apply (wp_set_field_or_free s_id with_id); [intros w1 ?|by intros; apply HF].
  apply (wp_set_field_or_free s_user_id with_user_id); [intros w2 ?|intros; apply HF; by etrans].
  assert (env_step w w2) by (by etrans).
  apply wp_set_or_free, wp_ret. cbn [opendbsc_session_set_state_str].
  destruct (String.eqb st OPENDBSC_STATE_ACTIVE_STR); [|destruct (String.eqb st OPENDBSC_STATE_BOUND_STR);
    [|eexists; split; [done|by apply HF]]]; (eexists; split; [done|]; cbn [Z.eqb]).
  1,2: apply (wp_set_field_or_free s_public_key with_public_key); [intros w3 ?|intros; apply HF; by etrans];
    assert (env_step w w3) by (by etrans);
    apply (wp_set_field_or_free s_algorithm with_algorithm); [intros w4 ?|intros; apply HF; by etrans];
    assert (env_step w w4) by (by etrans);
    apply (wp_set_field_or_free s_challenge with_challenge); [intros w5 ?|intros; apply HF; by etrans];
    assert (env_step w w5) by (by etrans);
    (destruct e as [e|]; [destruct (parse_rfc3339_utc e); [|by apply wp_bind, wp_ret, wp_ret, HF];
      apply wp_bind, wp_ret|]);
    (destruct (parse_rfc3339_utc cr); [|by apply wp_bind, wp_ret, wp_ret, HF]);
    by apply wp_bind, wp_ret, wp_ret, HS.
Qed.

(** What a reply may look like. *)
Definition reply_ok (op : store_op) (r : store_reply) : Prop :=
  match op, r with
  | (OpCreate _ | OpUpdate _ | OpDelete _ | OpDeleteByUser _), RCode rc => rc = 0 ∨ rc = -1
  | OpGet id out, RSession rc out' =>
      (rc = 0 ∧ id ≠ None ∧ out ≠ None ∧ ∃ s, out' = Some (Some s) ∧ filled s) ∨
      (rc = -1 ∧ out' = if decide (id = None ∨ out = None) then out else Some None)
  | OpGetByUser _ _ _, RSessions rc out' n' =>
      (rc = 0 ∧ ∃ l, out' = Some l ∧ n' = Some (length l) ∧ Forall filled l) ∨ rc = -1
  | _, _ => False
  end.
