(* ===== verification/SqliteStore.v ===== *)
(** [src/store/sqlite.c]: the SQLite session store, over any SQLite library
    that behaves as its documentation says ([SqliteLaws]), and the instance
    of [SqlBackend] that makes it a backend of the manager. *)

From S2P Require Export Sql.
From stdpp Require Import options.
#[local] Open Scope Z_scope.

(** ** The library

    The functions of [sqlite3.h] that the source calls, on a database and a
    prepared statement whatever they are.  A value bound to a parameter and
    the value of a column are [None] for SQL [NULL].  [db_rows] bounds the
    number of rows a query on the database can deliver. *)
Definition SQLITE_OK : Z := 0.
Definition SQLITE_NOMEM : Z := 7.
Definition SQLITE_ROW : Z := 100.
Definition SQLITE_DONE : Z := 101.

Class Sqlite := {
  sqlite3 : Type;
  sqlite3_stmt : Type;
  db_open : string → option sqlite3;
  db_exec : sqlite3 → string → Z * sqlite3;
  db_prepare : sqlite3 → string → option sqlite3_stmt;
  stmt_bind : sqlite3_stmt → Z → cstr → Z * sqlite3_stmt;
  db_step : sqlite3 → sqlite3_stmt → Z * sqlite3 * sqlite3_stmt;
  stmt_column : sqlite3_stmt → Z → cstr;
  db_changes : sqlite3 → Z;
  db_rows : sqlite3 → nat
}.

(** What a prepared statement is doing: parameters are being bound, it
    stands on a row with the rows that follow, or it has finished. *)
Inductive stmt_state :=
| Binding (s : statement) (params : list cstr)
| AtRow (t : table) (r : srow) (rest : list srow)
| Finished.

(** Standing on the first of the rows [l], or done. *)
Definition cursor (t : table) (l : list srow) (rc : Z) (st : stmt_state) : Prop :=
  match l with
  | [] => rc = SQLITE_DONE ∧ st = Finished
  | r :: l' => rc = SQLITE_ROW ∧ st = AtRow t r l'
  end.

Definition OPENDBSC_SQLITE_SCHEMA : string :=
  "CREATE TABLE IF NOT EXISTS sessions (" +:+
  "  id         TEXT PRIMARY KEY," +:+
  "  user_id    TEXT NOT NULL," +:+
  "  state      TEXT NOT NULL DEFAULT 'active'," +:+
  "  public_key TEXT," +:+
  "  algorithm  TEXT," +:+
  "  challenge  TEXT," +:+
  "  expires_at DATETIME," +:+
  "  created_at DATETIME NOT NULL" +:+
  ");" +:+
  "CREATE INDEX IF NOT EXISTS idx_sessions_user_id ON sessions(user_id);" +:+
  "CREATE INDEX IF NOT EXISTS idx_sessions_expires_at ON sessions(expires_at);".

(** What the documentation of SQLite says of the calls on a database whose
    schema has been created ([db_ready]). *)
Class SqliteLaws `{Sqlite} := {
  db_ready : sqlite3 → Prop;
  db_table : sqlite3 → table;
  stmt_is : sqlite3_stmt → stmt_state;
  sqlite_open_memory :
    ∃ db db', db_open ":memory:" = Some db ∧
      db_exec db OPENDBSC_SQLITE_SCHEMA = (SQLITE_OK, db') ∧ db_ready db' ∧ db_table db' = ∅;
  sqlite_prepare db s :
    db_ready db →
    ∃ st, db_prepare db (statement_text "sessions" s) = Some st ∧
      stmt_is st = Binding s (replicate (statement_params s) None);
  sqlite_bind st s params i v :
    stmt_is st = Binding s params → (i < length params)%nat →
    ∃ st', stmt_bind st (Z.of_nat i + 1) v = (SQLITE_OK, st') ∧
      stmt_is st' = Binding s (<[i := v]> params);
  sqlite_execute db st s params :
    db_ready db → stmt_is st = Binding s params →
    ∃ rc db' st', db_step db st = (rc, db', st') ∧ db_ready db' ∧
      match statement_meaning s params (db_table db) with
      | Done rows t n =>
          db_table db' = t ∧ (∃ l, l ≡ₚ rows ∧ cursor t l rc (stmt_is st')) ∧
          (s = Update → db_changes db' = n)
      | Rejected => db_table db' = db_table db ∧ rc ≠ SQLITE_ROW ∧ rc ≠ SQLITE_DONE
      | Unspecified => True
      end;
  sqlite_next db st r l :
    db_ready db → stmt_is st = AtRow (db_table db) r l →
    ∃ rc st', db_step db st = (rc, db, st') ∧ cursor (db_table db) l rc (stmt_is st');
  sqlite_column st t r l i v :
    stmt_is st = AtRow t r l → columns r !! i = Some v → stmt_column st (Z.of_nat i) = v;
  sqlite_rows db : (size (db_table db) ≤ db_rows db)%nat
}.

(** ** Operations *)

Section sqlite.
Context `{Sqlite}.

(** The calls as the source makes them: each may fail for lack of memory. *)
Definition sqlite3_prepare_v2 (db : sqlite3) (sql : string) : C (option sqlite3_stmt) :=
  match db_prepare db sql with Some st => alloc st | None => mret None end.
Definition sqlite3_bind_text (stmt : sqlite3_stmt) (idx : Z) (text : string)
    : C (Z * sqlite3_stmt) :=
  ok ← malloc; mret (if ok : bool then stmt_bind stmt idx (Some text) else (SQLITE_NOMEM, stmt)).
Definition sqlite3_bind_null (stmt : sqlite3_stmt) (idx : Z) : C (Z * sqlite3_stmt) :=
  mret (stmt_bind stmt idx None).
Definition sqlite3_step (db : sqlite3) (stmt : sqlite3_stmt) : C (Z * sqlite3 * sqlite3_stmt) :=
  ok ← malloc; mret (if ok : bool then db_step db stmt else (SQLITE_NOMEM, db, stmt)).
Definition sqlite3_column_text (stmt : sqlite3_stmt) (i : Z) : C cstr :=
  match stmt_column stmt i with Some s => alloc s | None => mret None end.
Definition sqlite3_open (path : string) : C (option sqlite3) :=
  match db_open path with Some db => alloc db | None => mret None end.
Definition sqlite3_exec (db : sqlite3) (sql : string) : C (Z * sqlite3) :=
  ok ← malloc; mret (if ok : bool then db_exec db sql else (SQLITE_NOMEM, db)).

(** [impl]: the database handle (the back pointer to the store is not read
    before [destroy]). *)
Record opendbsc_sqlite_ctx := SqliteCtx { sq_db : sqlite3 }.

Definition bind_text_or_null (stmt : sqlite3_stmt) (idx : Z) (text : cstr)
    : C (Z * sqlite3_stmt) :=
  '(rc, stmt) ← match text with
                | None => sqlite3_bind_null stmt idx
                | Some t => sqlite3_bind_text stmt idx t
                end;
  mret (if rc =? SQLITE_OK then 0 else -1, stmt).

(** [bind_text_or_null(stmt, idx++, a) != 0 || bind_text_or_null(stmt, idx++, b) != 0 || ...] *)
Fixpoint bind_chain (stmt : sqlite3_stmt) (idx : Z) (texts : list cstr) : C (Z * sqlite3_stmt) :=
  match texts with
  | [] => mret (0, stmt)
  | t :: texts' =>
      '(rc, stmt) ← bind_text_or_null stmt idx t;
      if negb (rc =? 0) then mret (-1, stmt) else bind_chain stmt (idx + 1) texts'
  end.

(** The parameter [expires_at] of [create] and [update]. *)
Definition bind_expires (stmt : sqlite3_stmt) (idx : Z) (session : OpenDBSC_Session)
    : C (Z * sqlite3_stmt) :=
  if s_has_expires session then
    match format_rfc3339_utc (s_expires_at session) 32 with
    | None => mret (-1, stmt)
    | Some expires_buf => sqlite3_bind_text stmt idx expires_buf
    end
  else sqlite3_bind_null stmt idx.

(** [session] is filled from the current row; on failure it is freed. *)
Definition session_from_stmt (stmt : sqlite3_stmt) (session : OpenDBSC_Session)
    : C (Z * OpenDBSC_Session) :=
  id ← sqlite3_column_text stmt 0;
  user_id ← sqlite3_column_text stmt 1;
  state ← sqlite3_column_text stmt 2;
  public_key ← sqlite3_column_text stmt 3;
  algorithm ← sqlite3_column_text stmt 4;
  challenge ← sqlite3_column_text stmt 5;
  expires_at ← sqlite3_column_text stmt 6;
  created_at ← sqlite3_column_text stmt 7;
  fill_session id user_id state public_key algorithm challenge expires_at created_at session.

Definition sqlite_create (ctx : opendbsc_sqlite_ctx) (session : option OpenDBSC_Session)
    : C (Z * opendbsc_sqlite_ctx) :=
  match session with
  | None => mret (-1, ctx)
  | Some s =>
      match s_id s with
      | None => mret (-1, ctx)
      | Some _ =>
          let sql :=
            "INSERT INTO sessions (id, user_id, state, public_key, algorithm, " +:+
            "challenge, expires_at, created_at) " +:+
            "VALUES (?, ?, ?, ?, ?, ?, ?, ?)" in
          stmt ← sqlite3_prepare_v2 (sq_db ctx) sql;
          match stmt with
          | None => mret (-1, ctx)
          | Some stmt =>
              let state := opendbsc_session_state_str session in
              '(rc, stmt) ← bind_chain stmt 1
                 [s_id s; s_user_id s; state; s_public_key s; s_algorithm s; s_challenge s];
              if negb (rc =? 0) then mret (-1, ctx) else
              '(rc, stmt) ← bind_expires stmt 7 s;
              if negb (rc =? SQLITE_OK) then mret (-1, ctx) else
              match format_rfc3339_utc (s_created_at s) 32 with
              | None => mret (-1, ctx)
              | Some created_buf =>
                  '(rc, stmt) ← sqlite3_bind_text stmt 8 created_buf;
                  if negb (rc =? SQLITE_OK) then mret (-1, ctx) else
                  '(step, db, stmt) ← sqlite3_step (sq_db ctx) stmt;
                  mret (if step =? SQLITE_DONE then 0 else -1, SqliteCtx db)
              end
          end
      end
  end.

Definition sqlite_delete (ctx : opendbsc_sqlite_ctx) (id : cstr) : C (Z * opendbsc_sqlite_ctx) :=
  match id with
  | None => mret (-1, ctx)
  | Some id =>
      stmt ← sqlite3_prepare_v2 (sq_db ctx) "DELETE FROM sessions WHERE id = ?";
      match stmt with
      | None => mret (-1, ctx)
      | Some stmt =>
          '(rc, stmt) ← sqlite3_bind_text stmt 1 id;
          if negb (rc =? SQLITE_OK) then mret (-1, ctx) else
          '(step, db, stmt) ← sqlite3_step (sq_db ctx) stmt;
          mret (if step =? SQLITE_DONE then 0 else -1, SqliteCtx db)
      end
  end.

Definition sqlite_get (ctx : opendbsc_sqlite_ctx) (id : cstr)
    (out : option (option OpenDBSC_Session))
    : C (Z * option (option OpenDBSC_Session) * opendbsc_sqlite_ctx) :=
  match id, out with
  | Some id, Some _ =>
      let sql :=
        "SELECT id, user_id, state, public_key, algorithm, challenge, " +:+
        "expires_at, created_at FROM sessions WHERE id = ?" in
      stmt ← sqlite3_prepare_v2 (sq_db ctx) sql;
      match stmt with
      | None => mret (-1, Some None, ctx)
      | Some stmt =>
          '(rc, stmt) ← sqlite3_bind_text stmt 1 id;
          if negb (rc =? SQLITE_OK) then mret (-1, Some None, ctx) else
          '(step, db, stmt) ← sqlite3_step (sq_db ctx) stmt;
          let ctx := SqliteCtx db in
          if negb (step =? SQLITE_ROW) then mret (-1, Some None, ctx) else
          ok ← malloc;
          if negb ok then mret (-1, Some None, ctx) else
          session ← deref (opendbsc_session_init (Some session_default));
          '(rc, session) ← session_from_stmt stmt session;
          if negb (rc =? 0) then mret (-1, Some None, ctx) else
          now ← time_NULL;
          if expired now session then
            '(_, ctx) ← sqlite_delete ctx (Some id);
            mret (-1, Some None, ctx)
          else mret (0, Some (Some session), ctx)
      end
  | _, _ => mret (-1, out, ctx)
  end.

Definition sqlite_update (ctx : opendbsc_sqlite_ctx) (session : option OpenDBSC_Session)
    : C (Z * opendbsc_sqlite_ctx) :=
  match session with
  | None => mret (-1, ctx)
  | Some s =>
      match s_id s with
      | None => mret (-1, ctx)
      | Some id =>
          let sql :=
            "UPDATE sessions SET user_id = ?, state = ?, public_key = ?, " +:+
            "algorithm = ?, challenge = ?, expires_at = ? WHERE id = ?" in
          stmt ← sqlite3_prepare_v2 (sq_db ctx) sql;
          match stmt with
          | None => mret (-1, ctx)
          | Some stmt =>
              let state := opendbsc_session_state_str session in
              '(rc, stmt) ← bind_chain stmt 1
                 [s_user_id s; state; s_public_key s; s_algorithm s; s_challenge s];
              if negb (rc =? 0) then mret (-1, ctx) else
              '(rc, stmt) ← bind_expires stmt 6 s;
              if negb (rc =? SQLITE_OK) then mret (-1, ctx) else
              '(rc, stmt) ← sqlite3_bind_text stmt 7 id;
              if negb (rc =? SQLITE_OK) then mret (-1, ctx) else
              '(step, db, stmt) ← sqlite3_step (sq_db ctx) stmt;
              let ctx := SqliteCtx db in
              if negb (step =? SQLITE_DONE) then mret (-1, ctx) else
              mret (if 0 <? db_changes db then 0 else -1, ctx)
          end
      end
  end.

(** The loop over the rows: what it has collected when it leaves, with the
    last code of [sqlite3_step]; or [None] for a [goto done] from its body. *)
Fixpoint fetch_loop (fuel : nat) (now : Z) (db : sqlite3) (stmt : sqlite3_stmt)
    (sessions : list OpenDBSC_Session) (expired_ids : list string)
    : C (option (Z * list OpenDBSC_Session * list string) * sqlite3) :=
  match fuel with
  | O => hang
  | S fuel' =>
      '(step, db, stmt) ← sqlite3_step db stmt;
      if negb (step =? SQLITE_ROW) then mret (Some (step, sessions, expired_ids), db) else
      '(rc, tmp) ← session_from_stmt stmt session_default;
      if negb (rc =? 0) then mret (None, db) else
      if expired now tmp then
        id ← need_str (s_id tmp);
        copy ← strdup id;
        match copy with
        | None => mret (None, db)
        | Some copy =>
            ok ← malloc;
            if negb ok then mret (None, db) else
            fetch_loop fuel' now db stmt sessions (expired_ids ++ [copy])
        end
      else
        ok ← malloc;
        if negb ok then mret (None, db) else
        fetch_loop fuel' now db stmt (sessions ++ [tmp]) expired_ids
  end.

(** [for (i = 0; i < expired_count; i++) sqlite_delete(impl, expired_ids[i]);] *)
Fixpoint delete_expired (ctx : opendbsc_sqlite_ctx) (expired_ids : list string)
    : C opendbsc_sqlite_ctx :=
  match expired_ids with
  | [] => mret ctx
  | id :: ids' => '(_, ctx) ← sqlite_delete ctx (Some id); delete_expired ctx ids'
  end.

(** When the parameter cannot be bound, [goto done] passes over the
    initialisation of [expired_ids] and [expired_count], which the code after
    the label reads. *)
Definition sqlite_get_by_user_id (ctx : opendbsc_sqlite_ctx) (user_id : cstr)
    (out : option (list OpenDBSC_Session)) (count : option nat)
    : C (Z * option (list OpenDBSC_Session) * option nat * opendbsc_sqlite_ctx) :=
  match user_id, out, count with
  | Some user_id, Some _, Some _ =>
      let sql :=
        "SELECT id, user_id, state, public_key, algorithm, challenge, " +:+
        "expires_at, created_at FROM sessions WHERE user_id = ?" in
      stmt ← sqlite3_prepare_v2 (sq_db ctx) sql;
      match stmt with
      | None => mret (-1, Some [], Some 0%nat, ctx)
      | Some stmt =>
          '(rc, stmt) ← sqlite3_bind_text stmt 1 user_id;
          if negb (rc =? SQLITE_OK) then ub else
          now ← time_NULL;
          '(r, db) ← fetch_loop (S (db_rows (sq_db ctx))) now (sq_db ctx) stmt [] [];
          let ctx := SqliteCtx db in
          match r with
          | None => mret (-1, Some [], Some 0%nat, ctx)
          | Some (step, sessions, expired_ids) =>
              if negb (step =? SQLITE_DONE) then mret (-1, Some [], Some 0%nat, ctx) else
              ctx ← delete_expired ctx expired_ids;
              mret (0, Some sessions, Some (length sessions), ctx)
          end
      end
  | _, _, _ => mret (-1, out, count, ctx)
  end.

Definition sqlite_delete_by_user_id (ctx : opendbsc_sqlite_ctx) (user_id : cstr)
    : C (Z * opendbsc_sqlite_ctx) :=
  match user_id with
  | None => mret (-1, ctx)
  | Some user_id =>
      stmt ← sqlite3_prepare_v2 (sq_db ctx) "DELETE FROM sessions WHERE user_id = ?";
      match stmt with
      | None => mret (-1, ctx)
      | Some stmt =>
          '(rc, stmt) ← sqlite3_bind_text stmt 1 user_id;
          if negb (rc =? SQLITE_OK) then mret (-1, ctx) else
          '(step, db, stmt) ← sqlite3_step (sq_db ctx) stmt;
          mret (if step =? SQLITE_DONE then 0 else -1, SqliteCtx db)
      end
  end.

(** The database is closed and everything freed. *)
Definition sqlite_destroy (ctx : option opendbsc_sqlite_ctx) : option opendbsc_sqlite_ctx := None.

Definition opendbsc_sqlite_store_create (path : cstr) : C (option opendbsc_sqlite_ctx) :=
  let path := default ":memory:" path in
  db ← sqlite3_open path;
  match db with
  | None => mret None
  | Some db =>
      '(rc, db) ← sqlite3_exec db OPENDBSC_SQLITE_SCHEMA;
      if negb (rc =? SQLITE_OK) then mret None else
      store ← malloc;
      if negb store then mret None else
      ctx ← malloc;
      if negb ctx then mret None else
      mret (Some (SqliteCtx db))
  end.

Definition opendbsc_sqlite_store_close (store : option opendbsc_sqlite_ctx)
    : option opendbsc_sqlite_ctx :=
  match store with None => None | Some ctx => sqlite_destroy (Some ctx) end.

#[export] Instance sqlite_Store : Store opendbsc_sqlite_ctx := {
  st_create := sqlite_create;
  st_get := sqlite_get;
  st_update := sqlite_update;
  st_delete := sqlite_delete;
  st_get_by_user_id := sqlite_get_by_user_id;
  st_delete_by_user_id := sqlite_delete_by_user_id
}.

End sqlite.

(** ** The calls when nothing fails *)

Section runs.
Context `{SqliteLaws}.

Lemma prepare_run db s w :
  no_oom w → db_ready db →
  ∃ st, sqlite3_prepare_v2 db (statement_text "sessions" s) w = Ret (Some st) w ∧
    stmt_is st = Binding s (replicate (statement_params s) None).
Proof.
  intros Hw Hdb. destruct (sqlite_prepare db s Hdb) as (st & Hp & Hst).
  exists st. unfold sqlite3_prepare_v2. rewrite Hp. by rewrite alloc_run.
Qed.

Lemma bind_text_run st s params i v w :
  no_oom w → stmt_is st = Binding s params → (i < length params)%nat →
  ∃ st', sqlite3_bind_text st (Z.of_nat i + 1) v w = Ret (SQLITE_OK, st') w ∧
    stmt_is st' = Binding s (<[i := Some v]> params).
Proof.
  intros Hw Hst Hi. destruct (sqlite_bind st s params i (Some v) Hst Hi) as (st' & Hb & Hst').
  exists st'. unfold sqlite3_bind_text. run_by ltac:(by apply malloc_run). by rewrite Hb.
Qed.

Lemma bind_chain_run texts st s params i w :
  no_oom w → stmt_is st = Binding s params → (i + length texts ≤ length params)%nat →
  ∃ st', bind_chain st (Z.of_nat i + 1) texts w = Ret (0, st') w ∧
    stmt_is st' = Binding s (bound_from i texts params).
Proof.
  intros Hw. revert st params i. induction texts as [|v texts IH]; intros st params i Hst Hi; simpl in *.
  { by exists st. }
  destruct (sqlite_bind st s params i v Hst) as (st1 & Hb & Hst1); [lia|].
  destruct (IH st1 (<[i := v]> params) (S i)) as (st2 & Hrun & Hst2);
    [done|rewrite length_insert; lia|].
  exists st2. split.
  - assert (bind_text_or_null st (Z.of_nat i + 1) v w = Ret (0, st1) w) as Hv.
    { unfold bind_text_or_null. destruct v as [t|].
      - run_by ltac:(unfold sqlite3_bind_text; run_by ltac:(by apply malloc_run); by rewrite Hb).
        done.
      - run_by ltac:(unfold sqlite3_bind_null; by rewrite Hb). done. }
    run_by ltac:(exact Hv). replace (Z.of_nat i + 1 + 1) with (Z.of_nat (S i) + 1) by lia. done.
  - done.
Qed.

Lemma column_run st t r l i v w :
  no_oom w → stmt_is st = AtRow t r l → columns r !! i = Some v →
  sqlite3_column_text st (Z.of_nat i) w = Ret v w.
Proof.
  intros Hw Hst Hv. unfold sqlite3_column_text. rewrite (sqlite_column _ _ _ _ _ _ Hst Hv).
  destruct v; [by apply alloc_run|done].
Qed.

(** The session of a row, or a freed one when the row cannot be read. *)
Lemma session_from_stmt_run st t r l s0 w :
  no_oom w → stmt_is st = AtRow t r l →
  session_from_stmt st s0 w =
    Ret (match session_of_row r with Some s => (0, s) | None => (-1, session_default) end) w.
Proof.
  intros Hw Hst. unfold session_from_stmt.
  pose proof (λ i v, column_run st t r l i v w Hw Hst) as Hcol.
  run_by ltac:(exact (Hcol 0%nat _ eq_refl)). run_by ltac:(exact (Hcol 1%nat _ eq_refl)).
  run_by ltac:(exact (Hcol 2%nat _ eq_refl)). run_by ltac:(exact (Hcol 3%nat _ eq_refl)).
  run_by ltac:(exact (Hcol 4%nat _ eq_refl)). run_by ltac:(exact (Hcol 5%nat _ eq_refl)).
  run_by ltac:(exact (Hcol 6%nat _ eq_refl)). run_by ltac:(exact (Hcol 7%nat _ eq_refl)).
  by apply fill_session_run.
Qed.

(** A statement with one parameter, prepared and bound. *)
Lemma prepare1_run db s v w :
  no_oom w → db_ready db → statement_params s = 1%nat →
  ∃ st st', sqlite3_prepare_v2 db (statement_text "sessions" s) w = Ret (Some st) w ∧
    sqlite3_bind_text st 1 v w = Ret (SQLITE_OK, st') w ∧ stmt_is st' = Binding s [Some v].
Proof.
  intros Hw Hdb Hs. destruct (prepare_run db s w Hw Hdb) as (st & Hp & Hst).
  rewrite Hs in Hst. destruct (bind_text_run st s _ 0 v w Hw Hst) as (st' & Hb & Hst'); [simpl; lia|].
  exists st, st'. done.
Qed.

Lemma step_run db st w rc db' st' :
  no_oom w → db_step db st = (rc, db', st') → sqlite3_step db st w = Ret (rc, db', st') w.
Proof. intros Hw Hs. unfold sqlite3_step. run_by ltac:(by apply malloc_run). by rewrite Hs. Qed.

(** A statement that returns no row. *)
Lemma execute_done db st s params t n w :
  no_oom w → db_ready db → stmt_is st = Binding s params →
  statement_meaning s params (db_table db) = Done [] t n →
  ∃ db' st', sqlite3_step db st w = Ret (SQLITE_DONE, db', st') w ∧ db_ready db' ∧
    db_table db' = t ∧ (s = Update → db_changes db' = n).
Proof.
  intros Hw Hdb Hst Hm. destruct (sqlite_execute db st s params Hdb Hst) as (rc & db' & st' & Hs & Hr & H').
  rewrite Hm in H'. destruct H' as (Ht & (l & Hl & Hc) & Hn).
  symmetry in Hl. apply Permutation_nil_l in Hl. subst l. destruct Hc as [-> _].
  exists db', st'. split; [by apply step_run|done].
Qed.

Lemma execute_rejected db st s params w :
  no_oom w → db_ready db → stmt_is st = Binding s params →
  statement_meaning s params (db_table db) = Rejected →
  ∃ rc db' st', sqlite3_step db st w = Ret (rc, db', st') w ∧ db_ready db' ∧
    db_table db' = db_table db ∧ rc ≠ SQLITE_ROW ∧ rc ≠ SQLITE_DONE.
Proof.
  intros Hw Hdb Hst Hm. destruct (sqlite_execute db st s params Hdb Hst) as (rc & db' & st' & Hs & Hr & H').
  rewrite Hm in H'. destruct H' as (? & ? & ?). exists rc, db', st'.
  split_and!; [by apply step_run|done..].
Qed.

Lemma execute_rows db st s params rows n w :
  no_oom w → db_ready db → stmt_is st = Binding s params →
  statement_meaning s params (db_table db) = Done rows (db_table db) n →
  ∃ l rc db' st', l ≡ₚ rows ∧ sqlite3_step db st w = Ret (rc, db', st') w ∧ db_ready db' ∧
    db_table db' = db_table db ∧ cursor (db_table db') l rc (stmt_is st').
Proof.
  intros Hw Hdb Hst Hm. destruct (sqlite_execute db st s params Hdb Hst) as (rc & db' & st' & Hs & Hr & H').
  rewrite Hm in H'. destruct H' as (Ht & (l & Hl & Hc) & _).
  exists l, rc, db', st'. rewrite Ht. split_and!; [done|by apply step_run|done..].
Qed.

Lemma sqlite_delete_run ctx id w :
  no_oom w → db_ready (sq_db ctx) →
  ∃ ctx', sqlite_delete ctx (Some id) w = Ret (0, ctx') w ∧ db_ready (sq_db ctx') ∧
    db_table (sq_db ctx') = delete id (db_table (sq_db ctx)).
Proof.
  intros Hw Hdb. unfold sqlite_delete.
  destruct (prepare1_run (sq_db ctx) DeleteId id w Hw Hdb eq_refl) as (st & st' & Hp & Hb & Hst).
  destruct (execute_done (sq_db ctx) st' _ _ _ _ w Hw Hdb Hst eq_refl) as (db' & st2 & Hs & Hr & Ht & _).
  exists (SqliteCtx db'). split; [|done].
  step_by ltac:(exact Hp). step_by ltac:(exact Hb). by step_by ltac:(exact Hs).
Qed.

Lemma sqlite_delete_by_user_id_run ctx u w :
  no_oom w → db_ready (sq_db ctx) →
  ∃ ctx', sqlite_delete_by_user_id ctx (Some u) w = Ret (0, ctx') w ∧ db_ready (sq_db ctx') ∧
    db_table (sq_db ctx') = filter (λ p, of_user_row u p.2 = false) (db_table (sq_db ctx)).
Proof.
  intros Hw Hdb. unfold sqlite_delete_by_user_id.
  destruct (prepare1_run (sq_db ctx) DeleteUser u w Hw Hdb eq_refl) as (st & st' & Hp & Hb & Hst).
  destruct (execute_done (sq_db ctx) st' _ _ _ _ w Hw Hdb Hst eq_refl) as (db' & st2 & Hs & Hr & Ht & _).
  exists (SqliteCtx db'). split; [|done].
  step_by ltac:(exact Hp). step_by ltac:(exact Hb). by step_by ltac:(exact Hs).
Qed.

Lemma sqlite_get_run ctx id o w :
  quiet w → db_ready (sq_db ctx) →
  ∃ ctx', db_ready (sq_db ctx') ∧
    match db_table (sq_db ctx) !! id ≫= session_of_row with
    | Some s =>
        if expired (w_now w) s then
          sqlite_get ctx (Some id) (Some o) w = Ret (-1, Some None, ctx') w ∧
          db_table (sq_db ctx') = delete id (db_table (sq_db ctx))
        else
          sqlite_get ctx (Some id) (Some o) w = Ret (0, Some (Some s), ctx') w ∧
          db_table (sq_db ctx') = db_table (sq_db ctx)
    | None =>
        sqlite_get ctx (Some id) (Some o) w = Ret (-1, Some None, ctx') w ∧
        db_table (sq_db ctx') = db_table (sq_db ctx)
    end.
Proof.
  intros Hq Hdb. assert (no_oom w) as Hw by (by apply quiet_no_oom). unfold sqlite_get.
  destruct (prepare1_run (sq_db ctx) SelectId id w Hw Hdb eq_refl) as (st & st' & Hp & Hb & Hst).
  destruct (execute_rows (sq_db ctx) st' _ _ _ _ w Hw Hdb Hst eq_refl)
    as (l & rc & db' & st2 & Hl & Hs & Hr & Ht & Hc).
  destruct (db_table (sq_db ctx) !! id) as [r|]; simpl in Hl; cbn [mbind option_bind].
  2: { symmetry in Hl. apply Permutation_nil_l in Hl. subst l. destruct Hc as [-> _].
       exists (SqliteCtx db'). split; [done|]. split; [|done].
       step_by ltac:(exact Hp). step_by ltac:(exact Hb). by step_by ltac:(exact Hs). }
  apply Permutation_singleton_r in Hl. subst l. destruct Hc as [-> Hc].
  destruct (session_of_row r) as [s|] eqn:E; [destruct (expired (w_now w) s) eqn:Ee|].
  - destruct (sqlite_delete_run (SqliteCtx db') id w Hw Hr) as (ctx' & Hd & Hr' & Ht').
    exists ctx'. split; [done|]. simpl in Ht'. rewrite Ht', Ht. split; [|done].
    step_by ltac:(exact Hp). step_by ltac:(exact Hb). step_by ltac:(exact Hs).
    step_by ltac:(by apply malloc_run). step_by ltac:(reflexivity).
    step_by ltac:(by eapply session_from_stmt_run). rewrite E; eval_tests.
    step_by ltac:(by apply time_run). rewrite Ee. by step_by ltac:(exact Hd).
  - exists (SqliteCtx db'). split; [done|]. split; [|done].
    step_by ltac:(exact Hp). step_by ltac:(exact Hb). step_by ltac:(exact Hs).
    step_by ltac:(by apply malloc_run). step_by ltac:(reflexivity).
    step_by ltac:(by eapply session_from_stmt_run). rewrite E; eval_tests.
    step_by ltac:(by apply time_run). by rewrite Ee.
  - exists (SqliteCtx db'). split; [done|]. split; [|done].
    step_by ltac:(exact Hp). step_by ltac:(exact Hb). step_by ltac:(exact Hs).
    step_by ltac:(by apply malloc_run). step_by ltac:(reflexivity).
    step_by ltac:(by eapply session_from_stmt_run). by rewrite E.
Qed.

Lemma bind_expires_run st s params i session e w :
  no_oom w → stmt_is st = Binding s params → (i < length params)%nat →
  expires_column session = Some e →
  ∃ st', bind_expires st (Z.of_nat i + 1) session w = Ret (SQLITE_OK, st') w ∧
    stmt_is st' = Binding s (<[i := e]> params).
Proof.
  intros Hw Hst Hi He. unfold bind_expires. unfold expires_column in He.
  destruct (s_has_expires session).
  - destruct (format_rfc3339_utc (s_expires_at session) 32) as [t|]; simplify_eq/=.
    by apply (bind_text_run _ s params).
  - simplify_eq. destruct (sqlite_bind st s params i None Hst Hi) as (st' & Hb & Hst').
    exists st'. unfold sqlite3_bind_null. by rewrite Hb.
Qed.

(** [create] up to the execution of its statement. *)
Lemma sqlite_create_bound ctx s r w :
  no_oom w → db_ready (sq_db ctx) → row_of_session s = Some r →
  ∃ st, stmt_is st = Binding Insert (columns r) ∧
    sqlite_create ctx (Some s) w =
      ('(step, db, _) ← sqlite3_step (sq_db ctx) st;
       mret (if step =? SQLITE_DONE then 0 else -1, SqliteCtx db)) w.
Proof.
  intros Hw Hdb [Hid Hu Hs Hk Ha Hc He Hcr]%row_of_session_fields.
  unfold sqlite_create. rewrite Hid. 
  destruct (prepare_run (sq_db ctx) Insert w Hw Hdb) as (st & Hp & Hst).
  destruct (bind_chain_run [s_id s; s_user_id s; opendbsc_session_state_str (Some s);
    s_public_key s; s_algorithm s; s_challenge s] st _ _ 0 w Hw Hst) as (st1 & Hb1 & Hst1); [simpl; lia|].
  rewrite Hid, Hu, Hs, Hk, Ha, Hc in *. simpl in Hst1.
  destruct (bind_expires_run st1 _ _ 6 s _ w Hw Hst1 ltac:(simpl; lia) He) as (st2 & Hb2 & Hst2).
  simpl in Hst2.
  destruct (bind_text_run st2 _ _ 7 (col_created_at r) w Hw Hst2) as (st3 & Hb3 & Hst3); [simpl; lia|].
  exists st3. split; [done|].
  step_by ltac:(exact Hp). step_by ltac:(exact Hb1). step_by ltac:(exact Hb2). rewrite Hcr.
  by step_by ltac:(exact Hb3).
Qed.

Lemma sqlite_create_run ctx s r w :
  no_oom w → db_ready (sq_db ctx) → row_of_session s = Some r →
  db_table (sq_db ctx) !! col_id r = None →
  ∃ ctx', sqlite_create ctx (Some s) w = Ret (0, ctx') w ∧ db_ready (sq_db ctx') ∧
    db_table (sq_db ctx') = <[col_id r := r]> (db_table (sq_db ctx)).
Proof.
  intros Hw Hdb Hr Hnone. destruct (sqlite_create_bound ctx s r w Hw Hdb Hr) as (st & Hst & ->).
  destruct (execute_done (sq_db ctx) st Insert (columns r) (<[col_id r := r]> (db_table (sq_db ctx))) 1 w)
    as (db' & st' & Hs & Hr' & Ht & _); [done..| |].
  { simpl. rewrite Hnone. by destruct r. }
  exists (SqliteCtx db'). split; [|done]. by step_by ltac:(exact Hs).
Qed.

Lemma sqlite_create_duplicate_run ctx s r w :
  no_oom w → db_ready (sq_db ctx) → row_of_session s = Some r →
  is_Some (db_table (sq_db ctx) !! col_id r) →
  ∃ ctx', sqlite_create ctx (Some s) w = Ret (-1, ctx') w ∧ db_ready (sq_db ctx') ∧
    db_table (sq_db ctx') = db_table (sq_db ctx).
Proof.
  intros Hw Hdb Hr [old Hold]. destruct (sqlite_create_bound ctx s r w Hw Hdb Hr) as (st & Hst & ->).
  destruct (execute_rejected (sq_db ctx) st Insert (columns r) w)
    as (rc & db' & st' & Hs & Hr' & Ht & _ & Hrc); [done..| |].
  { simpl. by rewrite Hold. }
  exists (SqliteCtx db'). split; [|done]. run_by ltac:(exact Hs).
  by rewrite (proj2 (Z.eqb_neq _ _) Hrc).
Qed.

(** [update]: the row keeps its column [created_at]. *)
Lemma sqlite_update_bound ctx s r w :
  no_oom w → db_ready (sq_db ctx) → row_of_session s = Some r →
  ∃ st, stmt_is st = Binding Update
      [Some (col_user_id r); Some (col_state r); col_public_key r; col_algorithm r;
       col_challenge r; col_expires_at r; Some (col_id r)] ∧
    sqlite_update ctx (Some s) w =
      ('(step, db, _) ← sqlite3_step (sq_db ctx) st;
       if negb (step =? SQLITE_DONE) then mret (-1, SqliteCtx db) else
       mret (if 0 <? db_changes db then 0 else -1, SqliteCtx db)) w.
Proof.
  intros Hw Hdb [Hid Hu Hs Hk Ha Hc He Hcr]%row_of_session_fields.
  unfold sqlite_update. rewrite Hid.
  destruct (prepare_run (sq_db ctx) Update w Hw Hdb) as (st & Hp & Hst).
  destruct (bind_chain_run [s_user_id s; opendbsc_session_state_str (Some s);
    s_public_key s; s_algorithm s; s_challenge s] st _ _ 0 w Hw Hst) as (st1 & Hb1 & Hst1); [simpl; lia|].
  rewrite Hu, Hs, Hk, Ha, Hc in *. simpl in Hst1.
  destruct (bind_expires_run st1 _ _ 5 s _ w Hw Hst1 ltac:(simpl; lia) He) as (st2 & Hb2 & Hst2).
  simpl in Hst2.
  destruct (bind_text_run st2 _ _ 6 (col_id r) w Hw Hst2) as (st3 & Hb3 & Hst3); [simpl; lia|].
  exists st3. split; [done|].
  step_by ltac:(exact Hp). step_by ltac:(exact Hb1). step_by ltac:(exact Hb2).
  by step_by ltac:(exact Hb3).
Qed.

Lemma sqlite_update_run ctx s r old w :
  no_oom w → db_ready (sq_db ctx) → row_of_session s = Some r →
  db_table (sq_db ctx) !! col_id r = Some old → col_id old = col_id r →
  ∃ ctx', sqlite_update ctx (Some s) w = Ret (0, ctx') w ∧ db_ready (sq_db ctx') ∧
    db_table (sq_db ctx') = <[col_id r := with_created (col_created_at old) r]> (db_table (sq_db ctx)).
Proof.
  intros Hw Hdb Hr Hold Hid. destruct (sqlite_update_bound ctx s r w Hw Hdb Hr) as (st & Hst & ->).
  edestruct (execute_done (sq_db ctx) st Update) as (db' & st' & Hs & Hr' & Ht & Hn); [done..| |].
  { simpl. by rewrite Hold. }
  exists (SqliteCtx db'). split; [|split; [done|]].
  - step_by ltac:(exact Hs). by rewrite Hn.
  - simpl. rewrite Ht. by rewrite Hid.
Qed.

Lemma sqlite_update_missing_run ctx s r w :
  no_oom w → db_ready (sq_db ctx) → row_of_session s = Some r →
  db_table (sq_db ctx) !! col_id r = None →
  ∃ ctx', sqlite_update ctx (Some s) w = Ret (-1, ctx') w ∧ db_ready (sq_db ctx') ∧
    db_table (sq_db ctx') = db_table (sq_db ctx).
Proof.
  intros Hw Hdb Hr Hnone. destruct (sqlite_update_bound ctx s r w Hw Hdb Hr) as (st & Hst & ->).
  edestruct (execute_done (sq_db ctx) st Update) as (db' & st' & Hs & Hr' & Ht & Hn); [done..| |].
  { simpl. by rewrite Hnone. }
  exists (SqliteCtx db'). split; [|done]. step_by ltac:(exact Hs). by rewrite Hn.
Qed.

(** The loop collects the live sessions and the identifiers of the others. *)
Lemma fetch_loop_run rows fuel now db st rc0 db0 st0 sessions ids w :
  no_oom w → (length rows < fuel)%nat → (∀ r, r ∈ rows → is_Some (session_of_row r)) →
  db_step db st = (rc0, db0, st0) → db_ready db0 → cursor (db_table db0) rows rc0 (stmt_is st0) →
  fetch_loop fuel now db st sessions ids w =
    Ret (Some (SQLITE_DONE, sessions ++ live_sessions now rows, ids ++ dead_ids now rows), db0) w.
Proof.
  intros Hw. revert fuel db st rc0 st0 sessions ids.
  induction rows as [|r rows IH]; intros [|fuel] db st rc0 st0 sessions ids Hf Hrd Hs Hr Hc;
    simpl in Hf; try lia; destruct Hc as [-> Hc]; cbn [fetch_loop].
  { step_by ltac:(by eapply step_run). by rewrite !app_nil_r. }
  destruct (Hrd r ltac:(by left)) as [s E].
  destruct (sqlite_next db0 st0 r rows Hr Hc) as (rc1 & st1 & Hs1 & Hc1).
  assert (s_id s = Some (col_id r)) as Hid by (by apply session_of_row_ids in E as [-> _]).
  step_by ltac:(by eapply step_run). step_by ltac:(by eapply session_from_stmt_run).
  rewrite E. eval_tests. unfold live_sessions, dead_ids. cbn [omap list_omap]. rewrite E.
  cbn [mbind option_bind]. rewrite filter_cons. destruct (expired now s) eqn:Ee.
  - rewrite decide_False by done. rewrite Hid.
    step_by ltac:(reflexivity). step_by ltac:(by apply strdup_run).
    step_by ltac:(by apply malloc_run).
    erewrite IH; [|lia|intros; apply Hrd; by right|exact Hs1|done|done].
    by rewrite <-app_assoc.
  - rewrite decide_True by done. step_by ltac:(by apply malloc_run).
    erewrite IH; [|lia|intros; apply Hrd; by right|exact Hs1|done|done].
    by rewrite <-app_assoc.
Qed.

Lemma delete_expired_run ids ctx w :
  no_oom w → db_ready (sq_db ctx) →
  ∃ ctx', delete_expired ctx ids w = Ret ctx' w ∧ db_ready (sq_db ctx') ∧
    db_table (sq_db ctx') = delete_all ids (db_table (sq_db ctx)).
Proof.
  intros Hw. revert ctx. induction ids as [|id ids IH]; intros ctx Hr; [by exists ctx|].
  destruct (sqlite_delete_run ctx id w Hw Hr) as (ctx1 & Hd & Hr1 & Ht1).
  destruct (IH ctx1 Hr1) as (ctx2 & Hrun & Hr2 & Ht2). exists ctx2.
  cbn [delete_expired]. rewrite Ht1 in Ht2. split; [|done]. by run_by ltac:(exact Hd).
Qed.

Lemma sqlite_get_by_user_id_run ctx u o n w :
  quiet w → db_ready (sq_db ctx) → table_ok (db_table (sq_db ctx)) →
  ∃ rows ctx', rows ≡ₚ user_rows u (db_table (sq_db ctx)) ∧
    sqlite_get_by_user_id ctx (Some u) (Some o) (Some n) w =
      Ret (0, Some (live_sessions (w_now w) rows),
           Some (length (live_sessions (w_now w) rows)), ctx') w ∧
    db_ready (sq_db ctx') ∧
    db_table (sq_db ctx') =
      filter (λ p, dead_row (w_now w) u p.2 = false) (db_table (sq_db ctx)).
Proof.
  intros Hq Hdb Hok. assert (no_oom w) as Hw by (by apply quiet_no_oom).
  unfold sqlite_get_by_user_id.
  destruct (prepare1_run (sq_db ctx) SelectUser u w Hw Hdb eq_refl) as (st & st' & Hp & Hb & Hst).
  destruct (sqlite_execute (sq_db ctx) st' SelectUser _ Hdb Hst) as (rc & db' & st2 & Hs & Hr & Hm).
  simpl in Hm. destruct Hm as (Ht & (rows & Hrows & Hc) & _).
  change (rows ≡ₚ user_rows u (db_table (sq_db ctx))) in Hrows.
  assert (length rows < S (db_rows (sq_db ctx)))%nat.
  { rewrite Hrows. pose proof (user_rows_size u (db_table (sq_db ctx))).
    pose proof (sqlite_rows (sq_db ctx)). lia. }
  destruct (delete_expired_run (dead_ids (w_now w) rows) (SqliteCtx db') w Hw Hr) as (ctx' & Hd & Hr' & Ht').
  exists rows, ctx'. split; [done|]. split; [|split; [done|]].
  - step_by ltac:(exact Hp). step_by ltac:(exact Hb). step_by ltac:(by apply time_run).
    step_by ltac:(eapply fetch_loop_run; [done|done| |done|done|by rewrite Ht];
      intros r; by apply (user_rows_readable u (db_table (sq_db ctx)))).
    by step_by ltac:(exact Hd).
  - rewrite Ht'. simpl. rewrite Ht. by apply delete_dead_rows.
Qed.

(** The SQLite store is a SQL backend. *)
#[export] Program Instance sqlite_SqlBackend : SqlBackend opendbsc_sqlite_ctx := {
  sb_inv ctx := db_ready (sq_db ctx);
  sb_table ctx := db_table (sq_db ctx);
  sb_missing := 0;
  sb_takes _ _ := True
}.
Next Obligation. intros. eapply sqlite_create_run; eauto with crun. Qed.
Next Obligation. intros. eapply sqlite_create_duplicate_run; eauto with crun. Qed.
Next Obligation. intros. by apply sqlite_get_run. Qed.
Next Obligation. intros. eapply sqlite_update_run; eauto with crun. Qed.
Next Obligation. intros. eapply sqlite_update_missing_run; eauto with crun. Qed.
Next Obligation. intros. cbn. destruct (decide _); eapply sqlite_delete_run; eauto with crun. Qed.
Next Obligation. intros. by apply sqlite_get_by_user_id_run. Qed.
Next Obligation.
  intros. cbn. destruct (decide _); eapply sqlite_delete_by_user_id_run; eauto with crun.
Qed.
Next Obligation. intros ctx [s|] w Hs; [|done]. simpl. unfold sqlite_create, sqlite_update. by rewrite (Hs s). Qed.
Next Obligation. done. Qed.
Next Obligation. by intros ctx [id|] w. Qed.
Next Obligation. by intros ctx [u|] [l|] [n|] w [?|[?|?]]. Qed.

#[export] Instance sqlite_takes_all : SqlTakesAll opendbsc_sqlite_ctx.
Proof. done. Qed.

End runs.
