(* ===== verification/SqliteProps.v ===== *)
(** The theorems about the SQLite store: its refinement of the map of
    sessions, what its replies look like in any environment, the sessions it
    cannot read back, and what happens when memory runs out; with a small
    database as the witness that [SqliteLaws] can be met. *)

From S2P Require Export SqliteStore.
From stdpp Require Import options.
#[local] Open Scope Z_scope.

(** ** A small database

    A table and the number of rows the last statement changed.  It knows the
    six statements by their texts. *)
Record ref_db := RefDb { rd_table : table; rd_changes : Z }.

Definition find_statement (tbl sql : string) : option statement :=
  List.find (λ s, String.eqb (statement_text tbl s) sql)
    [Insert; SelectId; SelectUser; Update; DeleteId; DeleteUser].

Definition ref_cursor (t : table) (l : list srow) : Z * stmt_state :=
  match l with
  | [] => (SQLITE_DONE, Finished)
  | r :: l' => (SQLITE_ROW, AtRow t r l')
  end.

Definition ref_step (db : ref_db) (st : stmt_state) : Z * ref_db * stmt_state :=
  match st with
  | Binding s params =>
      match statement_meaning s params (rd_table db) with
      | Done rows t n => let '(rc, st) := ref_cursor t rows in (rc, RefDb t n, st)
      | _ => (19, db, Finished)
      end
  | AtRow t r rest => let '(rc, st) := ref_cursor t rest in (rc, db, st)
  | Finished => (SQLITE_DONE, db, Finished)
  end.

Definition ref_bind (st : stmt_state) (idx : Z) (v : cstr) : Z * stmt_state :=
  match st with
  | Binding s params =>
      if (1 <=? idx) && (idx <=? Z.of_nat (length params)) then
        (SQLITE_OK, Binding s (<[Z.to_nat (idx - 1) := v]> params))
      else (25, st)
  | _ => (21, st)
  end.

Definition ref_prepare (sql : string) : option stmt_state :=
  s ← find_statement "sessions" sql; Some (Binding s (replicate (statement_params s) None)).

#[export] Instance ref_Sqlite : Sqlite := {
  sqlite3 := ref_db;
  sqlite3_stmt := stmt_state;
  db_open _ := Some (RefDb ∅ 0);
  db_exec db _ := (SQLITE_OK, db);
  db_prepare _ := ref_prepare;
  stmt_bind := ref_bind;
  db_step := ref_step;
  stmt_column st i := match st with AtRow _ r _ => default None (columns r !! Z.to_nat i) | _ => None end;
  db_changes := rd_changes;
  db_rows db := size (rd_table db)
}.

Lemma ref_cursor_spec t l : cursor t l (ref_cursor t l).1 (ref_cursor t l).2.
Proof. by destruct l. Qed.

#[export] Program Instance ref_SqliteLaws : SqliteLaws := {
  db_ready _ := True;
  db_table := rd_table;
  stmt_is st := st
}.
Next Obligation. by do 2 eexists. Qed.
Next Obligation. intros db s _. eexists. split; [|reflexivity]. by destruct s. Qed.
Next Obligation.
  intros st s params i v -> Hi. eexists. split; [|reflexivity]. cbn [stmt_bind ref_Sqlite ref_bind].
  rewrite (proj2 (Z.leb_le _ _)), (proj2 (Z.leb_le _ _)) by lia. cbn [andb].
  by replace (Z.to_nat (Z.of_nat i + 1 - 1)) with i by lia.
Qed.
Next Obligation.
  intros db st s params _ ->. cbn [db_step ref_Sqlite ref_step].
  destruct (statement_meaning s params (rd_table db)) as [rows t n| |].
  - pose proof (ref_cursor_spec t rows). destruct (ref_cursor t rows) as [rc st'].
    do 3 eexists. split; [done|]. split; [done|]. split_and!; [done|by exists rows|done].
  - do 3 eexists. by split_and!.
  - do 3 eexists. by split_and!.
Qed.
Next Obligation.
  intros db st r l _ ->. cbn [db_step ref_Sqlite ref_step].
  pose proof (ref_cursor_spec (rd_table db) l). destruct (ref_cursor _ l) as [rc st'].
  by do 2 eexists.
Qed.
Next Obligation.
  intros st t r l i v -> Hv. cbn [stmt_column ref_Sqlite]. by rewrite Nat2Z.id, Hv.
Qed.
Next Obligation. done. Qed.

(** ** In any environment, over any SQLite *)

Section any.
Context `{Sqlite}.

Lemma wp_prepare db sql w Q :
  (∀ o w', env_step w w' → Q o w') → wp (sqlite3_prepare_v2 db sql) w Q.
Proof.
  intros HQ. unfold sqlite3_prepare_v2. destruct (db_prepare db sql); [|by apply wp_ret, HQ].
  apply wp_alloc; auto.
Qed.

Lemma wp_bind_text stmt idx v w Q :
  (∀ rc stmt' w', env_step w w' → Q (rc, stmt') w') → wp (sqlite3_bind_text stmt idx v) w Q.
Proof.
  intros HQ. apply wp_bind, wp_malloc. intros [] w' ? _; apply wp_ret; [|by apply HQ].
  destruct (stmt_bind stmt idx (Some v)). by apply HQ.
Qed.

Lemma wp_bind_null stmt idx w (Q : Z * sqlite3_stmt → world → Prop) :
  (∀ rc stmt' w', env_step w w' → Q (rc, stmt') w') → wp (sqlite3_bind_null stmt idx) w Q.
Proof. intros HQ. apply wp_ret. destruct (stmt_bind stmt idx None). by apply HQ. Qed.

Lemma wp_bind_text_or_null stmt idx v w Q :
  (∀ rc stmt' w', env_step w w' → Q (rc, stmt') w') → wp (bind_text_or_null stmt idx v) w Q.
Proof.
  intros HQ. apply wp_bind. destruct v; [apply wp_bind_text|apply wp_bind_null];
    intros rc stmt' w' ?; by apply wp_ret, HQ.
Qed.

Lemma wp_bind_chain texts stmt idx w Q :
  (∀ rc stmt' w', env_step w w' → Q (rc, stmt') w') → wp (bind_chain stmt idx texts) w Q.
Proof.
  revert stmt idx w. induction texts as [|v texts IH]; intros stmt idx w HQ; [by apply wp_ret, HQ|].
  apply wp_bind, wp_bind_text_or_null. intros rc stmt' w' ?.
  destruct (negb (rc =? 0)); [by apply wp_ret, HQ|]. apply IH. intros. apply HQ. by etrans.
Qed.

Lemma wp_bind_expires stmt idx s w Q :
  (∀ rc stmt' w', env_step w w' → Q (rc, stmt') w') → wp (bind_expires stmt idx s) w Q.
Proof.
  intros HQ. unfold bind_expires. destruct (s_has_expires s); [|by apply wp_bind_null].
  destruct (format_rfc3339_utc _ _); [by apply wp_bind_text|by apply wp_ret, HQ].
Qed.

Lemma wp_step_stmt db stmt w Q :
  (∀ rc db' stmt' w', env_step w w' → Q (rc, db', stmt') w') → wp (sqlite3_step db stmt) w Q.
Proof.
  intros HQ. apply wp_bind, wp_malloc. intros [] w' ? _; apply wp_ret; [|by apply HQ].
  destruct (db_step db stmt) as [[rc db'] stmt']. by apply HQ.
Qed.

Lemma wp_column stmt i w Q :
  (∀ v w', env_step w w' → Q v w') → wp (sqlite3_column_text stmt i) w Q.
Proof.
  intros HQ. unfold sqlite3_column_text. destruct (stmt_column stmt i); [|by apply wp_ret, HQ].
  apply wp_alloc; auto.
Qed.

Lemma wp_session_from_stmt stmt s w Q :
  (∀ s' w', env_step w w' → filled s' → Q (0, s') w') →
  (∀ s' w', env_step w w' → Q (-1, s') w') →
  wp (session_from_stmt stmt s) w Q.
Proof.
  intros HS HF. unfold session_from_stmt.
  do 8 (apply wp_bind, wp_column; intros).
  apply wp_fill_session; intros; [apply HS|apply HF]; try done;
    by repeat (etrans; [eassumption|]).
Qed.

(** The three statements with one parameter, up to their execution. *)
Lemma wp_prepare_bind {A} (fail : A) db sql v (k : sqlite3_stmt → C A) w Q :
  (∀ w', env_step w w' → Q fail w') →
  (∀ stmt w', env_step w w' → wp (k stmt) w' Q) →
  wp (stmt ← sqlite3_prepare_v2 db sql;
      match stmt with
      | None => mret fail
      | Some stmt =>
          '(rc, stmt) ← sqlite3_bind_text stmt 1 v;
          if negb (rc =? SQLITE_OK) then mret fail else k stmt
      end) w Q.
Proof.
  intros HF HS. apply wp_bind, wp_prepare. intros [stmt|] w1 ?; [|by apply wp_ret, HF].
  apply wp_bind, wp_bind_text. intros rc stmt' w2 ?.
  destruct (negb _); [apply wp_ret, HF|apply HS]; by etrans.
Qed.

Lemma wp_sqlite_delete ctx id w Q :
  (∀ rc ctx' w', env_step w w' → rc = 0 ∨ rc = -1 → Q (rc, ctx') w') →
  wp (sqlite_delete ctx id) w Q.
Proof.
  intros HQ. destruct id as [id|]; [|by apply wp_ret, HQ; auto].
  apply wp_prepare_bind; [by intros; apply HQ; auto|]. intros stmt w1 ?.
  apply wp_bind, wp_step_stmt. intros rc db' stmt' w2 ?. apply wp_ret, HQ; [by etrans|].
  destruct (_ =? _); auto.
Qed.

Lemma wp_sqlite_delete_by_user_id ctx u w Q :
  (∀ rc ctx' w', env_step w w' → rc = 0 ∨ rc = -1 → Q (rc, ctx') w') →
  wp (sqlite_delete_by_user_id ctx u) w Q.
Proof.
  intros HQ. destruct u as [u|]; [|by apply wp_ret, HQ; auto].
  apply wp_prepare_bind; [by intros; apply HQ; auto|]. intros stmt w1 ?.
  apply wp_bind, wp_step_stmt. intros rc db' stmt' w2 ?. apply wp_ret, HQ; [by etrans|].
  destruct (_ =? _); auto.
Qed.

Lemma wp_sqlite_create ctx s w Q :
  (∀ rc ctx' w', env_step w w' → rc = 0 ∨ rc = -1 → Q (rc, ctx') w') →
  wp (sqlite_create ctx s) w Q.
Proof.
  intros HQ. destruct s as [s|]; [|by apply wp_ret, HQ; auto]. unfold sqlite_create.
  destruct (s_id s); [|by apply wp_ret, HQ; auto].
  apply wp_bind, wp_prepare. intros [stmt|] w1 ?; [|by apply wp_ret, HQ; auto].
  apply wp_bind, wp_bind_chain. intros rc1 stmt1 w2 ?. assert (env_step w w2) by (by etrans).
  destruct (negb _); [by apply wp_ret, HQ; auto|].
  apply wp_bind, wp_bind_expires. intros rc2 stmt2 w3 ?. assert (env_step w w3) by (by etrans).
  destruct (negb _); [by apply wp_ret, HQ; auto|].
  destruct (format_rfc3339_utc _ _); [|by apply wp_ret, HQ; auto].
  apply wp_bind, wp_bind_text. intros rc3 stmt3 w4 ?. assert (env_step w w4) by (by etrans).
  destruct (negb _); [by apply wp_ret, HQ; auto|].
  apply wp_bind, wp_step_stmt. intros rc db' stmt' w5 ?. apply wp_ret, HQ; [by etrans|].
  destruct (_ =? _); auto.
Qed.

Lemma wp_sqlite_update ctx s w Q :
  (∀ rc ctx' w', env_step w w' → rc = 0 ∨ rc = -1 → Q (rc, ctx') w') →
  wp (sqlite_update ctx s) w Q.
Proof.
  intros HQ. destruct s as [s|]; [|by apply wp_ret, HQ; auto]. unfold sqlite_update.
  destruct (s_id s); [|by apply wp_ret, HQ; auto].
  apply wp_bind, wp_prepare. intros [stmt|] w1 ?; [|by apply wp_ret, HQ; auto].
  apply wp_bind, wp_bind_chain. intros rc1 stmt1 w2 ?. assert (env_step w w2) by (by etrans).
  destruct (negb _); [by apply wp_ret, HQ; auto|].
  apply wp_bind, wp_bind_expires. intros rc2 stmt2 w3 ?. assert (env_step w w3) by (by etrans).
  destruct (negb _); [by apply wp_ret, HQ; auto|].
  apply wp_bind, wp_bind_text. intros rc3 stmt3 w4 ?. assert (env_step w w4) by (by etrans).
  destruct (negb _); [by apply wp_ret, HQ; auto|].
  apply wp_bind, wp_step_stmt. intros rc db' stmt' w5 ?. assert (env_step w w5) by (by etrans).
  destruct (negb _); [by apply wp_ret, HQ; auto|].
  apply wp_ret, HQ; [done|]. destruct (0 <? _); auto.
Qed.

Lemma wp_sqlite_get ctx id o w Q :
  (∀ s ctx' w', env_step w w' → filled s → Q (0, Some (Some s), ctx') w') →
  (∀ ctx' w', env_step w w' → Q (-1, Some None, ctx') w') →
  wp (sqlite_get ctx (Some id) (Some o)) w Q.
Proof.
  intros HS HF. unfold sqlite_get. apply wp_prepare_bind; [by intros; apply HF|]. intros stmt w1 ?.
  apply wp_bind, wp_step_stmt. intros rc db' stmt' w2 ?. assert (env_step w w2) by (by etrans).
  destruct (negb _); [by apply wp_ret, HF|].
  apply wp_bind, wp_malloc. intros ok w3 ? _. assert (env_step w w3) by (by etrans).
  destruct (negb ok); [by apply wp_ret, HF|]. apply wp_bind, wp_ret.
  apply wp_bind, wp_session_from_stmt; intros s w4 ?; assert (env_step w w4) by (by etrans);
    [intros Hfill; cbn [negb Z.eqb]|apply wp_ret, HF; done].
  apply wp_bind, wp_time. intros w5 ?. assert (env_step w w5) by (by etrans).
  destruct (expired _ _); [|by apply wp_ret, HS].
  apply wp_bind, wp_sqlite_delete. intros. apply wp_ret, HF. by etrans.
Qed.

End any.

(** ** Properties *)

(** C11. The SQLite store refines a map of sessions.  Over any SQLite that
    behaves as documented, when nothing fails, each call whose session can be
    stored ([op_storable]: an identifier, a user, and times between the years
    1970 and 9999, see [sqlite_far_future_lost] for later ones) returns through
    the virtual table, keeps a database every row of which can be read back,
    and answers and updates the map from identifiers to sessions as [sql_spec]
    says: the formatting of times, the order of the bound parameters and of
    the columns, and the deletion of expired rows are right.  [sql_spec] is
    what the SQL stores do, and departs from [store.h] in two places: creating
    an identifier that is taken answers -1, and an update keeps the time of
    creation of the stored session. *)
Theorem sqlite_store_refines_map `{SqliteLaws} (op : store_op) (ctx : opendbsc_sqlite_ctx)
    (w : world) :
  quiet w → db_ready (sq_db ctx) → table_ok (db_table (sq_db ctx)) → op_storable op →
  ∃ r ctx', exec_op op ctx w = Ret (r, ctx') w ∧ db_ready (sq_db ctx') ∧
    table_ok (db_table (sq_db ctx')) ∧
    sql_spec 0 (w_now w) op (table_view (db_table (sq_db ctx))) r (table_view (db_table (sq_db ctx'))).
Proof. intros. by apply (sql_exec_op (H0 := sqlite_SqlBackend)), op_taken_all. Qed.

(** C28. The replies of the SQLite store are well formed.  Over any SQLite,
    whatever it answers, and in any environment, a call other than
    [get_by_user_id] returns without undefined behaviour; its code is 0 or
    -1; a session is handed out exactly with 0, it has both identifiers, and
    its expiry flag agrees with its expiry; otherwise the output pointer has
    been set to NULL. *)
Theorem sqlite_replies_well_formed `{Sqlite} (op : store_op) (ctx : opendbsc_sqlite_ctx) (w : world) :
  (∀ u out n, op ≠ OpGetByUser u out n) →
  wp (exec_op op ctx) w (λ '(r, _) w', env_step w w' ∧ reply_ok op r).
Proof.
  intros Hop. destruct op as [s|[id|] [o|]|s|id|u out n|u]; try (by destruct (Hop u out n));
    cbn [exec_op reply_ok]; apply wp_bind;
    try (apply wp_ret, wp_ret; split; [done|right; split; [done|]]; by rewrite decide_True by auto).
  - apply wp_sqlite_create. intros. by apply wp_ret.
  - apply wp_sqlite_get.
    + intros s ctx' w' ??. apply wp_ret. split; [done|]. left. split_and!; [done..|by exists s].
    + intros ctx' w' ?. apply wp_ret. split; [done|]. right. split; [done|].
      by rewrite decide_False by (by intros [|]).
  - apply wp_sqlite_update. intros. by apply wp_ret.
  - apply wp_sqlite_delete. intros. by apply wp_ret.
  - apply wp_sqlite_delete_by_user_id. intros. by apply wp_ret.
Qed.

(** A parameter that cannot be bound makes [get_by_user_id] undefined.
    When the statement has been prepared but [sqlite3_bind_text] fails, the
    jump to the label [done] passes over the initialisation of the array of
    expired identifiers and of its length, which the code there reads. *)
Theorem sqlite_bind_failure_undefined `{SqliteLaws} (ctx : opendbsc_sqlite_ctx) (u : string)
    (out : list OpenDBSC_Session) (n : nat) (w : world) (l : list bool) :
  db_ready (sq_db ctx) → w_alloc w = true :: false :: l →
  sqlite_get_by_user_id ctx (Some u) (Some out) (Some n) w = UB.
Proof.
  intros Hdb Hl. destruct (sqlite_prepare (sq_db ctx) SelectUser Hdb) as (st & Hp & _).
  unfold sqlite_get_by_user_id, sqlite3_prepare_v2.
  change (db_prepare _ _) with (db_prepare (sq_db ctx) (statement_text "sessions" SelectUser)).
  rewrite Hp. run_by ltac:(unfold alloc; run_by ltac:(by unfold malloc; rewrite Hl); done).
  run_by ltac:(unfold sqlite3_bind_text; run_by ltac:(done); done). done.
Qed.

Lemma far_future_text t :
  year_9999_end ≤ t < gmtime_end →
  ∃ e, format_rfc3339_utc t 32 = Some e ∧ parse_rfc3339_utc e = None.
Proof.
  intros Ht. destruct (rfc3339_far_future t Ht) as (bt & Hg & Hf & Hp). exists (tm_text bt).
  unfold format_rfc3339_utc, parse_rfc3339_utc. by rewrite Hg, Hp.
Qed.

(** A session that expires after the year 9999 is stored and never found.
    [create] writes its expiry with a year of five digits and answers 0, but
    [strptime] reads four: every [get] answers -1, while the row stays in the
    database. *)
Theorem sqlite_far_future_lost `{SqliteLaws} (ctx : opendbsc_sqlite_ctx) (s : OpenDBSC_Session)
    (id : string) (w : world) :
  quiet w → db_ready (sq_db ctx) → s_id s = Some id → s_user_id s ≠ None →
  time_ok (s_created_at s) → s_has_expires s = true →
  year_9999_end ≤ s_expires_at s < gmtime_end → db_table (sq_db ctx) !! id = None →
  ∃ ctx' ctx'', sqlite_create ctx (Some s) w = Ret (0, ctx') w ∧
    is_Some (db_table (sq_db ctx') !! id) ∧
    sqlite_get ctx' (Some id) (Some None) w = Ret (-1, Some None, ctx'') w ∧
    db_table (sq_db ctx'') = db_table (sq_db ctx').
Proof.
  intros Hq Hdb Hid Hu Hc He Hfar Hnone. destruct (s_user_id s) as [u|] eqn:Hu'; [|done].
  destruct (far_future_text _ Hfar) as (e & Hf & Hp).
  destruct (format_parse_rfc3339 _ Hc) as (c & Hfc & Hpc).
  set (r := Row id u (state_text s) (s_public_key s) (s_algorithm s) (s_challenge s) (Some e) c).
  assert (row_of_session s = Some r) as Hr.
  { unfold row_of_session, expires_column. by rewrite Hid, Hu', He, Hf, Hfc. }
  assert (session_of_row r = None) as Hnr.
  { unfold session_of_row. cbn. rewrite state_roundtrip. cbn. by rewrite Hp. }
  destruct (sqlite_create_run ctx s r w (quiet_no_oom _ Hq) Hdb Hr Hnone) as (ctx' & Hcr & Hdb' & Ht).
  destruct (sqlite_get_run ctx' id None w Hq Hdb') as (ctx'' & _ & Hg). exists ctx', ctx''.
  rewrite Ht in *. cbn [col_id r] in *. rewrite lookup_insert_eq in *. cbn [mbind option_bind] in Hg.
  rewrite Hnr in Hg. destruct Hg as [Hg Ht'']. by split_and!.
Qed.

(** ** Witnesses *)

(** A database of one session, which expired at the time 900. *)
Definition ref_row : srow :=
  Row "a" "alice" "active" None None (Some "c") (Some "1970-01-01T00:15:00Z") "1970-01-01T00:01:40Z".
Definition ref_ctx : opendbsc_sqlite_ctx := SqliteCtx (RefDb (<["a" := ref_row]> ∅) 0).
Definition ref_session : OpenDBSC_Session :=
  Session (Some "b") (Some "bob") OPENDBSC_SESSION_STATE_ACTIVE None None (Some "c") 2000 true 1000.

Lemma ref_ctx_ok : table_ok (db_table (sq_db ref_ctx)).
Proof.
  eapply table_ok_insert; [apply map_Forall_empty|reflexivity|vm_compute; reflexivity].
Qed.

(** A failed allocation revives an expired session.  [sqlite3_column_text]
    returns NULL when it runs out of memory, as it does for SQL [NULL]; for
    the column [expires_at] that means a session without expiry, so a [get]
    that should answer -1 and delete the session hands it out as one that
    never expires. *)
Theorem sqlite_oom_revives_expired :
  ∃ s ctx' w', quiet (fair_world 1000) ∧
    lookup_live 1000 "a" (table_view (db_table (sq_db ref_ctx))) = None ∧
    sqlite_get ref_ctx (Some "a") (Some None)
      (World [true; true; true; true; true; true; true; true; false] 1000 [] [] [] []) =
      Ret (0, Some (Some s), ctx') w' ∧
    s_id s = Some "a" ∧ s_has_expires s = false.
Proof.
  destruct (run_shows (sqlite_get ref_ctx (Some "a") (Some None))
    (World [true; true; true; true; true; true; true; true; false] 1000 [] [] [] [])
    (λ '(rc, out, _), match out with
       | Some (Some s) => (rc =? 0) && bool_decide (s_id s = Some "a") && negb (s_has_expires s)
       | _ => false
       end)) as ([[rc [[s|]|]] ctx'] & w' & Hrun & Ht); [vm_compute; reflexivity| |done..].
  rewrite !andb_true_iff, Z.eqb_eq, bool_decide_eq_true, negb_true_iff in Ht.
  destruct Ht as [[-> ?] ?]. exists s, ctx', w'.
  split; [done|]. split; [vm_compute; reflexivity|]. by split.
Qed.

Lemma sqlite_store_refines_map_witness :
  quiet (fair_world 1000) ∧ table_ok (db_table (sq_db ref_ctx)) ∧
  ∃ r ctx', exec_op (OpCreate (Some ref_session)) ref_ctx (fair_world 1000) =
      Ret (r, ctx') (fair_world 1000) ∧ db_ready (sq_db ctx') ∧ table_ok (db_table (sq_db ctx')) ∧
    sql_spec 0 1000 (OpCreate (Some ref_session)) (table_view (db_table (sq_db ref_ctx))) r
      (table_view (db_table (sq_db ctx'))).
Proof.
  split; [done|]. split; [apply ref_ctx_ok|].
  apply (sqlite_store_refines_map (OpCreate (Some ref_session)) ref_ctx (fair_world 1000));
    [done|exact I|apply ref_ctx_ok|].
  intros _. split; unfold time_ok; cbn; try done; lia.
Defined.

Lemma sqlite_replies_well_formed_witness :
  (∀ u out n, OpGet (Some "a") (Some None) ≠ OpGetByUser u out n) ∧
  wp (exec_op (OpGet (Some "a") (Some None)) ref_ctx) (World [true; false] 1000 [] [] [] [])
    (λ '(r, _) w', env_step (World [true; false] 1000 [] [] [] []) w' ∧
       reply_ok (OpGet (Some "a") (Some None)) r).
Proof. split; [done|]. by apply sqlite_replies_well_formed. Defined.

Lemma sqlite_bind_failure_undefined_witness :
  w_alloc (World [true; false] 1000 [] [] [] []) = true :: false :: [] ∧
  sqlite_get_by_user_id ref_ctx (Some "alice") (Some []) (Some 0%nat)
    (World [true; false] 1000 [] [] [] []) = UB.
Proof. split; [done|]. by apply (sqlite_bind_failure_undefined _ _ _ _ _ []). Defined.

Definition far_session : OpenDBSC_Session :=
  Session (Some "b") (Some "bob") OPENDBSC_SESSION_STATE_ACTIVE None None (Some "c")
    253402300800 true 1000.

Lemma sqlite_far_future_lost_witness :
  s_expires_at far_session = year_9999_end ∧
  ∃ ctx' ctx'', sqlite_create ref_ctx (Some far_session) (fair_world 1000) =
      Ret (0, ctx') (fair_world 1000) ∧
    is_Some (db_table (sq_db ctx') !! "b") ∧
    sqlite_get ctx' (Some "b") (Some None) (fair_world 1000) =
      Ret (-1, Some None, ctx'') (fair_world 1000) ∧
    db_table (sq_db ctx'') = db_table (sq_db ctx').
Proof.
  split; [reflexivity|].
  apply (sqlite_far_future_lost ref_ctx far_session "b" (fair_world 1000)); try done;
    unfold time_ok, year_9999_end, gmtime_end; cbn; lia.
Defined.
