(* ===== verification/OdbcStore.v ===== *)
(** [src/store/odbc.c]: the ODBC session store, over any ODBC driver, with
    its mutex, its statement wrapper and the reading of columns in pieces. *)

From S2P Require Export Sql.
From stdpp Require Import options.
#[local] Open Scope Z_scope.

(** ** The driver

    The functions of [sql.h] and [sqlext.h] the source calls, on handles
    whatever they are.  A connection carries the database.  [odbc_rows] bounds
    the rows a query delivers, [odbc_unread] the characters of a column that
    have not been read.  [SQLBindParameter] is told the direction, the types,
    the column size, the digits and the length of the buffer of a parameter;
    the buffer and its indicator are deferred, so the driver is given what
    they hold when the statement is executed. *)
Definition SQL_SUCCESS : Z := 0.
Definition SQL_SUCCESS_WITH_INFO : Z := 1.
Definition SQL_NO_DATA : Z := 100.
Definition SQL_ERROR : Z := -1.
Definition SQL_NTS : Z := -3.
Definition SQL_NULL_DATA : Z := -1.
Definition SQL_NO_TOTAL : Z := -4.
Definition SQL_PARAM_INPUT : Z := 1.
Definition SQL_C_CHAR : Z := 1.
Definition SQL_VARCHAR : Z := 12.

(** [SQL_SUCCEEDED(rc)]: [((rc) & ~1) == 0]. *)
Definition SQL_SUCCEEDED (rc : Z) : bool := Z.land rc (Z.lnot 1) =? 0.

Class Odbc := {
  SQLHENV : Type;
  SQLHDBC : Type;
  SQLHSTMT : Type;
  odbc_alloc_env : Z * SQLHENV;
  odbc_set_version : SQLHENV → Z * SQLHENV;
  odbc_alloc_dbc : SQLHENV → Z * SQLHDBC;
  odbc_set_login_timeout : SQLHDBC → Z → Z * SQLHDBC;
  odbc_driver_connect : SQLHDBC → string → Z * SQLHDBC;
  odbc_alloc_stmt : SQLHDBC → Z * SQLHSTMT;
  odbc_sql_prepare : SQLHDBC → SQLHSTMT → string → Z * SQLHSTMT;
  odbc_bind_parameter : SQLHSTMT → Z → Z → Z → Z → Z → Z → Z → Z * SQLHSTMT;
  odbc_execute : SQLHDBC → SQLHSTMT → list (cstr * Z) → Z * (SQLHDBC * SQLHSTMT);
  odbc_exec_direct : SQLHDBC → SQLHSTMT → string → Z * (SQLHDBC * SQLHSTMT);
  odbc_fetch : SQLHDBC → SQLHSTMT → Z * SQLHSTMT;
  odbc_get_data : SQLHSTMT → Z → nat → Z * (Z * string * SQLHSTMT);
  odbc_row_count : SQLHSTMT → Z * Z;
  odbc_rows : SQLHDBC → nat;
  odbc_unread : SQLHSTMT → Z → nat
}.

(** A call that returns a status, and fails when it cannot allocate. *)
Definition odbc_call {A} (r : Z * A) (old : A) : C (Z * A) :=
  ok ← malloc; mret (if ok : bool then r else (SQL_ERROR, old)).

(** ** Operations *)

Definition OPENDBSC_ODBC_MAX_PARAMS : nat := 8.

Record OpenDBSC_OdbcConfig := OdbcConfig {
  cfg_connection_string : cstr;
  cfg_table_name : cstr;
  cfg_auto_create_table : bool;
  cfg_login_timeout_seconds : Z
}.

(** [c >= lo && c <= hi] for the letters, the digits and the underscore. *)
Definition identifier_char (c : ascii) : bool :=
  char_between "a" "z" c || char_between "A" "Z" c || char_between "0" "9" c || Ascii.eqb c "_".

Definition is_valid_identifier (name : cstr) : bool :=
  match name with
  | None => false
  | Some s => if String.eqb s "" then false else str_forall identifier_char s
  end.

(** The SQL texts, cut to the array they are formatted into. *)
Definition delete_sql (table_name : string) : string :=
  snprintf 256 ("DELETE FROM " +:+ table_name +:+ " WHERE id = ?").
Definition delete_by_user_sql (table_name : string) : string :=
  snprintf 256 ("DELETE FROM " +:+ table_name +:+ " WHERE user_id = ?").
Definition insert_sql (table_name : string) : string :=
  snprintf 512 ("INSERT INTO " +:+ table_name +:+
    (" (id, user_id, state, public_key, algorithm, " +:+
     "challenge, expires_at, created_at) " +:+
     "VALUES (?, ?, ?, ?, ?, ?, ?, ?)")).
Definition update_sql (table_name : string) : string :=
  snprintf 512 ("UPDATE " +:+ table_name +:+
    (" SET user_id = ?, state = ?, public_key = ?, " +:+
     "algorithm = ?, challenge = ?, expires_at = ? WHERE id = ?")).
Definition build_select_sql (table_name condition : string) (buf_size : nat) : string :=
  snprintf buf_size (("SELECT id, user_id, state, public_key, algorithm, challenge, " +:+
    "expires_at, created_at FROM ") +:+ table_name +:+ " WHERE " +:+ condition).

(** The parameter [expires_at]: NULL, or the text in [expires_buf]. *)
Definition expires_param (session : OpenDBSC_Session) : option cstr :=
  if s_has_expires session then Some <$> format_rfc3339_utc (s_expires_at session) 32
  else Some None.

Section odbc.
Context `{Odbc}.

(** [impl]: the connection, the mutex and the table name (the environment
    handle and the back pointer are only used to destroy the store). *)
Record opendbsc_odbc_ctx := OdbcCtx {
  oc_dbc : SQLHDBC;
  oc_mutex : bool;
  oc_table_name : string
}.

Definition with_dbc (dbc : SQLHDBC) (ctx : opendbsc_odbc_ctx) : opendbsc_odbc_ctx :=
  OdbcCtx dbc (oc_mutex ctx) (oc_table_name ctx).
Definition odbc_lock (ctx : opendbsc_odbc_ctx) : C opendbsc_odbc_ctx :=
  if oc_mutex ctx then hang else mret (OdbcCtx (oc_dbc ctx) true (oc_table_name ctx)).
Definition odbc_unlock (ctx : opendbsc_odbc_ctx) : opendbsc_odbc_ctx :=
  OdbcCtx (oc_dbc ctx) false (oc_table_name ctx).

(** [stmt] is NULL before the handle is allocated; the buffers of the
    parameters bound so far with their indicators, [nparams] of them: the code
    does not write to them before the statement is executed.  A wrapper is
    dropped where the code closes it: handles, like memory, are not counted. *)
Record odbc_stmt := OdbcStmt { os_stmt : option SQLHSTMT; os_params : list (cstr * Z) }.

Definition odbc_prepare (ctx : opendbsc_odbc_ctx) (sql : string) : C (Z * odbc_stmt) :=
  let closed := OdbcStmt None [] in
  ok ← malloc;
  if negb ok then mret (-1, closed) else
  let '(rc, stmt) := odbc_alloc_stmt (oc_dbc ctx) in
  if negb (rc =? SQL_SUCCESS) then mret (-1, closed) else
  '(rc, stmt) ← odbc_call (odbc_sql_prepare (oc_dbc ctx) stmt sql) stmt;
  if negb (rc =? SQL_SUCCESS) then mret (-1, closed) else
  mret (0, OdbcStmt (Some stmt) []).

Definition odbc_bind_text (s : odbc_stmt) (text : cstr) : C (Z * odbc_stmt) :=
  if decide (OPENDBSC_ODBC_MAX_PARAMS ≤ length (os_params s))%nat then mret (-1, s) else
  let idx := Z.of_nat (length (os_params s)) + 1 in
  let ind := match text with Some _ => SQL_NTS | None => SQL_NULL_DATA end in
  stmt ← deref (os_stmt s);
  '(rc, stmt) ← odbc_call (odbc_bind_parameter stmt idx SQL_PARAM_INPUT SQL_C_CHAR
                             SQL_VARCHAR 1024 0 0) stmt;
  mret (if SQL_SUCCEEDED rc then 0 else -1, OdbcStmt (Some stmt) (os_params s ++ [(text, ind)])).

(** [odbc_bind_text(&s, a) != 0 || odbc_bind_text(&s, b) != 0 || ...] *)
Fixpoint odbc_bind_texts (s : odbc_stmt) (texts : list cstr) : C (Z * odbc_stmt) :=
  match texts with
  | [] => mret (0, s)
  | t :: texts' =>
      '(rc, s) ← odbc_bind_text s t;
      if negb (rc =? 0) then mret (-1, s) else odbc_bind_texts s texts'
  end.

(** [SQLExecute(s.stmt)]: the driver reads the buffers that were bound. *)
Definition odbc_run (ctx : opendbsc_odbc_ctx) (s : odbc_stmt)
    : C (Z * opendbsc_odbc_ctx * odbc_stmt) :=
  stmt ← deref (os_stmt s);
  '(rc, (dbc, stmt)) ← odbc_call (odbc_execute (oc_dbc ctx) stmt (os_params s))
                            (oc_dbc ctx, stmt);
  mret (rc, with_dbc dbc ctx, OdbcStmt (Some stmt) (os_params s)).

(** [SQLFetch(s.stmt)]. *)
Definition odbc_next (ctx : opendbsc_odbc_ctx) (s : odbc_stmt) : C (Z * odbc_stmt) :=
  stmt ← deref (os_stmt s);
  '(rc, stmt) ← odbc_call (odbc_fetch (oc_dbc ctx) stmt) stmt;
  mret (rc, OdbcStmt (Some stmt) (os_params s)).

(** The loop of [odbc_get_text]: [buf] is what has been read.  Copying more
    of [chunk] than the driver has written is undefined. *)
Fixpoint get_text_loop (fuel : nat) (stmt : SQLHSTMT) (col : Z) (buf : cstr)
    : C (Z * cstr * SQLHSTMT) :=
  match fuel with
  | O => hang
  | S fuel' =>
      '(rc, (ind, chunk, stmt)) ← odbc_call (odbc_get_data stmt col 512) (0, "", stmt);
      if rc =? SQL_ERROR then mret (-1, None, stmt) else
      if ind =? SQL_NULL_DATA then mret (0, None, stmt) else
      let got := if (ind =? SQL_NO_TOTAL) || (511 <? (ind `mod` 2 ^ 64)) then 511%nat
                 else Z.to_nat ind in
      next ← malloc;
      if negb next then mret (-1, None, stmt) else
      if decide (String.length chunk < got)%nat then ub else
      let buf := default "" buf +:+ str_take got chunk in
      if negb (rc =? SQL_SUCCESS_WITH_INFO) then mret (0, Some buf, stmt)
      else get_text_loop fuel' stmt col (Some buf)
  end.

Definition odbc_get_text (stmt : SQLHSTMT) (col : Z) : C (Z * cstr * SQLHSTMT) :=
  get_text_loop (S (odbc_unread stmt col)) stmt col None.

(** [for (i = 0; i < 8; i++) odbc_get_text(stmt, i + 1, &cols[i])]: the
    columns, or [None] when one of them could not be read. *)
Fixpoint read_columns (n : nat) (stmt : SQLHSTMT) (col : Z) (cols : list cstr)
    : C (option (list cstr) * SQLHSTMT) :=
  match n with
  | O => mret (Some cols, stmt)
  | S n' =>
      '(rc, text, stmt) ← odbc_get_text stmt col;
      if negb (rc =? 0) then mret (None, stmt)
      else read_columns n' stmt (col + 1) (cols ++ [text])
  end.

Definition session_from_row (stmt : SQLHSTMT) (session : OpenDBSC_Session)
    : C (Z * OpenDBSC_Session * SQLHSTMT) :=
  '(cols, stmt) ← read_columns 8 stmt 1 [];
  match cols with
  | None => mret (-1, session, stmt)
  | Some cols =>
      let col i := default None (cols !! i) in
      '(rc, session) ← fill_session (col 0%nat) (col 1%nat) (col 2%nat) (col 3%nat) (col 4%nat)
                          (col 5%nat) (col 6%nat) (col 7%nat) session;
      mret (rc, session, stmt)
  end.

Definition odbc_delete_unlocked (ctx : opendbsc_odbc_ctx) (id : string)
    : C (Z * opendbsc_odbc_ctx) :=
  let sql := delete_sql (oc_table_name ctx) in
  '(rc, s) ← odbc_prepare ctx sql;
  if negb (rc =? 0) then mret (-1, ctx) else
  '(rc, s) ← odbc_bind_text s (Some id);
  if negb (rc =? 0) then mret (-1, ctx) else
  '(rc, ctx, s) ← odbc_run ctx s;
  mret (if SQL_SUCCEEDED rc then 0 else -1, ctx).

Definition odbc_create (ctx : opendbsc_odbc_ctx) (session : option OpenDBSC_Session)
    : C (Z * opendbsc_odbc_ctx) :=
  match session with
  | None => mret (-1, ctx)
  | Some s =>
      match s_id s, expires_param s, format_rfc3339_utc (s_created_at s) 32 with
      | Some _, Some expires, Some created_buf =>
          let state := opendbsc_session_state_str session in
          let sql := insert_sql (oc_table_name ctx) in
          ctx ← odbc_lock ctx;
          '(rc, stmt) ← odbc_prepare ctx sql;
          if negb (rc =? 0) then mret (-1, odbc_unlock ctx) else
          '(rc, stmt) ← odbc_bind_texts stmt
             [s_id s; s_user_id s; state; s_public_key s; s_algorithm s; s_challenge s;
              expires; Some created_buf];
          if negb (rc =? 0) then mret (-1, odbc_unlock ctx) else
          '(rc, ctx, stmt) ← odbc_run ctx stmt;
          mret (if SQL_SUCCEEDED rc then 0 else -1, odbc_unlock ctx)
      | _, _, _ => mret (-1, ctx)
      end
  end.

Definition odbc_get (ctx : opendbsc_odbc_ctx) (id : cstr)
    (out : option (option OpenDBSC_Session))
    : C (Z * option (option OpenDBSC_Session) * opendbsc_odbc_ctx) :=
  match id, out with
  | Some id, Some _ =>
      let sql := build_select_sql (oc_table_name ctx) "id = ?" 512 in
      ctx ← odbc_lock ctx;
      '(rc, s) ← odbc_prepare ctx sql;
      if negb (rc =? 0) then mret (-1, Some None, odbc_unlock ctx) else
      '(rc, s) ← odbc_bind_text s (Some id);
      if negb (rc =? 0) then mret (-1, Some None, odbc_unlock ctx) else
      '(rc, ctx, s) ← odbc_run ctx s;
      if negb (SQL_SUCCEEDED rc) then mret (-1, Some None, odbc_unlock ctx) else
      '(rc, s) ← odbc_next ctx s;
      if negb (rc =? SQL_SUCCESS) then mret (-1, Some None, odbc_unlock ctx) else
      ok ← malloc;
      if negb ok then mret (-1, Some None, odbc_unlock ctx) else
      session ← deref (opendbsc_session_init (Some session_default));
      stmt ← deref (os_stmt s);
      '(rc, session, stmt) ← session_from_row stmt session;
      if negb (rc =? 0) then mret (-1, Some None, odbc_unlock ctx) else
      now ← time_NULL;
      if expired now session then
        '(_, ctx) ← odbc_delete_unlocked ctx id;
        mret (-1, Some None, odbc_unlock ctx)
      else mret (0, Some (Some session), odbc_unlock ctx)
  | _, _ => mret (-1, out, ctx)
  end.

Definition odbc_update (ctx : opendbsc_odbc_ctx) (session : option OpenDBSC_Session)
    : C (Z * opendbsc_odbc_ctx) :=
  match session with
  | None => mret (-1, ctx)
  | Some s =>
      match s_id s, expires_param s with
      | Some _, Some expires =>
          let state := opendbsc_session_state_str session in
          let sql := update_sql (oc_table_name ctx) in
          ctx ← odbc_lock ctx;
          '(rc, stmt) ← odbc_prepare ctx sql;
          if negb (rc =? 0) then mret (-1, odbc_unlock ctx) else
          '(rc, stmt) ← odbc_bind_texts stmt
             [s_user_id s; state; s_public_key s; s_algorithm s; s_challenge s; expires; s_id s];
          if negb (rc =? 0) then mret (-1, odbc_unlock ctx) else
          '(rc, ctx, stmt) ← odbc_run ctx stmt;
          if negb (SQL_SUCCEEDED rc) then mret (-1, odbc_unlock ctx) else
          handle ← deref (os_stmt stmt);
          '(rc, affected) ← odbc_call (odbc_row_count handle) 0;
          mret (if negb (SQL_SUCCEEDED rc) || (affected <=? 0) then -1 else 0, odbc_unlock ctx)
      | _, _ => mret (-1, ctx)
      end
  end.

Definition odbc_delete (ctx : opendbsc_odbc_ctx) (id : cstr) : C (Z * opendbsc_odbc_ctx) :=
  match id with
  | None => mret (-1, ctx)
  | Some id =>
      ctx ← odbc_lock ctx;
      '(rc, ctx) ← odbc_delete_unlocked ctx id;
      mret (rc, odbc_unlock ctx)
  end.

(** The loop over the rows, as in the SQLite store; [SQLFetch] ends it with
    a code other than [SQL_SUCCESS]. *)
Fixpoint odbc_fetch_loop (fuel : nat) (now : Z) (ctx : opendbsc_odbc_ctx) (s : odbc_stmt)
    (sessions : list OpenDBSC_Session) (expired_ids : list string)
    : C (option (Z * list OpenDBSC_Session * list string)) :=
  match fuel with
  | O => hang
  | S fuel' =>
      '(fetch_rc, s) ← odbc_next ctx s;
      if negb (fetch_rc =? SQL_SUCCESS) then mret (Some (fetch_rc, sessions, expired_ids)) else
      stmt ← deref (os_stmt s);
      '(rc, tmp, stmt) ← session_from_row stmt session_default;
      let s := OdbcStmt (Some stmt) (os_params s) in
      if negb (rc =? 0) then mret None else
      if expired now tmp then
        id ← need_str (s_id tmp);
        copy ← strdup id;
        match copy with
        | None => mret None
        | Some copy =>
            ok ← malloc;
            if negb ok then mret None else
            odbc_fetch_loop fuel' now ctx s sessions (expired_ids ++ [copy])
        end
      else
        ok ← malloc;
        if negb ok then mret None else
        odbc_fetch_loop fuel' now ctx s (sessions ++ [tmp]) expired_ids
  end.

Fixpoint odbc_delete_expired (ctx : opendbsc_odbc_ctx) (expired_ids : list string)
    : C opendbsc_odbc_ctx :=
  match expired_ids with
  | [] => mret ctx
  | id :: ids' => '(_, ctx) ← odbc_delete_unlocked ctx id; odbc_delete_expired ctx ids'
  end.

Definition odbc_get_by_user_id (ctx : opendbsc_odbc_ctx) (user_id : cstr)
    (out : option (list OpenDBSC_Session)) (count : option nat)
    : C (Z * option (list OpenDBSC_Session) * option nat * opendbsc_odbc_ctx) :=
  match user_id, out, count with
  | Some user_id, Some _, Some _ =>
      let sql := build_select_sql (oc_table_name ctx) "user_id = ?" 512 in
      now ← time_NULL;
      ctx ← odbc_lock ctx;
      let fail ctx := mret (-1, Some [], Some 0%nat, odbc_unlock ctx) in
      '(rc, s) ← odbc_prepare ctx sql;
      if negb (rc =? 0) then fail ctx else
      '(rc, s) ← odbc_bind_text s (Some user_id);
      if negb (rc =? 0) then fail ctx else
      '(rc, ctx, s) ← odbc_run ctx s;
      if negb (SQL_SUCCEEDED rc) then fail ctx else
      r ← odbc_fetch_loop (S (odbc_rows (oc_dbc ctx))) now ctx s [] [];
      match r with
      | None => fail ctx
      | Some (fetch_rc, sessions, expired_ids) =>
          if negb (fetch_rc =? SQL_NO_DATA) then fail ctx else
          ctx ← odbc_delete_expired ctx expired_ids;
          mret (0, Some sessions, Some (length sessions), odbc_unlock ctx)
      end
  | _, _, _ => mret (-1, out, count, ctx)
  end.

Definition odbc_delete_by_user_id (ctx : opendbsc_odbc_ctx) (user_id : cstr)
    : C (Z * opendbsc_odbc_ctx) :=
  match user_id with
  | None => mret (-1, ctx)
  | Some user_id =>
      let sql := delete_by_user_sql (oc_table_name ctx) in
      ctx ← odbc_lock ctx;
      '(rc, s) ← odbc_prepare ctx sql;
      if negb (rc =? 0) then mret (-1, odbc_unlock ctx) else
      '(rc, s) ← odbc_bind_text s (Some user_id);
      if negb (rc =? 0) then mret (-1, odbc_unlock ctx) else
      '(rc, ctx, s) ← odbc_run ctx s;
      mret (if SQL_SUCCEEDED rc then 0 else -1, odbc_unlock ctx)
  end.

(** The connection is closed and everything freed. *)
Definition odbc_destroy (ctx : option opendbsc_odbc_ctx) : option opendbsc_odbc_ctx := None.

(** A statement whose outcome is ignored: the connection after it. *)
Definition odbc_exec_ignore (dbc : SQLHDBC) (sql : string) : C SQLHDBC :=
  ok ← malloc;
  if negb ok then mret dbc else
  let '(rc, stmt) := odbc_alloc_stmt dbc in
  if negb (rc =? SQL_SUCCESS) then mret dbc else
  '(_, (dbc, stmt)) ← odbc_call (odbc_exec_direct dbc stmt sql) (dbc, stmt);
  mret dbc.

Definition odbc_create_schema (dbc : SQLHDBC) (table_name : string) : C SQLHDBC :=
  dbc ← odbc_exec_ignore dbc (snprintf 1024 ("CREATE TABLE " +:+ table_name +:+ (" (" +:+
     "  id         VARCHAR(64) PRIMARY KEY," +:+
     "  user_id    VARCHAR(255) NOT NULL," +:+
     "  state      VARCHAR(16) NOT NULL DEFAULT 'active'," +:+
     "  public_key TEXT," +:+
     "  algorithm  VARCHAR(64)," +:+
     "  challenge  TEXT," +:+
     "  expires_at VARCHAR(32)," +:+
     "  created_at VARCHAR(32) NOT NULL" +:+
     ")")));
  dbc ← odbc_exec_ignore dbc (snprintf 1024 ("CREATE INDEX idx_" +:+ table_name +:+
     "_user_id ON " +:+ table_name +:+ "(user_id)"));
  odbc_exec_ignore dbc (snprintf 1024 ("CREATE INDEX idx_" +:+ table_name +:+
     "_expires_at ON " +:+ table_name +:+ "(expires_at)")).

(** [pthread_mutex_init] and the handle allocations can fail like an
    allocation does; every failure frees what was made and returns NULL. *)
Definition opendbsc_odbc_store_create (config : option OpenDBSC_OdbcConfig)
    : C (option opendbsc_odbc_ctx) :=
  match config with
  | None => mret None
  | Some config =>
      match cfg_connection_string config with
      | None => mret None
      | Some connection_string =>
          let tbl := default "sessions" (cfg_table_name config) in
          if negb (is_valid_identifier (Some tbl)) then mret None else
          ok ← malloc;
          if negb ok then mret None else
          table_name ← strdup tbl;
          match table_name with
          | None => mret None
          | Some table_name =>
              mutex ← malloc;
              if negb mutex then mret None else
              ok ← malloc;
              if negb ok then mret None else
              let '(rc, env) := odbc_alloc_env in
              if negb (rc =? SQL_SUCCESS) then mret None else
              '(rc, env) ← odbc_call (odbc_set_version env) env;
              if negb (rc =? SQL_SUCCESS) then mret None else
              ok ← malloc;
              if negb ok then mret None else
              let '(rc, dbc) := odbc_alloc_dbc env in
              if negb (rc =? SQL_SUCCESS) then mret None else
              '(_, dbc) ← (if 0 <? cfg_login_timeout_seconds config then
                             odbc_call (odbc_set_login_timeout dbc
                                          (cfg_login_timeout_seconds config)) dbc
                           else mret (SQL_SUCCESS, dbc));
              '(rc, dbc) ← odbc_call (odbc_driver_connect dbc connection_string) dbc;
              if negb (SQL_SUCCEEDED rc) then mret None else
              dbc ← (if cfg_auto_create_table config then odbc_create_schema dbc table_name
                     else mret dbc);
              store ← malloc;
              if negb store then mret None else
              mret (Some (OdbcCtx dbc false table_name))
          end
      end
  end.

#[export] Instance odbc_Store : Store opendbsc_odbc_ctx := {
  st_create := odbc_create;
  st_get := odbc_get;
  st_update := odbc_update;
  st_delete := odbc_delete;
  st_get_by_user_id := odbc_get_by_user_id;
  st_delete_by_user_id := odbc_delete_by_user_id
}.

End odbc.

(** ** What the ODBC documentation says

    What a statement handle is doing: allocated, prepared with so many
    parameters bound, in front of rows, on a row (of which [unread] gives what has
    not been read of each column), or done. *)
Inductive odbc_state :=
| OAllocated
| OPrepared (s : statement) (bound : nat)
| OCursor (t : table) (rest : list srow)
| OOnRow (t : table) (rest : list srow) (unread : Z → cstr)
| ODone (affected : Z).

(** The rows in front of a cursor. *)
Definition rows_ahead (st : odbc_state) : option (table * list srow) :=
  match st with OCursor t l | OOnRow t l _ => Some (t, l) | _ => None end.

Definition column_of (r : srow) (col : Z) : cstr := default None (columns r !! Z.to_nat (col - 1)).

Definition is_query (s : statement) : bool :=
  match s with SelectId | SelectUser => true | _ => false end.

(** How many characters a column of the schema of [odbc_create_schema] has
    room for (a [TEXT] for any number); the parameters are bound as a
    [SQL_VARCHAR] of 1024 characters. *)
Definition column_widths : list (option nat) :=
  [Some 64; Some 255; Some 16; None; Some 64; None; Some 32; Some 32]%nat.
Definition column_width (c : nat) : nat :=
  match column_widths !! c with Some (Some n) => n | _ => 1024 end.

(** What the driver finds in a buffer bound to a parameter. *)
Definition bound_text (v : cstr) : cstr * Z :=
  (v, match v with Some _ => SQL_NTS | None => SQL_NULL_DATA end).

(** [odbc_ready db tbl]: the table [tbl] exists with its columns.  A statement
    that affects no row succeeds, or answers [SQL_NO_DATA] as ODBC 3 says it
    should ([odbc_no_data]); an UPDATE counts the rows it matches.  [odbc_takes]
    are the texts that driver and database take as they are for a column: all
    that are no longer than the column and than the size the parameter was
    bound with.  What happens to a longer one (an error, a text cut short, or
    nothing at all) depends on them, and nothing is said about it. *)
Class OdbcLaws `{Odbc} := {
  odbc_ready : SQLHDBC → string → Prop;
  odbc_table : SQLHDBC → string → table;
  odbc_is : SQLHSTMT → odbc_state;
  odbc_no_data : bool;
  odbc_law_alloc db tbl :
    odbc_ready db tbl →
    ∃ st, odbc_alloc_stmt db = (SQL_SUCCESS, st) ∧ odbc_is st = OAllocated;
  odbc_takes : nat → string → Prop;
  odbc_law_takes c v : (String.length v ≤ column_width c)%nat → odbc_takes c v;
  odbc_law_prepare db tbl st s :
    odbc_ready db tbl → odbc_is st = OAllocated →
    ∃ st', odbc_sql_prepare db st (statement_text tbl s) = (SQL_SUCCESS, st') ∧
      odbc_is st' = OPrepared s 0;
  odbc_law_bind st s i :
    odbc_is st = OPrepared s i → (i < statement_params s)%nat →
    ∃ rc st', odbc_bind_parameter st (Z.of_nat i + 1) SQL_PARAM_INPUT SQL_C_CHAR SQL_VARCHAR
        1024 0 0 = (rc, st') ∧
      SQL_SUCCEEDED rc = true ∧ odbc_is st' = OPrepared s (S i);
  odbc_law_execute db tbl st s params :
    odbc_ready db tbl → odbc_is st = OPrepared s (statement_params s) →
    texts_taken odbc_takes (statement_columns s) params →
    ∃ rc db' st', odbc_execute db st (bound_text <$> params) = (rc, (db', st')) ∧
      odbc_ready db' tbl ∧
      match statement_meaning s params (odbc_table db tbl) with
      | Done rows t n =>
          odbc_table db' tbl = t ∧
          (if is_query s then ∃ l, l ≡ₚ rows ∧ odbc_is st' = OCursor t l else odbc_is st' = ODone n) ∧
          (if negb (is_query s) && (n =? 0) && odbc_no_data then rc = SQL_NO_DATA
           else SQL_SUCCEEDED rc = true)
      | Rejected => odbc_table db' tbl = odbc_table db tbl ∧ SQL_SUCCEEDED rc = false
      | Unspecified => True
      end;
  odbc_law_row_count st n :
    odbc_is st = ODone n → ∃ rc, odbc_row_count st = (rc, n) ∧ SQL_SUCCEEDED rc = true;
  odbc_law_fetch db tbl st l :
    odbc_ready db tbl → rows_ahead (odbc_is st) = Some (odbc_table db tbl, l) →
    ∃ st', match l with
           | [] => odbc_fetch db st = (SQL_NO_DATA, st')
           | r :: l' => odbc_fetch db st = (SQL_SUCCESS, st') ∧
                        odbc_is st' = OOnRow (odbc_table db tbl) l' (column_of r)
           end;
  odbc_law_data_null st t l u col :
    odbc_is st = OOnRow t l u → u col = None →
    ∃ chunk st', odbc_get_data st col 512 = (SQL_SUCCESS, (SQL_NULL_DATA, chunk, st')) ∧
      odbc_is st' = OOnRow t l u;
  odbc_law_data_last st t l u col s :
    odbc_is st = OOnRow t l u → u col = Some s → (String.length s ≤ 511)%nat →
    ∃ st' u', odbc_get_data st col 512 =
        (SQL_SUCCESS, (Z.of_nat (String.length s), s, st')) ∧
      odbc_is st' = OOnRow t l u' ∧ (∀ c, c ≠ col → u' c = u c);
  odbc_law_data_part st t l u col a b :
    odbc_is st = OOnRow t l u → u col = Some (a +:+ b) → String.length a = 511%nat → b ≠ "" →
    ∃ ind st' u', odbc_get_data st col 512 = (SQL_SUCCESS_WITH_INFO, (ind, a, st')) ∧
      (ind = SQL_NO_TOTAL ∨ 511 < ind < 2 ^ 63) ∧
      odbc_is st' = OOnRow t l u' ∧ u' col = Some b ∧ (∀ c, c ≠ col → u' c = u c);
  odbc_law_unread st t l u col s :
    odbc_is st = OOnRow t l u → u col = Some s → (String.length s ≤ odbc_unread st col)%nat;
  odbc_law_rows db tbl : (size (odbc_table db tbl) ≤ odbc_rows db)%nat
}.

(** ** The texts that fit their arrays *)

Lemma snprintf_fits size s : (String.length s < size)%nat → snprintf size s = s.
Proof. intros H. unfold snprintf. apply str_take_ge. lia. Qed.

(** A table name of at most 225 characters fits every statement. *)
Definition name_fits (tbl : string) : Prop := (String.length tbl ≤ 225)%nat.

Lemma sql_texts tbl :
  name_fits tbl →
  delete_sql tbl = statement_text tbl DeleteId ∧
  delete_by_user_sql tbl = statement_text tbl DeleteUser ∧
  insert_sql tbl = statement_text tbl Insert ∧
  update_sql tbl = statement_text tbl Update ∧
  build_select_sql tbl "id = ?" 512 = statement_text tbl SelectId ∧
  build_select_sql tbl "user_id = ?" 512 = statement_text tbl SelectUser.
Proof.
  unfold name_fits. intros H.
  split_and!; (etrans; [apply snprintf_fits|reflexivity]); rewrite !str_length_app;
    repeat match goal with |- context [String.length ?s] => 
      lazymatch s with tbl => fail | _ => 
        let n := eval vm_compute in (String.length s) in change (String.length s) with n end end; lia.
Qed.

(** ** The calls when nothing fails *)

Section runs.
Context `{OdbcLaws}.

Lemma odbc_call_run {A} (r : Z * A) old w : no_oom w → odbc_call r old w = Ret r w.
Proof. intros Hw. unfold odbc_call. by run_by ltac:(by apply malloc_run). Qed.

Lemma odbc_prepare_run ctx s w :
  no_oom w → odbc_ready (oc_dbc ctx) (oc_table_name ctx) →
  ∃ st, odbc_prepare ctx (statement_text (oc_table_name ctx) s) w =
      Ret (0, OdbcStmt (Some st) []) w ∧
    odbc_is st = OPrepared s 0.
Proof.
  intros Hw Hr. destruct (odbc_law_alloc _ _ Hr) as (st0 & Ha & Hst0).
  destruct (odbc_law_prepare _ _ st0 s Hr Hst0) as (st & Hp & Hst). exists st. split; [|done].
  unfold odbc_prepare. step_by ltac:(by apply malloc_run). rewrite Ha. eval_tests.
  step_by ltac:(rewrite odbc_call_run by done; by rewrite Hp). done.
Qed.

Lemma odbc_bind_text_run st ps s v w :
  no_oom w → odbc_is st = OPrepared s (length ps) → (length ps < statement_params s)%nat →
  ∃ st', odbc_bind_text (OdbcStmt (Some st) ps) v w =
      Ret (0, OdbcStmt (Some st') (ps ++ [bound_text v])) w ∧
    odbc_is st' = OPrepared s (S (length ps)).
Proof.
  intros Hw Hst Hl. destruct (odbc_law_bind st s (length ps) Hst Hl) as (rc & st' & Hb & Hrc & Hst').
  exists st'. split; [|done]. unfold odbc_bind_text. cbn [os_params os_stmt].
  unfold OPENDBSC_ODBC_MAX_PARAMS. rewrite decide_False by (destruct s; simpl in Hl; lia).
  run_by ltac:(reflexivity). run_by ltac:(rewrite odbc_call_run by done; by rewrite Hb).
  by rewrite Hrc.
Qed.

Lemma odbc_bind_texts_run texts st ps s w :
  no_oom w → odbc_is st = OPrepared s (length ps) →
  (length ps + length texts = statement_params s)%nat →
  ∃ st', odbc_bind_texts (OdbcStmt (Some st) ps) texts w =
      Ret (0, OdbcStmt (Some st') (ps ++ (bound_text <$> texts))) w ∧
    odbc_is st' = OPrepared s (statement_params s).
Proof.
  intros Hw. revert st ps. induction texts as [|v texts IH]; intros st ps Hst Hl; simpl in Hl.
  { exists st. cbn. by rewrite app_nil_r, <-Hl, Nat.add_0_r. }
  destruct (odbc_bind_text_run st ps s v w Hw Hst) as (st1 & Hb & Hst1); [lia|].
  destruct (IH st1 (ps ++ [bound_text v])) as (st2 & Hrun & Hst2);
    [rewrite length_app; simpl; by rewrite Nat.add_1_r|rewrite length_app; simpl; lia|].
  exists st2. split; [|done]. cbn [odbc_bind_texts fmap list_fmap]. step_by ltac:(exact Hb).
  by rewrite Hrun, <-app_assoc.
Qed.

(** Executing a statement, by what it means. *)
Lemma odbc_run_run ctx st s params w :
  no_oom w → odbc_ready (oc_dbc ctx) (oc_table_name ctx) →
  odbc_is st = OPrepared s (statement_params s) →
  texts_taken odbc_takes (statement_columns s) params →
  ∃ rc dbc st', odbc_run ctx (OdbcStmt (Some st) (bound_text <$> params)) w =
      Ret (rc, with_dbc dbc ctx, OdbcStmt (Some st') (bound_text <$> params)) w ∧
    odbc_ready dbc (oc_table_name ctx) ∧
    match statement_meaning s params (odbc_table (oc_dbc ctx) (oc_table_name ctx)) with
    | Done rows t n =>
        odbc_table dbc (oc_table_name ctx) = t ∧
        (if is_query s then ∃ l, l ≡ₚ rows ∧ odbc_is st' = OCursor t l else odbc_is st' = ODone n) ∧
        (if negb (is_query s) && (n =? 0) && odbc_no_data then rc = SQL_NO_DATA
         else SQL_SUCCEEDED rc = true)
    | Rejected => odbc_table dbc (oc_table_name ctx) = odbc_table (oc_dbc ctx) (oc_table_name ctx) ∧
        SQL_SUCCEEDED rc = false
    | Unspecified => True
    end.
Proof.
  intros Hw Hr Hst Htk.
  destruct (odbc_law_execute _ _ st s params Hr Hst Htk) as (rc & dbc & st' & He & Hr' & Hm).
  exists rc, dbc, st'. split; [|done]. unfold odbc_run. cbn [os_params os_stmt].
  run_by ltac:(reflexivity). by run_by ltac:(rewrite odbc_call_run by done; by rewrite He).
Qed.

(** Executing a statement that is not a query. *)
Lemma odbc_run_done ctx st s params t n w :
  no_oom w → odbc_ready (oc_dbc ctx) (oc_table_name ctx) →
  odbc_is st = OPrepared s (statement_params s) →
  texts_taken odbc_takes (statement_columns s) params →
  is_query s = false → statement_meaning s params (odbc_table (oc_dbc ctx) (oc_table_name ctx)) = Done [] t n →
  ∃ rc dbc st', odbc_run ctx (OdbcStmt (Some st) (bound_text <$> params)) w =
      Ret (rc, with_dbc dbc ctx, OdbcStmt (Some st') (bound_text <$> params)) w ∧
    odbc_ready dbc (oc_table_name ctx) ∧ odbc_table dbc (oc_table_name ctx) = t ∧
    odbc_is st' = ODone n ∧ SQL_SUCCEEDED rc = negb ((n =? 0) && odbc_no_data).
Proof.
  intros Hw Hr Hst Htk Hq Hm.
  destruct (odbc_run_run ctx st s params w Hw Hr Hst Htk) as (rc & dbc & st' & He & Hr' & H').
  rewrite Hm, Hq in H'. destruct H' as (Ht & Hst' & Hrc). exists rc, dbc, st'.
  split_and!; [done..|]. cbn [negb andb] in Hrc.
  destruct ((n =? 0) && odbc_no_data); [by subst rc|done].
Qed.

Lemma odbc_run_rejected ctx st s params w :
  no_oom w → odbc_ready (oc_dbc ctx) (oc_table_name ctx) →
  odbc_is st = OPrepared s (statement_params s) →
  texts_taken odbc_takes (statement_columns s) params →
  statement_meaning s params (odbc_table (oc_dbc ctx) (oc_table_name ctx)) = Rejected →
  ∃ rc dbc st', odbc_run ctx (OdbcStmt (Some st) (bound_text <$> params)) w =
      Ret (rc, with_dbc dbc ctx, OdbcStmt (Some st') (bound_text <$> params)) w ∧
    odbc_ready dbc (oc_table_name ctx) ∧
    odbc_table dbc (oc_table_name ctx) = odbc_table (oc_dbc ctx) (oc_table_name ctx) ∧
    SQL_SUCCEEDED rc = false.
Proof.
  intros Hw Hr Hst Htk Hm.
  destruct (odbc_run_run ctx st s params w Hw Hr Hst Htk) as (rc & dbc & st' & He & Hr' & H').
  rewrite Hm in H'. by exists rc, dbc, st'.
Qed.

Lemma odbc_run_query ctx st s params rows n w :
  no_oom w → odbc_ready (oc_dbc ctx) (oc_table_name ctx) →
  odbc_is st = OPrepared s (statement_params s) →
  texts_taken odbc_takes (statement_columns s) params → is_query s = true →
  statement_meaning s params (odbc_table (oc_dbc ctx) (oc_table_name ctx)) =
    Done rows (odbc_table (oc_dbc ctx) (oc_table_name ctx)) n →
  ∃ rc dbc st' l, odbc_run ctx (OdbcStmt (Some st) (bound_text <$> params)) w =
      Ret (rc, with_dbc dbc ctx, OdbcStmt (Some st') (bound_text <$> params)) w ∧
    odbc_ready dbc (oc_table_name ctx) ∧
    odbc_table dbc (oc_table_name ctx) = odbc_table (oc_dbc ctx) (oc_table_name ctx) ∧
    SQL_SUCCEEDED rc = true ∧ l ≡ₚ rows ∧
    rows_ahead (odbc_is st') = Some (odbc_table dbc (oc_table_name ctx), l).
Proof.
  intros Hw Hr Hst Htk Hq Hm.
  destruct (odbc_run_run ctx st s params w Hw Hr Hst Htk) as (rc & dbc & st' & He & Hr' & H').
  rewrite Hm, Hq in H'. destruct H' as (Ht & (l & Hl & Hst') & Hrc). exists rc, dbc, st', l.
  split_and!; [done..|by rewrite Hst', Ht].
Qed.

Lemma odbc_next_row ctx st inds r l w :
  no_oom w → odbc_ready (oc_dbc ctx) (oc_table_name ctx) →
  rows_ahead (odbc_is st) = Some (odbc_table (oc_dbc ctx) (oc_table_name ctx), r :: l) →
  ∃ st', odbc_next ctx (OdbcStmt (Some st) inds) w = Ret (SQL_SUCCESS, OdbcStmt (Some st') inds) w ∧
    odbc_is st' = OOnRow (odbc_table (oc_dbc ctx) (oc_table_name ctx)) l (column_of r).
Proof.
  intros Hw Hr Hst. destruct (odbc_law_fetch _ _ st _ Hr Hst) as (st' & Hf & Hst'). exists st'.
  split; [|done]. unfold odbc_next. run_by ltac:(reflexivity).
  by run_by ltac:(rewrite odbc_call_run by done; by rewrite Hf).
Qed.

Lemma odbc_next_end ctx st inds w :
  no_oom w → odbc_ready (oc_dbc ctx) (oc_table_name ctx) →
  rows_ahead (odbc_is st) = Some (odbc_table (oc_dbc ctx) (oc_table_name ctx), []) →
  ∃ st', odbc_next ctx (OdbcStmt (Some st) inds) w = Ret (SQL_NO_DATA, OdbcStmt (Some st') inds) w.
Proof.
  intros Hw Hr Hst. destruct (odbc_law_fetch _ _ st _ Hr Hst) as (st' & Hf). exists st'.
  unfold odbc_next. run_by ltac:(reflexivity).
  by run_by ltac:(rewrite odbc_call_run by done; by rewrite Hf).
Qed.

(** *** Reading a column, whatever its length *)

Lemma get_text_loop_run fuel st t l u col s buf w :
  no_oom w → (String.length s < fuel)%nat → odbc_is st = OOnRow t l u → u col = Some s →
  ∃ st' u', get_text_loop fuel st col buf w = Ret (0, Some (default "" buf +:+ s), st') w ∧
    odbc_is st' = OOnRow t l u' ∧ (∀ c, c ≠ col → u' c = u c).
Proof.
  intros Hw. revert st u s buf. induction fuel as [|fuel IH]; intros st u s buf Hf Hst Hu; [lia|].
  cbn [get_text_loop]. destruct (decide (String.length s ≤ 511)%nat) as [Hs|Hs].
  - destruct (odbc_law_data_last st t l u col s Hst Hu Hs) as (st' & u' & Hd & Hst' & Hu').
    exists st', u'. split; [|done]. step_by ltac:(rewrite odbc_call_run by done; by rewrite Hd).
    rewrite !(proj2 (Z.eqb_neq (Z.of_nat _) _)) by (unfold SQL_NULL_DATA, SQL_NO_TOTAL; lia).
    rewrite Z.mod_small, (proj2 (Z.ltb_ge _ _)) by lia. cbn [orb].
    step_by ltac:(by apply malloc_run). rewrite Nat2Z.id, decide_False, str_take_all by lia. done.
  - destruct (str_take_split 511 s) as [b Hb]; [lia|].
    pose proof (str_take_length 511 s ltac:(lia)) as Ha. remember (str_take 511 s) as a eqn:Ea. clear Ea.
    subst s. rewrite str_length_app in *.
    destruct (odbc_law_data_part st t l u col a b Hst Hu Ha) as (ind & st' & u' & Hd & Hind & Hst' & Hub & Hu').
    { intros ->. simpl in Hs. lia. }
    destruct (IH st' u' b (Some (default "" buf +:+ a))) as (st2 & u2 & Hrun & Hst2 & Hu2);
      [lia|done|done|].
    exists st2, u2. split; [|split; [done|intros c Hc; by rewrite Hu2, Hu']].
    step_by ltac:(rewrite odbc_call_run by done; by rewrite Hd).
    assert ((ind =? SQL_NULL_DATA) = false) as ->.
    { apply Z.eqb_neq. unfold SQL_NULL_DATA. destruct Hind as [->|]; [done|lia]. }
    assert (((ind =? SQL_NO_TOTAL) || (511 <? (ind `mod` 2 ^ 64))) = true) as ->.
    { destruct Hind as [->|Hi]; [done|]. rewrite Z.mod_small by lia.
      apply orb_true_iff. right. apply Z.ltb_lt. lia. }
    step_by ltac:(by apply malloc_run). rewrite decide_False by lia.
    rewrite <-Ha at 1. rewrite str_take_all. rewrite Hrun. cbn [from_option id]. by rewrite str_app_assoc.
Qed.

Lemma odbc_get_text_run st t l u col w :
  no_oom w → odbc_is st = OOnRow t l u →
  ∃ st' u', odbc_get_text st col w = Ret (0, u col, st') w ∧
    odbc_is st' = OOnRow t l u' ∧ (∀ c, c ≠ col → u' c = u c).
Proof.
  intros Hw Hst. unfold odbc_get_text. destruct (u col) as [s|] eqn:Hu.
  - pose proof (odbc_law_unread st t l u col s Hst Hu).
    destruct (get_text_loop_run (S (odbc_unread st col)) st t l u col s None w Hw) as (st' & u' & Hr & ? & ?);
      [lia|done|done|]. exists st', u'. by rewrite Hr.
  - destruct (odbc_law_data_null st t l u col Hst Hu) as (chunk & st' & Hd & Hst'). exists st', u.
    split; [|done]. cbn [get_text_loop]. step_by ltac:(rewrite odbc_call_run by done; by rewrite Hd). done.
Qed.

Lemma read_columns_run vs st t l u col cols w :
  no_oom w → odbc_is st = OOnRow t l u →
  (∀ i v, vs !! i = Some v → u (col + Z.of_nat i) = v) →
  ∃ st' u', read_columns (length vs) st col cols w = Ret (Some (cols ++ vs), st') w ∧
    odbc_is st' = OOnRow t l u'.
Proof.
  intros Hw. revert st u col cols. induction vs as [|v vs IH]; intros st u col cols Hst Hvs; simpl.
  { exists st, u. by rewrite app_nil_r. }
  destruct (odbc_get_text_run st t l u col w Hw Hst) as (st1 & u1 & Hg & Hst1 & Hu1).
  pose proof (Hvs 0%nat v eq_refl) as Hv. rewrite Z.add_0_r in Hv. rewrite Hv in Hg.
  destruct (IH st1 u1 (col + 1) (cols ++ [v])) as (st2 & u2 & Hrun & Hst2); [done| |].
  { intros i v' Hi. rewrite Hu1 by lia. rewrite <-(Hvs (S i) v') by done. f_equal. lia. }
  exists st2, u2. split; [|done]. step_by ltac:(exact Hg). by rewrite Hrun, <-app_assoc.
Qed.

(** The session of the row the statement stands on. *)
Lemma session_from_row_run st t l r s0 w :
  no_oom w → odbc_is st = OOnRow t l (column_of r) →
  ∃ st' u', session_from_row st s0 w =
      Ret (match session_of_row r with Some s => (0, s) | None => (-1, session_default) end, st') w ∧
    odbc_is st' = OOnRow t l u'.
Proof.
  intros Hw Hst.
  destruct (read_columns_run (columns r) st t l _ 1 [] w Hw Hst) as (st' & u' & Hrun & Hst').
  { intros i v Hi. unfold column_of. replace (Z.to_nat (1 + Z.of_nat i - 1)) with i by lia.
    by rewrite Hi. }
  exists st', u'. split; [|done]. unfold session_from_row. run_by ltac:(exact Hrun).
  run_by ltac:(by apply fill_session_run). by destruct (session_of_row r).
Qed.

Definition ctx_table (ctx : opendbsc_odbc_ctx) : table :=
  odbc_table (oc_dbc ctx) (oc_table_name ctx).

(** The identifiers of a table can be bound again. *)
Definition ids_taken (t : table) : Prop := map_Forall (λ id _, odbc_takes 0%nat id) t.

(** The invariant of the store between calls. *)
Record odbc_inv (ctx : opendbsc_odbc_ctx) : Prop := {
  oi_ready : odbc_ready (oc_dbc ctx) (oc_table_name ctx);
  oi_mutex : oc_mutex ctx = false;
  oi_name : name_fits (oc_table_name ctx);
  oi_ids : ids_taken (ctx_table ctx)
}.

Lemma ids_taken_delete t id : ids_taken t → ids_taken (delete id t).
Proof. intros Ht. by apply map_Forall_delete. Qed.
Lemma ids_taken_filter t (P : string * srow → Prop) `{!∀ x, Decision (P x)} :
  ids_taken t → ids_taken (filter P t).
Proof. intros Ht i r [Hi _]%map_lookup_filter_Some. by apply (Ht i r). Qed.
Lemma ids_taken_insert t r r' :
  ids_taken t → row_taken odbc_takes r → ids_taken (<[col_id r := r']> t).
Proof.
  intros Ht Hr. apply map_Forall_insert_2; [|done]. unfold row_taken, texts_taken in Hr.
  cbn [seq columns] in Hr. by apply Forall2_cons in Hr as [? _].
Qed.

(** The code of a deletion that finds nothing. *)
Definition odbc_missing : Z := if odbc_no_data then -1 else 0.

Lemma odbc_lock_run ctx w :
  oc_mutex ctx = false → odbc_lock ctx w = Ret (OdbcCtx (oc_dbc ctx) true (oc_table_name ctx)) w.
Proof. intros H'. unfold odbc_lock. by rewrite H'. Qed.

Lemma odbc_unlock_inv ctx dbc b :
  odbc_inv ctx → odbc_ready dbc (oc_table_name ctx) →
  ids_taken (odbc_table dbc (oc_table_name ctx)) →
  odbc_inv (odbc_unlock (with_dbc dbc (OdbcCtx (oc_dbc ctx) b (oc_table_name ctx)))).
Proof. by intros [] ??. Qed.

Lemma one_taken c (v : string) : odbc_takes c v → texts_taken odbc_takes [c] [Some v].
Proof. intros Hv. by repeat constructor. Qed.

(** A statement with one parameter that returns no row, executed under the
    lock. *)
Lemma odbc_one_param_run ctx s v t n w :
  no_oom w → odbc_ready (oc_dbc ctx) (oc_table_name ctx) → statement_params s = 1%nat →
  texts_taken odbc_takes (statement_columns s) [Some v] → is_query s = false → statement_meaning s [Some v] (ctx_table ctx) = Done [] t n →
  ∃ dbc, (∀ B (k : Z * opendbsc_odbc_ctx → C B) (fail : C B),
    ('(rc, s) ← odbc_prepare ctx (statement_text (oc_table_name ctx) s);
     if negb (rc =? 0) then fail else
     '(rc, s) ← odbc_bind_text s (Some v);
     if negb (rc =? 0) then fail else
     '(rc, ctx, _) ← odbc_run ctx s; k (if SQL_SUCCEEDED rc then 0 else -1, ctx)) w =
    k (if n =? 0 then odbc_missing else 0, with_dbc dbc ctx) w) ∧
    odbc_ready dbc (oc_table_name ctx) ∧ odbc_table dbc (oc_table_name ctx) = t.
Proof.
  intros Hw Hr Hs Htk Hq Hm. destruct (odbc_prepare_run ctx s w Hw Hr) as (st & Hp & Hst).
  destruct (odbc_bind_text_run st [] s (Some v) w Hw Hst) as (st1 & Hb & Hst1); [simpl; lia|].
  change (S (length [])) with 1%nat in Hst1. rewrite <-Hs in Hst1.
  destruct (odbc_run_done ctx st1 s [Some v] t n w Hw Hr Hst1 Htk Hq Hm)
    as (rc & dbc & st2 & He & Hr' & Ht & _ & Hrc).
  exists dbc. split; [|done]. intros B k fail. step_by ltac:(exact Hp). step_by ltac:(exact Hb).
  run_by ltac:(exact He). rewrite Hrc. unfold odbc_missing. by destruct (n =? 0), odbc_no_data.
Qed.

Lemma odbc_delete_unlocked_run ctx id w :
  no_oom w → odbc_ready (oc_dbc ctx) (oc_table_name ctx) → name_fits (oc_table_name ctx) →
  odbc_takes 0%nat id →
  ∃ dbc, odbc_delete_unlocked ctx id w =
      Ret (if decide (ctx_table ctx !! id = None) then odbc_missing else 0, with_dbc dbc ctx) w ∧
    odbc_ready dbc (oc_table_name ctx) ∧
    odbc_table dbc (oc_table_name ctx) = delete id (ctx_table ctx).
Proof.
  intros Hw Hr Hfit Htk. destruct (sql_texts _ Hfit) as (Hd & _).
  destruct (odbc_one_param_run ctx DeleteId id _ _ w Hw Hr eq_refl (one_taken _ _ Htk) eq_refl eq_refl)
    as (dbc & Hrun & Hr' & Ht).
  exists dbc. split; [|done]. unfold odbc_delete_unlocked. rewrite Hd.
  etrans; [exact (Hrun _ mret (mret (-1, ctx)))|]. by destruct (decide _).
Qed.

Lemma odbc_delete_run ctx id w :
  no_oom w → odbc_inv ctx → odbc_takes 0%nat id →
  ∃ ctx', odbc_delete ctx (Some id) w =
      Ret (if decide (ctx_table ctx !! id = None) then odbc_missing else 0, ctx') w ∧
    odbc_inv ctx' ∧ ctx_table ctx' = delete id (ctx_table ctx).
Proof.
  intros Hw Hi Htk. pose proof Hi as [Hr Hm Hfit Hids]. unfold odbc_delete.
  destruct (odbc_delete_unlocked_run (OdbcCtx (oc_dbc ctx) true (oc_table_name ctx)) id w Hw Hr Hfit Htk)
    as (dbc & Hrun & Hr' & Ht).
  eexists. split; [|split].
  - run_by ltac:(by apply odbc_lock_run). by run_by ltac:(exact Hrun).
  - apply odbc_unlock_inv; [done|done|]. cbn in Ht. rewrite Ht. by apply ids_taken_delete.
  - exact Ht.
Qed.

Lemma user_rows_count u t :
  (Z.of_nat (size (filter (λ p, of_user_row u p.2 = true) t)) =? 0) = bool_decide (user_rows u t = []).
Proof.
  unfold user_rows. rewrite <-length_map_to_list.
  destruct (map_to_list _) as [|p l]; [done|]. by rewrite bool_decide_false.
Qed.

Lemma odbc_delete_by_user_id_run ctx u w :
  no_oom w → odbc_inv ctx → odbc_takes 1%nat u →
  ∃ ctx', odbc_delete_by_user_id ctx (Some u) w =
      Ret (if decide (user_rows u (ctx_table ctx) = []) then odbc_missing else 0, ctx') w ∧
    odbc_inv ctx' ∧ ctx_table ctx' = filter (λ p, of_user_row u p.2 = false) (ctx_table ctx).
Proof.
  intros Hw Hi Htk. pose proof Hi as [Hr Hm Hfit Hids]. destruct (sql_texts _ Hfit) as (_ & Hd & _).
  unfold odbc_delete_by_user_id. set (ctx1 := OdbcCtx (oc_dbc ctx) true (oc_table_name ctx)).
  destruct (odbc_one_param_run ctx1 DeleteUser u _ _ w Hw Hr eq_refl (one_taken _ _ Htk) eq_refl eq_refl)
    as (dbc & Hrun & Hr' & Ht).
  eexists. split; [|split].
  - rewrite Hd. run_by ltac:(by apply odbc_lock_run). fold ctx1.
    etrans; [exact (Hrun _ (λ '(rc, ctx), mret (rc, odbc_unlock ctx)) (mret (-1, odbc_unlock ctx1)))|].
    rewrite user_rows_count. change (ctx_table ctx1) with (ctx_table ctx). 
    rewrite bool_decide_decide. by destruct (decide _).
  - apply odbc_unlock_inv; [done|done|]. cbn in Ht. rewrite Ht. by apply ids_taken_filter.
  - exact Ht.
Qed.

(** [create] up to the execution of its statement. *)
Lemma odbc_create_bound ctx s r w :
  no_oom w → odbc_inv ctx → row_of_session s = Some r →
  ∃ st, odbc_is st = OPrepared Insert 8 ∧
    odbc_create ctx (Some s) w =
      ('(rc, ctx, _) ← odbc_run (OdbcCtx (oc_dbc ctx) true (oc_table_name ctx))
                         (OdbcStmt (Some st) (bound_text <$> columns r));
       mret (if SQL_SUCCEEDED rc then 0 else -1, odbc_unlock ctx)) w.
Proof.
  intros Hw [Hr Hm Hfit _] [Hid Hu Hs Hk Ha Hc He Hcr]%row_of_session_fields.
  destruct (sql_texts _ Hfit) as (_ & _ & Ht & _). unfold odbc_create. rewrite Hid.
  change (expires_param s) with (expires_column s). rewrite He, Hcr, Ht.
  set (ctx1 := OdbcCtx (oc_dbc ctx) true (oc_table_name ctx)).
  destruct (odbc_prepare_run ctx1 Insert w Hw Hr) as (st & Hp & Hst).
  destruct (odbc_bind_texts_run (columns r) st [] _ w Hw Hst) as (st1 & Hb & Hst1); [done|].
  exists st1. split; [exact Hst1|].
  run_by ltac:(by apply odbc_lock_run). step_by ltac:(exact Hp).
  rewrite Hu, Hs, Hk, Ha, Hc. by step_by ltac:(exact Hb).
Qed.

Lemma odbc_create_run ctx s r w :
  no_oom w → odbc_inv ctx → row_of_session s = Some r → row_taken odbc_takes r →
  ctx_table ctx !! col_id r = None →
  ∃ ctx', odbc_create ctx (Some s) w = Ret (0, ctx') w ∧ odbc_inv ctx' ∧
    ctx_table ctx' = <[col_id r := r]> (ctx_table ctx).
Proof.
  intros Hw Hi Hr Htk Hnone. destruct (odbc_create_bound ctx s r w Hw Hi Hr) as (st & Hst & ->).
  edestruct (odbc_run_done (OdbcCtx (oc_dbc ctx) true (oc_table_name ctx)) st Insert)
    as (rc & dbc & st' & He & Hr' & Ht & _ & Hrc); [done|apply Hi|exact Hst|exact Htk|done| |].
  { change (odbc_table _ _) with (ctx_table ctx). simpl. by rewrite Hnone. }
  assert (odbc_table dbc (oc_table_name ctx) = <[col_id r := r]> (ctx_table ctx)) as Ht'.
  { etrans; [exact Ht|]. by destruct r. }
  eexists. split; [run_by ltac:(exact He); by rewrite Hrc|]. split; [|exact Ht'].
  apply odbc_unlock_inv; [done|done|]. rewrite Ht'. apply ids_taken_insert; [apply Hi|done].
Qed.

Lemma odbc_create_duplicate_run ctx s r w :
  no_oom w → odbc_inv ctx → row_of_session s = Some r → row_taken odbc_takes r →
  is_Some (ctx_table ctx !! col_id r) →
  ∃ ctx', odbc_create ctx (Some s) w = Ret (-1, ctx') w ∧ odbc_inv ctx' ∧
    ctx_table ctx' = ctx_table ctx.
Proof.
  intros Hw Hi Hr Htk [old Hold]. destruct (odbc_create_bound ctx s r w Hw Hi Hr) as (st & Hst & ->).
  destruct (odbc_run_rejected (OdbcCtx (oc_dbc ctx) true (oc_table_name ctx)) st Insert (columns r) w)
    as (rc & dbc & st' & He & Hr' & Ht & Hrc); [done|apply Hi|exact Hst|exact Htk| |].
  { change (odbc_table _ _) with (ctx_table ctx). simpl. by rewrite Hold. }
  eexists. split; [run_by ltac:(exact He); by rewrite Hrc|]. split; [|exact Ht].
  cbn [oc_table_name] in Ht. apply odbc_unlock_inv; [done|done|]. rewrite Ht. apply Hi.
Qed.

Definition update_params (r : srow) : list cstr :=
  [Some (col_user_id r); Some (col_state r); col_public_key r; col_algorithm r;
   col_challenge r; col_expires_at r; Some (col_id r)].

Lemma odbc_update_bound ctx s r w :
  no_oom w → odbc_inv ctx → row_of_session s = Some r →
  ∃ st, odbc_is st = OPrepared Update 7 ∧
    odbc_update ctx (Some s) w =
      ('(rc, ctx, stmt) ← odbc_run (OdbcCtx (oc_dbc ctx) true (oc_table_name ctx))
                         (OdbcStmt (Some st) (bound_text <$> update_params r));
       if negb (SQL_SUCCEEDED rc) then mret (-1, odbc_unlock ctx) else
       handle ← deref (os_stmt stmt);
       '(rc, affected) ← odbc_call (odbc_row_count handle) 0;
       mret (if negb (SQL_SUCCEEDED rc) || (affected <=? 0) then -1 else 0, odbc_unlock ctx)) w.
Proof.
  intros Hw [Hr Hm Hfit _] [Hid Hu Hs Hk Ha Hc He Hcr]%row_of_session_fields.
  destruct (sql_texts _ Hfit) as (_ & _ & _ & Ht & _). unfold odbc_update. rewrite Hid.
  change (expires_param s) with (expires_column s). rewrite He, Ht.
  set (ctx1 := OdbcCtx (oc_dbc ctx) true (oc_table_name ctx)).
  destruct (odbc_prepare_run ctx1 Update w Hw Hr) as (st & Hp & Hst).
  destruct (odbc_bind_texts_run (update_params r) st [] _ w Hw Hst) as (st1 & Hb & Hst1); [done|].
  exists st1. split; [exact Hst1|].
  run_by ltac:(by apply odbc_lock_run). step_by ltac:(exact Hp).
  rewrite Hu, Hs, Hk, Ha, Hc. by step_by ltac:(exact Hb).
Qed.

Lemma odbc_update_run ctx s r old w :
  no_oom w → odbc_inv ctx → row_of_session s = Some r → row_taken odbc_takes r →
  ctx_table ctx !! col_id r = Some old →
  col_id old = col_id r →
  ∃ ctx', odbc_update ctx (Some s) w = Ret (0, ctx') w ∧ odbc_inv ctx' ∧
    ctx_table ctx' = <[col_id r := with_created (col_created_at old) r]> (ctx_table ctx).
Proof.
  intros Hw Hi Hr Htk Hold Hid. destruct (odbc_update_bound ctx s r w Hw Hi Hr) as (st & Hst & ->).
  edestruct (odbc_run_done (OdbcCtx (oc_dbc ctx) true (oc_table_name ctx)) st Update)
    as (rc & dbc & st' & He & Hr' & Ht & Hst' & Hrc);
    [done|apply Hi|exact Hst|by apply row_taken_update|done| |].
  { change (odbc_table _ _) with (ctx_table ctx). simpl. by rewrite Hold. }
  destruct (odbc_law_row_count _ _ Hst') as (rc2 & Hn & Hrc2).
  assert (odbc_table dbc (oc_table_name ctx) =
    <[col_id r := with_created (col_created_at old) r]> (ctx_table ctx)) as Ht'.
  { etrans; [exact Ht|]. by rewrite Hid. }
  exists (odbc_unlock (with_dbc dbc (OdbcCtx (oc_dbc ctx) true (oc_table_name ctx)))).
  split; [|split; [|exact Ht']].
  2: { apply odbc_unlock_inv; [done|done|]. rewrite Ht'. apply ids_taken_insert; [apply Hi|done]. }
  run_by ltac:(exact He). rewrite Hrc. cbn [andb negb Z.eqb]. run_by ltac:(reflexivity).
  run_by ltac:(rewrite odbc_call_run by done; by rewrite Hn). by rewrite Hrc2.
Qed.

Lemma odbc_update_missing_run ctx s r w :
  no_oom w → odbc_inv ctx → row_of_session s = Some r → row_taken odbc_takes r →
  ctx_table ctx !! col_id r = None →
  ∃ ctx', odbc_update ctx (Some s) w = Ret (-1, ctx') w ∧ odbc_inv ctx' ∧
    ctx_table ctx' = ctx_table ctx.
Proof.
  intros Hw Hi Hr Htk Hnone. destruct (odbc_update_bound ctx s r w Hw Hi Hr) as (st & Hst & ->).
  edestruct (odbc_run_done (OdbcCtx (oc_dbc ctx) true (oc_table_name ctx)) st Update)
    as (rc & dbc & st' & He & Hr' & Ht & Hst' & Hrc);
    [done|apply Hi|exact Hst|by apply row_taken_update|done| |].
  { change (odbc_table _ _) with (ctx_table ctx). simpl. by rewrite Hnone. }
  destruct (odbc_law_row_count _ _ Hst') as (rc2 & Hn & Hrc2).
  cbn [oc_table_name] in Ht.
  exists (odbc_unlock (with_dbc dbc (OdbcCtx (oc_dbc ctx) true (oc_table_name ctx)))).
  split; [|split; [|exact Ht]].
  2: { apply odbc_unlock_inv; [done|done|]. rewrite Ht. apply Hi. }
  run_by ltac:(exact He). rewrite Hrc. destruct odbc_no_data; [done|]. cbn [andb negb Z.eqb].
  run_by ltac:(reflexivity).
  run_by ltac:(rewrite odbc_call_run by done; by rewrite Hn). by rewrite Hrc2.
Qed.

(** A query with one parameter, executed under the lock. *)
Lemma odbc_query_run ctx s v rows n w :
  no_oom w → odbc_ready (oc_dbc ctx) (oc_table_name ctx) → statement_params s = 1%nat →
  texts_taken odbc_takes (statement_columns s) [Some v] →
  is_query s = true → statement_meaning s [Some v] (ctx_table ctx) = Done rows (ctx_table ctx) n →
  ∃ dbc st ps l, (∀ B (k : opendbsc_odbc_ctx → odbc_stmt → C B) (fail : opendbsc_odbc_ctx → C B),
    ('(rc, s) ← odbc_prepare ctx (statement_text (oc_table_name ctx) s);
     if negb (rc =? 0) then fail ctx else
     '(rc, s) ← odbc_bind_text s (Some v);
     if negb (rc =? 0) then fail ctx else
     '(rc, ctx, s) ← odbc_run ctx s;
     if negb (SQL_SUCCEEDED rc) then fail ctx else k ctx s) w =
    k (with_dbc dbc ctx) (OdbcStmt (Some st) ps) w) ∧
    odbc_ready dbc (oc_table_name ctx) ∧ odbc_table dbc (oc_table_name ctx) = ctx_table ctx ∧
    l ≡ₚ rows ∧ rows_ahead (odbc_is st) = Some (odbc_table dbc (oc_table_name ctx), l).
Proof.
  intros Hw Hr Hs Htk Hq Hm. destruct (odbc_prepare_run ctx s w Hw Hr) as (st & Hp & Hst).
  destruct (odbc_bind_text_run st [] s (Some v) w Hw Hst) as (st1 & Hb & Hst1); [simpl; lia|].
  change (S (length [])) with 1%nat in Hst1. rewrite <-Hs in Hst1.
  destruct (odbc_run_query ctx st1 s [Some v] rows n w Hw Hr Hst1 Htk Hq Hm)
    as (rc & dbc & st2 & l & He & Hr' & Ht & Hrc & Hl & Hst2).
  exists dbc, st2, [bound_text (Some v)], l. split; [|done]. intros B k fail.
  step_by ltac:(exact Hp). step_by ltac:(exact Hb). run_by ltac:(exact He). by rewrite Hrc.
Qed.

Lemma odbc_get_run ctx id o w :
  quiet w → odbc_inv ctx → odbc_takes 0%nat id →
  ∃ ctx', odbc_inv ctx' ∧
    match ctx_table ctx !! id ≫= session_of_row with
    | Some s =>
        if expired (w_now w) s then
          odbc_get ctx (Some id) (Some o) w = Ret (-1, Some None, ctx') w ∧
          ctx_table ctx' = delete id (ctx_table ctx)
        else
          odbc_get ctx (Some id) (Some o) w = Ret (0, Some (Some s), ctx') w ∧
          ctx_table ctx' = ctx_table ctx
    | None =>
        odbc_get ctx (Some id) (Some o) w = Ret (-1, Some None, ctx') w ∧
        ctx_table ctx' = ctx_table ctx
    end.
Proof.
  intros Hq Hi Htk. pose proof Hi as [Hr Hm Hfit Hids].
  assert (no_oom w) as Hw by (by apply quiet_no_oom).
  destruct (sql_texts _ Hfit) as (_ & _ & _ & _ & Htxt & _). unfold odbc_get. rewrite Htxt.
  set (ctx1 := OdbcCtx (oc_dbc ctx) true (oc_table_name ctx)).
  destruct (odbc_query_run ctx1 SelectId id _ _ w Hw Hr eq_refl (one_taken _ _ Htk) eq_refl eq_refl)
    as (dbc & st & inds & l & Hrun & Hr' & Ht & Hl & Hst).
  change (ctx_table ctx1) with (ctx_table ctx) in *.
  assert (ids_taken (odbc_table dbc (oc_table_name ctx))) as Hids' by (cbn in Ht; by rewrite Ht).
  pose proof (odbc_unlock_inv ctx dbc true Hi Hr' Hids') as Hi'. fold ctx1 in Hi'.
  destruct (ctx_table ctx !! id) as [r|]; simpl in Hl; cbn [mbind option_bind].
  2: { symmetry in Hl. apply Permutation_nil_l in Hl. subst l.
       destruct (odbc_next_end (with_dbc dbc ctx1) st inds w Hw Hr' Hst) as (st1 & Hn).
       exists (odbc_unlock (with_dbc dbc ctx1)). split; [done|]. split; [|exact Ht].
       run_by ltac:(by apply odbc_lock_run). fold ctx1.
       etrans; [exact (Hrun _ _ (λ ctx, mret (-1, Some None, odbc_unlock ctx)))|].
       by step_by ltac:(exact Hn). }
  apply Permutation_singleton_r in Hl. subst l.
  destruct (odbc_next_row (with_dbc dbc ctx1) st inds r [] w Hw Hr' Hst) as (st1 & Hn & Hst1).
  destruct (session_from_row_run st1 _ _ r session_default w Hw Hst1) as (st2 & u & Hrow & _).
  destruct (session_of_row r) as [s|]; [destruct (expired (w_now w) s) eqn:Ee|].
  - destruct (odbc_delete_unlocked_run (with_dbc dbc ctx1) id w Hw Hr' Hfit Htk) as (dbc2 & Hd & Hr2 & Ht2).
    exists (odbc_unlock (with_dbc dbc2 (with_dbc dbc ctx1))).
    cbn [with_dbc oc_dbc oc_table_name ctx1] in Ht2.
    split; [|split; [|by etrans; [exact Ht2|by rewrite <-Ht]]].
    { apply odbc_unlock_inv; [done|done|]. rewrite Ht2. by apply ids_taken_delete. }
    run_by ltac:(by apply odbc_lock_run). fold ctx1.
    etrans; [exact (Hrun _ _ (λ ctx, mret (-1, Some None, odbc_unlock ctx)))|].
    step_by ltac:(exact Hn). step_by ltac:(by apply malloc_run). do 2 step_by ltac:(reflexivity).
    step_by ltac:(exact Hrow). step_by ltac:(by apply time_run). rewrite Ee.
    by run_by ltac:(exact Hd).
  - exists (odbc_unlock (with_dbc dbc ctx1)). split; [done|]. split; [|exact Ht].
    run_by ltac:(by apply odbc_lock_run). fold ctx1.
    etrans; [exact (Hrun _ _ (λ ctx, mret (-1, Some None, odbc_unlock ctx)))|].
    step_by ltac:(exact Hn). step_by ltac:(by apply malloc_run). do 2 step_by ltac:(reflexivity).
    step_by ltac:(exact Hrow). step_by ltac:(by apply time_run). by rewrite Ee.
  - exists (odbc_unlock (with_dbc dbc ctx1)). split; [done|]. split; [|exact Ht].
    run_by ltac:(by apply odbc_lock_run). fold ctx1.
    etrans; [exact (Hrun _ _ (λ ctx, mret (-1, Some None, odbc_unlock ctx)))|].
    step_by ltac:(exact Hn). step_by ltac:(by apply malloc_run). do 2 step_by ltac:(reflexivity).
    by step_by ltac:(exact Hrow).
Qed.

Lemma odbc_fetch_loop_run rows fuel now ctx st inds sessions ids w :
  no_oom w → (length rows < fuel)%nat → (∀ r, r ∈ rows → is_Some (session_of_row r)) →
  odbc_ready (oc_dbc ctx) (oc_table_name ctx) →
  rows_ahead (odbc_is st) = Some (ctx_table ctx, rows) →
  odbc_fetch_loop fuel now ctx (OdbcStmt (Some st) inds) sessions ids w =
    Ret (Some (SQL_NO_DATA, sessions ++ live_sessions now rows, ids ++ dead_ids now rows)) w.
Proof.
  intros Hw. revert fuel st sessions ids.
  induction rows as [|r rows IH]; intros [|fuel] st sessions ids Hf Hrd Hr Hst; simpl in Hf; try lia;
    cbn [odbc_fetch_loop].
  { destruct (odbc_next_end ctx st inds w Hw Hr Hst) as (st1 & Hn). step_by ltac:(exact Hn).
    by rewrite !app_nil_r. }
  destruct (Hrd r ltac:(by left)) as [s E].
  destruct (odbc_next_row ctx st inds r rows w Hw Hr Hst) as (st1 & Hn & Hst1).
  destruct (session_from_row_run st1 _ _ r session_default w Hw Hst1) as (st2 & u & Hrow & Hst2).
  rewrite E in Hrow.
  assert (s_id s = Some (col_id r)) as Hid by (by apply session_of_row_ids in E as [-> _]).
  step_by ltac:(exact Hn). step_by ltac:(reflexivity). step_by ltac:(exact Hrow).
  unfold live_sessions, dead_ids. cbn [omap list_omap]. rewrite E.
  cbn [mbind option_bind os_params]. rewrite filter_cons. destruct (expired now s) eqn:Ee.
  - rewrite decide_False by done. rewrite Hid.
    step_by ltac:(reflexivity). step_by ltac:(by apply strdup_run).
    step_by ltac:(by apply malloc_run).
    rewrite IH; [by rewrite <-app_assoc|lia|intros; apply Hrd; by right|done|by rewrite Hst2].
  - rewrite decide_True by done. step_by ltac:(by apply malloc_run).
    rewrite IH; [by rewrite <-app_assoc|lia|intros; apply Hrd; by right|done|by rewrite Hst2].
Qed.

Lemma odbc_delete_expired_run ids ctx w :
  no_oom w → odbc_ready (oc_dbc ctx) (oc_table_name ctx) → name_fits (oc_table_name ctx) →
  Forall (odbc_takes 0%nat) ids →
  ∃ dbc, odbc_delete_expired ctx ids w = Ret (with_dbc dbc ctx) w ∧
    odbc_ready dbc (oc_table_name ctx) ∧
    odbc_table dbc (oc_table_name ctx) = delete_all ids (ctx_table ctx).
Proof.
  intros Hw. revert ctx. induction ids as [|id ids IH]; intros ctx Hr Hfit Htk.
  { exists (oc_dbc ctx). by destruct ctx. }
  apply Forall_cons in Htk as [Hid Htk].
  destruct (odbc_delete_unlocked_run ctx id w Hw Hr Hfit Hid) as (dbc1 & Hd & Hr1 & Ht1).
  destruct (IH (with_dbc dbc1 ctx) Hr1 Hfit Htk) as (dbc2 & Hrun & Hr2 & Ht2). exists dbc2.
  unfold ctx_table in Ht2 at 1. cbn [oc_dbc oc_table_name with_dbc] in Ht2. rewrite Ht1 in Ht2.
  split; [|done]. cbn [odbc_delete_expired]. by run_by ltac:(exact Hd).
Qed.

(** The identifiers read from a table can be bound again. *)
Lemma dead_ids_taken now u t rows :
  table_ok t → ids_taken t → rows ≡ₚ user_rows u t → Forall (odbc_takes 0%nat) (dead_ids now rows).
Proof.
  intros Hok Ht Hrows. apply Forall_forall. intros id (r & Hr & Hid)%list_elem_of_omap.
  rewrite Hrows in Hr. apply user_rows_spec in Hr as [Hr _]; [|done].
  destruct (session_of_row r); [|done]. cbn in Hid. destruct (expired _ _); simplify_eq.
  by apply (Ht _ r).
Qed.

Lemma odbc_get_by_user_id_run ctx u o n w :
  quiet w → odbc_inv ctx → odbc_takes 1%nat u → table_ok (ctx_table ctx) →
  ∃ rows ctx', rows ≡ₚ user_rows u (ctx_table ctx) ∧
    odbc_get_by_user_id ctx (Some u) (Some o) (Some n) w =
      Ret (0, Some (live_sessions (w_now w) rows),
           Some (length (live_sessions (w_now w) rows)), ctx') w ∧
    odbc_inv ctx' ∧
    ctx_table ctx' = filter (λ p, dead_row (w_now w) u p.2 = false) (ctx_table ctx).
Proof.
  intros Hq Hi Htk Hok. pose proof Hi as [Hr Hm Hfit Hids].
  assert (no_oom w) as Hw by (by apply quiet_no_oom).
  destruct (sql_texts _ Hfit) as (_ & _ & _ & _ & _ & Htxt). unfold odbc_get_by_user_id. rewrite Htxt.
  set (ctx1 := OdbcCtx (oc_dbc ctx) true (oc_table_name ctx)).
  destruct (odbc_query_run ctx1 SelectUser u _ _ w Hw Hr eq_refl (one_taken _ _ Htk) eq_refl eq_refl)
    as (dbc & st & inds & rows & Hrun & Hr' & Ht & Hrows & Hst).
  change (ctx_table ctx1) with (ctx_table ctx) in *.
  change (rows ≡ₚ user_rows u (ctx_table ctx)) in Hrows.
  assert (length rows < S (odbc_rows dbc))%nat.
  { rewrite Hrows. pose proof (user_rows_size u (ctx_table ctx)).
    pose proof (odbc_law_rows dbc (oc_table_name ctx1)) as Hsz. rewrite Ht in Hsz. lia. }
  destruct (odbc_delete_expired_run (dead_ids (w_now w) rows) (with_dbc dbc ctx1) w Hw Hr' Hfit)
    as (dbc2 & Hd & Hr2 & Ht2); [by eapply dead_ids_taken|].
  exists rows, (odbc_unlock (with_dbc dbc2 (with_dbc dbc ctx1))). split; [done|].
  assert (odbc_table dbc2 (oc_table_name ctx) =
    filter (λ p, dead_row (w_now w) u p.2 = false) (ctx_table ctx)) as Ht3.
  { etrans; [exact Ht2|]. unfold ctx_table at 1. cbn [oc_dbc oc_table_name with_dbc]. rewrite Ht.
    by apply delete_dead_rows. }
  split; [|split; [|exact Ht3]].
  2: { apply odbc_unlock_inv; [done|done|]. rewrite Ht3. by apply ids_taken_filter. }
  - step_by ltac:(by apply time_run). run_by ltac:(by apply odbc_lock_run). fold ctx1.
    etrans; [exact (Hrun _ _ (λ ctx, mret (-1, Some [], Some 0%nat, odbc_unlock ctx)))|].
    step_by ltac:(apply (odbc_fetch_loop_run rows); [done|done| |done|done];
      intros r; by apply (user_rows_readable u (ctx_table ctx))).
    by step_by ltac:(exact Hd).
Qed.

(** The ODBC store is a SQL backend. *)
#[export] Program Instance odbc_SqlBackend : SqlBackend opendbsc_odbc_ctx := {
  sb_inv := odbc_inv;
  sb_table := ctx_table;
  sb_missing := odbc_missing;
  sb_takes := odbc_takes
}.
Next Obligation. intros. eapply odbc_create_run; eauto with crun. Qed.
Next Obligation. intros. eapply odbc_create_duplicate_run; eauto with crun. Qed.
Next Obligation. intros. by apply odbc_get_run. Qed.
Next Obligation. intros. eapply odbc_update_run; eauto with crun. Qed.
Next Obligation. intros. eapply odbc_update_missing_run; eauto with crun. Qed.
Next Obligation. intros. eapply odbc_delete_run; eauto with crun. Qed.
Next Obligation. intros. by apply odbc_get_by_user_id_run. Qed.
Next Obligation. intros. eapply odbc_delete_by_user_id_run; eauto with crun. Qed.
Next Obligation. intros ctx [s|] w Hs; [|done]. simpl. unfold odbc_create, odbc_update. by rewrite (Hs s). Qed.
Next Obligation. done. Qed.
Next Obligation. by intros ctx [id|] w. Qed.
Next Obligation. by intros ctx [u|] [l|] [n|] w [?|[?|?]]. Qed.

(** A driver and a database that take texts of any length (as those do that
    ignore the declared sizes) make it a store for the manager. *)
Class OdbcAnyLength := odbc_takes_all c v : odbc_takes c v.

#[export] Instance odbc_sql_takes_all `{!OdbcAnyLength} : SqlTakesAll opendbsc_odbc_ctx.
Proof. exact odbc_takes_all. Qed.

End runs.
