(* ===== verification/OdbcProps.v ===== *)
(** The theorems about the ODBC store: its refinement of the map of sessions,
    the table names it accepts, the mutex it always releases, what it answers
    for a missing session, and what a long table name does; with a small
    driver as the witness that [OdbcLaws] can be met. *)

From S2P Require Export OdbcStore.
From stdpp Require Import options.
#[local] Open Scope Z_scope.

(** ** A small driver

    A connection is one named table.  Besides the six statements the driver
    knows [DELETE FROM table] without a condition. *)
Record ref_dbc := RefDbc { rd_name : string; rd_rows : table }.

Inductive ref_hstmt := RefStmt (st : odbc_state) | RefDeleteAll.

Fixpoint str_drop (n : nat) (s : string) : string :=
  match n, s with S n', String _ s' => str_drop n' s' | _, _ => s end.

Definition ref_sql_prepare (db : ref_dbc) (sql : string) : option ref_hstmt :=
  match List.find (λ s, String.eqb (statement_text (rd_name db) s) sql)
          [Insert; SelectId; SelectUser; Update; DeleteId; DeleteUser] with
  | Some s => Some (RefStmt (OPrepared s 0))
  | None => if String.eqb sql ("DELETE FROM " +:+ rd_name db) then Some RefDeleteAll else None
  end.

Definition ref_bind_parameter (st : ref_hstmt) : Z * ref_hstmt :=
  match st with
  | RefStmt (OPrepared s bound) => (SQL_SUCCESS, RefStmt (OPrepared s (S bound)))
  | _ => (SQL_SUCCESS, st)
  end.

(** The text a buffer holds, by its indicator. *)
Definition ref_text (p : cstr * Z) : cstr := if snd p =? SQL_NULL_DATA then None else fst p.

Definition ref_execute (db : ref_dbc) (st : ref_hstmt) (params : list (cstr * Z))
    : Z * (ref_dbc * ref_hstmt) :=
  match st with
  | RefDeleteAll => (SQL_SUCCESS, (RefDbc (rd_name db) ∅, st))
  | RefStmt (OPrepared s _) =>
      match statement_meaning s (ref_text <$> params) (rd_rows db) with
      | Done rows t n =>
          (if negb (is_query s) && (n =? 0) then SQL_NO_DATA else SQL_SUCCESS,
           (RefDbc (rd_name db) t, RefStmt (if is_query s then OCursor t rows else ODone n)))
      | _ => (SQL_ERROR, (db, st))
      end
  | _ => (SQL_ERROR, (db, st))
  end.

Definition ref_fetch (st : ref_hstmt) : Z * ref_hstmt :=
  match st with
  | RefStmt s =>
      match rows_ahead s with
      | Some (t, r :: l) => (SQL_SUCCESS, RefStmt (OOnRow t l (column_of r)))
      | Some (t, []) => (SQL_NO_DATA, st)
      | None => (SQL_ERROR, st)
      end
  | _ => (SQL_ERROR, st)
  end.

Definition ref_get_data (st : ref_hstmt) (col : Z) (size : nat) : Z * (Z * string * ref_hstmt) :=
  match st with
  | RefStmt (OOnRow t l u) =>
      let rest v := RefStmt (OOnRow t l (λ c, if decide (c = col) then Some v else u c)) in
      match u col with
      | None => (SQL_SUCCESS, (SQL_NULL_DATA, "", st))
      | Some s =>
          if decide (String.length s < size)%nat then
            (SQL_SUCCESS, (Z.of_nat (String.length s), s, rest ""))
          else (SQL_SUCCESS_WITH_INFO,
                (SQL_NO_TOTAL, str_take (size - 1) s, rest (str_drop (size - 1) s)))
      end
  | _ => (SQL_ERROR, (0, "", st))
  end.

#[local] Arguments str_take : simpl never.
#[local] Arguments str_drop : simpl never.

#[export] Instance ref_Odbc : Odbc := {
  SQLHENV := unit;
  SQLHDBC := ref_dbc;
  SQLHSTMT := ref_hstmt;
  odbc_alloc_env := (SQL_SUCCESS, tt);
  odbc_set_version env := (SQL_SUCCESS, env);
  odbc_alloc_dbc _ := (SQL_SUCCESS, RefDbc "" ∅);
  odbc_set_login_timeout dbc _ := (SQL_SUCCESS, dbc);
  odbc_driver_connect _ conn := (SQL_SUCCESS, RefDbc conn ∅);
  odbc_alloc_stmt _ := (SQL_SUCCESS, RefStmt OAllocated);
  odbc_sql_prepare db st sql :=
    match ref_sql_prepare db sql with Some st => (SQL_SUCCESS, st) | None => (SQL_ERROR, st) end;
  odbc_bind_parameter st _ _ _ _ _ _ _ := ref_bind_parameter st;
  odbc_execute := ref_execute;
  odbc_exec_direct db st _ := (SQL_SUCCESS, (db, st));
  odbc_fetch _ := ref_fetch;
  odbc_get_data := ref_get_data;
  odbc_row_count st := (SQL_SUCCESS, match st with RefStmt (ODone n) => n | _ => 0 end);
  odbc_rows db := size (rd_rows db);
  odbc_unread st col :=
    match st with RefStmt (OOnRow _ _ u) => String.length (default "" (u col)) | _ => 0%nat end
}.

Lemma str_drop_app a b : str_drop (String.length a) (a +:+ b) = b.
Proof. induction a as [|c a IH]; [by rewrite str_app_nil_l|]. by rewrite str_app_cons. Qed.

(** Statements are told apart by their texts, whatever the table. *)
Lemma statement_text_inj tbl s s' : statement_text tbl s = statement_text tbl s' → s = s'.
Proof.
  destruct s, s'; try done; cbn; intros E; simplify_eq; apply str_app_inj_l in E; done.
Qed.

Lemma find_statement_text tbl s :
  List.find (λ s', String.eqb (statement_text tbl s') (statement_text tbl s))
    [Insert; SelectId; SelectUser; Update; DeleteId; DeleteUser] = Some s.
Proof.
  destruct (List.find _ _) as [s'|] eqn:E.
  - apply List.find_some in E as [_ E%String.eqb_eq%statement_text_inj]. by subst.
  - pose proof (List.find_none _ _ E s ltac:(destruct s; simpl; tauto)) as He. simpl in He.
    by rewrite String.eqb_refl in He.
Qed.

Lemma ref_texts (params : list cstr) : ref_text <$> (bound_text <$> params) = params.
Proof. induction params as [|[v|] params IH]; cbn; [done|by f_equal..]. Qed.

#[export] Program Instance ref_OdbcLaws : OdbcLaws := {
  odbc_ready db tbl := rd_name db = tbl;
  odbc_table db _ := rd_rows db;
  odbc_is st := match st with RefStmt s => s | RefDeleteAll => OAllocated end;
  odbc_no_data := true;
  odbc_takes _ _ := True
}.
Next Obligation. by eexists. Qed.
Next Obligation. done. Qed.
Next Obligation.
  intros db tbl st s <- _. cbn. unfold ref_sql_prepare. rewrite find_statement_text. by eexists.
Qed.
Next Obligation.
  intros [st|] s i E Hi; [|done]. cbn in E. subst st. by do 2 eexists.
Qed.
Next Obligation.
  intros db tbl [st|] s params <- E _; [|done]. cbn in E. subst st. cbn. rewrite ref_texts.
  destruct (statement_meaning s params (rd_rows db)) as [rows t n| |]; [|by do 3 eexists..].
  do 3 eexists. split; [done|]. split; [done|]. cbn. split; [done|]. rewrite andb_true_r.
  split; [by destruct (is_query s); [exists rows|]|]. by destruct (negb (is_query s) && (n =? 0)).
Qed.
Next Obligation. intros [st|] n E; [|done]. cbn in E. subst st. by eexists. Qed.
Next Obligation.
  intros db tbl [st|] l _ E; [|done]. cbn in *. rewrite E. destruct l as [|r l]; by eexists.
Qed.
Next Obligation. intros [st|] t l u col E Hu; [|done]. cbn in E. subst st. cbn. rewrite Hu. by do 2 eexists. Qed.
Next Obligation.
  intros [st|] t l u col s E Hu Hs; [|done]. cbn in E. subst st.
  cbn [odbc_get_data ref_Odbc ref_get_data]. rewrite Hu, decide_True by lia.
  do 2 eexists. split; [done|]. split; [done|]. intros c Hc. cbn. by rewrite decide_False.
Qed.
Next Obligation.
  intros [st|] t l u col a b E Hu Ha Hb; [|done]. cbn in E. subst st.
  assert (0 < String.length b)%nat by (destruct b; simpl; [done|lia]).
  cbn [odbc_get_data ref_Odbc ref_get_data].
  rewrite Hu, decide_False by (rewrite str_length_app; lia). change (512 - 1)%nat with 511%nat.
  rewrite <-Ha, str_take_app, str_drop_app. do 3 eexists. split; [done|]. split; [by left|].
  split; [done|]. cbn. split; [by rewrite decide_True|]. intros c Hc. by rewrite decide_False.
Qed.
Next Obligation. intros [st|] t l u col s E Hu; [|done]. cbn in E. subst st. cbn. by rewrite Hu. Qed.
Next Obligation. done. Qed.

#[export] Instance ref_OdbcAnyLength : OdbcAnyLength.
Proof. done. Qed.

(** ** In any environment, over any driver

    All that is asked of the driver is that [SQLGetData] writes the part of
    the text it announces, and ends, and that a result set ends: [odbc_left]
    bounds the rows that a statement still has. *)
Definition part_length (ind : Z) : nat :=
  if (ind =? SQL_NO_TOTAL) || (511 <? ind `mod` 2 ^ 64) then 511%nat else Z.to_nat ind.

Class OdbcWrites `{Odbc} :=
  odbc_writes st col rc ind chunk st' :
    odbc_get_data st col 512 = (rc, (ind, chunk, st')) → rc ≠ SQL_ERROR → ind ≠ SQL_NULL_DATA →
    (part_length ind ≤ String.length chunk)%nat ∧
    (rc = SQL_SUCCESS_WITH_INFO → (odbc_unread st' col < odbc_unread st col)%nat).

#[export] Instance ref_OdbcWrites : OdbcWrites.
Proof.
  intros [[| | |t l u|]|] col rc ind chunk st' E Hrc Hind;
    cbn [odbc_get_data ref_Odbc ref_get_data] in E; simplify_eq.
  destruct (u col) as [s|] eqn:Hu; [|by simplify_eq].
  destruct (decide (String.length s < 512)%nat) as [Hs|Hs]; simplify_eq.
  - split; [|done]. unfold part_length. rewrite Z.mod_small, (proj2 (Z.ltb_ge _ _)) by lia.
    rewrite (proj2 (Z.eqb_neq _ _)) by (unfold SQL_NO_TOTAL; lia). cbn [orb]. lia.
  - split; [rewrite str_take_length; unfold part_length; simpl; lia|]. intros _.
    cbn [odbc_unread ref_Odbc]. rewrite decide_True, Hu by done. cbn [from_option id].
    destruct (str_take_split 511 s) as [b Hb]; [lia|].
    pose proof (str_take_length 511 s ltac:(lia)) as Hl. change (512 - 1)%nat with 511%nat.
    rewrite Hb at 1 2. rewrite <-Hl at 1. rewrite str_drop_app, str_length_app, Hl. lia.
Qed.

Class OdbcEnds `{Odbc} := {
  odbc_left : SQLHSTMT → nat;
  odbc_left_execute dbc st params rc dbc' st' :
    odbc_execute dbc st params = (rc, (dbc', st')) → SQL_SUCCEEDED rc = true →
    (odbc_left st' ≤ odbc_rows dbc')%nat;
  odbc_left_fetch dbc st st' :
    odbc_fetch dbc st = (SQL_SUCCESS, st') → (odbc_left st' < odbc_left st)%nat;
  odbc_left_data st col n rc r st' :
    odbc_get_data st col n = (rc, (r, st')) → (odbc_left st' ≤ odbc_left st)%nat
}.

#[export] Program Instance ref_OdbcEnds : OdbcEnds := {
  odbc_left st := match st with
                  | RefStmt s => match rows_ahead s with Some (_, l) => length l | None => 0%nat end
                  | RefDeleteAll => 0%nat
                  end
}.
Next Obligation.
  intros db [[|s n|t l|t l u|n]|] ps rc db' st' E Hrc; cbn in E; simplify_eq; try done.
  destruct (statement_meaning _ _ _) as [rows t k| |] eqn:Hm; simplify_eq; [|done..].
  destruct (is_query s) eqn:Hq; cbn; [|lia].
  destruct s; try done; unfold statement_meaning in Hm;
    (destruct (ref_text <$> ps) as [|[v|] [|? ?]]; try done); simplify_eq.
  - destruct (rd_rows db !! v) eqn:Hv; cbn; [|lia]. destruct (decide (rd_rows db = ∅)) as [Hn|Hn].
    + by rewrite Hn, lookup_empty in Hv.
    + by apply map_size_non_empty_iff in Hn; lia.
  - pose proof (user_rows_size v (rd_rows db)). unfold user_rows in *. lia.
Qed.
Next Obligation.
  intros db [[|s n|t l|t l u|n]|] st' E; cbn in E; simplify_eq; destruct l; simplify_eq; cbn; lia.
Qed.
Next Obligation.
  intros [[|s n|t l|t l u|n]|] col k rc r st' E; cbn in E; simplify_eq; try done.
  destruct (u col); [destruct (decide _)|]; by simplify_eq.
Qed.

Section any.
Context `{Odbc}.
Implicit Types (ctx : opendbsc_odbc_ctx) (w : world).

Lemma wp_odbc_call {A} (r : Z * A) old w Q :
  (∀ w', env_step w w' → Q r w') → (∀ w', env_step w w' → Q (SQL_ERROR, old) w') →
  wp (odbc_call r old) w Q.
Proof. intros H0 H1. apply wp_bind, wp_malloc. intros [] w' ? _; apply wp_ret; auto. Qed.

Lemma wp_odbc_prepare ctx sql w Q :
  (∀ st w', env_step w w' → Q (0, OdbcStmt (Some st) []) w') →
  (∀ s w', env_step w w' → Q (-1, s) w') → wp (odbc_prepare ctx sql) w Q.
Proof.
  intros HS HF. apply wp_bind, wp_malloc. intros ok w1 ? _. destruct (negb ok); [by apply wp_ret, HF|].
  destruct (odbc_alloc_stmt _) as [rc st]. destruct (negb _); [by apply wp_ret, HF|].
  apply wp_bind, wp_odbc_call; intros w2 ?; assert (env_step w w2) by (by etrans).
  - destruct (odbc_sql_prepare _ _ _) as [rc' st']. destruct (negb _); apply wp_ret; auto.
  - by apply wp_ret, HF.
Qed.

Lemma wp_odbc_bind_text st inds v w Q :
  (∀ rc st' inds' w', env_step w w' → rc = 0 ∨ rc = -1 → Q (rc, OdbcStmt (Some st') inds') w') →
  wp (odbc_bind_text (OdbcStmt (Some st) inds) v) w Q.
Proof.
  intros HQ. unfold odbc_bind_text. case_decide; [by apply wp_ret, HQ; auto|].
  apply wp_bind, wp_ret. apply wp_bind, wp_odbc_call; intros w1 ?;
    [destruct (odbc_bind_parameter _ _ _ _)|]; apply wp_ret, HQ; try done;
    match goal with |- context [SQL_SUCCEEDED ?rc] => destruct (SQL_SUCCEEDED rc) end; auto.
Qed.

Lemma wp_odbc_bind_texts texts st inds w Q :
  (∀ rc st' inds' w', env_step w w' → rc = 0 ∨ rc = -1 → Q (rc, OdbcStmt (Some st') inds') w') →
  wp (odbc_bind_texts (OdbcStmt (Some st) inds) texts) w Q.
Proof.
  revert st inds w. induction texts as [|v texts IH]; intros st inds w HQ; [by apply wp_ret, HQ; auto|].
  apply wp_bind, wp_odbc_bind_text. intros rc st' inds' w1 ? [->| ->]; cbn [negb Z.eqb].
  - apply IH. intros. apply HQ; [by etrans|done].
  - apply wp_ret, HQ; auto.
Qed.

Lemma wp_odbc_run ctx st inds w Q :
  (∀ rc dbc st' w', env_step w w' → Q (rc, with_dbc dbc ctx, OdbcStmt (Some st') inds) w') →
  wp (odbc_run ctx (OdbcStmt (Some st) inds)) w Q.
Proof.
  intros HQ. apply wp_bind, wp_ret. apply wp_bind, wp_odbc_call; intros w1 ?;
    [destruct (odbc_execute _ _) as [? [??]]|]; by apply wp_ret, HQ.
Qed.

(** A context after a call: the mutex is free, the table is the same. *)
Definition ctx_kept ctx ctx' : Prop :=
  oc_mutex ctx' = false ∧ oc_table_name ctx' = oc_table_name ctx.

Lemma unlock_kept ctx ctx' : oc_table_name ctx' = oc_table_name ctx → ctx_kept ctx (odbc_unlock ctx').
Proof. done. Qed.

Lemma wp_odbc_lock ctx w Q :
  oc_mutex ctx = false → Q (OdbcCtx (oc_dbc ctx) true (oc_table_name ctx)) w → wp (odbc_lock ctx) w Q.
Proof. intros Hm HQ. unfold odbc_lock. rewrite Hm. by apply wp_ret. Qed.

(** A statement whose parameters are bound and that is executed. *)
Lemma wp_odbc_statement {A} ctx sql texts (fail : C A) (k : Z * opendbsc_odbc_ctx * odbc_stmt → C A) w Q :
  (∀ w', env_step w w' → wp fail w' Q) →
  (∀ rc dbc st inds w', env_step w w' →
     wp (k (rc, with_dbc dbc ctx, OdbcStmt (Some st) inds)) w' Q) →
  wp ('(rc, s) ← odbc_prepare ctx sql;
      if negb (rc =? 0) then fail else
      '(rc, s) ← odbc_bind_texts s texts;
      if negb (rc =? 0) then fail else
      r ← odbc_run ctx s; k r) w Q.
Proof.
  intros HF HS. apply wp_bind, wp_odbc_prepare; intros st w1 ?; cbn [negb Z.eqb]; [|by apply HF].
  apply wp_bind, wp_odbc_bind_texts. intros rc st' inds' w2 ? [->| ->]; cbn [negb Z.eqb].
  - apply wp_bind, wp_odbc_run. intros. apply HS. by repeat (etrans; [eassumption|]).
  - apply HF. by etrans.
Qed.

Lemma wp_odbc_statement1 {A} ctx sql v (fail : C A) (k : Z * opendbsc_odbc_ctx * odbc_stmt → C A) w Q :
  (∀ w', env_step w w' → wp fail w' Q) →
  (∀ rc dbc st inds w', env_step w w' →
     wp (k (rc, with_dbc dbc ctx, OdbcStmt (Some st) inds)) w' Q) →
  wp ('(rc, s) ← odbc_prepare ctx sql;
      if negb (rc =? 0) then fail else
      '(rc, s) ← odbc_bind_text s v;
      if negb (rc =? 0) then fail else
      r ← odbc_run ctx s; k r) w Q.
Proof.
  intros HF HS. apply wp_bind, wp_odbc_prepare; intros st w1 ?; cbn [negb Z.eqb]; [|by apply HF].
  apply wp_bind, wp_odbc_bind_text. intros rc st' inds' w2 ? [->| ->]; cbn [negb Z.eqb].
  - apply wp_bind, wp_odbc_run. intros. apply HS. by repeat (etrans; [eassumption|]).
  - apply HF. by etrans.
Qed.

Lemma wp_odbc_delete_unlocked ctx id w Q :
  (∀ rc dbc w', env_step w w' → rc = 0 ∨ rc = -1 → Q (rc, with_dbc dbc ctx) w') →
  wp (odbc_delete_unlocked ctx id) w Q.
Proof.
  intros HQ. apply wp_odbc_statement1.
  - intros w1 ?. apply wp_ret. destruct ctx. by apply (HQ (-1) oc_dbc); auto.
  - intros rc dbc st inds w1 ?. apply wp_ret, HQ; [done|]. destruct (SQL_SUCCEEDED rc); auto.
Qed.

Lemma wp_odbc_create ctx s w Q :
  oc_mutex ctx = false →
  (∀ rc ctx' w', env_step w w' → rc = 0 ∨ rc = -1 → ctx_kept ctx ctx' → Q (rc, ctx') w') →
  wp (odbc_create ctx s) w Q.
Proof.
  intros Hm HQ. assert (wp (mret (-1, ctx)) w Q) as Hnone by (by apply wp_ret, HQ; auto).
  destruct s as [s|]; [|done]. unfold odbc_create.
  destruct (s_id s); [|done]. destruct (expires_param s); [|done].
  destruct (format_rfc3339_utc _ _); [|done].
  apply wp_bind, wp_odbc_lock; [done|]. apply wp_odbc_statement.
  - intros w1 ?. by apply wp_ret, HQ; auto.
  - intros rc dbc st inds w1 ?. apply wp_ret, HQ; [done|destruct (SQL_SUCCEEDED rc); auto|done].
Qed.

Lemma wp_odbc_update ctx s w Q :
  oc_mutex ctx = false →
  (∀ rc ctx' w', env_step w w' → rc = 0 ∨ rc = -1 → ctx_kept ctx ctx' → Q (rc, ctx') w') →
  wp (odbc_update ctx s) w Q.
Proof.
  intros Hm HQ. assert (wp (mret (-1, ctx)) w Q) as Hnone by (by apply wp_ret, HQ; auto).
  destruct s as [s|]; [|done]. unfold odbc_update.
  destruct (s_id s); [|done]. destruct (expires_param s); [|done].
  apply wp_bind, wp_odbc_lock; [done|]. apply wp_odbc_statement.
  - intros w1 ?. by apply wp_ret, HQ; auto.
  - intros rc dbc st inds w1 ?. destruct (negb _); [by apply wp_ret, HQ; auto|].
    apply wp_bind, wp_ret. apply wp_bind, wp_odbc_call; intros w2 ?;
      [destruct (odbc_row_count st)|]; (apply wp_ret, HQ; [by etrans| |done]);
      destruct (_ || _); auto.
Qed.

Lemma wp_odbc_delete ctx id w Q :
  oc_mutex ctx = false →
  (∀ rc ctx' w', env_step w w' → rc = 0 ∨ rc = -1 → ctx_kept ctx ctx' → Q (rc, ctx') w') →
  wp (odbc_delete ctx id) w Q.
Proof.
  intros Hm HQ. destruct id as [id|]; [|by apply wp_ret, HQ; auto].
  apply wp_bind, wp_odbc_lock; [done|]. apply wp_bind, wp_odbc_delete_unlocked.
  intros. by apply wp_ret, HQ.
Qed.

Lemma wp_odbc_delete_by_user_id ctx u w Q :
  oc_mutex ctx = false →
  (∀ rc ctx' w', env_step w w' → rc = 0 ∨ rc = -1 → ctx_kept ctx ctx' → Q (rc, ctx') w') →
  wp (odbc_delete_by_user_id ctx u) w Q.
Proof.
  intros Hm HQ. destruct u as [u|]; [|by apply wp_ret, HQ; auto].
  apply wp_bind, wp_odbc_lock; [done|]. apply wp_odbc_statement1.
  - intros w1 ?. by apply wp_ret, HQ; auto.
  - intros rc dbc st inds w1 ?. apply wp_ret, HQ; [done|destruct (SQL_SUCCEEDED rc); auto|done].
Qed.

Lemma wp_odbc_exec_ignore dbc sql w Q :
  (∀ dbc' w', env_step w w' → Q dbc' w') → wp (odbc_exec_ignore dbc sql) w Q.
Proof.
  intros HQ. apply wp_bind, wp_malloc. intros ok w1 ? _. destruct (negb ok); [by apply wp_ret, HQ|].
  destruct (odbc_alloc_stmt dbc) as [rc st]. destruct (negb _); [by apply wp_ret, HQ|].
  apply wp_bind, wp_odbc_call; intros w2 ?; [destruct (odbc_exec_direct _ _ _) as [?[??]]|];
    apply wp_ret, HQ; by etrans.
Qed.

Lemma wp_odbc_create_schema dbc tbl w Q :
  (∀ dbc' w', env_step w w' → Q dbc' w') → wp (odbc_create_schema dbc tbl) w Q.
Proof.
  intros HQ. do 2 (apply wp_bind, wp_odbc_exec_ignore; intros).
  apply wp_odbc_exec_ignore. intros. apply HQ. by repeat (etrans; [eassumption|]).
Qed.

(** A step of the creation that must succeed. *)
Lemma wp_malloc_or {A} (k : C (option A)) w Q :
  (∀ w', env_step w w' → wp (mret None) w' Q) → (∀ w', env_step w w' → wp k w' Q) →
  wp (ok ← malloc; if negb ok then mret None else k) w Q.
Proof. intros H0 H1. apply wp_bind, wp_malloc. intros [] w' ? _; auto. Qed.

Lemma wp_call_or {A B} (r : Z * A) old (good : Z → bool) (k : A → C (option B)) w Q :
  (∀ w', env_step w w' → wp (mret None) w' Q) → (∀ a w', env_step w w' → wp (k a) w' Q) →
  wp ('(rc, a) ← odbc_call r old; if negb (good rc) then mret None else k a) w Q.
Proof.
  intros H0 H1. destruct r as [rc a]. apply wp_bind, wp_odbc_call; intros w' ?;
    destruct (negb _); auto.
Qed.

Lemma wp_odbc_optional {A} (b : bool) (r : Z * A) old w Q :
  (∀ x w', env_step w w' → Q x w') →
  wp (if b then odbc_call r old else mret (SQL_SUCCESS, old)) w Q.
Proof. intros HQ. destruct b; [apply wp_odbc_call; auto|by apply wp_ret, HQ]. Qed.

Ltac none_by H := apply wp_ret, H; by repeat (etrans; [eassumption|]).

(** Every way out of the creation: NULL, or the store with the table name. *)
Lemma wp_odbc_store_create config w (Q : option opendbsc_odbc_ctx → world → Prop) :
  (∀ w', env_step w w' → Q None w') →
  (∀ cfg dbc w', env_step w w' → config = Some cfg →
     is_valid_identifier (Some (default "sessions" (cfg_table_name cfg))) = true →
     Q (Some (OdbcCtx dbc false (default "sessions" (cfg_table_name cfg)))) w') →
  wp (opendbsc_odbc_store_create config) w Q.
Proof.
  intros HN HS. destruct config as [cfg|]; [|by apply wp_ret, HN]. unfold opendbsc_odbc_store_create.
  destruct (cfg_connection_string cfg) as [conn|]; [|by apply wp_ret, HN].
  set (tbl := default "sessions" (cfg_table_name cfg)) in *.
  destruct (is_valid_identifier (Some tbl)) eqn:Hv; [cbn [negb]|by apply wp_ret, HN].
  apply wp_malloc_or; intros w1 ?; [none_by HN|].
  apply wp_bind, wp_alloc; intros w2 ?; [|intros _; none_by HN].
  apply wp_malloc_or; intros w3 ?; [none_by HN|]. apply wp_malloc_or; intros w4 ?; [none_by HN|].
  destruct odbc_alloc_env as [rc env]. destruct (negb _); [none_by HN|].
  apply (wp_call_or _ _ (λ rc, rc =? SQL_SUCCESS)); [intros w5 ?; none_by HN|intros env' w5 ?].
  apply wp_malloc_or; intros w6 ?; [none_by HN|].
  destruct (odbc_alloc_dbc _) as [rc' dbc]. destruct (negb _); [none_by HN|].
  apply wp_bind, wp_odbc_optional. intros [rc2 dbc2] w7 ?.
  apply (wp_call_or _ _ SQL_SUCCEEDED); [intros w8 ?; none_by HN|intros dbc3 w8 ?].
  apply wp_bind. assert (∀ Q', (∀ dbc4 w', env_step w8 w' → Q' dbc4 w') →
    wp (if cfg_auto_create_table cfg then odbc_create_schema dbc3 tbl else mret dbc3) w8 Q') as Hsch.
  { intros Q' HQ. destruct (cfg_auto_create_table cfg); [by apply wp_odbc_create_schema|by apply wp_ret, HQ]. }
  apply Hsch. intros dbc4 w9 ?. apply wp_malloc_or; intros w10 ?; [none_by HN|].
  apply wp_ret, HS; [by repeat (etrans; [eassumption|])|done|done].
Qed.

Context `{!OdbcWrites, !OdbcEnds}.

Lemma wp_get_text_loop fuel stmt col buf w (Q : Z * cstr * SQLHSTMT → world → Prop) :
  (odbc_unread stmt col < fuel)%nat →
  (∀ rc v stmt' w', env_step w w' → rc = 0 ∨ rc = -1 → (odbc_left stmt' ≤ odbc_left stmt)%nat →
     Q (rc, v, stmt') w') →
  wp (get_text_loop fuel stmt col buf) w Q.
Proof using Type*.
  revert stmt buf w. induction fuel as [|fuel IH]; intros stmt buf w Hf HQ; [lia|].
  cbn [get_text_loop]. apply wp_bind, wp_odbc_call; intros w1 ?.
  2: { by apply wp_ret, HQ; auto. }
  destruct (odbc_get_data stmt col 512) as [rc [[ind chunk] stmt']] eqn:E.
  pose proof (odbc_left_data _ _ _ _ _ _ E).
  destruct (Z.eqb_spec rc SQL_ERROR); [by apply wp_ret, HQ; auto|].
  destruct (Z.eqb_spec ind SQL_NULL_DATA); [by apply wp_ret, HQ; auto|].
  destruct (odbc_writes _ _ _ _ _ _ E) as [Hlen Hless]; [done..|].
  fold (part_length ind). apply wp_bind, wp_malloc. intros next w2 ? _.
  assert (env_step w w2) by (by etrans). destruct (negb next); [by apply wp_ret, HQ; auto|].
  rewrite decide_False by lia. destruct (Z.eqb_spec rc SQL_SUCCESS_WITH_INFO) as [Hi|]; cbn [negb].
  - apply IH; [specialize (Hless Hi); lia|]. intros. apply HQ; [by etrans|done|lia].
  - apply wp_ret, HQ; auto.
Qed.

Lemma wp_read_columns n stmt col cols w (Q : option (list cstr) * SQLHSTMT → world → Prop) :
  (∀ o stmt' w', env_step w w' → (odbc_left stmt' ≤ odbc_left stmt)%nat → Q (o, stmt') w') →
  wp (read_columns n stmt col cols) w Q.
Proof using Type*.
  revert stmt col cols w. induction n as [|n IH]; intros stmt col cols w HQ; [by apply wp_ret, HQ|].
  apply wp_bind, wp_get_text_loop; [lia|]. intros rc v stmt' w1 ? _ ?.
  destruct (negb _); [by apply wp_ret, HQ|]. apply IH. intros. apply HQ; [by etrans|lia].
Qed.

Lemma wp_session_from_row stmt s w (Q : Z * OpenDBSC_Session * SQLHSTMT → world → Prop) :
  (∀ rc s' stmt' w', env_step w w' → (odbc_left stmt' ≤ odbc_left stmt)%nat →
     rc = 0 ∧ filled s' ∨ rc = -1 → Q (rc, s', stmt') w') →
  wp (session_from_row stmt s) w Q.
Proof using Type*.
  intros HQ. apply wp_bind, wp_read_columns. intros [cols|] stmt' w1 ? ?;
    [|by apply wp_ret, HQ; auto].
  apply wp_bind, wp_fill_session; intros; apply wp_ret, HQ; auto; by etrans.
Qed.

Lemma wp_odbc_get ctx id o w Q :
  oc_mutex ctx = false →
  (∀ s ctx' w', env_step w w' → filled s → ctx_kept ctx ctx' → Q (0, Some (Some s), ctx') w') →
  (∀ ctx' w', env_step w w' → ctx_kept ctx ctx' → Q (-1, Some None, ctx') w') →
  wp (odbc_get ctx (Some id) (Some o)) w Q.
Proof using Type*.
  intros Hm HS HF. apply wp_bind, wp_odbc_lock; [done|]. apply wp_odbc_statement1.
  { intros w1 ?. by apply wp_ret, HF. }
  intros rc dbc st inds w1 ?. destruct (negb _); [by apply wp_ret, HF|].
  apply wp_bind, wp_bind, wp_ret, wp_bind, wp_odbc_call; intros w2 ?; assert (env_step w w2) by (by etrans);
    [destruct (odbc_fetch _ _) as [rc2 st2]; apply wp_ret|by apply wp_ret, wp_ret, HF].
  destruct (negb _); [by apply wp_ret, HF|].
  apply wp_bind, wp_malloc. intros ok w3 ? _. assert (env_step w w3) by (by etrans).
  destruct (negb ok); [by apply wp_ret, HF|]. do 2 apply wp_bind, wp_ret.
  apply wp_bind, wp_session_from_row. intros rc4 s st3 w4 ? _ Hrc4. assert (env_step w w4) by (by etrans).
  destruct Hrc4 as [[-> Hfill]| ->]; cbn [negb Z.eqb]; [|by apply wp_ret, HF].
  apply wp_bind, wp_time. intros w5 ?. assert (env_step w w5) by (by etrans).
  destruct (expired _ _); [|by apply wp_ret, HS].
  apply wp_bind, wp_odbc_delete_unlocked. intros. apply wp_ret, HF; [by etrans|done].
Qed.

(** *** The rows of a query *)

Lemma wp_odbc_fetch_loop fuel now ctx st ps sessions ids w
    (Q : option (Z * list OpenDBSC_Session * list string) → world → Prop) :
  (odbc_left st < fuel)%nat → Forall filled sessions →
  (∀ w', env_step w w' → Q None w') →
  (∀ rc l ids' w', env_step w w' → Forall filled l → Q (Some (rc, l, ids')) w') →
  wp (odbc_fetch_loop fuel now ctx (OdbcStmt (Some st) ps) sessions ids) w Q.
Proof using Type*.
  revert st sessions ids w. induction fuel as [|fuel IH]; intros st sessions ids w Hf Hall HN HS; [lia|].
  cbn [odbc_fetch_loop]. apply wp_bind, wp_bind, wp_ret, wp_bind, wp_odbc_call; intros w1 ?.
  2: { by apply wp_ret, wp_ret, HS. }
  destruct (odbc_fetch (oc_dbc ctx) st) as [frc st1] eqn:Ef. apply wp_ret.
  destruct (Z.eqb_spec frc SQL_SUCCESS) as [->|]; cbn [negb]; [|by apply wp_ret, HS].
  pose proof (odbc_left_fetch _ _ _ Ef). apply wp_bind, wp_ret.
  apply wp_bind, wp_session_from_row. intros rc tmp st2 w2 ?? Hrc.
  assert (env_step w w2) by (by etrans).
  destruct Hrc as [[-> Hfill]| ->]; cbn [negb Z.eqb]; [|by apply wp_ret, HN].
  destruct (expired now tmp).
  - destruct Hfill as (Hid & _). destruct (s_id tmp) as [id|]; [|done]. apply wp_bind, wp_ret.
    apply wp_bind, wp_alloc; intros w3 ?; [|intros _; apply wp_ret, HN; by etrans].
    apply wp_bind, wp_malloc. intros ok w4 ? _. assert (env_step w w4) by (by repeat (etrans; [eassumption|])).
    destruct (negb ok); [by apply wp_ret, HN|].
    apply IH; [lia|done|intros; apply HN; by etrans|intros; apply HS; [by etrans|done]].
  - apply wp_bind, wp_malloc. intros ok w4 ? _. assert (env_step w w4) by (by etrans).
    destruct (negb ok); [by apply wp_ret, HN|].
    apply IH; [lia|apply Forall_app; split; [done|by constructor]|intros; apply HN; by etrans|].
    intros; apply HS; [by etrans|done].
Qed.

Lemma wp_odbc_delete_expired ids ctx w (Q : opendbsc_odbc_ctx → world → Prop) :
  (∀ dbc w', env_step w w' → Q (with_dbc dbc ctx) w') → wp (odbc_delete_expired ctx ids) w Q.
Proof using Type*.
  revert ctx w. induction ids as [|id ids IH]; intros ctx w HQ; cbn [odbc_delete_expired].
  { apply wp_ret. destruct ctx. by apply (HQ oc_dbc). }
  apply wp_bind, wp_odbc_delete_unlocked. intros rc dbc w1 ? _. apply IH.
  intros dbc' w2 ?. apply (HQ dbc'). by etrans.
Qed.

Lemma wp_odbc_run_left ctx st ps w (Q : Z * opendbsc_odbc_ctx * odbc_stmt → world → Prop) :
  (∀ rc dbc st' w', env_step w w' →
     (SQL_SUCCEEDED rc = true → (odbc_left st' ≤ odbc_rows dbc)%nat) →
     Q (rc, with_dbc dbc ctx, OdbcStmt (Some st') ps) w') →
  wp (odbc_run ctx (OdbcStmt (Some st) ps)) w Q.
Proof using Type*.
  intros HQ. apply wp_bind, wp_ret. apply wp_bind, wp_odbc_call; intros w1 ?; [|by apply wp_ret, HQ].
  destruct (odbc_execute _ _ _) as [rc [dbc st']] eqn:E. apply wp_ret, HQ; [done|].
  by eapply odbc_left_execute.
Qed.

Lemma wp_odbc_get_by_user_id ctx u o n w Q :
  oc_mutex ctx = false →
  (∀ l ctx' w', env_step w w' → Forall filled l → ctx_kept ctx ctx' →
     Q (0, Some l, Some (length l), ctx') w') →
  (∀ o' n' ctx' w', env_step w w' → ctx_kept ctx ctx' → Q (-1, o', n', ctx') w') →
  wp (odbc_get_by_user_id ctx (Some u) (Some o) (Some n)) w Q.
Proof using Type*.
  intros Hm HS HF. apply wp_bind, wp_time. intros w0 ?. apply wp_bind, wp_odbc_lock; [done|].
  apply wp_bind, wp_odbc_prepare; intros st w1 ?; assert (env_step w w1) by (by etrans);
    cbn [negb Z.eqb]; [|by apply wp_ret, HF].
  apply wp_bind, wp_odbc_bind_text. intros rc st' ps w2 ? Hrc. assert (env_step w w2) by (by etrans).
  destruct Hrc as [->| ->]; cbn [negb Z.eqb]; [|by apply wp_ret, HF].
  apply wp_bind, wp_odbc_run_left. intros rc dbc st2 w3 ? Hleft. assert (env_step w w3) by (by etrans).
  destruct (SQL_SUCCEEDED rc); cbn [negb]; [|by apply wp_ret, HF]. specialize (Hleft eq_refl).
  apply wp_bind, wp_odbc_fetch_loop; [cbn; lia|done|intros w4 ?; apply wp_ret, HF; [by etrans|done]|].
  intros frc l ids w4 ? Hl. assert (env_step w w4) by (by etrans).
  destruct (negb _); [by apply wp_ret, HF|].
  apply wp_bind, wp_odbc_delete_expired. intros dbc' w5 ?. apply wp_ret, HS; [by etrans|done|done].
Qed.

End any.

(** ** Texts that fit *)

Definition fits (n : nat) (v : cstr) : Prop :=
  match v with Some t => (String.length t ≤ n)%nat | None => True end.

(** The texts of a call are no longer than their columns, keys and challenges
    no longer than the 1024 characters their parameters are bound with. *)
Definition op_fits (op : store_op) : Prop :=
  match op with
  | OpCreate (Some s) | OpUpdate (Some s) =>
      fits 64 (s_id s) ∧ fits 255 (s_user_id s) ∧ fits 1024 (s_public_key s) ∧
      fits 64 (s_algorithm s) ∧ fits 1024 (s_challenge s)
  | OpGet id _ | OpDelete id => fits 64 id
  | OpGetByUser u _ _ | OpDeleteByUser u => fits 255 u
  | _ => True
  end.

Lemma format_fits t : fits 32 (format_rfc3339_utc t 32).
Proof.
  unfold format_rfc3339_utc. destruct (gmtime_r t) as [bt|]; [|done]. cbn. unfold strftime.
  case_decide; cbn; [lia|done].
Qed.

Lemma fits_taken `{OdbcLaws} c v :
  fits (column_width c) v → from_option (odbc_takes c) True v.
Proof. destruct v; [apply odbc_law_takes|done]. Qed.

Lemma op_fits_taken `{OdbcLaws} op : op_fits op → op_taken odbc_takes op.
Proof.
  assert (∀ s r, op_fits (OpCreate (Some s)) → row_of_session s = Some r → row_taken odbc_takes r) as Hrow.
  { intros s r (H1 & H2 & H3 & H4 & H5) Hr.
    destruct (row_of_session_fields _ _ Hr) as [Hid Hu Hst Hk Ha Hc He Hcr].
    rewrite Hid in H1. rewrite Hu in H2. rewrite Hk in H3. rewrite Ha in H4. rewrite Hc in H5.
    pose proof (format_fits (s_created_at s)) as H6. rewrite Hcr in H6.
    assert (fits 32 (col_expires_at r)) as H7.
    { unfold expires_column in He. destruct (s_has_expires s); [|by injection He as <-].
      pose proof (format_fits (s_expires_at s)). destruct (format_rfc3339_utc _ _); cbn in He; [|done]. by injection He as <-. }
    assert (fits 16 (Some (col_state r))) as H8.
    { rewrite <-Hst. unfold opendbsc_session_state_str. destruct (s_state s); vm_compute; lia. }
    unfold row_taken, texts_taken. cbn [seq columns].
    repeat (constructor; [by apply fits_taken|]). constructor. }
  destruct op as [[s|]|[id|] o|[s|]|[id|]|[u|] o n|[u|]]; cbn [op_taken]; try done.
  - intros Hf r. by apply Hrow.
  - intros Hf. by apply (fits_taken 0 (Some id)).
  - intros Hf r. by apply Hrow.
  - intros Hf. by apply (fits_taken 0 (Some id)).
  - intros Hf. by apply (fits_taken 1 (Some u)).
  - intros Hf. by apply (fits_taken 1 (Some u)).
Qed.

(** ** Properties *)

(** C12. The ODBC store refines a map of sessions.  Over any driver that
    behaves as documented, with a table name of at most 225 characters and when
    nothing fails, each call whose session can be stored ([op_storable]) and
    whose texts the database takes as they are for their columns ([op_taken];
    by [op_fits_taken] those that fit the schema, and for keys and challenges
    the 1024 characters they are bound with) returns with the mutex released,
    keeps a table every row of which can be read back (columns of any length
    are read in pieces of 511 characters), and answers and updates the map as
    [sql_spec] says.  That departs from [store.h] as in the SQLite store
    (creating an identifier that is taken answers -1, an update keeps the time
    of creation), and a deletion that finds nothing answers [odbc_missing]: -1
    with a driver that follows ODBC 3. *)
Theorem odbc_store_refines_map `{OdbcLaws} (op : store_op) (ctx : opendbsc_odbc_ctx) (w : world) :
  quiet w → odbc_inv ctx → table_ok (ctx_table ctx) → op_storable op → op_taken odbc_takes op →
  ∃ r ctx', exec_op op ctx w = Ret (r, ctx') w ∧ odbc_inv ctx' ∧ table_ok (ctx_table ctx') ∧
    sql_spec odbc_missing (w_now w) op (table_view (ctx_table ctx)) r (table_view (ctx_table ctx')).
Proof. apply (sql_exec_op (H0 := odbc_SqlBackend)). Qed.

(** C29. The ODBC store always releases its mutex.  Over any driver whose
    [SQLGetData] writes what it announces and whose result sets end, whatever
    else it answers, and in any environment, every call on a store whose mutex
    is free returns, without undefined behaviour and with the mutex free
    again; its reply is well formed, and the table name does not change. *)
Theorem odbc_calls_release_mutex `{Odbc, !OdbcWrites, !OdbcEnds} (op : store_op)
    (ctx : opendbsc_odbc_ctx) (w : world) :
  oc_mutex ctx = false →
  wp (exec_op op ctx) w (λ '(r, ctx') w', env_step w w' ∧ reply_ok op r ∧ ctx_kept ctx ctx').
Proof.
  intros Hm. destruct op as [s|[id|] [o|]|s|id|[u|] [o|] [n|]|u]; cbn [exec_op reply_ok];
    apply wp_bind;
    try (apply wp_ret, wp_ret; split; [done|]; split; [right; split; [done|];
         by rewrite decide_True by auto|done]);
    try (apply wp_ret, wp_ret; split; [done|]; split; [by right|done]).
  - apply wp_odbc_create; [done|]. intros. by apply wp_ret.
  - apply wp_odbc_get; [done|..].
    + intros s ctx' w' ???. apply wp_ret. split; [done|]. split; [left|done].
      split_and!; [done..|by exists s].
    + intros ctx' w' ??. apply wp_ret. split; [done|]. split; [right|done]. split; [done|].
      by rewrite decide_False by (by intros [|]).
  - apply wp_odbc_update; [done|]. intros. by apply wp_ret.
  - apply wp_odbc_delete; [done|]. intros. by apply wp_ret.
  - apply wp_odbc_get_by_user_id; [done|..].
    + intros l ctx' w' ???. apply wp_ret. split; [done|]. split; [left|done].
      split; [done|by exists l].
    + intros o' n' ctx' w' ??. apply wp_ret. split; [done|]. split; [by right|done].
  - apply wp_odbc_delete_by_user_id; [done|]. intros. by apply wp_ret.
Qed.

(** Deleting a missing session is an error in the ODBC store.  With a
    driver that answers [SQL_NO_DATA] for a statement that affects no row, as
    ODBC 3 prescribes, deleting an identifier that is not in the table answers
    -1, where [store.h] promises 0. *)
Theorem odbc_delete_missing_is_error `{OdbcLaws} (ctx : opendbsc_odbc_ctx) (id : string) (w : world) :
  no_oom w → odbc_inv ctx → odbc_takes 0%nat id → odbc_no_data = true → ctx_table ctx !! id = None →
  ∃ ctx', odbc_delete ctx (Some id) w = Ret (-1, ctx') w ∧ ctx_table ctx' = ctx_table ctx.
Proof.
  intros Hw Hi Htk Hnd Hnone. destruct (odbc_delete_run ctx id w Hw Hi Htk) as (ctx' & Hrun & _ & Ht).
  rewrite decide_True in Hrun by done. unfold odbc_missing in Hrun. rewrite Hnd in Hrun.
  exists ctx'. split; [done|]. rewrite Ht. by apply delete_id.
Qed.

(** The table name of an ODBC store is a plain identifier.  In any
    environment and over any driver, creation returns NULL, or a store whose
    mutex is free and whose table name, the configured one or [sessions], is
    not empty and made of letters, digits and underscores, so that no text
    of the configuration other than an identifier reaches a statement. *)
Theorem odbc_table_name_is_identifier `{Odbc} (config : option OpenDBSC_OdbcConfig) (w : world) :
  wp (opendbsc_odbc_store_create config) w (λ o w', env_step w w' ∧
    (o = None ∨ ∃ ctx cfg, o = Some ctx ∧ config = Some cfg ∧ oc_mutex ctx = false ∧
       oc_table_name ctx = default "sessions" (cfg_table_name cfg) ∧ oc_table_name ctx ≠ "" ∧
       str_forall identifier_char (oc_table_name ctx) = true)).
Proof.
  apply wp_odbc_store_create; [intros w' ?; split; [done|by left]|].
  intros cfg dbc w' ? -> Hv. split; [done|]. right. do 2 eexists. do 4 (split; [done|]). cbn.
  unfold is_valid_identifier in Hv. destruct (String.eqb_spec (default "sessions" (cfg_table_name cfg)) ""); done.
Qed.

(** A table name of 243 characters. *)
Definition long_name : string := string_of_list (replicate 243 "t"%char).

Definition wit_row (id user expires : string) : srow :=
  Row id user "active" None None (Some "c") (Some expires) "1970-01-01T00:01:40Z".
Definition wit_table : table :=
  <["a" := wit_row "a" "alice" "1970-01-01T00:15:00Z"]>
    (<["b" := wit_row "b" "bob" "2100-01-01T00:00:00Z"]> ∅).

(** A long table name makes one deletion delete everything.  The
    statement of [odbc_delete] is formatted into 256 characters: with a table
    name of 243 characters, which the store accepts and every other statement
    fits, the condition is cut off, and deleting one session empties the
    table. *)
Theorem odbc_long_name_deletes_all :
  is_valid_identifier (Some long_name) = true ∧
  delete_sql long_name = "DELETE FROM " +:+ long_name ∧
  insert_sql long_name = statement_text long_name Insert ∧
  update_sql long_name = statement_text long_name Update ∧
  build_select_sql long_name "id = ?" 512 = statement_text long_name SelectId ∧
  is_Some (wit_table !! "b") ∧
  ∃ ctx' w', odbc_delete (OdbcCtx (RefDbc long_name wit_table) false long_name) (Some "a")
               (fair_world 1000) = Ret (0, ctx') w' ∧ ctx_table ctx' = ∅.
Proof.
  split; [vm_compute; reflexivity|]. split; [vm_compute; reflexivity|].
  split; [vm_compute; reflexivity|]. split; [vm_compute; reflexivity|].
  split; [vm_compute; reflexivity|]. split; [vm_compute; by eexists|].
  lazymatch goal with |- context [odbc_delete ?ctx ?id ?w] => set (m := odbc_delete ctx id) end.
  destruct (run_shows m (fair_world 1000) (λ '(rc, ctx'), (rc =? 0) && bool_decide (ctx_table ctx' = ∅)))
    as ([rc ctx'] & w' & Hrun & Ht); [vm_compute; reflexivity|].
  rewrite andb_true_iff, Z.eqb_eq, bool_decide_eq_true in Ht. destruct Ht as [-> ?].
  by exists ctx', w'.
Qed.

(** ** Witnesses *)

Definition wit_ctx : opendbsc_odbc_ctx := OdbcCtx (RefDbc "sessions" wit_table) false "sessions".

Lemma wit_ctx_inv : odbc_inv wit_ctx.
Proof. split; [done|done| |by intros ?]. unfold name_fits. simpl. lia. Qed.

Lemma wit_ctx_ok : table_ok (ctx_table wit_ctx).
Proof.
  do 2 (eapply table_ok_insert; [|reflexivity|vm_compute; reflexivity]). apply map_Forall_empty.
Qed.

Lemma odbc_store_refines_map_witness :
  quiet (fair_world 1000) ∧ odbc_inv wit_ctx ∧ table_ok (ctx_table wit_ctx) ∧
  op_fits (OpGet (Some "a") (Some None)) ∧
  ∃ r ctx', exec_op (OpGet (Some "a") (Some None)) wit_ctx (fair_world 1000) =
      Ret (r, ctx') (fair_world 1000) ∧ odbc_inv ctx' ∧ table_ok (ctx_table ctx') ∧
    sql_spec odbc_missing 1000 (OpGet (Some "a") (Some None)) (table_view (ctx_table wit_ctx)) r
      (table_view (ctx_table ctx')).
Proof.
  split; [done|]. split; [apply wit_ctx_inv|]. split; [apply wit_ctx_ok|].
  split; [simpl; lia|].
  by apply (odbc_store_refines_map (OpGet (Some "a") (Some None)) wit_ctx (fair_world 1000));
    [|apply wit_ctx_inv|apply wit_ctx_ok| |apply op_fits_taken; simpl; lia].
Defined.

Lemma odbc_calls_release_mutex_witness :
  let w := World [true; true; true; true; false] 1000 [] [] [] [] in
  let op := OpGetByUser (Some "bob") (Some []) (Some 0%nat) in
  oc_mutex wit_ctx = false ∧
  wp (exec_op op wit_ctx) w (λ '(r, ctx') w', env_step w w' ∧ reply_ok op r ∧ ctx_kept wit_ctx ctx').
Proof. split; [done|]. by apply odbc_calls_release_mutex. Defined.

Lemma odbc_delete_missing_is_error_witness :
  ctx_table wit_ctx !! "z" = None ∧
  ∃ ctx', odbc_delete wit_ctx (Some "z") (fair_world 1000) = Ret (-1, ctx') (fair_world 1000) ∧
    ctx_table ctx' = ctx_table wit_ctx.
Proof.
  split; [vm_compute; reflexivity|].
  apply odbc_delete_missing_is_error; [done|apply wit_ctx_inv|done|done|vm_compute; reflexivity].
Defined.
