(* ===== verification/Header.v ===== *)
(** [src/protocol/header.c]: serialization and parsing of the DBSC structured
    headers.  The serializers compute a size with [snprintf(NULL, 0, ...)],
    allocate it, and write with [sprintf]; the model keeps the two passes, so
    a size that is too small is undefined behaviour.  The parsers move a
    pointer over the value; moving it past the NUL is undefined behaviour. *)

From S2P Require Export CLib.
From stdpp Require Import options.

(** ** Internal helpers *)

Definition is_space (c : ascii) : bool :=
  Ascii.eqb c " " || Ascii.eqb c "009" || Ascii.eqb c "013" || Ascii.eqb c "010" ||
  Ascii.eqb c "012" || Ascii.eqb c "011".

(** [++p]: undefined at the NUL, where the code would read the next byte. *)
Definition advance (p : string) : C string :=
  match p with String _ p' => mret p' | EmptyString => ub end.

(** [while (f( *p)) ++p;]. *)
Fixpoint skip_over (f : ascii → bool) (p : string) : C string :=
  match p with
  | EmptyString => if f NUL then ub else mret EmptyString
  | String c p' => if f c then skip_over f p' else mret p
  end.

Definition memdup_str (src : string) (len : nat) : C cstr := memcpy_str src len.

(** [strlen(arr[i])] and friends: the [i]-th pointer, which must be a string. *)
Definition elem_str (arr : list cstr) (i : nat) : C string :=
  e ← deref (arr !! i); need_str e.

Fixpoint join_total (arr : list cstr) (i n total : nat) : C nat :=
  match n with
  | O => mret total
  | S n' => s ← elem_str arr i; join_total arr (S i) n' (total + String.length s)
  end.

Fixpoint join_copy (arr : list cstr) (count i n : nat) (sep : ascii) (out : cbuf) : C cbuf :=
  match n with
  | O => mret out
  | S n' =>
      s ← elem_str arr i;
      out ← buf_memcpy out s;
      out ← (if decide (i + 1 < count) then buf_memcpy out (String sep "") else mret out);
      join_copy arr count (S i) n' sep out
  end.

Definition join_strings (arr : list cstr) (count : nat) (sep : ascii) : C cstr :=
  if decide (count = 0) then memdup_str "" 0 else
  total ← join_total arr 0 count 0;
  let total := total + (count - 1) in
  out ← malloc_buf (total + 1);
  match out with
  | None => mret None
  | Some out =>
      out ← join_copy arr count 0 count sep out;
      out ← buf_nul out;
      s ← buf_cstr out;
      mret (Some s)
  end.

(** [while ( *p && *p != DQ) { if ( *p == BSL && *(p + 1)) p += 2; else ++p; }] *)
Fixpoint scan_quoted (p : string) : C string :=
  match p with
  | EmptyString => mret EmptyString
  | String c p' =>
      if Ascii.eqb c DQ then mret p else
      if Ascii.eqb c BSL && negb (Ascii.eqb (cur p') NUL) then
        match p' with String _ p'' => scan_quoted p'' | EmptyString => ub end
      else scan_quoted p'
  end.

Definition unquote (value : cstr) : C cstr :=
  match value with
  | None => mret None
  | Some value =>
      value ← skip_over is_space value;
      if negb (Ascii.eqb (cur value) DQ) then mret None else
      start ← advance value;
      p ← scan_quoted start;
      if negb (Ascii.eqb (cur p) DQ) then mret None else
      tail ← advance p;
      tail ← skip_over (λ c, negb (Ascii.eqb c NUL) && is_space c) tail;
      if negb (Ascii.eqb (cur tail) NUL) then mret None else
      memdup_str start (pdiff p start)
  end.

(** ** Serialization *)

(** [;name="value"]. *)
Definition param_text (name value : string) : string :=
  ";" +:+ name +:+ "=" +:+ dquoted value.

(** [if (v && *v) n += snprintf(NULL, 0, ";name=\"%s\"", v);].  The [int n]
    is unbounded: it would overflow for a header of 2^31 characters. *)
Definition param_size (name : string) (v : cstr) (n : nat) : nat :=
  match v with
  | Some (String _ _ as v) => n + String.length (param_text name v)
  | _ => n
  end.

(** [if (v && *v) w += sprintf(w, ";name=\"%s\"", v);] *)
Definition param_write (name : string) (v : cstr) (w : cbuf) : C cbuf :=
  match v with
  | Some (String _ _ as v) => sprintf w (param_text name v)
  | _ => mret w
  end.

Definition opendbsc_registration_serialize (algorithms : option (list cstr)) (count : nat)
    (path challenge authorization provider_key provider_session_id provider_url : cstr)
    : C cstr :=
  if bool_decide (0 < count) && bool_decide (algorithms = None) then mret None else
  algs ← join_strings (default [] algorithms) count " ";
  match algs with
  | None => mret None
  | Some algs =>
      let n := String.length ("(" +:+ algs +:+ ")") in
      let n := param_size "path" path n in
      let n := param_size "challenge" challenge n in
      let n := param_size "authorization" authorization n in
      let n := param_size "provider_key" provider_key n in
      let n := param_size "provider_session_id" provider_session_id n in
      let n := param_size "provider_url" provider_url n in
      out ← malloc_buf (n + 1);
      match out with
      | None => mret None
      | Some w =>
          w ← sprintf w ("(" +:+ algs +:+ ")");
          w ← param_write "path" path w;
          w ← param_write "challenge" challenge w;
          w ← param_write "authorization" authorization w;
          w ← param_write "provider_key" provider_key w;
          w ← param_write "provider_session_id" provider_session_id w;
          w ← param_write "provider_url" provider_url w;
          s ← buf_cstr w;
          mret (Some s)
      end
  end.

Definition opendbsc_challenge_serialize (value session_id : cstr) : C cstr :=
  match value with
  | None => mret None
  | Some value =>
      let n := String.length (dquoted value) in
      let n := param_size "id" session_id n in
      out ← malloc_buf (n + 1);
      match out with
      | None => mret None
      | Some w =>
          w ← sprintf w (dquoted value);
          w ← param_write "id" session_id w;
          s ← buf_cstr w;
          mret (Some s)
      end
  end.

Definition opendbsc_session_response_serialize (jwt : cstr) : C cstr :=
  match jwt with
  | None => mret None
  | Some jwt =>
      let n := String.length (dquoted jwt) in
      out ← malloc_buf (n + 1);
      match out with
      | None => mret None
      | Some out => out ← sprintf out (dquoted jwt); s ← buf_cstr out; mret (Some s)
      end
  end.

Definition opendbsc_session_id_serialize (id : cstr) : C cstr :=
  match id with
  | None => mret None
  | Some id =>
      let n := String.length (dquoted id) in
      out ← malloc_buf (n + 1);
      match out with
      | None => mret None
      | Some out => out ← sprintf out (dquoted id); s ← buf_cstr out; mret (Some s)
      end
  end.

Record OpenDBSC_SkippedEntry := SkippedEntry { se_reason : cstr; se_session_id : cstr }.

#[export] Instance SkippedEntry_eq_dec : EqDecision OpenDBSC_SkippedEntry.
Proof. solve_decision. Defined.

Fixpoint skipped_size (entries : list OpenDBSC_SkippedEntry) (count i k n : nat) : C nat :=
  match k with
  | O => mret n
  | S k' =>
      e ← deref (entries !! i);
      let reason := default "" (se_reason e) in
      let sid := default "" (se_session_id e) in
      let n := n + String.length reason in
      let n := param_size "session_identifier" (Some sid) n in
      let n := if decide (i + 1 < count) then n + 2 else n in
      skipped_size entries count (S i) k' n
  end.

Fixpoint skipped_write (entries : list OpenDBSC_SkippedEntry) (count i k : nat) (w : cbuf)
    : C cbuf :=
  match k with
  | O => mret w
  | S k' =>
      e ← deref (entries !! i);
      let reason := default "" (se_reason e) in
      let sid := default "" (se_session_id e) in
      w ← sprintf w reason;
      w ← param_write "session_identifier" (Some sid) w;
      w ← (if decide (i + 1 < count) then sprintf w ", " else mret w);
      skipped_write entries count (S i) k' w
  end.

(** The buffer is returned as it is: with no entry nothing is written to it. *)
Definition opendbsc_session_skipped_serialize (entries : option (list OpenDBSC_SkippedEntry))
    (count : nat) : C (option cbuf) :=
  if bool_decide (0 < count) && bool_decide (entries = None) then mret None else
  let entries := default [] entries in
  n ← skipped_size entries count 0 count 0;
  out ← malloc_buf (n + 1);
  match out with
  | None => mret None
  | Some out => out ← skipped_write entries count 0 count out; mret (Some out)
  end.

(** ** Parsing *)

Definition opendbsc_parse_session_response (value : cstr) : C cstr := unquote value.
Definition opendbsc_parse_session_id (value : cstr) : C cstr := unquote value.

Definition is_token_char (c : ascii) : bool :=
  char_between "A" "Z" c || char_between "a" "z" c || char_between "0" "9" c ||
  existsb (Ascii.eqb c)
    ["!"; "#"; "$"; "%"; "&"; "'"; "*"; "+"; "-"; "."; "^"; "_"; "`"; "|"; "~"; ":"; "/"]%char.

Definition valid_skip_reasons : list string := ["unreachable"; "server_error"; "quota_exceeded"].

Definition is_valid_skip_reason (reason : string) (len : nat) : bool :=
  existsb (λ v, Nat.eqb (String.length v) len && strncmp_eq reason v len) valid_skip_reasons.

(** The parameters of one entry: the position after them and the last
    [session_identifier]; [None] is [goto fail]. *)
Fixpoint skipped_params (fuel : nat) (p : string) (session_id : cstr)
    : C (option (string * cstr)) :=
  match fuel with
  | O => hang
  | S fuel' =>
      if negb (Ascii.eqb (cur p) ";") then mret (Some (p, session_id)) else
      p ← advance p;
      p ← skip_over is_space p;
      let key_start := p in
      p ← skip_over is_token_char p;
      let key_len := pdiff p key_start in
      p ← skip_over is_space p;
      if negb (Ascii.eqb (cur p) "=") then mret None else
      p ← advance p;
      p ← skip_over is_space p;
      if negb (Ascii.eqb (cur p) DQ) then mret None else
      val_start ← advance p;
      p ← scan_quoted val_start;
      if negb (Ascii.eqb (cur p) DQ) then mret None else
      let val_len := pdiff p val_start in
      p ← advance p;
      if Nat.eqb key_len (String.length "session_identifier") &&
         strncmp_eq key_start "session_identifier" key_len
      then
        sid ← memdup_str val_start val_len;
        match sid with
        | None => mret None
        | Some _ => skipped_params fuel' p sid
        end
      else skipped_params fuel' p session_id
  end.

Fixpoint skipped_entries (fuel : nat) (p : string) (entries : list OpenDBSC_SkippedEntry)
    (capacity : nat) : C (option (list OpenDBSC_SkippedEntry)) :=
  match fuel with
  | O => hang
  | S fuel' =>
      if Ascii.eqb (cur p) NUL then mret (Some entries) else
      p ← skip_over (λ c, is_space c || Ascii.eqb c ",") p;
      if Ascii.eqb (cur p) NUL then mret (Some entries) else
      let tok_start := p in
      p ← skip_over is_token_char p;
      let tok_len := pdiff p tok_start in
      if Nat.eqb tok_len 0 then mret None else
      r ← skipped_params (S (String.length p)) p None;
      match r with
      | None => mret None
      | Some (p, session_id) =>
          if is_valid_skip_reason tok_start tok_len && bool_decide (session_id ≠ None) then
            grown ← (if Nat.eqb (length entries) capacity then
                       (ok ← malloc;
                        mret (if ok : bool then
                                Some (if Nat.eqb capacity 0 then 4 else capacity * 2)
                              else None))
                     else mret (Some capacity));
            match grown with
            | None => mret None
            | Some capacity =>
                reason ← memdup_str tok_start tok_len;
                match reason with
                | None => mret None
                | Some _ =>
                    (* entries[n_entries] = ... *)
                    if negb (bool_decide (length entries < capacity)) then ub else
                    skipped_entries fuel' p (entries ++ [SkippedEntry reason session_id])
                      capacity
                end
            end
          else skipped_entries fuel' p entries capacity
      end
  end.

(** [out] and [count] are output pointers with what they point to. *)
Definition opendbsc_parse_session_skipped (value : cstr)
    (out : option (list OpenDBSC_SkippedEntry)) (count : option nat)
    : C (Z * option (list OpenDBSC_SkippedEntry) * option nat) :=
  match value, out, count with
  | Some value, Some _, Some _ =>
      r ← skipped_entries (S (String.length value)) value [] 0;
      match r with
      | None => mret ((-1)%Z, Some [], Some 0)
      | Some entries => mret (0%Z, Some entries, Some (length entries))
      end
  | _, _, _ => mret ((-1)%Z, out, count)
  end.

(** ** Quoted strings

    A quoted string may hold any character but an unescaped double quote; a
    backslash takes the next character with it. *)
Fixpoint quoted_content (s : string) : bool :=
  match s with
  | EmptyString => true
  | String c s' =>
      if Ascii.eqb c DQ then false else
      if Ascii.eqb c BSL then
        match s' with EmptyString => false | String _ s'' => quoted_content s'' end
      else quoted_content s'
  end.

(** [v] is a quoted [s], with white space around it. *)
Definition header_string (v s : string) : Prop :=
  ∃ pre post, v = pre +:+ dquoted s +:+ post ∧ str_forall is_space pre = true ∧
              str_forall is_space post = true ∧ quoted_content s = true.

Lemma dquoted_app s t : dquoted s +:+ t = String DQ (s +:+ String DQ t).
Proof. unfold dquoted. by autorewrite with strdb. Qed.

Lemma dquoted_length s : String.length (dquoted s) = String.length s + 2.
Proof. unfold dquoted. simpl. rewrite str_length_app. simpl. lia. Qed.

(** *** The pointer moves

    Where they end; none of them leaves the string. *)
Fixpoint quoted_end (p : string) : string :=
  match p with
  | EmptyString => EmptyString
  | String c p' =>
      if Ascii.eqb c DQ then p else
      if Ascii.eqb c BSL then
        match p' with String _ p'' => quoted_end p'' | EmptyString => EmptyString end
      else quoted_end p'
  end.

Lemma scan_quoted_run p w : scan_quoted p w = Ret (quoted_end p) w.
Proof.
  induction p as [|c|c d p IH1 IH2] using string_ind2; [done| |].
  - cbn. destruct (Ascii.eqb c DQ); [done|]. by destruct (Ascii.eqb c BSL).
  - remember (String d p) as q eqn:Hq. cbn [scan_quoted quoted_end].
    destruct (Ascii.eqb c DQ); [done|]. destruct (Ascii.eqb c BSL); [|exact IH2]. subst q.
    cbn [cur andb]. destruct (Ascii.eqb_spec d NUL) as [->|]; [|exact IH1]. exact IH1.
Qed.

Lemma skip_over_run f p w : f NUL = false → skip_over f p w = Ret (skip_while f p) w.
Proof.
  intros Hf. induction p as [|c p IH]; cbn; [by rewrite Hf|]. by destruct (f c).
Qed.

Lemma skip_while_ext f g p : (∀ c, f c = g c) → skip_while f p = skip_while g p.
Proof. intros Hfg. induction p as [|c p IH]; cbn; [done|]. by rewrite Hfg, IH. Qed.

Lemma nonnul_space c : negb (Ascii.eqb c NUL) && is_space c = is_space c.
Proof. by destruct (Ascii.eqb_spec c NUL) as [->|]. Qed.

Lemma wp_scan_quoted p w Q : Q (quoted_end p) w → wp (scan_quoted p) w Q.
Proof. unfold wp. by rewrite scan_quoted_run. Qed.

Lemma wp_skip_over f p w Q : f NUL = false → Q (skip_while f p) w → wp (skip_over f p) w Q.
Proof. intros Hf. unfold wp. by rewrite skip_over_run. Qed.

Lemma scan_quoted_app s t :
  quoted_content s = true → quoted_end (s +:+ String DQ t) = String DQ t.
Proof.
  induction s as [|c|c d s IH1 IH2] using string_ind2; [done| |]; simpl.
  - intros H. destruct (Ascii.eqb c DQ); [done|]. destruct (Ascii.eqb c BSL); done.
  - rewrite str_app_cons. simpl. destruct (Ascii.eqb c DQ); [done|].
    destruct (Ascii.eqb c BSL); [exact IH1|exact IH2].
Qed.

Lemma scan_quoted_split p :
  ∃ s, p = s +:+ quoted_end p ∧
    (quoted_end p = "" ∨ quoted_content s = true ∧ ∃ t, quoted_end p = String DQ t).
Proof.
  assert (∀ c t, Ascii.eqb c DQ = true → ∃ s, String c t = s +:+ String c t ∧
    (String c t = "" ∨ quoted_content s = true ∧ ∃ u, String c t = String DQ u)) as Hdq.
  { intros c t ->%Ascii.eqb_eq. exists "". eauto. }
  induction p as [|c|c d p IH1 IH2] using string_ind2; [by exists ""; auto| |].
  - simpl. destruct (Ascii.eqb c DQ) eqn:E1; [auto|].
    exists (String c ""). destruct (Ascii.eqb c BSL); auto.
  - remember (String d p) as q. simpl. destruct (Ascii.eqb c DQ) eqn:E1; [auto|].
    destruct (Ascii.eqb c BSL) eqn:E2; subst q.
    + destruct IH1 as (s & Hs & H). exists (String c (String d s)).
      rewrite !str_app_cons. split; [by do 2 f_equal|]. simpl. by rewrite E1, E2.
    + destruct IH2 as (s & Hs & H). exists (String c s).
      rewrite !str_app_cons. split; [by f_equal|]. simpl. rewrite E1, E2. done.
Qed.

Lemma is_space_not_DQ s t p :
  str_forall is_space s = true → skip_while is_space (s +:+ String DQ t) = p → p = String DQ t.
Proof. intros Hs. rewrite skip_while_app by done. by intros <-. Qed.

(** The value of a header determines the string in it, and [unquote] finds it. *)
Lemma wp_unquote v w (Q : cstr → world → Prop) :
  c_string v = true →
  (∀ s w', env_step w w' → header_string v s → Q (Some s) w') →
  (∀ w', env_step w w' → ((∀ s, ¬ header_string v s) ∨ ¬ no_oom w) → Q None w') →
  wp (unquote (Some v)) w Q.
Proof.
  intros Hcs HS HN. unfold unquote. apply wp_bind, wp_skip_over; [done|].
  destruct (skip_while_split is_space v) as (pre & Hv & Hpre).
  assert (∀ s, header_string v s → ∃ post, str_forall is_space post = true ∧
    skip_while is_space v = String DQ (s +:+ String DQ post) ∧ quoted_content s = true) as Hinv.
  { intros s (pre' & post & -> & ? & ? & ?). exists post.
    rewrite skip_while_app, dquoted_app by done. split_and!; done. }
  destruct (Ascii.eqb_spec (cur (skip_while is_space v)) DQ) as [Hc|Hc]; simpl; [|].
  2:{ apply wp_ret, HN; [done|left]. intros s (post & _ & Hs & _)%Hinv. by rewrite Hs in Hc. }
  destruct (skip_while is_space v) as [|c start]; [done|]. simpl in Hc. subst c.
  apply wp_bind, wp_ret, wp_bind, wp_scan_quoted.
  destruct (scan_quoted_split start) as (s & Hstart & Hp).
  assert (∀ s', header_string v s' → ∃ post, str_forall is_space post = true ∧
    s' = s ∧ quoted_end start = String DQ post) as Hinv2.
  { intros s' (post & Hpost & Hs & Hq)%Hinv. simplify_eq. exists post.
    rewrite scan_quoted_app in Hstart |- * by done. split_and!; try done.
    apply (f_equal (λ t, str_take (String.length t - String.length (String DQ post)) t))
      in Hstart. rewrite !str_length_app, !Nat.add_sub in Hstart.
    by rewrite !str_take_app in Hstart. }
  destruct Hp as [Hp|(Hq & tail & Hp)]; rewrite Hp; simpl.
  { apply wp_ret, HN; [done|left]. intros s' (? & _ & _ & ?)%Hinv2. congruence. }
  apply wp_bind, wp_ret, wp_bind, wp_skip_over; [done|].
  rewrite (skip_while_ext _ _ _ nonnul_space).
  destruct (Ascii.eqb_spec (cur (skip_while is_space tail)) NUL) as [Ht|Ht]; simpl.
  2:{ apply wp_ret, HN; [done|left]. intros s' (post & Hpost & _ & Hp2)%Hinv2.
      rewrite Hp in Hp2. simplify_eq.
      rewrite skip_while_all in Ht by done. by destruct Ht. }
  assert (str_take (pdiff (String DQ tail) start) start = s) as Htake.
  { rewrite Hp in Hstart. rewrite Hstart. apply str_take_pdiff. }
  apply wp_memcpy_str; [unfold pdiff; lia| |intros; apply HN; auto].
  intros w' ?. rewrite Htake. apply HS; [done|].
  exists pre, tail. rewrite dquoted_app. split_and!; try done.
  - rewrite Hv at 1. by rewrite Hstart, Hp.
  - destruct (skip_while_head is_space tail) as [H0|(c & u & H0 & Hsp)];
      destruct (skip_while_split is_space tail) as (u' & Hu & Hall); rewrite H0 in Hu, Ht.
    + rewrite str_app_nil_r in Hu. by subst u'.
    + simpl in Ht. subst c. rewrite Hv, Hstart, Hp, Hu in Hcs.
      rewrite c_string_app, c_string_cons, c_string_app, c_string_cons, c_string_app,
        c_string_cons in Hcs. by rewrite !andb_false_r in Hcs.
Qed.

(** ** The text of the headers *)

(** [words] with [sep] between them. *)
Fixpoint str_join (sep : string) (words : list string) : string :=
  match words with
  | [] => ""
  | [s] => s
  | s :: words' => s +:+ sep +:+ str_join sep words'
  end.

(** An optional parameter: absent when the value is NULL or empty. *)
Definition opt_param (name : string) (v : cstr) : string :=
  match v with
  | Some (String _ _ as v) => param_text name v
  | _ => ""
  end.

Definition registration_text (algs : list string)
    (path challenge authorization provider_key provider_session_id provider_url : cstr)
    : string :=
  ("(" +:+ str_join " " algs +:+ ")") +:+ opt_param "path" path +:+
  opt_param "challenge" challenge +:+ opt_param "authorization" authorization +:+
  opt_param "provider_key" provider_key +:+
  opt_param "provider_session_id" provider_session_id +:+
  opt_param "provider_url" provider_url.

Definition challenge_text (value : string) (session_id : cstr) : string :=
  dquoted value +:+ opt_param "id" session_id.

Definition skipped_entry_text (e : OpenDBSC_SkippedEntry) : string :=
  default "" (se_reason e) +:+ opt_param "session_identifier" (se_session_id e).

Definition skipped_text (entries : list OpenDBSC_SkippedEntry) : string :=
  str_join ", " (skipped_entry_text <$> entries).

Lemma str_join_cons sep s l :
  str_join sep (s :: l) = s +:+ (if decide (l = []) then "" else sep +:+ str_join sep l).
Proof.
  case_decide as Hl; [subst l; by rewrite str_app_nil_r|]. by destruct l.
Qed.

Lemma param_size_eq name v n :
  param_size name v n = n + String.length (opt_param name v).
Proof. destruct v as [[|c v]|]; simpl; lia. Qed.

Lemma wp_param_write name v b t w Q :
  b_text b = Some t →
  String.length t + String.length (opt_param name v) + 1 ≤ b_size b →
  Q (CBuf (b_size b) (Some (t +:+ opt_param name v))) w →
  wp (param_write name v b) w Q.
Proof.
  intros Ht Hlen HQ. destruct b as [n t']. simpl in *. subst t'.
  destruct v as [[|c v]|]; simpl in *.
  1,3: by rewrite str_app_nil_r in HQ; apply wp_ret.
  by apply wp_sprintf.
Qed.

(** Closes the bounds and the final text of a serializer. *)
Ltac header_side :=
  simpl; rewrite ?param_size_eq, ?str_length_app, ?dquoted_length; simpl;
  rewrite ?str_length_app, ?dquoted_length; simpl; lia.

Lemma elem_str_run (l1 l2 : list string) s w :
  elem_str (Some <$> (l1 ++ s :: l2)) (length l1) w = Ret s w.
Proof.
  unfold elem_str. rewrite list_lookup_fmap, lookup_app_r, Nat.sub_diag by done. done.
Qed.

Lemma join_total_run l2 : ∀ l1 total w,
  join_total (Some <$> (l1 ++ l2)) (length l1) (length l2) total w
    = Ret (total + sum_list_with String.length l2) w.
Proof.
  induction l2 as [|s l2 IH]; intros l1 total w; simpl; [by rewrite Nat.add_0_r|].
  rewrite bind_unfold, elem_str_run. specialize (IH (l1 ++ [s])).
  rewrite <-app_assoc, length_app, Nat.add_1_r in IH. simpl in IH. rewrite IH.
  f_equal. lia.
Qed.

Lemma str_join_length (l : list string) sep :
  String.length (str_join (String sep "") l)
    = sum_list_with String.length l + (length l - 1).
Proof.
  induction l as [|s l IH]; [done|]. rewrite str_join_cons, str_length_app.
  case_decide as Hl; [subst l; simpl; lia|].
  rewrite str_app_cons. simpl. rewrite str_app_nil_l, IH.
  destruct l; simpl; [done|lia].
Qed.

Lemma wp_join_copy sep w l2 : ∀ l1 b (Q : cbuf → world → Prop),
  String.length (default "" (b_text b)) + String.length (str_join (String sep "") l2)
    ≤ b_size b →
  (∀ b', b_size b' = b_size b →
     default "" (b_text b') = default "" (b_text b) +:+ str_join (String sep "") l2 → Q b' w) →
  wp (join_copy (Some <$> (l1 ++ l2)) (length (l1 ++ l2)) (length l1) (length l2) sep b) w Q.
Proof.
  induction l2 as [|s l2 IH]; intros l1 b Q Hlen HQ.
  { apply wp_ret, HQ; simpl; [done|by rewrite str_app_nil_r]. }
  rewrite str_join_cons in Hlen, HQ. rewrite str_length_app in Hlen.
  cbn [join_copy]. apply wp_bind. eapply wp_run; [apply elem_str_run|]. cbn beta.
  apply wp_bind. unfold buf_memcpy at 1. rewrite decide_True
    by (rewrite str_length_app; lia). apply wp_ret.
  rewrite length_app. cbn [length].
  assert (∀ b', length l1 + S (length l2) = length ((l1 ++ [s]) ++ l2) →
    wp (join_copy (Some <$> ((l1 ++ [s]) ++ l2)) (length ((l1 ++ [s]) ++ l2))
      (length (l1 ++ [s])) (length l2) sep b') w Q →
    wp (join_copy (Some <$> (l1 ++ s :: l2)) (length l1 + S (length l2))
      (S (length l1)) (length l2) sep b') w Q) as Hshift.
  { intros b' ->. assert (length (l1 ++ [s]) = S (length l1)) as -> by (rewrite length_app; simpl; lia).
    by rewrite <-app_assoc. }
  assert (length l1 + S (length l2) = length ((l1 ++ [s]) ++ l2)) as Hcount.
  { rewrite !length_app. simpl. lia. }
  apply wp_bind. case_decide as Hl; case_decide as Hlast.
  - subst l2. simpl in Hlast. lia.
  - subst l2. apply wp_ret, Hshift, IH; simpl; [done|rewrite str_length_app; lia|].
    intros b' Hsz Ht. apply HQ; [done|]. rewrite Ht. by autorewrite with strdb.
  - rewrite str_length_app in Hlen. unfold buf_memcpy. simpl in *.
    rewrite decide_True by (rewrite !str_length_app; simpl; lia).
    apply wp_ret, Hshift, IH; simpl; [done|rewrite !str_length_app; simpl; lia|].
    intros b' Hsz Ht. apply HQ; [done|]. rewrite Ht. by autorewrite with strdb.
  - destruct l2; [done|]. simpl in Hlast. lia.
Qed.

Lemma wp_join_strings algs w Q :
  (∀ w', env_step w w' → Q (Some (str_join " " algs)) w') →
  (∀ w', env_step w w' → ¬ no_oom w → Q None w') →
  wp (join_strings (Some <$> algs) (length algs) " ") w Q.
Proof.
  intros HS HN. unfold join_strings. case_decide as Hc.
  { destruct algs; [|done]. by apply wp_memcpy_str. }
  apply wp_bind. eapply wp_run; [apply (join_total_run algs [])|]. cbn beta.
  apply wp_bind, wp_alloc; intros w' Hw; [|intros ?; apply wp_ret; auto].
  apply wp_bind, (wp_join_copy _ _ algs []).
  { cbn. rewrite str_join_length. lia. }
  intros b Hb Ht. cbn in Hb, Ht. rewrite str_app_nil_l in Ht.
  apply wp_bind. unfold buf_nul. rewrite Ht, decide_True.
  - apply wp_ret, wp_bind, wp_deref. apply wp_ret. auto.
  - rewrite Hb, str_join_length. lia.
Qed.

Lemma wp_registration_serialize algs path challenge authorization pk psid purl w Q :
  (∀ w', env_step w w' →
     Q (Some (registration_text algs path challenge authorization pk psid purl)) w') →
  (∀ w', env_step w w' → ¬ no_oom w → Q None w') →
  wp (opendbsc_registration_serialize (Some (Some <$> algs)) (length algs) path challenge
        authorization pk psid purl) w Q.
Proof.
  intros HS HN. unfold opendbsc_registration_serialize.
  rewrite andb_false_r. cbn [default].
  apply wp_bind, wp_join_strings; intros w1 Hw1; [|by intros ?; apply wp_ret; auto].
  apply wp_bind, wp_alloc; intros w2 Hw2.
  2:{ intros ?; apply wp_ret, HN; [by etrans|by eauto using step_oom]. }
  apply wp_bind, wp_sprintf; [header_side|].
  do 6 (apply wp_bind; eapply wp_param_write; [done|header_side|]).
  apply wp_bind, wp_deref, wp_ret. unfold registration_text.
  cbn [b_text default]. rewrite str_app_nil_l.
  pose proof (HS w2 ltac:(by etrans)) as H. unfold registration_text in H.
  rewrite !str_app_assoc in H. rewrite !str_app_assoc. done.
Qed.

Lemma wp_challenge_serialize value session_id w Q :
  (∀ w', env_step w w' → Q (Some (challenge_text value session_id)) w') →
  (∀ w', env_step w w' → ¬ no_oom w → Q None w') →
  wp (opendbsc_challenge_serialize (Some value) session_id) w Q.
Proof.
  intros HS HN. unfold opendbsc_challenge_serialize.
  apply wp_bind, wp_alloc; intros w' Hw; [|intros ?; apply wp_ret; auto].
  apply wp_bind, wp_sprintf; [header_side|].
  apply wp_bind. eapply wp_param_write; [done|header_side|].
  apply wp_bind, wp_deref, wp_ret. by apply HS.
Qed.

Lemma wp_session_response_serialize jwt w Q :
  (∀ w', env_step w w' → Q (Some (dquoted jwt)) w') →
  (∀ w', env_step w w' → ¬ no_oom w → Q None w') →
  wp (opendbsc_session_response_serialize (Some jwt)) w Q.
Proof.
  intros HS HN. unfold opendbsc_session_response_serialize.
  apply wp_bind, wp_alloc; intros w' Hw; [|intros ?; apply wp_ret; auto].
  apply wp_bind, wp_sprintf; [header_side|].
  apply wp_bind, wp_deref, wp_ret. by apply HS.
Qed.

Lemma wp_session_id_serialize id w Q :
  (∀ w', env_step w w' → Q (Some (dquoted id)) w') →
  (∀ w', env_step w w' → ¬ no_oom w → Q None w') →
  wp (opendbsc_session_id_serialize (Some id)) w Q.
Proof. apply wp_session_response_serialize. Qed.

(** *** The skipped-session header *)

Lemma skipped_size_run es2 : ∀ es1 n w,
  skipped_size (es1 ++ es2) (length (es1 ++ es2)) (length es1) (length es2) n w
    = Ret (n + String.length (skipped_text es2)) w.
Proof.
  unfold skipped_text.
  induction es2 as [|e es2 IH]; intros es1 n w; [simpl; by rewrite Nat.add_0_r|].
  cbn [skipped_size length]. rewrite bind_unfold.
  assert ((es1 ++ e :: es2) !! length es1 = Some e) as -> by
    (by rewrite lookup_app_r, Nat.sub_diag).
  cbn [deref]. rewrite ret_unfold. cbn beta.
  specialize (IH (es1 ++ [e])). rewrite <-app_assoc in IH.
  assert (length (es1 ++ [e]) = S (length es1)) as E by (rewrite length_app; simpl; lia).
  rewrite E in IH. cbn [app] in IH. rewrite IH, param_size_eq. f_equal.
  rewrite fmap_cons, str_join_cons, !str_length_app, length_app. simpl.
  unfold skipped_entry_text at 2. rewrite str_length_app.
  destruct es2 as [|e' es2]; simpl.
  - rewrite decide_False by lia. destruct (se_session_id e); simpl; lia.
  - rewrite decide_True by lia. rewrite str_length_app. simpl.
    destruct (se_session_id e); simpl; lia.
Qed.

Lemma wp_skipped_write w es2 : ∀ es1 b (Q : cbuf → world → Prop),
  String.length (default "" (b_text b)) + String.length (skipped_text es2) + 1 ≤ b_size b →
  Q (CBuf (b_size b) (if decide (es2 = []) then b_text b
                      else Some (default "" (b_text b) +:+ skipped_text es2))) w →
  wp (skipped_write (es1 ++ es2) (length (es1 ++ es2)) (length es1) (length es2) b) w Q.
Proof.
  unfold skipped_text.
  induction es2 as [|e es2 IH]; intros es1 b Q Hlen HQ; [by destruct b; apply wp_ret|].
  rewrite decide_False in HQ by done.
  rewrite fmap_cons, str_join_cons in Hlen, HQ. rewrite str_length_app in Hlen.
  unfold skipped_entry_text at 1 in Hlen. unfold skipped_entry_text at 1 in HQ.
  rewrite str_length_app in Hlen.
  cbn [skipped_write length]. apply wp_bind.
  assert ((es1 ++ e :: es2) !! length es1 = Some e) as -> by
    (by rewrite lookup_app_r, Nat.sub_diag).
  apply wp_deref. cbn beta.
  assert (opt_param "session_identifier" (Some (default "" (se_session_id e)))
    = opt_param "session_identifier" (se_session_id e)) as Hsid by (by destruct (se_session_id e)).
  apply wp_bind, wp_sprintf; [lia|].
  apply wp_bind. eapply wp_param_write; [done| |]; rewrite Hsid.
  { simpl. rewrite str_length_app. lia. }
  cbn [b_size].
  specialize (IH (es1 ++ [e])). rewrite <-app_assoc in IH. cbn [app] in IH.
  assert (length (es1 ++ [e]) = S (length es1)) as E by (rewrite length_app; simpl; lia).
  rewrite E in IH. apply wp_bind.
  destruct es2 as [|e' es2].
  - rewrite decide_False by (rewrite length_app; simpl; lia). apply wp_ret, IH.
    + simpl. rewrite !str_length_app. lia.
    + simpl in *. by rewrite str_app_nil_r, str_app_assoc in *.
  - rewrite decide_True by (rewrite length_app; simpl; lia).
    rewrite decide_False in Hlen, HQ by done. rewrite str_length_app in Hlen.
    apply wp_sprintf; [simpl in *; rewrite !str_length_app; lia|].
    apply IH; [cbn [b_text b_size from_option id]; rewrite !str_length_app; lia|].
    rewrite decide_False by done. cbn [b_text b_size from_option id].
    rewrite !str_app_assoc in HQ. by rewrite !str_app_assoc.
Qed.

Lemma wp_session_skipped_serialize entries w Q :
  (∀ w', env_step w w' →
     Q (Some (CBuf (String.length (skipped_text entries) + 1)
                (if decide (entries = []) then None else Some (skipped_text entries)))) w') →
  (∀ w', env_step w w' → ¬ no_oom w → Q None w') →
  wp (opendbsc_session_skipped_serialize (Some entries) (length entries)) w Q.
Proof.
  intros HS HN. unfold opendbsc_session_skipped_serialize. rewrite andb_false_r.
  cbn [default]. apply wp_bind. eapply wp_run; [apply (skipped_size_run entries [])|].
  cbn beta. apply wp_bind, wp_alloc; intros w' Hw; [|intros; apply wp_ret; auto].
  apply wp_bind, (wp_skipped_write _ entries []); simpl; [lia|].
  rewrite str_app_nil_l. apply wp_ret. auto.
Qed.

Lemma session_skipped_serialize_run entries w :
  entries ≠ [] → quiet w →
  opendbsc_session_skipped_serialize (Some entries) (length entries) w
    = Ret (Some (CBuf (String.length (skipped_text entries) + 1)
                   (Some (skipped_text entries)))) w.
Proof.
  intros Hne Hw.
  assert (wp (opendbsc_session_skipped_serialize (Some entries) (length entries)) w
    (λ r w', env_step w w' ∧ r = Some (CBuf (String.length (skipped_text entries) + 1)
                                         (Some (skipped_text entries)))))
    as (r & w' & -> & Hst & ->)%wp_elim.
  { apply wp_session_skipped_serialize; [rewrite decide_False by done; auto|].
    intros w' ? []. by apply quiet_no_oom. }
  by rewrite (step_quiet _ _ Hst Hw).
Qed.

(** ** The parser of the skipped-session header *)

(** An entry the parser may return: a reason of the specification and a
    session identifier that was quoted. *)
Definition valid_entry (e : OpenDBSC_SkippedEntry) : Prop :=
  ∃ r s, e = SkippedEntry (Some r) (Some s) ∧ r ∈ valid_skip_reasons ∧
         quoted_content s = true.

Lemma is_valid_skip_reason_spec r len :
  is_valid_skip_reason r len = true ↔
  ∃ v, v ∈ valid_skip_reasons ∧ len = String.length v ∧ str_take len r = v.
Proof.
  unfold is_valid_skip_reason, strncmp_eq. rewrite existsb_exists. split.
  - intros (v & Hv & [Hl%Nat.eqb_eq Ht%String.eqb_eq]%andb_true_iff). exists v.
    split_and!; [by apply list_elem_of_In|done|]. subst len. by rewrite Ht, str_take_all.
  - intros (v & Hv & -> & Ht). exists v. split; [by apply list_elem_of_In|].
    by rewrite Nat.eqb_refl, Ht, str_take_all, String.eqb_refl.
Qed.

Lemma skip_while_take f p s q :
  p = s +:+ q → skip_while f p = q → str_take (pdiff (skip_while f p) p) p = s.
Proof. intros -> ->. apply str_take_pdiff. Qed.

Lemma scan_quoted_dq p c t :
  quoted_end p = String c t → c = DQ → ∃ s, p = s +:+ String DQ t ∧ quoted_content s = true ∧
    pdiff (String c t) p = String.length s ∧ str_take (String.length s) p = s.
Proof.
  intros Hp ->. destruct (scan_quoted_split p) as (s & Hs & [?|(Hq & t' & Ht)]); [congruence|].
  rewrite Hp in Hs. exists s. rewrite Hs, pdiff_app, str_take_app. done.
Qed.

(** The parameters: the loop ends within its fuel, at a suffix that is not
    longer, with a quoted identifier or the one it had. *)
Lemma wp_skipped_params fuel : ∀ p sid0 w Q,
  String.length p < fuel →
  (∀ p' sid w', env_step w w' → String.length p' ≤ String.length p →
     (sid = sid0 ∨ ∃ s, sid = Some s ∧ quoted_content s = true) → Q (Some (p', sid)) w') →
  (∀ w', env_step w w' → Q None w') →
  wp (skipped_params fuel p sid0) w Q.
Proof.
  induction fuel as [|fuel IH]; intros p sid0 w Q Hfuel HS HN; [lia|].
  cbn [skipped_params].
  destruct (Ascii.eqb_spec (cur p) ";") as [Hc|Hc]; simpl; [|by apply wp_ret, HS; auto].
  destruct p as [|c p]; [done|]. simpl in *. apply wp_bind, wp_ret.
  do 3 (apply wp_bind, wp_skip_over; [done|]).
  set (p1 := skip_while is_space p). set (p2 := skip_while is_token_char p1).
  destruct (skip_while is_space p2) as [|c3 p3] eqn:H3; [by apply wp_ret, HN|]. cbn [cur].
  destruct (Ascii.eqb c3 "="); cbn [negb]; [|by apply wp_ret, HN].
  apply wp_bind, wp_ret, wp_bind, wp_skip_over; [done|].
  destruct (skip_while is_space p3) as [|c4 start] eqn:H4; [by apply wp_ret, HN|]. cbn [cur].
  destruct (Ascii.eqb c4 DQ); cbn [negb]; [|by apply wp_ret, HN].
  assert (String.length start ≤ String.length p) as Hlen.
  { pose proof (skip_while_length is_space p3) as H6. rewrite H4 in H6.
    pose proof (skip_while_length is_space p2) as H7. rewrite H3 in H7. simpl in H6, H7.
    pose proof (skip_while_length is_token_char p1). pose proof (skip_while_length is_space p).
    unfold p2, p1 in *. lia. }
  apply wp_bind, wp_ret, wp_bind, wp_scan_quoted. clear H4.
  destruct (Ascii.eqb_spec (cur (quoted_end start)) DQ) as [E5|E5]; simpl;
    [|by apply wp_ret, HN].
  destruct (quoted_end start) as [|c' t] eqn:Hsc; [done|].
  destruct (scan_quoted_dq _ _ _ Hsc E5) as (s & -> & Hq & Hd & Ht). apply wp_bind, wp_ret.
  rewrite str_length_app in Hlen. simpl in Hlen.
  case_match.
  - apply wp_bind. rewrite Hd. apply wp_memcpy_str; [rewrite str_length_app; lia| |].
    + intros w' ?. rewrite Ht. apply IH; simpl; [lia| |].
      * intros p' sid w2 ?? Hsid. apply HS; [by etrans|lia|]. destruct Hsid; subst; eauto.
      * intros w2 ?. apply HN. by etrans.
    + intros w' ??. by apply wp_ret, HN.
  - apply IH; simpl; [lia| |done]. intros. apply HS; [done|lia|done].
Qed.

Lemma wp_skipped_entries fuel : ∀ p entries capacity w Q,
  String.length p < fuel → length entries ≤ capacity → Forall valid_entry entries →
  (∀ l w', env_step w w' → Forall valid_entry l → Q (Some l) w') →
  (∀ w', env_step w w' → Q None w') →
  wp (skipped_entries fuel p entries capacity) w Q.
Proof.
  induction fuel as [|fuel IH]; intros p entries capacity w Q Hfuel Hcap Hval HS HN; [lia|].
  cbn [skipped_entries]. case_match; [by apply wp_ret, HS|].
  apply wp_bind, wp_skip_over; [done|].
  set (p1 := skip_while _ p). case_match; [by apply wp_ret, HS|].
  apply wp_bind, wp_skip_over; [done|].
  destruct (skip_while_split is_token_char p1) as (tok & Hp1 & Htok).
  set (p2 := skip_while is_token_char p1) in *.
  assert (String.length p1 ≤ String.length p) by apply skip_while_length.
  assert (pdiff p2 p1 = String.length tok) as Hd by (rewrite Hp1; apply pdiff_app).
  assert (str_take (String.length tok) p1 = tok) as Htk by (rewrite Hp1; apply str_take_app).
  rewrite Hd. destruct (Nat.eqb_spec (String.length tok) 0) as [|Htok0]; [by apply wp_ret, HN|].
  assert (String.length p2 < fuel) as Hp2.
  { apply (f_equal String.length) in Hp1. rewrite str_length_app in Hp1. lia. }
  clearbody p2. apply wp_bind, wp_skipped_params; [lia| |by intros; apply wp_ret, HN].
  intros p' sid w1 Hw1 Hp' Hsid.
  assert (∀ es cap w2, env_step w w2 → Forall valid_entry es → length es ≤ cap →
    wp (skipped_entries fuel p' es cap) w2 Q) as Hrec.
  { intros. apply IH; [lia|done|done| |]; intros; [apply HS|apply HN]; try by etrans. done. }
  case_match eqn:Hg; [|by apply Hrec].
  apply andb_true_iff in Hg as [(v & Hv & Hlen & Hvt)%is_valid_skip_reason_spec
    Hs%bool_decide_eq_true_1]. rewrite Htk in Hvt. subst v.
  assert (∀ w2 cap, env_step w w2 → length entries < cap →
    wp (reason ← memdup_str p1 (String.length tok);
        match reason with
        | None => mret None
        | Some _ =>
            if negb (bool_decide (length entries < cap)) then ub else
            skipped_entries fuel p' (entries ++ [SkippedEntry reason sid]) cap
        end) w2 Q) as Hkeep.
  { intros w2 cap Hw2 Hlt. apply wp_bind, wp_memcpy_str.
    - rewrite Hp1, str_length_app. lia.
    - intros w3 ?. rewrite bool_decide_true, Htk by done. simpl. apply Hrec; [by etrans| |].
      + apply Forall_app. split; [done|]. apply Forall_singleton.
        destruct Hsid as [->|(s & -> & Hq)]; [done|]. by exists tok, s.
      + rewrite length_app. simpl. lia.
    - intros w3 ??. apply wp_ret, HN. by etrans. }
  apply wp_bind. destruct (Nat.eqb_spec (length entries) capacity) as [Heq|].
  - apply wp_bind, wp_malloc. intros [] w2 ??; apply wp_ret; cbn beta iota; [|apply wp_ret, HN; by etrans].
    apply Hkeep; [by etrans|]. destruct (Nat.eqb_spec capacity 0); lia.
  - apply wp_ret. apply Hkeep; [done|lia].
Qed.

Lemma skipped_params_none fuel p sid w :
  Ascii.eqb (cur p) ";" = false → skipped_params (S fuel) p sid w = Ret (Some (p, sid)) w.
Proof. intros H. cbn [skipped_params]. by rewrite H. Qed.

Lemma skipped_params_run fuel sid sid0 rest w :
  no_oom w → quoted_content sid = true → Ascii.eqb (cur rest) ";" = false →
  skipped_params (S (S fuel)) (param_text "session_identifier" sid +:+ rest) sid0 w
    = Ret (Some (rest, Some sid)) w.
Proof.
  intros Hw Hq Hrest. remember (S fuel) as fuel' eqn:Hf. unfold param_text.
  rewrite !str_app_assoc, dquoted_app.
  set (v := sid +:+ String DQ rest).
  set (key := "session_identifier" +:+ "=" +:+ String DQ v).
  assert (skip_while is_space key = key) as Hk by done.
  assert (skip_while is_token_char key = "=" +:+ String DQ v) as Ht by done.
  change (";" +:+ key) with (String ";" key). cbn [skipped_params cur].
  change (Ascii.eqb ";" ";") with true. cbn [negb].
  run_by ltac:(reflexivity). do 3 run_by ltac:(by apply skip_over_run). rewrite Hk, Ht.
  change (skip_while is_space ("=" +:+ String DQ v)) with (String "=" (String DQ v)).
  cbn [cur]. change (Ascii.eqb "=" "=") with true. cbn [negb].
  run_by ltac:(reflexivity). run_by ltac:(by apply skip_over_run).
  change (skip_while is_space (String DQ v)) with (String DQ v). cbn [cur].
  change (Ascii.eqb DQ DQ) with true. cbn [negb].
  run_by ltac:(reflexivity). run_by ltac:(apply scan_quoted_run). subst v.
  rewrite scan_quoted_app by done. cbn [cur].
  change (Ascii.eqb DQ DQ) with true. cbn [negb]. run_by ltac:(reflexivity).
  assert (pdiff ("=" +:+ String DQ (sid +:+ String DQ rest)) key = 18) as ->.
  { subst key. apply (pdiff_app "session_identifier"). }
  assert (strncmp_eq key "session_identifier" 18 = true) as -> by done.
  change (Nat.eqb 18 (String.length "session_identifier")) with true. cbn [andb].
  rewrite bind_unfold, memcpy_str_run; [|done|unfold pdiff; lia].
  rewrite str_take_pdiff, Hf. by apply skipped_params_none.
Qed.

(** The entries a serializer should be given: a reason of the specification
    and a non-empty identifier that can stand between quotes. *)
Definition plain_entry (e : OpenDBSC_SkippedEntry) : bool :=
  match e with
  | SkippedEntry (Some r) (Some (String _ _ as s)) =>
      bool_decide (r ∈ valid_skip_reasons) && quoted_content s
  | _ => false
  end.

Lemma plain_entry_text e :
  plain_entry e = true → ∃ r s, e = SkippedEntry (Some r) (Some s) ∧
    r ∈ valid_skip_reasons ∧ quoted_content s = true ∧
    skipped_entry_text e = r +:+ param_text "session_identifier" s.
Proof.
  destruct e as [[r|] [[|c s]|]]; try done.
  intros [Hr%bool_decide_eq_true_1 Hs]%andb_true_iff. by exists r, (String c s).
Qed.

Lemma valid_reason_token r :
  r ∈ valid_skip_reasons → str_forall is_token_char r = true ∧ r ≠ "" ∧
    is_space (cur r) || Ascii.eqb (cur r) "," = false.
Proof.
  unfold valid_skip_reasons. rewrite !elem_of_cons, elem_of_nil.
  by intros [->|[->|[->|[]]]].
Qed.

Lemma skipped_entries_run es2 : ∀ pre es1 capacity fuel w,
  no_oom w → forallb plain_entry es2 = true → length es1 ≤ capacity →
  pre = "" ∨ pre = ", " → String.length (pre +:+ skipped_text es2) < fuel →
  skipped_entries fuel (pre +:+ skipped_text es2) es1 capacity w = Ret (Some (es1 ++ es2)) w.
Proof.
  induction es2 as [|e es2 IH]; intros pre es1 capacity fuel w Hw Hes Hcap Hpre Hfuel.
  { destruct fuel as [|fuel]; [lia|]. rewrite app_nil_r. by destruct Hpre; subst pre. }
  destruct fuel as [|fuel]; [lia|]. cbn [forallb] in Hes.
  apply andb_true_iff in Hes as [He Hes].
  destruct (plain_entry_text _ He) as (r & s & -> & Hr & Hs & Het).
  destruct (valid_reason_token r Hr) as (Htok & Hne & Hsep).
  set (rest := if decide (es2 = []) then "" else ", " +:+ skipped_text es2).
  assert (skipped_text (SkippedEntry (Some r) (Some s) :: es2)
    = r +:+ param_text "session_identifier" s +:+ rest) as Htext.
  { unfold skipped_text. rewrite fmap_cons, str_join_cons, Het, str_app_assoc.
    do 2 f_equal. subst rest. by destruct es2. }
  rewrite Htext in Hfuel |- *. set (tail := param_text "session_identifier" s +:+ rest) in *.
  assert (Ascii.eqb (cur (pre +:+ r +:+ tail)) NUL = false ∧
    skip_while (λ c, is_space c || Ascii.eqb c ",") (pre +:+ r +:+ tail) = r +:+ tail)
    as [Hcur Hskip].
  { destruct r as [|c r]; [done|]. rewrite str_app_cons. simpl in Hsep.
    split; [|by destruct Hpre; subst pre; simpl; rewrite Hsep].
    destruct Hpre; subst pre; [|done]. simpl. destruct (Ascii.eqb_spec c NUL); [|done].
    by subst c. }
  cbn [skipped_entries]. rewrite Hcur. run_by ltac:(by apply skip_over_run). rewrite Hskip.
  assert (Ascii.eqb (cur (r +:+ tail)) NUL = false) as ->.
  { destruct r as [|c r]; [done|]. simpl in *. destruct (Ascii.eqb_spec c NUL); [by subst c|done]. }
  run_by ltac:(by apply skip_over_run). assert (skip_while is_token_char (r +:+ tail) = tail) as ->.
  { by rewrite skip_while_app. }
  rewrite pdiff_app. destruct (Nat.eqb_spec (String.length r) 0) as [E|E]; [by destruct r|].
  rewrite bind_unfold. assert (∃ n, String.length tail = S n) as [n ->] by (by eexists).
  subst tail. rewrite skipped_params_run; [|done|done|by subst rest; destruct es2].
  assert (is_valid_skip_reason (r +:+ param_text "session_identifier" s +:+ rest)
    (String.length r) = true) as ->.
  { apply is_valid_skip_reason_spec. exists r. by rewrite str_take_app. }
  cbn [bool_decide andb]. rewrite bool_decide_true by done. cbn [andb].
  assert (∀ cap w, length es1 < cap → no_oom w →
    skipped_entries fuel rest (es1 ++ [SkippedEntry (Some r) (Some s)]) cap w
      = Ret (Some (es1 ++ SkippedEntry (Some r) (Some s) :: es2)) w) as Hrec.
  { intros cap w' Hlt Hw'. rewrite !str_length_app in Hfuel.
    rewrite (app_assoc es1 [_] es2 : es1 ++ _ :: es2 = _).
    subst rest. destruct (decide (es2 = [])) as [->|Hes2].
    - rewrite app_nil_r. by destruct fuel; [lia|].
    - apply (IH ", "); try done; [rewrite length_app; simpl; lia|by right|lia]. }
  rewrite bind_unfold. destruct (Nat.eqb_spec (length es1) capacity) as [Heq|Heq].
  - rewrite bind_unfold, malloc_run by done. cbn beta iota. rewrite ret_unfold.
    rewrite bind_unfold, memcpy_str_run by (done || rewrite str_length_app; lia).
    rewrite str_take_app, bool_decide_true by (destruct (Nat.eqb_spec capacity 0); lia).
    apply Hrec; [destruct (Nat.eqb_spec capacity 0); lia|done].
  - rewrite ret_unfold, bind_unfold, memcpy_str_run by (done || rewrite str_length_app; lia).
    rewrite str_take_app, bool_decide_true by lia. apply Hrec; [lia|done].
Qed.

Lemma header_string_dquoted s s' :
  header_string (dquoted s) s' ↔ s' = s ∧ quoted_content s = true.
Proof.
  split.
  - intros (pre & post & Hv & Hpre & Hpost & Hq). rewrite dquoted_app in Hv.
    destruct pre as [|c pre]; [|by injection Hv as <- ?; simpl in Hpre].
    unfold dquoted in Hv. injection Hv as Hv.
    destruct (decide (post = "")) as [->|Hne].
    + assert (s = s') as ->; [|done].
      apply (f_equal (λ t, str_take (String.length t - 1) t)) in Hv.
      rewrite !str_length_app, !Nat.add_sub, !str_take_app in Hv. done.
    + exfalso. destruct (str_last post) as (u & c & ->); [done|].
      rewrite str_forall_app in Hpost. apply andb_true_iff in Hpost as [_ Hc].
      simpl in Hc. rewrite andb_true_r in Hc.
      assert (s' +:+ String DQ (u +:+ String c "") = (s' +:+ String DQ u) +:+ String c "")
        as E by (by rewrite str_app_assoc).
      rewrite E in Hv. apply str_last_inj in Hv. by subst c.
  - intros [-> ?]. exists "", "". rewrite str_app_nil_r. done.
Qed.

(** ** Properties *)

(** Quoted headers are parsed exactly.  Whatever the environment does,
    the parser of [Secure-Session-Response] (and of [Sec-Secure-Session-Id])
    on a C string returns the string that stands between the quotes when the
    value is one quoted string surrounded by white space, and NULL only when
    the value has no such reading or an allocation failed; it reads nothing
    past the end of the value. *)
Theorem header_parse_quoted_exact (v : string) (w : world) :
  c_string v = true →
  wp (opendbsc_parse_session_response (Some v)) w (λ r w', env_step w w' ∧
    match r with
    | Some s => header_string v s
    | None => (∀ s, ¬ header_string v s) ∨ ¬ no_oom w
    end) ∧
  opendbsc_parse_session_id (Some v) = opendbsc_parse_session_response (Some v).
Proof. intros Hv. split; [|done]. by apply wp_unquote; auto. Qed.

Lemma header_parse_quoted_exact_witness :
  c_string (" " +:+ dquoted "a.b.c") = true ∧
  wp (opendbsc_parse_session_response (Some (" " +:+ dquoted "a.b.c"))) (fair_world 0)
    (λ r _, r = Some "a.b.c") ∧
  wp (opendbsc_parse_session_response (Some (" " +:+ dquoted "a.b.c"))) (fair_world 0)
    (λ r _, match r with
            | Some s => header_string (" " +:+ dquoted "a.b.c") s
            | None => (∀ s, ¬ header_string (" " +:+ dquoted "a.b.c") s) ∨
                      ¬ no_oom (fair_world 0)
            end).
Proof.
  split; [reflexivity|]. split; [reflexivity|].
  refine (wp_mono _ _ _ _ (proj1 (header_parse_quoted_exact (" " +:+ dquoted "a.b.c") (fair_world 0) eq_refl)) _).
  intros r w' H. exact (proj2 H).
Defined.

(** Serialize, then parse.  When no allocation fails, parsing a serialized
    session identifier (or a serialized proof) gives it back exactly when it
    can stand between quotes, that is when every double quote in it is
    escaped and no backslash dangles at its end; any other string, which the
    serializer does not escape, is refused by the parser, never read as a
    different one. *)
Theorem header_quoted_roundtrip (s : string) (w : world) :
  c_string s = true → no_oom w →
  wp (h ← opendbsc_session_id_serialize (Some s); opendbsc_parse_session_id h) w
    (λ r _, r = if quoted_content s then Some s else None) ∧
  wp (h ← opendbsc_session_response_serialize (Some s); opendbsc_parse_session_response h) w
    (λ r _, r = if quoted_content s then Some s else None).
Proof.
  intros Hs Hw.
  enough (wp (h ← opendbsc_session_response_serialize (Some s);
              opendbsc_parse_session_response h) w
    (λ r _, r = if quoted_content s then Some s else None)) by (split; done).
  apply wp_bind, wp_session_response_serialize; [|done]. intros w' Hst.
  pose proof (header_string_dquoted s) as Hq.
  apply wp_unquote.
  - unfold dquoted. rewrite c_string_cons, c_string_app, Hs. done.
  - intros r w2 _ [-> ->]%Hq. done.
  - intros w2 _ [Hno|Hno]; [|by destruct Hno; apply (step_no_oom _ _ Hst)].
    destruct (quoted_content s) eqn:E; [|done]. destruct (Hno s). by apply Hq.
Qed.

Lemma header_quoted_roundtrip_witness :
  c_string "0192-session" = true ∧ no_oom (fair_world 0) ∧
  wp (h ← opendbsc_session_id_serialize (Some "0192-session"); opendbsc_parse_session_id h)
    (fair_world 0) (λ r _, r = Some "0192-session").
Proof.
  split; [reflexivity|]. split; [reflexivity|].
  exact (proj1 (header_quoted_roundtrip "0192-session" (fair_world 0) eq_refl eq_refl)).
Defined.

(** C36. The serializers.  In any environment the two passes of the registration,
    challenge, proof and session-identifier serializers agree: nothing is
    written past the buffer that the first pass measured, and the result is
    exactly the header's text (the algorithms separated by spaces between
    parentheses, then the parameters that are present and not empty, in
    order), or NULL, only if an allocation failed. *)
Theorem header_serializers_exact (algs : list string)
    (path challenge authorization pk psid purl id : cstr) (s : string) (w : world) :
  wp (opendbsc_registration_serialize (Some (Some <$> algs)) (length algs) path challenge
        authorization pk psid purl) w (λ r w', env_step w w' ∧
    (r = Some (registration_text algs path challenge authorization pk psid purl) ∨
     r = None ∧ ¬ no_oom w)) ∧
  wp (opendbsc_challenge_serialize (Some s) id) w (λ r w', env_step w w' ∧
    (r = Some (challenge_text s id) ∨ r = None ∧ ¬ no_oom w)) ∧
  wp (opendbsc_session_response_serialize (Some s)) w (λ r w', env_step w w' ∧
    (r = Some (dquoted s) ∨ r = None ∧ ¬ no_oom w)) ∧
  wp (opendbsc_session_id_serialize (Some s)) w (λ r w', env_step w w' ∧
    (r = Some (dquoted s) ∨ r = None ∧ ¬ no_oom w)).
Proof.
  split_and!; [apply wp_registration_serialize|apply wp_challenge_serialize
    |apply wp_session_response_serialize|apply wp_session_id_serialize]; auto.
Qed.

(** The skipped-session serializer.  In any environment it allocates one
    byte more than the text of the entries and writes exactly that text; with
    no entry it returns a buffer of one byte in which nothing was written, so
    that reading the "empty string" it is documented to return is undefined. *)
Theorem session_skipped_serialize_exact (entries : list OpenDBSC_SkippedEntry) (w : world) :
  wp (opendbsc_session_skipped_serialize (Some entries) (length entries)) w
    (λ r w', env_step w w' ∧
       (r = Some (CBuf (String.length (skipped_text entries) + 1)
                    (if decide (entries = []) then None else Some (skipped_text entries))) ∨
        r = None ∧ ¬ no_oom w)) ∧
  (no_oom w → (out ← opendbsc_session_skipped_serialize (Some []) 0;
               b ← deref out; buf_cstr b) w = UB).
Proof.
  split; [apply wp_session_skipped_serialize; auto|].
  destruct w as [al ?????]. unfold no_oom. simpl. by intros ->.
Qed.

Lemma session_skipped_serialize_exact_witness :
  no_oom (fair_world 0) ∧
  (out ← opendbsc_session_skipped_serialize (Some []) 0; b ← deref out; buf_cstr b)
    (fair_world 0) = UB.
Proof.
  split; [reflexivity|].
  exact (proj2 (session_skipped_serialize_exact [] (fair_world 0)) eq_refl).
Defined.

Lemma wp_parse_session_skipped (v : string) (l : list OpenDBSC_SkippedEntry) (n : nat)
    (w : world) :
  wp (opendbsc_parse_session_skipped (Some v) (Some l) (Some n)) w (λ r w', env_step w w' ∧
    (r = ((-1)%Z, Some [], Some 0) ∨
     ∃ entries, r = (0%Z, Some entries, Some (length entries)) ∧
                Forall valid_entry entries)).
Proof.
  unfold opendbsc_parse_session_skipped.
  apply wp_bind, wp_skipped_entries; [lia|simpl; lia|done| |]; intros; apply wp_ret; eauto.
Qed.

(** C35. The skipped-session parser is total and returns only valid entries.
    On any value, whatever the allocator does, the loops end without reading
    past the value or writing past the entry array: the call returns 0 with
    entries that all have a reason of the specification and a quoted session
    identifier, and their exact number, or -1 with no entry. *)
Theorem parse_session_skipped_sound (v : string) (l : list OpenDBSC_SkippedEntry) (n : nat)
    (w : world) :
  wp (opendbsc_parse_session_skipped (Some v) (Some l) (Some n)) w (λ r w', env_step w w' ∧
    (r = ((-1)%Z, Some [], Some 0) ∨
     ∃ entries, r = (0%Z, Some entries, Some (length entries)) ∧
                Forall valid_entry entries)).
Proof. apply wp_parse_session_skipped. Qed.

(** C34. Serialize, then parse, for the skipped-session header.  When no
    allocation fails, parsing the header written for entries with a reason of
    the specification and a non-empty identifier that can stand between quotes
    gives back those entries, in order. *)
Theorem session_skipped_roundtrip (entries : list OpenDBSC_SkippedEntry) (w : world) :
  entries ≠ [] → forallb plain_entry entries = true → quiet w →
  (out ← opendbsc_session_skipped_serialize (Some entries) (length entries);
   b ← deref out; h ← buf_cstr b;
   opendbsc_parse_session_skipped (Some h) (Some []) (Some 0)) w
    = Ret (0%Z, Some entries, Some (length entries)) w.
Proof.
  intros Hne He Hw.
  rewrite bind_unfold, (session_skipped_serialize_run entries) by done.
  cbn [deref]. rewrite bind_unfold, ret_unfold. cbn beta iota.
  unfold buf_cstr. cbn [b_text deref]. rewrite bind_unfold, ret_unfold.
  unfold opendbsc_parse_session_skipped. rewrite bind_unfold.
  rewrite (skipped_entries_run entries "" []); [done|by apply quiet_no_oom|done|simpl; lia
    |by left|rewrite str_app_nil_l; lia].
Qed.

Lemma session_skipped_roundtrip_witness :
  (out ← opendbsc_session_skipped_serialize
           (Some [SkippedEntry (Some "unreachable") (Some "s-1");
                  SkippedEntry (Some "quota_exceeded") (Some "s-2")]) 2;
   b ← deref out; h ← buf_cstr b;
   opendbsc_parse_session_skipped (Some h) (Some []) (Some 0)) (fair_world 0)
    = Ret (0%Z, Some [SkippedEntry (Some "unreachable") (Some "s-1");
                      SkippedEntry (Some "quota_exceeded") (Some "s-2")], Some 2) (fair_world 0).
Proof.
  apply (session_skipped_roundtrip
    [SkippedEntry (Some "unreachable") (Some "s-1");
     SkippedEntry (Some "quota_exceeded") (Some "s-2")] (fair_world 0));
    [discriminate|reflexivity|split; reflexivity].
Defined.
