(* ===== verification/Base64.v ===== *)
(** [src/protocol/jwt.c], first part: the base64url decoder and encoder.  A
    byte buffer is a list of [Z]; a write at or past the size it was allocated
    with is undefined behaviour, as is a read past it. *)

From S2P Require Export CLib.
From stdpp Require Import options.

(** ** Definitions *)

Definition b64url_table : string :=
  "ABCDEFGHIJKLMNOPQRSTUVWXYZabcdefghijklmnopqrstuvwxyz0123456789-_".

Definition b64url_digit (c : ascii) : Z :=
  if char_between "A" "Z" c then (ord c - ord "A")%Z
  else if char_between "a" "z" c then (ord c - ord "a" + 26)%Z
  else if char_between "0" "9" c then (ord c - ord "0" + 52)%Z
  else if Ascii.eqb c "-" || Ascii.eqb c "+" then 62%Z
  else if Ascii.eqb c "_" || Ascii.eqb c "/" then 63%Z
  else (-1)%Z.

(** The conversion of the url alphabet to the standard one. *)
Definition std_alphabet (c : ascii) : ascii :=
  if Ascii.eqb c "-" then "+"%char else if Ascii.eqb c "_" then "/"%char else c.

(** [buf[len++] = v] in a buffer of [size] elements. *)
Definition buf_push {A} (size : nat) (buf : list A) (v : A) : C (list A) :=
  if decide (length buf < size) then mret (buf ++ [v]) else ub.

(** [(unsigned char)v]. *)
Definition to_uchar (v : Z) : Z := (v `mod` 256)%Z.

(** [for (i = 0; i < padded_len; i += 4)]; [None] is the early [return -1]. *)
Fixpoint decode_loop (fuel : nat) (padded : list ascii) (padded_len decoded_max i : nat)
    (decoded : list Z) : C (option (list Z)) :=
  match fuel with
  | O => hang
  | S fuel' =>
      if negb (bool_decide (i < padded_len)) then mret (Some decoded) else
      p0 ← deref (padded !! i);
      p1 ← deref (padded !! (i + 1));
      p2 ← deref (padded !! (i + 2));
      p3 ← deref (padded !! (i + 3));
      let d0 := b64url_digit p0 in
      let d1 := b64url_digit p1 in
      let d2 := if Ascii.eqb p2 "=" then 0%Z else b64url_digit p2 in
      let d3 := if Ascii.eqb p3 "=" then 0%Z else b64url_digit p3 in
      if (d0 <? 0)%Z || (d1 <? 0)%Z || (negb (Ascii.eqb p2 "=") && (d2 <? 0)%Z) ||
         (negb (Ascii.eqb p3 "=") && (d3 <? 0)%Z)
      then mret None else
      decoded ← buf_push decoded_max decoded
                  (to_uchar (Z.lor (Z.shiftl d0 2) (Z.shiftr d1 4)));
      decoded ← (if negb (Ascii.eqb p2 "=")
                 then buf_push decoded_max decoded
                        (to_uchar (Z.lor (Z.shiftl (Z.land d1 15) 4) (Z.shiftr d2 2)))
                 else mret decoded);
      decoded ← (if negb (Ascii.eqb p3 "=")
                 then buf_push decoded_max decoded
                        (to_uchar (Z.lor (Z.shiftl (Z.land d2 3) 6) d3))
                 else mret decoded);
      decode_loop fuel' padded padded_len decoded_max (i + 4) decoded
  end.

(** [out] and [out_len] are output pointers with what they point to. *)
Definition opendbsc_base64url_decode (inp : cstr) (out : option (option (list Z)))
    (out_len : option nat) : C (Z * option (option (list Z)) * option nat) :=
  match inp, out, out_len with
  | Some inp, Some _, Some _ =>
      let fail := ((-1)%Z, Some None, Some 0) in
      let len := String.length inp in
      if decide (len = 0) then mret fail else
      let pad := (4 - len mod 4) mod 4 in
      let padded_len := len + pad in
      ok ← malloc;
      if negb ok then mret fail else
      let padded := list_of_string inp ++ replicate pad "="%char in
      let padded := (std_alphabet <$> take len padded) ++ drop len padded in
      let decoded_max := padded_len / 4 * 3 in
      ok ← malloc;
      if negb ok then mret fail else
      r ← decode_loop (S padded_len) padded padded_len decoded_max 0 [];
      match r with
      | None => mret fail
      | Some decoded => mret (0%Z, Some (Some decoded), Some (length decoded))
      end
  | _, _, _ => mret ((-1)%Z, out, out_len)
  end.

(** [b64url_table[n]]. *)
Definition b64url_char (n : Z) : C ascii := deref (String.get (Z.to_nat n) b64url_table).

(** [for (i = 0; i < in_len; i += 3)]. *)
Fixpoint encode_loop (fuel : nat) (inp : list Z) (size i : nat) (out : list ascii)
    : C (list ascii) :=
  match fuel with
  | O => hang
  | S fuel' =>
      let in_len := length inp in
      if negb (bool_decide (i < in_len)) then mret out else
      b0 ← deref (inp !! i);
      let b := Z.shiftl b0 16 in
      b ← (if decide (i + 1 < in_len)
           then b1 ← deref (inp !! (i + 1)); mret (Z.lor b (Z.shiftl b1 8)) else mret b);
      b ← (if decide (i + 2 < in_len)
           then b2 ← deref (inp !! (i + 2)); mret (Z.lor b b2) else mret b);
      c ← b64url_char (Z.land (Z.shiftr b 18) 63);
      out ← buf_push size out c;
      c ← b64url_char (Z.land (Z.shiftr b 12) 63);
      out ← buf_push size out c;
      c ← (if decide (i + 1 < in_len) then b64url_char (Z.land (Z.shiftr b 6) 63)
           else mret NUL);
      out ← buf_push size out c;
      c ← (if decide (i + 2 < in_len) then b64url_char (Z.land b 63) else mret NUL);
      out ← buf_push size out c;
      encode_loop fuel' inp size (i + 3) out
  end.

(** [while (j > 0 && out[j - 1] == 0) j--;] *)
Fixpoint trim_zeros (out : list ascii) (j : nat) : C nat :=
  match j with
  | O => mret O
  | S j' => c ← deref (out !! j'); if Ascii.eqb c NUL then trim_zeros out j' else mret j
  end.

Definition opendbsc_base64url_encode (inp : option (list Z)) : C cstr :=
  match inp with
  | None => mret None
  | Some inp =>
      if decide (length inp = 0) then mret None else
      let out_len := (length inp + 2) / 3 * 4 in
      let size := out_len + 1 in
      ok ← malloc;
      if negb ok then mret None else
      out ← encode_loop (S (length inp)) inp size 0 [];
      let j := length out in
      out ← buf_push size out NUL;
      j ← trim_zeros out j;
      mret (Some (string_of_list (take j out)))
  end.

(** ** The reference definitions *)

(** One group of four characters ('=' stands for an absent one). *)
Definition decode_quad (p0 p1 p2 p3 : ascii) : option (list Z) :=
  let bad c := (b64url_digit c <? 0)%Z in
  let absent c := Ascii.eqb c "=" in
  if bad p0 || bad p1 || (negb (absent p2) && bad p2) || (negb (absent p3) && bad p3)
  then None else
  let d0 := b64url_digit p0 in
  let d1 := b64url_digit p1 in
  let d2 := if absent p2 then 0%Z else b64url_digit p2 in
  let d3 := if absent p3 then 0%Z else b64url_digit p3 in
  Some ([d0 * 4 + d1 / 16] ++ (if absent p2 then [] else [d1 mod 16 * 16 + d2 / 4]) ++
        (if absent p3 then [] else [d2 mod 4 * 64 + d3]))%Z.

(** Groups of four, the missing characters of the last group taken as '='. *)
Fixpoint decode_groups (s : list ascii) : option (list Z) :=
  match s with
  | [] => Some []
  | [_] => None
  | [p0; p1] => decode_quad p0 p1 "=" "="
  | [p0; p1; p2] => decode_quad p0 p1 p2 "="
  | p0 :: p1 :: p2 :: p3 :: s' =>
      b ← decode_quad p0 p1 p2 p3; r ← decode_groups s'; Some (b ++ r)
  end.

Definition digit_char (n : Z) : ascii := default NUL (String.get (Z.to_nat n) b64url_table).

Fixpoint encode_groups (s : list Z) : list ascii :=
  match s with
  | [] => []
  | [b0] => digit_char <$> [b0 / 4; b0 mod 4 * 16]
  | [b0; b1] => digit_char <$> [b0 / 4; b0 mod 4 * 16 + b1 / 16; b1 mod 16 * 4]
  | b0 :: b1 :: b2 :: s' =>
      (digit_char <$> [b0 / 4; b0 mod 4 * 16 + b1 / 16; b1 mod 16 * 4 + b2 / 64; b2 mod 64])
        ++ encode_groups s'
  end%Z.

Definition is_byte (b : Z) : Prop := (0 ≤ b < 256)%Z.

(** ** Digits *)

Lemma b64url_digit_range c : (-1 ≤ b64url_digit c < 64)%Z.
Proof.
  pose proof (ascii_forallb_spec
    (λ c, (-1 <=? b64url_digit c) && (b64url_digit c <? 64))%Z ltac:(by vm_compute) c).
  cbn beta in *. lia.
Qed.

Lemma std_alphabet_digit c : b64url_digit (std_alphabet c) = b64url_digit c.
Proof.
  pose proof (ascii_forallb_spec
    (λ c, (b64url_digit (std_alphabet c) =? b64url_digit c)%Z) ltac:(by vm_compute) c).
  by apply Z.eqb_eq.
Qed.

Lemma std_alphabet_absent c : Ascii.eqb (std_alphabet c) "=" = Ascii.eqb c "=".
Proof.
  pose proof (ascii_forallb_spec
    (λ c, Bool.eqb (Ascii.eqb (std_alphabet c) "=") (Ascii.eqb c "=")) ltac:(by vm_compute) c).
  by apply Bool.eqb_true_iff.
Qed.

Lemma digit_char_forall (P : ascii → Z → bool) :
  forallb (λ n, P (digit_char (Z.of_nat n)) (Z.of_nat n)) (seq 0 64) = true →
  ∀ n, (0 ≤ n < 64)%Z → P (digit_char n) n = true.
Proof.
  rewrite forallb_forall. intros H n Hn. specialize (H (Z.to_nat n)).
  rewrite Z2Nat.id in H by lia. apply H, in_seq. lia.
Qed.

Lemma digit_char_digit n : (0 ≤ n < 64)%Z → b64url_digit (digit_char n) = n.
Proof.
  intros Hn. pose proof (digit_char_forall (λ c n, b64url_digit c =? n)%Z
    ltac:(by vm_compute) n Hn). by apply Z.eqb_eq.
Qed.

Lemma digit_char_safe n : (0 ≤ n < 64)%Z →
  Ascii.eqb (digit_char n) "=" = false ∧ Ascii.eqb (digit_char n) NUL = false.
Proof.
  intros Hn. pose proof (digit_char_forall (λ c _, negb (Ascii.eqb c "=") &&
    negb (Ascii.eqb c NUL)) ltac:(by vm_compute) n Hn) as H. cbn beta in H.
  apply andb_true_iff in H as [?%negb_true_iff ?%negb_true_iff]. done.
Qed.

Lemma b64url_char_run n w : (0 ≤ n < 64)%Z → b64url_char n w = Ret (digit_char n) w.
Proof.
  intros Hn. pose proof (digit_char_forall (λ c n,
    bool_decide (String.get (Z.to_nat n) b64url_table = Some c)) ltac:(by vm_compute) n Hn) as H.
  apply bool_decide_eq_true_1 in H. unfold b64url_char. by rewrite H.
Qed.

(** ** Decoding *)

Lemma buf_push_run {A} size (buf : list A) v w :
  length buf < size → buf_push size buf v w = Ret (buf ++ [v]) w.
Proof. intros H. unfold buf_push. by rewrite decide_True. Qed.

Lemma decode_quad_std p0 p1 p2 p3 :
  decode_quad (std_alphabet p0) (std_alphabet p1) (std_alphabet p2) (std_alphabet p3)
    = decode_quad p0 p1 p2 p3.
Proof. unfold decode_quad. by rewrite !std_alphabet_digit, !std_alphabet_absent. Qed.

Lemma decode_groups_std s : decode_groups (std_alphabet <$> s) = decode_groups s.
Proof.
  assert (std_alphabet "=" = "="%char) as Heq by done.
  induction s as [|a|a b|a b c|a b c d s IH] using list_ind4; try done.
  - exact (decode_quad_std a b "=" "=").
  - exact (decode_quad_std a b c "=").
  - cbn [fmap list_fmap]. cbn [decode_groups]. rewrite decode_quad_std.
    cbn [fmap list_fmap] in IH. by rewrite IH.
Qed.

Definition pad_of (len : nat) : nat := (4 - len mod 4) mod 4.

Lemma pad_of_step n : pad_of (S (S (S (S n)))) = pad_of n.
Proof.
  unfold pad_of. do 2 f_equal. change (S (S (S (S n)))) with (4 + n).
  rewrite (Nat.Div0.add_mod 4 n). change (4 mod 4) with 0.
  by rewrite Nat.add_0_l, Nat.Div0.mod_mod.
Qed.

Lemma decode_groups_pad s :
  decode_groups (s ++ replicate (pad_of (length s)) "="%char) = decode_groups s.
Proof.
  induction s as [|a|a b|a b c|a b c d s IH] using list_ind4; try done.
  - cbn. unfold decode_quad. change (b64url_digit "=") with (-1)%Z.
    by rewrite orb_true_r.
  - change (decode_groups ([a; b] ++ ["="; "="]%char) = decode_groups [a; b]).
    cbn [decode_groups app]. destruct (decode_quad a b "=" "="); simpl; [|done].
    by rewrite app_nil_r.
  - change (decode_groups ([a; b; c] ++ ["="]%char) = decode_groups [a; b; c]).
    cbn [decode_groups app]. destruct (decode_quad a b c "="); simpl; [|done].
    by rewrite app_nil_r.
  - cbn [length]. rewrite pad_of_step. cbn [app decode_groups]. by rewrite IH.
Qed.

Lemma pad_of_length {A} (s : list A) : ∃ k, length s + pad_of (length s) = 4 * k.
Proof.
  induction s as [|a|a b|a b c|a b c d s [k IH]] using list_ind4;
    [by exists 0|by exists 1|by exists 1|by exists 1|].
  exists (S k). cbn [length]. rewrite pad_of_step. lia.
Qed.

(** Every lookup of a group in the loop. *)
Lemma lookup_group {A} (pre : list A) a b c d rest :
  let l := pre ++ a :: b :: c :: d :: rest in
  l !! length pre = Some a ∧ l !! (length pre + 1) = Some b ∧
  l !! (length pre + 2) = Some c ∧ l !! (length pre + 3) = Some d.
Proof.
  cbn. rewrite !lookup_app_r, !(Nat.add_comm (length pre)), !Nat.add_sub, Nat.sub_diag by lia.
  done.
Qed.

(** The three bytes of a group, as the bit operations compute them. *)
Ltac group_bytes := intros; unfold to_uchar;
  rewrite ?(land_mask _ 4), ?(land_mask _ 2), ?Z.shiftr_div_pow2 by lia;
  change (2 ^ 4)%Z with 16%Z; change (2 ^ 2)%Z with 4%Z;
  rewrite lor_shiftl_add by
    (change (2 ^ 6)%Z with 64%Z; change (2 ^ 4)%Z with 16%Z; change (2 ^ 2)%Z with 4%Z; lia_div);
  change (2 ^ 6)%Z with 64%Z; change (2 ^ 4)%Z with 16%Z; change (2 ^ 2)%Z with 4%Z;
  apply Z.mod_small; lia_div.

Lemma group_byte0 d0 d1 : (0 ≤ d0 < 64 → 0 ≤ d1 < 64 →
  to_uchar (Z.lor (Z.shiftl d0 2) (Z.shiftr d1 4)) = d0 * 4 + d1 / 16)%Z.
Proof. group_bytes. Qed.

Lemma group_byte1 d1 d2 : (0 ≤ d1 < 64 → 0 ≤ d2 < 64 →
  to_uchar (Z.lor (Z.shiftl (Z.land d1 15) 4) (Z.shiftr d2 2)) = d1 mod 16 * 16 + d2 / 4)%Z.
Proof. change 15%Z with (Z.ones 4). group_bytes. Qed.

Lemma group_byte2 d2 d3 : (0 ≤ d3 < 64 →
  to_uchar (Z.lor (Z.shiftl (Z.land d2 3) 6) d3) = d2 mod 4 * 64 + d3)%Z.
Proof. change 3%Z with (Z.ones 2). group_bytes. Qed.

(** One iteration writes the bytes of the group, or fails as it does. *)
Lemma decode_loop_step fuel pre a b c d rest max dec w :
  length dec + 3 ≤ max →
  decode_loop (S fuel) (pre ++ a :: b :: c :: d :: rest)
    (length (pre ++ a :: b :: c :: d :: rest)) max (length pre) dec w
  = match decode_quad a b c d with
    | None => Ret None w
    | Some bytes =>
        decode_loop fuel ((pre ++ [a; b; c; d]) ++ rest)
          (length ((pre ++ [a; b; c; d]) ++ rest)) max
          (length (pre ++ [a; b; c; d])) (dec ++ bytes) w
    end.
Proof.
  intros Hmax. rewrite <-(app_assoc pre [a; b; c; d] rest). cbn [app].
  rewrite (length_app pre [a; b; c; d]). cbn [length].
  cbn [decode_loop]. rewrite bool_decide_true by (rewrite length_app; simpl; lia). cbn [negb].
  destruct (lookup_group pre a b c d rest) as (-> & -> & -> & ->). cbn [deref].
  do 4 (rewrite bind_unfold, ret_unfold; cbn beta iota). unfold decode_quad.
  pose proof (b64url_digit_range a). pose proof (b64url_digit_range b).
  pose proof (b64url_digit_range c). pose proof (b64url_digit_range d).
  destruct (b64url_digit a <? 0)%Z eqn:Ea; [done|]. apply Z.ltb_ge in Ea.
  destruct (b64url_digit b <? 0)%Z eqn:Eb; [done|]. apply Z.ltb_ge in Eb. cbn [orb].
  destruct (Ascii.eqb c "=") eqn:Hc; destruct (Ascii.eqb d "=") eqn:Hd; cbn [andb orb negb];
    try (destruct (b64url_digit c <? 0)%Z eqn:Ec; [done|]; apply Z.ltb_ge in Ec);
    try (destruct (b64url_digit d <? 0)%Z eqn:Ed; [done|]; apply Z.ltb_ge in Ed);
    cbn [orb]; repeat (rewrite bind_unfold, ?ret_unfold, ?buf_push_run
      by (rewrite ?length_app; simpl; lia)); cbn beta iota;
    rewrite ?group_byte0, ?group_byte1, ?group_byte2 by lia; by rewrite <-?app_assoc.
Qed.

Lemma decode_loop_run max w rest : ∀ pre dec fuel k,
  length rest = 4 * k → length dec + 3 * k ≤ max → k < fuel →
  decode_loop fuel (pre ++ rest) (length (pre ++ rest)) max (length pre) dec w
    = Ret ((λ b, dec ++ b) <$> decode_groups rest) w.
Proof.
  induction rest as [|a|a b|a b c|a b c d rest IH] using list_ind4; intros pre dec fuel k Hk Hmax Hf;
    (destruct fuel as [|fuel]; [lia|]); cbn [length] in Hk; try lia.
  { cbn [decode_loop]. rewrite app_nil_r, bool_decide_false by lia. cbn. by rewrite app_nil_r. }
  destruct k as [|k]; [lia|]. rewrite decode_loop_step by lia. cbn [decode_groups].
  destruct (decode_quad a b c d) as [bytes|] eqn:Hq; [|done]. cbn.
  assert (length bytes ≤ 3) as Hlen.
  { revert Hq. unfold decode_quad. repeat case_match; intros [= <-]; simpl; lia. }
  rewrite (IH _ _ _ k) by (rewrite ?length_app; simpl; lia).
  destruct (decode_groups rest); cbn; [|done]. by rewrite app_assoc.
Qed.

(** [&out] and [&out_len] of two locals. *)
Lemma wp_base64url_decode s o n w Q :
  (∀ b w', env_step w w' → s ≠ "" → decode_groups (list_of_string s) = Some b →
     Q (0%Z, Some (Some b), Some (length b)) w') →
  (∀ w', env_step w w' → s = "" ∨ decode_groups (list_of_string s) = None ∨ ¬ no_oom w →
     Q ((-1)%Z, Some None, Some 0) w') →
  wp (opendbsc_base64url_decode (Some s) (Some o) (Some n)) w Q.
Proof.
  intros HS HN. unfold opendbsc_base64url_decode.
  case_decide as Hlen; [apply wp_ret, HN; [done|left; by destruct s]|].
  change ((4 - String.length s mod 4) mod 4) with (pad_of (String.length s)).
  apply wp_bind, wp_malloc. intros [] w1 Hw1 Ho1; [|apply wp_ret, HN; auto]. cbn [negb].
  apply wp_bind, wp_malloc. intros [] w2 Hw2 Ho2; cbn [negb].
  2:{ apply wp_ret, HN; [by etrans|eauto using step_oom]. }
  rewrite <-length_list_of_string, take_app_length, drop_app_length.
  set (l := list_of_string s) in *. destruct (pad_of_length l) as [k Hk].
  assert (length (std_alphabet <$> l) = length l) as Hstd by apply length_fmap.
  pose proof (decode_loop_run ((length l + pad_of (length l)) / 4 * 3) w2
    ((std_alphabet <$> l) ++ replicate (pad_of (length l)) "="%char) [] []
    (S (length l + pad_of (length l))) k) as Hrun.
  cbn [app length] in Hrun. rewrite length_app, Hstd, length_replicate in Hrun.
  assert (decode_groups ((std_alphabet <$> l) ++ replicate (pad_of (length l)) "="%char)
    = decode_groups l) as Hd by (rewrite <-Hstd, decode_groups_pad; apply decode_groups_std).
  rewrite Hd in Hrun.
  apply wp_bind. eapply wp_run.
  { apply Hrun; [lia| |lia]. rewrite Hk, (Nat.mul_comm 4 k), Nat.div_mul by done. lia. }
  assert (env_step w w2) by (by etrans).
  destruct (decode_groups l) as [b|] eqn:Hb; cbn; apply wp_ret; [|auto].
  apply HS; [done|by intros ->|done].
Qed.

(** ** Encoding *)

(** [((x | y << 8) | z) >> n & 63]: the four digits of three bytes. *)
Lemma group_word b0 b1 b2 : is_byte b1 → is_byte b2 →
  Z.lor (Z.lor (Z.shiftl b0 16) (Z.shiftl b1 8)) b2 = (b0 * 65536 + b1 * 256 + b2)%Z.
Proof.
  unfold is_byte. intros ??.
  assert (Z.lor (Z.shiftl b0 16) (Z.shiftl b1 8) = Z.shiftl (b0 * 256 + b1) 8)%Z as ->.
  { rewrite (lor_shiftl_add b0 (Z.shiftl b1 8) 16); rewrite ?Z.shiftl_mul_pow2 by lia;
      change (2 ^ 16)%Z with 65536%Z; change (2 ^ 8)%Z with 256%Z; lia. }
  rewrite lor_shiftl_add; change (2 ^ 8)%Z with 256%Z; lia.
Qed.

Lemma word_digit b n : (0 ≤ n → 0 ≤ b → Z.land (Z.shiftr b n) 63 = b / 2 ^ n mod 64)%Z.
Proof.
  intros ??. change 63%Z with (Z.ones 6). rewrite land_mask, Z.shiftr_div_pow2 by lia. done.
Qed.

Lemma group_digits b0 b1 b2 : is_byte b0 → is_byte b1 → is_byte b2 →
  let b := (b0 * 65536 + b1 * 256 + b2)%Z in
  (Z.land (Z.shiftr b 18) 63 = b0 / 4 ∧
   Z.land (Z.shiftr b 12) 63 = b0 mod 4 * 16 + b1 / 16 ∧
   Z.land (Z.shiftr b 6) 63 = b1 mod 16 * 4 + b2 / 64 ∧ Z.land b 63 = b2 mod 64)%Z.
Proof.
  intros ??? b. unfold is_byte in *. assert (Z.land b 63 = b mod 64)%Z as ->.
  { apply (land_mask b 6). lia. }
  rewrite !word_digit by lia. change (2 ^ 18)%Z with 262144%Z. change (2 ^ 12)%Z with 4096%Z.
  change (2 ^ 6)%Z with 64%Z. subst b. split_and!; lia_div.
Qed.

Lemma lookup_group3 {A} (pre : list A) a rest :
  (pre ++ a :: rest) !! length pre = Some a ∧
  (∀ b r, rest = b :: r → (pre ++ a :: rest) !! (length pre + 1) = Some b) ∧
  (∀ b c r, rest = b :: c :: r → (pre ++ a :: rest) !! (length pre + 2) = Some c).
Proof.
  split_and!; intros; subst;
    rewrite lookup_app_r, ?(Nat.add_comm (length pre)), ?Nat.add_sub, ?Nat.sub_diag by lia; done.
Qed.

(** The zeros written for the bytes the last group lacks. *)
Definition zeros_of (n : nat) : nat := (3 - n mod 3) mod 3.

Lemma zeros_of_step n : zeros_of (S (S (S n))) = zeros_of n.
Proof.
  unfold zeros_of. do 2 f_equal. change (S (S (S n))) with (3 + n).
  rewrite (Nat.Div0.add_mod 3 n). change (3 mod 3) with 0.
  by rewrite Nat.add_0_l, Nat.Div0.mod_mod.
Qed.

Lemma encode_groups_length s : length (encode_groups s) + zeros_of (length s) = 4 * ((length s + 2) / 3).
Proof.
  induction s as [|a|a b|a b c s IH] using list_ind3; try done.
  cbn [encode_groups length app fmap list_fmap]. rewrite zeros_of_step.
  replace (S (S (S (length s))) + 2) with (length s + 2 + 1 * 3) by lia.
  rewrite Nat.div_add by done. lia.
Qed.

(** [out[j++] = b64url_table[n]]. *)
Lemma push_digit_run {B} size out n v (K : list ascii → C B) w :
  n = v → (0 ≤ v < 64)%Z → length out < size →
  (c ← b64url_char n; o ← buf_push size out c; K o) w = K (out ++ [digit_char v]) w.
Proof.
  intros -> Hv Hs. rewrite bind_unfold, b64url_char_run by done.
  by rewrite bind_unfold, buf_push_run.
Qed.

Lemma push_zero_run {B} size out (K : list ascii → C B) w :
  length out < size → (c ← (mret NUL : C ascii); o ← buf_push size out c; K o) w = K (out ++ [NUL]) w.
Proof. intros Hs. rewrite bind_unfold, ret_unfold. by rewrite bind_unfold, buf_push_run. Qed.

Ltac decide_len :=
  first [rewrite decide_True by (rewrite length_app; simpl; lia)
        |rewrite decide_False by (rewrite length_app; simpl; lia)].

Ltac push_digits H1 H2 H3 H4 :=
  erewrite push_digit_run; [|exact H1|lia|lia];
  erewrite push_digit_run; [|exact H2|lia|rewrite length_app; simpl; lia];
  repeat decide_len; first [erewrite push_digit_run; [|exact H3|lia|rewrite !length_app; simpl; lia]
        |rewrite push_zero_run by (rewrite !length_app; simpl; lia)];
  repeat decide_len; first [erewrite push_digit_run; [|exact H4|lia|rewrite !length_app; simpl; lia]
        |rewrite push_zero_run by (rewrite !length_app; simpl; lia)].

Lemma encode_group_digits b0 b1 b2 : is_byte b0 → is_byte b1 → is_byte b2 →
  (0 ≤ b0 / 4 < 64 ∧ 0 ≤ b0 mod 4 * 16 + b1 / 16 < 64 ∧ 0 ≤ b1 mod 16 * 4 + b2 / 64 < 64 ∧
   0 ≤ b2 mod 64 < 64)%Z.
Proof. unfold is_byte. intros ???. split_and!; lia_div. Qed.

Lemma encode_loop_run size w rest : ∀ pre out fuel,
  Forall is_byte rest → length out + (length (encode_groups rest) + zeros_of (length rest)) < size →
  length rest < fuel →
  encode_loop fuel (pre ++ rest) size (length pre) out w
    = Ret (out ++ encode_groups rest ++ replicate (zeros_of (length rest)) NUL) w.
Proof.
  assert (is_byte 0) as H0 by (unfold is_byte; lia).
  induction rest as [|b0|b0 b1|b0 b1 b2 rest IH] using list_ind3; intros pre out fuel Hb Hsize Hf;
    (destruct fuel as [|fuel]; [simpl in Hf; lia|]); cbn [encode_loop].
  { rewrite bool_decide_false by (rewrite length_app; simpl; lia). cbn. by rewrite app_nil_r. }
  all: rewrite bool_decide_true by (rewrite length_app; simpl; lia); cbn [negb].
  all: rewrite !Forall_cons in Hb.
  all: lazymatch goal with |- context [(?pre ++ ?a :: ?r) !! length ?pre] =>
      destruct (lookup_group3 pre a r) as (-> & Hl1 & Hl2) end.
  all: cbn [deref]; rewrite bind_unfold, ret_unfold; cbn beta iota.
  - cbn in Hsize. destruct Hb as [Hb0 _]. do 2 (repeat decide_len; erewrite bind_run; [|reflexivity]).
    assert (Z.shiftl b0 16 = b0 * 65536 + 0 * 256 + 0)%Z as -> by
      (rewrite Z.shiftl_mul_pow2 by lia; change (2 ^ 16)%Z with 65536%Z; lia).
    destruct (group_digits b0 0 0) as (D0 & D1 & D2 & D3); [done..|].
    pose proof (encode_group_digits b0 0 0 Hb0 H0 H0).
    push_digits D0 D1 D2 D3. destruct fuel; [simpl in Hf; lia|]. cbn [encode_loop].
    rewrite bool_decide_false by (rewrite length_app; simpl; lia). cbn [negb].
    rewrite ret_unfold. rewrite <-!app_assoc. cbn. do 4 f_equal. by rewrite Z.add_0_r.
  - cbn in Hsize. destruct Hb as (Hb0 & Hb1 & _). rewrite (Hl1 _ _ eq_refl).
    do 2 (repeat decide_len; erewrite bind_run; [|reflexivity]).
    assert (Z.lor (Z.shiftl b0 16) (Z.shiftl b1 8) = b0 * 65536 + b1 * 256 + 0)%Z as ->.
    { rewrite <-group_word by done. by rewrite Z.lor_0_r. }
    destruct (group_digits b0 b1 0) as (D0 & D1 & D2 & D3); [done..|].
    pose proof (encode_group_digits b0 b1 0 Hb0 Hb1 H0).
    push_digits D0 D1 D2 D3. destruct fuel; [simpl in Hf; lia|]. cbn [encode_loop].
    rewrite bool_decide_false by (rewrite length_app; simpl; lia). cbn [negb].
    rewrite ret_unfold. rewrite <-!app_assoc. cbn. do 5 f_equal. by rewrite Z.add_0_r.
  - cbn [length encode_groups fmap list_fmap app] in Hsize. rewrite zeros_of_step in Hsize.
    destruct Hb as (Hb0 & Hb1 & Hb2 & Hb).
    rewrite (Hl1 _ _ eq_refl), (Hl2 _ _ _ eq_refl).
    do 2 (repeat decide_len; erewrite bind_run; [|reflexivity]).
    rewrite group_word by done.
    destruct (group_digits b0 b1 b2) as (D0 & D1 & D2 & D3); [done..|].
    pose proof (encode_group_digits b0 b1 b2 Hb0 Hb1 Hb2).
    push_digits D0 D1 D2 D3.
    specialize (IH (pre ++ [b0; b1; b2])). rewrite <-app_assoc, length_app in IH.
    cbn [app length] in IH. cbn [length] in Hf.
    rewrite IH; [|done|rewrite !length_app; simpl; lia|lia].
    cbn [length encode_groups]. rewrite zeros_of_step. by rewrite <-!app_assoc.
Qed.

Lemma trim_zeros_run l k tail w :
  (∀ l' c, l = l' ++ [c] → Ascii.eqb c NUL = false) →
  trim_zeros (l ++ replicate k NUL ++ tail) (length l + k) w = Ret (length l) w.
Proof.
  intros Hl. revert tail. induction k as [|k IH]; intros tail.
  - rewrite Nat.add_0_r. destruct l as [|c l _] using rev_ind; [done|].
    rewrite length_app, Nat.add_1_r. cbn [trim_zeros]. rewrite <-app_assoc.
    rewrite lookup_app_r, Nat.sub_diag by done. cbn [app lookup list_lookup deref replicate].
    rewrite bind_unfold, ret_unfold. cbn beta iota. by rewrite (Hl l c eq_refl).
  - rewrite Nat.add_succ_r. cbn [trim_zeros].
    assert ((l ++ replicate (S k) NUL ++ tail) !! (length l + k) = Some NUL) as ->.
    { rewrite lookup_app_r by lia. rewrite Nat.add_comm, Nat.add_sub, lookup_app_l
        by (rewrite length_replicate; lia). apply lookup_replicate. split; [done|lia]. }
    cbn [deref]. rewrite bind_unfold, ret_unfold. cbn beta iota.
    change (Ascii.eqb NUL NUL) with true. cbn match.
    rewrite replicate_S_end, <-app_assoc. apply IH.
Qed.

Lemma encode_groups_chars s :
  Forall is_byte s → Forall (λ c, ∃ n, (0 ≤ n < 64)%Z ∧ c = digit_char n) (encode_groups s).
Proof.
  assert (is_byte 0) as H0 by (unfold is_byte; lia).
  induction s as [|b0|b0 b1|b0 b1 b2 s IH] using list_ind3; rewrite ?Forall_cons.
  - done.
  - intros [Hb0 _]. pose proof (encode_group_digits b0 0 0 Hb0 H0 H0) as (? & ? & ? & ?).
    cbn. rewrite !Forall_cons. split_and!; [eauto..|done]. eexists; split; [|done]; lia_div.
  - intros (Hb0 & Hb1 & _). pose proof (encode_group_digits b0 b1 0 Hb0 Hb1 H0) as (? & ? & ? & ?).
    cbn. rewrite !Forall_cons. split_and!; [eauto..| |done]. eexists; split; [|done]; lia_div.
  - intros (Hb0 & Hb1 & Hb2 & Hb).
    pose proof (encode_group_digits b0 b1 b2 Hb0 Hb1 Hb2) as (? & ? & ? & ?).
    cbn [encode_groups]. apply Forall_app. split; [|auto]. cbn. rewrite !Forall_cons.
    split_and!; eauto.
Qed.

Lemma decode_quad_digits d0 d1 d2 d3 :
  (0 ≤ d0 < 64 → 0 ≤ d1 < 64 → 0 ≤ d2 < 64 → 0 ≤ d3 < 64 →
   decode_quad (digit_char d0) (digit_char d1) (digit_char d2) (digit_char d3)
     = Some [d0 * 4 + d1 / 16; d1 mod 16 * 16 + d2 / 4; d2 mod 4 * 64 + d3])%Z.
Proof.
  intros ????. unfold decode_quad.
  destruct (digit_char_safe d2) as [-> _]; [done|]. destruct (digit_char_safe d3) as [-> _]; [done|].
  rewrite !digit_char_digit by done. rewrite !(proj2 (Z.ltb_ge _ 0)) by lia. done.
Qed.

Lemma decode_encode_groups s :
  Forall is_byte s → decode_groups (encode_groups s) = Some s.
Proof.
  assert (is_byte 0) as H0 by (unfold is_byte; lia).
  induction s as [|b0|b0 b1|b0 b1 b2 s IH] using list_ind3; rewrite ?Forall_cons.
  - done.
  - intros [Hb0 _]. unfold is_byte in *.
    cbn [encode_groups fmap list_fmap app decode_groups]. unfold decode_quad.
    change (Ascii.eqb "=" "=") with true. cbn beta zeta iota.
    rewrite !digit_char_digit by lia_div. rewrite !(proj2 (Z.ltb_ge _ 0)) by lia_div.
    cbn. do 2 f_equal. lia_div.
  - intros (Hb0 & Hb1 & _). unfold is_byte in *.
    cbn [encode_groups fmap list_fmap app decode_groups]. unfold decode_quad.
    change (Ascii.eqb "=" "=") with true. cbn beta zeta iota.
    destruct (digit_char_safe (b1 mod 16 * 4)%Z) as [-> _]; [lia_div|].
    rewrite !digit_char_digit by lia_div. rewrite !(proj2 (Z.ltb_ge _ 0)) by lia_div.
    cbn. f_equal. f_equal; [lia_div|]. f_equal. lia_div.
  - intros (Hb0 & Hb1 & Hb2 & Hb).
    pose proof (encode_group_digits b0 b1 b2 Hb0 Hb1 Hb2) as (? & ? & ? & ?).
    cbn [encode_groups fmap list_fmap app decode_groups].
    rewrite decode_quad_digits, IH by done. cbn. unfold is_byte in *.
    f_equal. f_equal; [lia_div|]. f_equal; [lia_div|]. f_equal. lia_div.
Qed.

Lemma wp_base64url_encode bs w Q :
  Forall is_byte bs → bs ≠ [] →
  (∀ w', env_step w w' → Q (Some (string_of_list (encode_groups bs))) w') →
  (∀ w', env_step w w' → ¬ no_oom w → Q None w') →
  wp (opendbsc_base64url_encode (Some bs)) w Q.
Proof.
  intros Hb Hne HS HN. unfold opendbsc_base64url_encode.
  rewrite decide_False by (by destruct bs).
  apply wp_bind, wp_malloc. intros [] w' Hw ?; [|apply wp_ret; auto]. cbn [negb].
  pose proof (encode_groups_length bs) as Hlen.
  apply wp_bind. eapply wp_run.
  { apply (encode_loop_run _ _ bs []); [done|cbn [length]; lia|lia]. }
  cbn [app]. apply wp_bind. eapply wp_run.
  { apply buf_push_run. rewrite length_app, length_replicate. lia. }
  apply wp_bind. eapply wp_run.
  { rewrite <-app_assoc, length_app, length_replicate. apply trim_zeros_run.
    intros l' c Hc. pose proof (encode_groups_chars bs Hb) as Hall.
    rewrite Hc, Forall_app, Forall_singleton in Hall.
    destruct Hall as (_ & n & Hn & ->). by apply digit_char_safe. }
  apply wp_ret. rewrite <-app_assoc, take_app_length. auto.
Qed.

Lemma decode_groups_bytes s : ∀ b, decode_groups s = Some b →
  Forall is_byte b ∧ length b ≤ (length s + 3) / 4 * 3.
Proof.
  assert (∀ p0 p1 p2 p3 b, decode_quad p0 p1 p2 p3 = Some b →
    Forall is_byte b ∧ length b ≤ 3) as Hq.
  { intros p0 p1 p2 p3 b. unfold decode_quad, is_byte.
    pose proof (b64url_digit_range p0). pose proof (b64url_digit_range p1).
    pose proof (b64url_digit_range p2). pose proof (b64url_digit_range p3).
    destruct (b64url_digit p0 <? 0)%Z eqn:E0; [done|]. apply Z.ltb_ge in E0.
    destruct (b64url_digit p1 <? 0)%Z eqn:E1; [done|]. apply Z.ltb_ge in E1. cbn [orb].
    destruct (Ascii.eqb p2 "="), (Ascii.eqb p3 "="); cbn [negb andb orb];
      try (destruct (b64url_digit p2 <? 0)%Z eqn:E2; [done|]; apply Z.ltb_ge in E2);
      try (destruct (b64url_digit p3 <? 0)%Z eqn:E3; [done|]; apply Z.ltb_ge in E3);
      cbn [orb]; intros [= <-]; cbn [app length]; split; try lia;
      repeat (constructor; [lia_div|]); constructor. }
  induction s as [|p0|p0 p1|p0 p1 p2|p0 p1 p2 p3 s IH] using list_ind4; intros b Hb;
    cbn [decode_groups] in Hb; simplify_eq; try (apply Hq in Hb as []; split; [done|simpl; lia]).
  - split; [done|simpl; lia].
  - destruct (decode_quad p0 p1 p2 p3) as [b1|] eqn:E1; [|done].
    destruct (decode_groups s) as [b2|]; [|done]. cbn in Hb. simplify_eq.
    destruct (Hq _ _ _ _ _ E1), (IH _ eq_refl). split; [by apply Forall_app|].
    rewrite length_app. cbn [length].
    replace (S (S (S (S (length s)))) + 3) with (length s + 3 + 1 * 4) by lia.
    rewrite Nat.div_add by done. lia.
Qed.

(** ** Properties *)

(** C32. The decoder computes the reference decoding, safely.  On any string,
    whatever the allocator does, the decoder never reads past the padded copy
    nor writes past the bytes it allocated; it returns 0 with exactly the
    bytes of the reference decoding, all of them in 0..255 and at most three
    for every four characters started, or -1 with no buffer, only if the
    string is empty, has no decoding, or an allocation failed. *)
Theorem base64url_decode_reference (s : string) (o : option (list Z)) (n : nat) (w : world) :
  wp (opendbsc_base64url_decode (Some s) (Some o) (Some n)) w (λ r w', env_step w w' ∧
    ((∃ b, r = (0%Z, Some (Some b), Some (length b)) ∧ s ≠ "" ∧
        decode_groups (list_of_string s) = Some b ∧ Forall is_byte b ∧
        length b ≤ (String.length s + 3) / 4 * 3) ∨
     (r = ((-1)%Z, Some None, Some 0) ∧
        (s = "" ∨ decode_groups (list_of_string s) = None ∨ ¬ no_oom w)))).
Proof.
  apply wp_base64url_decode; [|by auto]. intros b w' Hw Hs Hb. split; [done|left].
  destruct (decode_groups_bytes _ _ Hb) as [? Hlen]. rewrite length_list_of_string in Hlen.
  eauto 10.
Qed.

(** C33. Encode, then decode.  For every non-empty buffer of bytes, whatever the
    allocator does, encoding it and decoding the result gives back exactly its
    bytes and their number, unless an allocation failed. *)
Theorem base64url_roundtrip (bs : list Z) (w : world) :
  Forall is_byte bs → bs ≠ [] →
  wp (s ← opendbsc_base64url_encode (Some bs);
      match s with
      | None => mret None
      | Some _ => r ← opendbsc_base64url_decode s (Some None) (Some 0); mret (Some r)
      end) w (λ r _, r = Some (0%Z, Some (Some bs), Some (length bs)) ∨ ¬ no_oom w).
Proof.
  intros Hb Hne. apply wp_bind, wp_base64url_encode; [done..| |].
  - intros w1 Hw1. apply wp_bind, wp_base64url_decode; rewrite list_of_string_of_list,
      decode_encode_groups by done.
    + intros b w2 _ _ [= ->]. by apply wp_ret; left.
    + intros w2 _ [Hs|[|Hs]]; [|done|apply wp_ret; right; eauto using step_oom].
      by destruct bs as [|b0 [|b1 [|b2 bs]]].
  - intros w1 _ ?. apply wp_ret. by right.
Qed.

Lemma base64url_roundtrip_witness :
  Forall is_byte [251; 255; 0; 17]%Z ∧ [251; 255; 0; 17]%Z ≠ [] ∧
  opendbsc_base64url_encode (Some [251; 255; 0; 17]%Z) (fair_world 0)
    = Ret (Some "-_8AEQ") (fair_world 0) ∧
  wp (s ← opendbsc_base64url_encode (Some [251; 255; 0; 17]%Z);
      match s with
      | None => mret None
      | Some _ => r ← opendbsc_base64url_decode s (Some None) (Some 0); mret (Some r)
      end) (fair_world 0)
    (λ r _, r = Some (0%Z, Some (Some [251; 255; 0; 17]%Z), Some 4) ∨ ¬ no_oom (fair_world 0)).
Proof.
  assert (Forall is_byte [251; 255; 0; 17]%Z) as Hb by
    (repeat constructor; vm_compute; congruence).
  split; [exact Hb|]. split; [discriminate|]. split; [vm_compute; reflexivity|].
  exact (base64url_roundtrip [251; 255; 0; 17]%Z (fair_world 0) Hb ltac:(discriminate)).
Defined.

(** The encoder's text.  Whatever the allocator does, encoding a non-empty
    buffer of [n] bytes stays inside its allocation and returns a string of
    exactly ceil(4n / 3) characters, all from the url alphabet, so without
    padding and without an embedded NUL; or NULL, only if the allocation
    failed. *)
Theorem base64url_encode_text (bs : list Z) (w : world) :
  Forall is_byte bs → bs ≠ [] →
  wp (opendbsc_base64url_encode (Some bs)) w (λ r w', env_step w w' ∧
    (r = None ∧ ¬ no_oom w ∨
     ∃ s, r = Some s ∧ String.length s = (4 * length bs + 2) / 3 ∧
       ∀ c, c ∈ list_of_string s → c ∈ list_of_string b64url_table)).
Proof.
  intros Hb Hne. apply wp_base64url_encode; [done..| |by auto].
  intros w' Hw. split; [done|right]. eexists. split; [done|].
  rewrite <-length_list_of_string, list_of_string_of_list. split.
  - clear. induction bs as [|a|a b|a b c bs IH] using list_ind3; try done.
    cbn [encode_groups length app fmap list_fmap]. rewrite IH.
    replace (4 * S (S (S (length bs))) + 2) with (4 * length bs + 2 + 4 * 3) by lia.
    rewrite Nat.div_add by done. lia.
  - intros c Hc. pose proof (encode_groups_chars bs Hb) as Hall.
    rewrite Forall_forall in Hall. destruct (Hall c Hc) as (n & Hn & ->).
    pose proof (digit_char_forall (λ c _, bool_decide (c ∈ list_of_string b64url_table))
      ltac:(by vm_compute) n Hn) as H. by apply bool_decide_eq_true_1 in H.
Qed.

Lemma base64url_encode_text_witness :
  Forall is_byte [104; 105]%Z ∧
  wp (opendbsc_base64url_encode (Some [104; 105]%Z)) (fair_world 0)
    (λ r _, r = Some "aGk") ∧
  wp (opendbsc_base64url_encode (Some [104; 105]%Z)) (fair_world 0)
    (λ r w', env_step (fair_world 0) w' ∧
      (r = None ∧ ¬ no_oom (fair_world 0) ∨
       ∃ s, r = Some s ∧ String.length s = 3 ∧
         ∀ c, c ∈ list_of_string s → c ∈ list_of_string b64url_table)).
Proof.
  assert (Forall is_byte [104; 105]%Z) as Hb by (repeat constructor; vm_compute; congruence).
  split; [exact Hb|]. split; [vm_compute; reflexivity|].
  exact (base64url_encode_text [104; 105]%Z (fair_world 0) Hb ltac:(discriminate)).
Defined.
