(* ===== verification/External.v ===== *)
(** The third-party libraries the protocol layer calls, cJSON and OpenSSL, as
    interfaces: their types and the functions the sources use, whatever they
    compute.  The functions below that take no class argument of their own are
    the calls as the sources make them: every one that allocates may fail. *)

From S2P Require Export CLib.
From stdpp Require Import options.
#[local] Open Scope Z_scope.

(** ** cJSON

    [cJSON_valuestring j] is [Some s] when [cJSON_IsString(j)] holds, with
    [s = j->valuestring]. *)
Class CJSON := {
  cJSON : Type;
  cJSON_text_value : list Z → option cJSON;
  cJSON_GetObjectItemCaseSensitive : cJSON → string → option cJSON;
  cJSON_valuestring : cJSON → option string;
  cJSON_IsObject : cJSON → bool;
  cJSON_Print : cJSON → string;
  cJSON_PrintUnformatted : cJSON → string;
  cJSON_Object : cJSON;
  cJSON_Array : cJSON;
  cJSON_String : string → cJSON;
  cJSON_Bool : bool → cJSON;
  cJSON_AddItemToObject : cJSON → string → cJSON → cJSON;
  cJSON_AddItemToArray : cJSON → cJSON → cJSON
}.

(** What the sources rely on of the objects they build. *)
Class CJSONLaws `{CJSON} := {
  get_item_empty k : cJSON_GetObjectItemCaseSensitive cJSON_Object k = None;
  get_item_add o k v k' :
    cJSON_IsObject o = true →
    cJSON_GetObjectItemCaseSensitive (cJSON_AddItemToObject o k v) k' =
      match cJSON_GetObjectItemCaseSensitive o k' with
      | Some x => Some x
      | None => if String.eqb k k' then Some v else None
      end;
  is_object_empty : cJSON_IsObject cJSON_Object = true;
  is_object_add o k v : cJSON_IsObject (cJSON_AddItemToObject o k v) = cJSON_IsObject o;
  valuestring_string s : cJSON_valuestring (cJSON_String s) = Some s
}.

(** Numbers, which only the Redis store uses: the node of [(double)n] and, when
    [cJSON_IsNumber(j)] holds, the integral part of [j->valuedouble]. *)
Class CJSONNumber `{CJSON} := {
  cJSON_Number : Z → cJSON;
  cJSON_numbervalue : cJSON → option Z
}.

(** Reading back what was printed: [json_safe] are the strings, [json_readable]
    the trees whose text is parsed to themselves. *)
Class CJSONTextLaws `{CJSONNumber} := {
  json_safe : string → Prop;
  json_readable : cJSON → Prop;
  readable_parse j :
    json_readable j →
    cJSON_text_value (ord <$> list_of_string (cJSON_PrintUnformatted j)) = Some j;
  readable_object : json_readable cJSON_Object;
  readable_add o k v :
    json_readable o → cJSON_IsObject o = true → json_safe k → json_readable v →
    json_readable (cJSON_AddItemToObject o k v);
  readable_string s : json_safe s → json_readable (cJSON_String s);
  readable_number n : 0 ≤ n ≤ 2 ^ 53 → json_readable (cJSON_Number n);
  json_safe_name s :
    str_forall (λ c, char_between "a" "z" c || Ascii.eqb c "_") s = true → json_safe s;
  numbervalue_number n : 0 ≤ n ≤ 2 ^ 53 → cJSON_numbervalue (cJSON_Number n) = Some n;
  is_object_string s : cJSON_IsObject (cJSON_String s) = false
}.

Section cJSON_calls.
Context `{CJSON}.

(** [cJSON_ParseWithLength(buf, len)]. *)
Definition json_parse_with_length (buf : list Z) (len : nat) : C (option cJSON) :=
  if decide (len ≤ length buf)%nat then
    match cJSON_text_value (take len buf) with Some j => alloc j | None => mret None end
  else ub.

(** [cJSON_Parse(s)]. *)
Definition json_parse (s : string) : C (option cJSON) :=
  match cJSON_text_value (ord <$> list_of_string s) with
  | Some j => alloc j
  | None => mret None
  end.

(** [cJSON_GetObjectItemCaseSensitive(obj, key)] and [cJSON_IsString(item)] on
    a pointer that may be NULL. *)
Definition json_get (obj : option cJSON) (key : string) : option cJSON :=
  o ← obj; cJSON_GetObjectItemCaseSensitive o key.
Definition json_string (item : option cJSON) : cstr := i ← item; cJSON_valuestring i.
Definition json_is_object (item : option cJSON) : bool :=
  match item with Some i => cJSON_IsObject i | None => false end.

(** [cJSON_AddStringToObject(obj, key, value)] and the others: the object
    afterwards, or [None] when the call returned NULL. *)
Definition json_add_item (obj : cJSON) (key : string) (v : cJSON) : C (option cJSON) :=
  alloc (cJSON_AddItemToObject obj key v).
Definition json_add_string (obj : cJSON) (key value : string) : C (option cJSON) :=
  json_add_item obj key (cJSON_String value).
Definition json_add_bool (obj : cJSON) (key : string) (b : bool) : C (option cJSON) :=
  json_add_item obj key (cJSON_Bool b).

(** [cJSON_PrintUnformatted(obj)]. *)
Definition json_print_unformatted (obj : cJSON) : C cstr := alloc (cJSON_PrintUnformatted obj).

(** [cJSON_CreateString(s)]: NULL on a NULL string. *)
Definition json_create_string (s : cstr) : C (option cJSON) :=
  match s with Some s => alloc (cJSON_String s) | None => mret None end.

End cJSON_calls.

(** ** OpenSSL

    A function that returns an [int] status returns it with the object it
    updated. *)
Class OpenSSL := {
  BIGNUM : Type;
  EC_KEY : Type;
  RSA : Type;
  EVP_PKEY : Type;
  EVP_MD : Type;
  EVP_MD_CTX : Type;
  BN_bin2bn : list Z → BIGNUM;
  EC_KEY_prime256v1 : EC_KEY;
  EC_KEY_set_public_key_affine_coordinates : EC_KEY → BIGNUM → BIGNUM → Z * EC_KEY;
  RSA_blank : RSA;
  RSA_set0_key : RSA → BIGNUM → BIGNUM → Z * RSA;
  EVP_PKEY_blank : EVP_PKEY;
  EVP_PKEY_assign_EC_KEY : EVP_PKEY → EC_KEY → Z * EVP_PKEY;
  EVP_PKEY_assign_RSA : EVP_PKEY → RSA → Z * EVP_PKEY;
  i2d_ECDSA_SIG : BIGNUM → BIGNUM → list Z;
  EVP_sha256 : EVP_MD;
  EVP_MD_CTX_blank : EVP_MD_CTX;
  EVP_DigestVerifyInit : EVP_MD_CTX → EVP_MD → EVP_PKEY → Z * EVP_MD_CTX;
  EVP_DigestVerifyUpdate : EVP_MD_CTX → string → Z * EVP_MD_CTX;
  EVP_DigestVerifyFinal : EVP_MD_CTX → list Z → Z
}.

(** A status call, which also fails (with 0) when it cannot allocate. *)
Definition ssl_call {A} (r : Z * A) (old : A) : C (Z * A) :=
  ok ← malloc; mret (if ok : bool then r else (0, old)).

(** ** In any environment *)

Lemma wp_ssl_call {A} (r : Z * A) old w Q :
  (∀ w', env_step w w' → Q r w') → (∀ w', env_step w w' → ¬ no_oom w → Q (0, old) w') →
  wp (ssl_call r old) w Q.
Proof. intros H1 H2. apply wp_bind, wp_malloc. intros [] w' ??; apply wp_ret; auto. Qed.

Section wp.
Context `{CJSON}.

Lemma wp_json_parse s w Q :
  (∀ j w', env_step w w' → cJSON_text_value (ord <$> list_of_string s) = Some j →
     Q (Some j) w') →
  (∀ w', env_step w w' → cJSON_text_value (ord <$> list_of_string s) = None ∨ ¬ no_oom w →
     Q None w') →
  wp (json_parse s) w Q.
Proof.
  intros HS HN. unfold json_parse. destruct (cJSON_text_value _) as [j|]; [|by apply wp_ret, HN; auto].
  apply wp_alloc; auto.
Qed.

Lemma wp_json_parse_with_length b w Q :
  (∀ j w', env_step w w' → cJSON_text_value b = Some j → Q (Some j) w') →
  (∀ w', env_step w w' → cJSON_text_value b = None ∨ ¬ no_oom w → Q None w') →
  wp (json_parse_with_length b (length b)) w Q.
Proof.
  intros HS HN. unfold json_parse_with_length. rewrite decide_True, take_ge by lia.
  destruct (cJSON_text_value b) as [j|]; [|by apply wp_ret, HN; auto].
  apply wp_alloc; auto.
Qed.

End wp.
