(* ===== verification/RefLibs.v ===== *)
(** Small concrete instances of the third-party interfaces, for the examples:
    JSON texts without escapes, with numbers of sixteen digits, signatures that repeat the key and
    the message, and identifiers written in hexadecimal.  They show that the
    interfaces and their laws can be met, and make the model run. *)

From S2P Require Export Session Rfc3339 Base64 External.
From stdpp Require Import options.
#[local] Open Scope Z_scope.

(** ** JSON *)

#[warnings="-register-all"]
Inductive json :=
| JNull
| JBool (b : bool)
| JString (s : string)
| JNumber (n : Z)
| JArray (l : list json)
| JObject (l : list (string * json)).

Fixpoint json_print (j : json) : string :=
  match j with
  | JNull => "null"
  | JBool b => if b then "true" else "false"
  | JString s => dquoted s
  | JNumber n => pad 16 n
  | JArray l =>
      "[" +:+ (fix items (l : list json) : string :=
        match l with
        | [] => "]"
        | [j] => json_print j +:+ "]"
        | j :: l => json_print j +:+ "," +:+ items l
        end) l
  | JObject l =>
      "{" +:+ (fix fields (l : list (string * json)) : string :=
        match l with
        | [] => "}"
        | [(k, j)] => dquoted k +:+ ":" +:+ json_print j +:+ "}"
        | (k, j) :: l => dquoted k +:+ ":" +:+ json_print j +:+ "," +:+ fields l
        end) l
  end.

Fixpoint take_quoted (s : string) : option (string * string) :=
  match s with
  | EmptyString => None
  | String c s' =>
      if Ascii.eqb c DQ then Some ("", s')
      else '(a, r) ← take_quoted s'; Some (String c a, r)
  end.

Definition expect (c : ascii) (s : string) : option string :=
  match s with String d s' => if Ascii.eqb d c then Some s' else None | "" => None end.

Fixpoint drop_word (word s : string) : option string :=
  match word, s with
  | EmptyString, _ => Some s
  | String a word, String b s => if Ascii.eqb a b then drop_word word s else None
  | String _ _, EmptyString => None
  end.

Fixpoint json_value (fuel : nat) (s : string) : option (json * string) :=
  match fuel with
  | O => None
  | S fuel =>
      match s with
      | String "034" s => '(a, r) ← take_quoted s; Some (JString a, r)
      | String "{" (String "}" r) => Some (JObject [], r)
      | String "[" (String "]" r) => Some (JArray [], r)
      | String "{" r => '(l, r) ← json_fields fuel r; Some (JObject l, r)
      | String "[" r => '(l, r) ← json_items fuel r; Some (JArray l, r)
      | String "t" _ => r ← drop_word "true" s; Some (JBool true, r)
      | String "f" _ => r ← drop_word "false" s; Some (JBool false, r)
      | String "n" _ => r ← drop_word "null" s; Some (JNull, r)
      | String c _ =>
          if is_digit c then let '(n, r) := get_digits 16 0 (10 ^ 16) s in Some (JNumber n, r)
          else None
      | "" => None
      end
  end
with json_fields (fuel : nat) (s : string) : option (list (string * json) * string) :=
  match fuel with
  | O => None
  | S fuel =>
      r ← expect DQ s;
      '(k, r) ← take_quoted r;
      r ← expect ":" r;
      '(j, r) ← json_value fuel r;
      match r with
      | String "}" r => Some ([(k, j)], r)
      | String "," r => '(l, r) ← json_fields fuel r; Some ((k, j) :: l, r)
      | _ => None
      end
  end
with json_items (fuel : nat) (s : string) : option (list json * string) :=
  match fuel with
  | O => None
  | S fuel =>
      '(j, r) ← json_value fuel s;
      match r with
      | String "]" r => Some ([j], r)
      | String "," r => '(l, r) ← json_items fuel r; Some (j :: l, r)
      | _ => None
      end
  end.

Definition json_text (s : string) : option json :=
  '(j, r) ← json_value (S (String.length s)) s; if decide (r = "") then Some j else None.

Definition assoc (k : string) (l : list (string * json)) : option json :=
  snd <$> List.find (λ p, String.eqb p.1 k) l.

#[export] Instance ref_CJSON : CJSON := {
  cJSON := json;
  cJSON_text_value b := json_text (string_of_list (chr <$> b));
  cJSON_GetObjectItemCaseSensitive o k :=
    match o with JObject l => assoc k l | _ => None end;
  cJSON_valuestring j := match j with JString s => Some s | _ => None end;
  cJSON_IsObject j := match j with JObject _ => true | _ => false end;
  cJSON_Print := json_print;
  cJSON_PrintUnformatted := json_print;
  cJSON_Object := JObject [];
  cJSON_Array := JArray [];
  cJSON_String := JString;
  cJSON_Bool := JBool;
  cJSON_AddItemToObject o k v :=
    match o with JObject l => JObject (l ++ [(k, v)]) | _ => o end;
  cJSON_AddItemToArray a v := match a with JArray l => JArray (l ++ [v]) | _ => a end
}.

#[export] Instance ref_CJSONLaws : CJSONLaws.
Proof.
  split; try done.
  - intros [] k v k'; try done. intros _. cbn. unfold assoc.
    induction l as [|[a x] l IH]; cbn; [by destruct (String.eqb k k')|].
    by destruct (String.eqb a k').
  - by intros [].
Qed.

(** ** Signatures *)

(** The 64 bytes that sign a message: the key, the message, then zeros. *)
Definition ref_signature (key : list Z) (msg : string) : list Z :=
  take 64 (key ++ (ord <$> list_of_string msg) ++ replicate 64 0).

#[export] Instance ref_OpenSSL : OpenSSL := {
  BIGNUM := list Z;
  EC_KEY := list Z;
  RSA := list Z;
  EVP_PKEY := list Z;
  EVP_MD := unit;
  EVP_MD_CTX := list Z * string;
  BN_bin2bn b := b;
  EC_KEY_prime256v1 := [];
  EC_KEY_set_public_key_affine_coordinates _ x y := (1, x ++ y);
  RSA_blank := [];
  RSA_set0_key _ n e := (1, n ++ e);
  EVP_PKEY_blank := [];
  EVP_PKEY_assign_EC_KEY _ k := (1, k);
  EVP_PKEY_assign_RSA _ k := (1, k);
  i2d_ECDSA_SIG r s := 48 :: r ++ s;
  EVP_sha256 := tt;
  EVP_MD_CTX_blank := ([], "");
  EVP_DigestVerifyInit _ _ key := (1, (key, ""));
  EVP_DigestVerifyUpdate ctx msg := (1, (ctx.1, ctx.2 +:+ msg));
  EVP_DigestVerifyFinal ctx sig :=
    if bool_decide (sig = 48 :: ref_signature ctx.1 ctx.2) ||
       bool_decide (sig = ref_signature ctx.1 ctx.2) then 1 else 0
}.

(** ** Identifiers *)

Definition hex_digit (n : Z) : ascii :=
  default NUL (String.get (Z.to_nat (n mod 16)) "0123456789abcdef").

(** 36 characters: the hexadecimal of the bytes, padded. *)
Definition ref_uuid_text (u : list Z) : string :=
  str_take 36 (string_of_list ((b ← u; [hex_digit (b / 16); hex_digit b]) ++
                               replicate 36 "0"%char)).

#[export] Instance ref_UUIDv7 : UUIDv7 := {
  uuidv7_generate ms rnd := (0, (ms / 256) :: ms :: rnd);
  uuidv7_to_string := ref_uuid_text
}.

#[export] Instance ref_UUIDv7Laws : UUIDv7Laws.
Proof.
  intros u. change (String.length (ref_uuid_text u) = 36%nat). unfold ref_uuid_text. apply str_take_length.
  rewrite <-length_list_of_string, list_of_string_of_list, length_app, length_replicate. lia.
Qed.

(** ** Tokens *)

Definition b64_text (s : string) : string :=
  string_of_list (encode_groups (ord <$> list_of_string s)).

Definition token_input (header payload : json) : string :=
  b64_text (json_print header) +:+ "." +:+ b64_text (json_print payload).

(** The compact serialization, signed with [key]. *)
Definition ref_token (header payload : json) (key : list Z) : string :=
  let input := token_input header payload in
  input +:+ "." +:+ string_of_list (encode_groups (ref_signature key input)).

(** The P-256 key whose coordinates are the letters "kx" and "ky". *)
Definition ref_jwk : json :=
  JObject [("kty", JString "EC"); ("crv", JString "P-256");
           ("x", JString (b64_text "kx")); ("y", JString (b64_text "ky"))].
Definition ref_key : list Z := ord <$> list_of_string "kxky".

Lemma session_new_id_bounds_witness :
  UUIDv7Laws ∧
  wp (opendbsc_session_new_id (Some (CBuf 37 None)))
    (World [] 1000 [] [Some (replicate 10 171)] [Some (5, 0)] []) (λ '(rc, out) _,
    (rc = -1 ∧ out = Some (CBuf 37 None)) ∨
    (rc = 0 ∧ (37 ≤ b_size (CBuf 37 None))%nat ∧
     ∃ id, out = Some (CBuf (b_size (CBuf 37 None)) (Some id)) ∧ String.length id = 36%nat)).
Proof.
  split; [exact ref_UUIDv7Laws|].
  exact (session_new_id_bounds (CBuf 37 None)
           (World [] 1000 [] [Some (replicate 10 171)] [Some (5, 0)] [])).
Defined.
