(* ===== verification/RedisStore.v ===== *)
(** [src/store/redis.c]: the Redis session store, over any Redis server and
    client library: its keys, the JSON form of a session, the index of the
    sessions of a user and the calls, which call one another. *)

From S2P Require Export Sql External.
From stdpp Require Import pretty options.
#[local] Open Scope Z_scope.

(** ** The client library

    [redisCommand(ctx, format, ...)] sends the words of the command; the
    server reads its own clock when it runs it.  A reply is NULL when the
    connection failed. *)
Definition REDIS_REPLY_STRING : Z := 1.
Definition REDIS_REPLY_ARRAY : Z := 2.
Definition REDIS_REPLY_INTEGER : Z := 3.
Definition REDIS_REPLY_NIL : Z := 4.
Definition REDIS_REPLY_STATUS : Z := 5.
Definition REDIS_REPLY_ERROR : Z := 6.

#[warnings="-register-all"]
Inductive redisReply := Reply (type : Z) (str : string) (element : list redisReply).

Class Hiredis := {
  redisContext : Type;
  redis_connect : string → Z → redisContext * bool;
  redis_command : redisContext → Z → list string → option redisReply * redisContext
}.

(** How many calls the C stack can hold. *)
Class CallStack := stack_depth : nat.

Definition OPENDBSC_REDIS_DEFAULT_HOST : string := "127.0.0.1".
Definition OPENDBSC_REDIS_DEFAULT_PORT : Z := 6379.
Definition OPENDBSC_REDIS_DEFAULT_PREFIX : string := "dbsc".

Record OpenDBSC_RedisConfig := RedisConfig {
  cfg_host : cstr;
  cfg_port : Z;
  cfg_prefix : cstr
}.

(** The two names a store with the prefix [p] uses. *)
Definition session_key (p id : string) : string := p +:+ ":session:" +:+ id.
Definition user_key (p user_id : string) : string := p +:+ ":user:" +:+ user_id.

(** The two passes of [snprintf] and [sprintf] over the same text. *)
Definition format_key (text : string) : C cstr :=
  key ← malloc_buf (String.length text + 1);
  match key with
  | None => mret None
  | Some key => key ← sprintf key text; text ← buf_cstr key; mret (Some text)
  end.

(** A conversion to [time_t], or a difference of two, is undefined when the
    result does not fit. *)
Definition in_time_t (d : Z) : C Z :=
  if decide (- 2 ^ 63 ≤ d < 2 ^ 63) then mret d else ub.

Section redis.
Context `{CJSON, !CJSONNumber, Hiredis}.

(** [impl]: the connection and the prefix of the keys. *)
Record OpenDBSC_RedisCtx := RedisCtx { rc_ctx : redisContext; rc_prefix : string }.

Definition redisCommand (rctx : OpenDBSC_RedisCtx) (words : list string)
    : C (option redisReply * OpenDBSC_RedisCtx) :=
  ok ← malloc;
  if negb ok then mret (None, rctx) else
  λ w, let '(reply, ctx) := redis_command (rc_ctx rctx) (w_now w) words in
       Ret (reply, RedisCtx ctx (rc_prefix rctx)) w.

Definition redis_session_key (rctx : OpenDBSC_RedisCtx) (id : cstr) : C cstr :=
  id ← need_str id; format_key (session_key (rc_prefix rctx) id).
Definition redis_user_key (rctx : OpenDBSC_RedisCtx) (user_id : cstr) : C cstr :=
  user_id ← need_str user_id; format_key (user_key (rc_prefix rctx) user_id).

(** *** JSON

    A member that cannot be added is left out without notice. *)
Definition add_member (obj : cJSON) (key : string) (item : option cJSON) : C cJSON :=
  match item with
  | None => mret obj
  | Some item => r ← json_add_item obj key item; mret (default obj r)
  end.

(** The member [public_key]: the key as JSON, or as a string when it cannot
    be parsed. *)
Definition key_item (public_key : cstr) : C (option cJSON) :=
  match public_key with
  | None => mret None
  | Some key => jwk ← json_parse key; mret (Some (default (cJSON_String key) jwk))
  end.

Definition session_to_json (session : OpenDBSC_Session) : C cstr :=
  obj ← alloc cJSON_Object;
  match obj with
  | None => mret None
  | Some obj =>
      obj ← add_member obj "id" (cJSON_String <$> s_id session);
      obj ← add_member obj "user_id" (cJSON_String <$> s_user_id session);
      obj ← add_member obj "state" (cJSON_String <$> opendbsc_session_state_str (Some session));
      jwk ← key_item (s_public_key session);
      obj ← add_member obj "public_key" jwk;
      obj ← add_member obj "algorithm" (cJSON_String <$> s_algorithm session);
      obj ← add_member obj "challenge" (cJSON_String <$> s_challenge session);
      obj ← add_member obj "expires_at"
              (if s_has_expires session then Some (cJSON_Number (s_expires_at session)) else None);
      obj ← add_member obj "created_at" (Some (cJSON_Number (s_created_at session)));
      json_print_unformatted obj
  end.

(** A setter whose return code is not looked at, when there is a value. *)
Definition set_ignored (f : option OpenDBSC_Session → cstr → C (Z * option OpenDBSC_Session))
    (value : cstr) (session : OpenDBSC_Session) : C OpenDBSC_Session :=
  match value with
  | None => mret session
  | Some v => '(_, session) ← on_local (λ p, f p (Some v)) session; mret session
  end.

Definition set_time_ignored (f : option OpenDBSC_Session → Z → option OpenDBSC_Session)
    (item : option cJSON) (session : OpenDBSC_Session) : C OpenDBSC_Session :=
  match i ← item; cJSON_numbervalue i with
  | None => mret session
  | Some d => t ← in_time_t d; deref (f (Some session) t)
  end.

Definition session_from_json (json : string) (session : OpenDBSC_Session)
    : C (Z * OpenDBSC_Session) :=
  obj ← json_parse json;
  match obj with
  | None => mret (-1, session)
  | Some _ =>
      session ← deref (opendbsc_session_init (Some session));
      let item key := json_get obj key in
      session ← set_ignored opendbsc_session_set_id (json_string (item "id")) session;
      session ← set_ignored opendbsc_session_set_user_id (json_string (item "user_id")) session;
      session ← set_ignored (λ p v, mret (opendbsc_session_set_state_str p v))
                  (json_string (item "state")) session;
      session ← (if json_is_object (item "public_key") then
                   i ← deref (item "public_key");
                   jwk ← json_print_unformatted i;
                   '(_, session) ← on_local (λ p, opendbsc_session_set_public_key p jwk) session;
                   mret session
                 else set_ignored opendbsc_session_set_public_key
                        (json_string (item "public_key")) session);
      session ← set_ignored opendbsc_session_set_algorithm (json_string (item "algorithm")) session;
      session ← set_ignored opendbsc_session_set_challenge (json_string (item "challenge")) session;
      session ← set_time_ignored opendbsc_session_set_expires_at (item "expires_at") session;
      session ← set_time_ignored opendbsc_session_set_created_at (item "created_at") session;
      mret (0, session)
  end.

Definition is_expired (session : option OpenDBSC_Session) : C bool :=
  match session with
  | None => mret false
  | Some s =>
      if negb (s_has_expires s) then mret false
      else now ← time_NULL; mret (s_expires_at s <? now)
  end.

(** *** The calls *)

(** [reply == NULL || reply->type == REDIS_REPLY_ERROR]. *)
Definition reply_failed (reply : option redisReply) : bool :=
  match reply with Some (Reply type _ _) => type =? REDIS_REPLY_ERROR | None => true end.

Definition redis_create (rctx : OpenDBSC_RedisCtx) (session : option OpenDBSC_Session)
    : C (Z * OpenDBSC_RedisCtx) :=
  match session with
  | None => mret (-1, rctx)
  | Some s =>
      match s_id s with
      | None => mret (-1, rctx)
      | Some id =>
          json ← session_to_json s;
          match json with
          | None => mret (-1, rctx)
          | Some json =>
              skey ← redis_session_key rctx (Some id);
              ukey ← redis_user_key rctx (s_user_id s);
              match skey, ukey with
              | Some skey, Some ukey =>
                  '(reply, rctx) ←
                    (if s_has_expires s then
                       now ← time_NULL;
                       ttl ← in_time_t (s_expires_at s - now);
                       let ttl := if ttl <=? 0 then 1 else ttl in
                       redisCommand rctx ["SET"; skey; json; "EX"; pretty ttl]
                     else redisCommand rctx ["SET"; skey; json]);
                  if reply_failed reply then mret (-1, rctx) else
                  '(reply, rctx) ← redisCommand rctx ["SADD"; ukey; id];
                  if reply_failed reply then mret (-1, rctx) else mret (0, rctx)
              | _, _ => mret (-1, rctx)
              end
          end
      end
  end.

(** The body of [redis_delete], with the [redis_get] it calls. *)
Definition redis_delete_by
    (get : OpenDBSC_RedisCtx → cstr → option (option OpenDBSC_Session) →
           C (Z * option (option OpenDBSC_Session) * OpenDBSC_RedisCtx))
    (rctx : OpenDBSC_RedisCtx) (id : cstr) : C (Z * OpenDBSC_RedisCtx) :=
  match id with
  | None => mret (-1, rctx)
  | Some name =>
      '(rc, session, rctx) ← get rctx id (Some None);
      ukey ← (if rc =? 0 then
                session ← deref (mjoin session);
                redis_user_key rctx (s_user_id session)
              else mret None);
      skey ← redis_session_key rctx id;
      match skey with
      | None => mret (-1, rctx)
      | Some skey =>
          '(_, rctx) ← redisCommand rctx ["DEL"; skey];
          match ukey with
          | None => mret (0, rctx)
          | Some ukey =>
              '(_, rctx) ← redisCommand rctx ["SREM"; ukey; name];
              mret (0, rctx)
          end
      end
  end.

(** [redis_get] calls [redis_delete] for an expired session, which calls
    [redis_get]; [depth] is how many of these calls the stack can hold, and a
    chain that is deeper does not return. *)
Fixpoint redis_get (depth : nat) (rctx : OpenDBSC_RedisCtx) (id : cstr)
    (out : option (option OpenDBSC_Session))
    : C (Z * option (option OpenDBSC_Session) * OpenDBSC_RedisCtx) :=
  match depth with
  | O => hang
  | S depth =>
      match id, out with
      | Some _, Some _ =>
          skey ← redis_session_key rctx id;
          match skey with
          | None => mret (-1, Some None, rctx)
          | Some skey =>
              '(reply, rctx) ← redisCommand rctx ["GET"; skey];
              match reply with
              | None => mret (-1, Some None, rctx)
              | Some (Reply type str _) =>
                  if type =? REDIS_REPLY_NIL then mret (-1, Some None, rctx) else
                  if negb (type =? REDIS_REPLY_STRING) then mret (-1, Some None, rctx) else
                  ok ← malloc;
                  if negb ok then mret (-1, Some None, rctx) else
                  session ← deref (opendbsc_session_init (Some session_default));
                  '(rc, session) ← session_from_json str session;
                  if negb (rc =? 0) then mret (-1, Some None, rctx) else
                  dead ← is_expired (Some session);
                  if dead : bool then
                    '(_, rctx) ← redis_delete_by (redis_get depth) rctx id;
                    mret (-1, Some None, rctx)
                  else mret (0, Some (Some session), rctx)
              end
          end
      | _, _ => mret (-1, out, rctx)
      end
  end.

Definition redis_delete (depth : nat) : OpenDBSC_RedisCtx → cstr → C (Z * OpenDBSC_RedisCtx) :=
  redis_delete_by (redis_get depth).

Context `{CallStack}.

Definition redis_update (rctx : OpenDBSC_RedisCtx) (session : option OpenDBSC_Session)
    : C (Z * OpenDBSC_RedisCtx) :=
  match session with
  | None => mret (-1, rctx)
  | Some s =>
      match s_id s with
      | None => mret (-1, rctx)
      | Some id =>
          '(rc, existing, rctx) ← redis_get stack_depth rctx (Some id) (Some None);
          if negb (rc =? 0) then mret (-1, rctx) else redis_create rctx session
      end
  end.

(** The loop over the members of the set: what it has collected, or [None]
    when an allocation failed. *)
Fixpoint collect_loop (elements : list redisReply) (rctx : OpenDBSC_RedisCtx)
    (sessions : list OpenDBSC_Session) : C (option (list OpenDBSC_Session) * OpenDBSC_RedisCtx) :=
  match elements with
  | [] => mret (Some sessions, rctx)
  | Reply type str _ :: elements' =>
      if negb (type =? REDIS_REPLY_STRING) then collect_loop elements' rctx sessions else
      '(rc, session, rctx) ← redis_get stack_depth rctx (Some str) (Some None);
      if negb (rc =? 0) then collect_loop elements' rctx sessions else
      session ← deref (mjoin session);
      next ← malloc;
      if negb next then mret (None, rctx)
      else collect_loop elements' rctx (sessions ++ [session])
  end.

Definition redis_get_by_user_id (rctx : OpenDBSC_RedisCtx) (user_id : cstr)
    (out : option (list OpenDBSC_Session)) (count : option nat)
    : C (Z * option (list OpenDBSC_Session) * option nat * OpenDBSC_RedisCtx) :=
  match user_id, out, count with
  | Some _, Some _, Some _ =>
      ukey ← redis_user_key rctx user_id;
      match ukey with
      | None => mret (-1, Some [], Some 0%nat, rctx)
      | Some ukey =>
          '(reply, rctx) ← redisCommand rctx ["SMEMBERS"; ukey];
          match reply with
          | None => mret (-1, Some [], Some 0%nat, rctx)
          | Some (Reply type _ element) =>
              if type =? REDIS_REPLY_NIL then mret (0, Some [], Some 0%nat, rctx) else
              if negb (type =? REDIS_REPLY_ARRAY) then mret (-1, Some [], Some 0%nat, rctx) else
              '(sessions, rctx) ← collect_loop element rctx [];
              match sessions with
              | None => mret (-1, Some [], Some 0%nat, rctx)
              | Some sessions => mret (0, Some sessions, Some (length sessions), rctx)
              end
          end
      end
  | _, _, _ => mret (-1, out, count, rctx)
  end.

Fixpoint delete_loop (sessions : list OpenDBSC_Session) (rctx : OpenDBSC_RedisCtx)
    : C OpenDBSC_RedisCtx :=
  match sessions with
  | [] => mret rctx
  | s :: sessions' =>
      '(_, rctx) ← redis_delete stack_depth rctx (s_id s);
      delete_loop sessions' rctx
  end.

Definition redis_delete_by_user_id (rctx : OpenDBSC_RedisCtx) (user_id : cstr)
    : C (Z * OpenDBSC_RedisCtx) :=
  match user_id with
  | None => mret (-1, rctx)
  | Some _ =>
      '(rc, sessions, _, rctx) ← redis_get_by_user_id rctx user_id (Some []) (Some 0%nat);
      if negb (rc =? 0) then mret (-1, rctx) else
      sessions ← deref sessions;
      rctx ← delete_loop sessions rctx;
      ukey ← redis_user_key rctx user_id;
      match ukey with
      | None => mret (0, rctx)
      | Some ukey => '(_, rctx) ← redisCommand rctx ["DEL"; ukey]; mret (0, rctx)
      end
  end.

(** The connection is closed and everything freed. *)
Definition redis_destroy (rctx : option OpenDBSC_RedisCtx) : option OpenDBSC_RedisCtx := None.

Definition opendbsc_redis_store_create (config : option OpenDBSC_RedisConfig)
    : C (option OpenDBSC_RedisCtx) :=
  let host := default OPENDBSC_REDIS_DEFAULT_HOST (config ≫= cfg_host) in
  let port := match config with
              | Some c => if cfg_port c =? 0 then OPENDBSC_REDIS_DEFAULT_PORT else cfg_port c
              | None => OPENDBSC_REDIS_DEFAULT_PORT
              end in
  let prefix := default OPENDBSC_REDIS_DEFAULT_PREFIX (config ≫= cfg_prefix) in
  ctx ← alloc (redis_connect host port);
  match ctx with
  | None => mret None
  | Some (ctx, err) =>
      if err : bool then mret None else
      rctx ← malloc;
      if negb rctx then mret None else
      prefix ← strdup prefix;
      match prefix with
      | None => mret None
      | Some prefix =>
          store ← malloc;
          if negb store then mret None else
          mret (Some (RedisCtx ctx prefix))
      end
  end.

#[export] Instance redis_Store : Store OpenDBSC_RedisCtx := {
  st_create := redis_create;
  st_get := redis_get stack_depth;
  st_update := redis_update;
  st_delete := redis_delete stack_depth;
  st_get_by_user_id := redis_get_by_user_id;
  st_delete_by_user_id := redis_delete_by_user_id
}.

End redis.
