(* ===== verification/RedisSpec.v ===== *)
(** What the Redis store promises: a session as a JSON document, the commands
    of the server as its documentation describes them, the keys that
    represent a map of sessions with its index of users, and the abstract
    calls on the two. *)

From S2P Require Export RedisStore.
From stdpp Require Import pretty options.
#[local] Open Scope Z_scope.

(** ** The document of a session *)

Section document.
Context `{CJSON, !CJSONNumber, !CJSONLaws, !CJSONTextLaws}.

Definition add_opt (obj : cJSON) (key : string) (item : option cJSON) : cJSON :=
  match item with Some item => cJSON_AddItemToObject obj key item | None => obj end.

Definition parsed_key (key : string) : cJSON :=
  default (cJSON_String key) (cJSON_text_value (ord <$> list_of_string key)).

Definition members_of (s : OpenDBSC_Session) : list (string * option cJSON) :=
  [("id", cJSON_String <$> s_id s); ("user_id", cJSON_String <$> s_user_id s);
   ("state", Some (cJSON_String (state_text s)));
   ("public_key", parsed_key <$> s_public_key s);
   ("algorithm", cJSON_String <$> s_algorithm s); ("challenge", cJSON_String <$> s_challenge s);
   ("expires_at", if s_has_expires s then Some (cJSON_Number (s_expires_at s)) else None);
   ("created_at", Some (cJSON_Number (s_created_at s)))].

Definition document (s : OpenDBSC_Session) : cJSON :=
  foldl (λ o '(k, v), add_opt o k v) cJSON_Object (members_of s).
Definition document_text (s : OpenDBSC_Session) : string := cJSON_PrintUnformatted (document s).

Definition text_member (obj : cJSON) (key : string) : cstr := json_string (json_get (Some obj) key).
Definition time_member (obj : cJSON) (key : string) : option Z :=
  i ← json_get (Some obj) key; cJSON_numbervalue i.

Definition key_member (obj : cJSON) : cstr :=
  i ← json_get (Some obj) "public_key";
  if cJSON_IsObject i then Some (cJSON_PrintUnformatted i) else cJSON_valuestring i.

(** The session a document describes; a missing member keeps its initial value. *)
Definition session_of_document (obj : cJSON) : OpenDBSC_Session :=
  let t := default 0 (time_member obj "expires_at") in
  Session (text_member obj "id") (text_member obj "user_id")
    (default OPENDBSC_SESSION_STATE_ACTIVE (text_member obj "state" ≫= state_of_text))
    (key_member obj) (text_member obj "algorithm") (text_member obj "challenge")
    t (bool_decide (t ≠ 0)) (default 0 (time_member obj "created_at")).

Definition present {A} (v : option A) : bool := match v with Some _ => true | None => false end.

Definition time_fits (t : option Z) : Prop :=
  match t with Some t => - 2 ^ 63 ≤ t < 2 ^ 63 | None => True end.

(** A key that is an object printed as it was parsed, or that is not JSON. *)
Definition key_kept (key : string) : Prop :=
  match cJSON_text_value (ord <$> list_of_string key) with
  | Some j => cJSON_IsObject j = true ∧ cJSON_PrintUnformatted j = key ∧ json_readable j
  | None => json_safe key
  end.

Definition all_safe (l : list cstr) : Prop := Forall (λ v, ∀ t, v = Some t → json_safe t) l.

(** The sessions whose text in the server reads back. *)
Record redis_storable (s : OpenDBSC_Session) : Prop := {
  rs_storable : storable s;
  rs_safe : all_safe [s_id s; s_user_id s; s_algorithm s; s_challenge s];
  rs_key : ∀ k, s_public_key s = Some k → key_kept k
}.

Lemma add_opt_object o k v : cJSON_IsObject o = true → cJSON_IsObject (add_opt o k v) = true.
Proof using Type*. destruct v; cbn; [by rewrite is_object_add|done]. Qed.

Lemma get_add_opt o k v k' :
  cJSON_IsObject o = true →
  cJSON_GetObjectItemCaseSensitive (add_opt o k v) k' =
    match cJSON_GetObjectItemCaseSensitive o k' with
    | Some x => Some x
    | None => if String.eqb k k' then v else None
    end.
Proof using Type*.
  intros Ho. destruct v as [v|]; cbn; [by rewrite get_item_add|].
  by destruct (cJSON_GetObjectItemCaseSensitive o k'), (String.eqb k k').
Qed.

Lemma get_members l o k :
  cJSON_IsObject o = true →
  cJSON_GetObjectItemCaseSensitive (foldl (λ o '(k, v), add_opt o k v) o l) k =
    match cJSON_GetObjectItemCaseSensitive o k with
    | Some x => Some x
    | None => List.find (λ p, String.eqb p.1 k && present p.2) l ≫= snd
    end.
Proof using Type*.
  revert o. induction l as [|[a v] l IH]; intros o Ho; cbn [foldl List.find].
  { by destruct (cJSON_GetObjectItemCaseSensitive o k). }
  rewrite IH, get_add_opt by (done || by apply add_opt_object). cbn [fst snd].
  destruct (cJSON_GetObjectItemCaseSensitive o k) as [x|]; [done|].
  destruct (String.eqb a k), v; done.
Qed.

Lemma document_member s k :
  json_get (Some (document s)) k =
    List.find (λ p, String.eqb p.1 k && present p.2) (members_of s) ≫= snd.
Proof using Type*.
  unfold json_get, document. cbn [mbind option_bind].
  rewrite get_members by apply is_object_empty. by rewrite get_item_empty.
Qed.

Lemma document_text_member s k v :
  json_get (Some (document s)) k = cJSON_String <$> v → text_member (document s) k = v.
Proof using Type*.
  intros E. unfold text_member. rewrite E. destruct v; cbn; [apply valuestring_string|done].
Qed.

Lemma document_time_member s k n :
  json_get (Some (document s)) k = Some (cJSON_Number n) → time_ok n →
  time_member (document s) k = Some n.
Proof using Type*.
  intros E Hn. unfold time_member. rewrite E. cbn. apply numbervalue_number.
  unfold time_ok in Hn. lia.
Qed.

Lemma document_key_member s :
  (∀ k, s_public_key s = Some k → key_kept k) → key_member (document s) = s_public_key s.
Proof using Type*.
  intros Hk. unfold key_member. rewrite document_member. unfold members_of. cbn.
  destruct (s_public_key s) as [k|]; cbn; [|by destruct (s_id s), (s_user_id s), (s_algorithm s),
    (s_challenge s), (s_has_expires s)].
  assert ((if cJSON_IsObject (parsed_key k) then Some (cJSON_PrintUnformatted (parsed_key k))
           else cJSON_valuestring (parsed_key k)) = Some k)
    as Ho; [|by destruct (s_id s), (s_user_id s)].
  unfold parsed_key. specialize (Hk k eq_refl). unfold key_kept in Hk.
  destruct (cJSON_text_value _) as [j|]; cbn.
  - by destruct Hk as (-> & -> & _).
  - rewrite is_object_string. apply valuestring_string.
Qed.

(** A session survives its document. *)
Lemma document_roundtrip s :
  storable s → (∀ k, s_public_key s = Some k → key_kept k) → session_of_document (document s) = s.
Proof using Type*.
  intros [_ _ Hc He] Hk. unfold session_of_document. rewrite document_key_member by done.
  rewrite (document_text_member s "id" (s_id s)), (document_text_member s "user_id" (s_user_id s)),
    (document_text_member s "state" (Some (state_text s))),
    (document_text_member s "algorithm" (s_algorithm s)),
    (document_text_member s "challenge" (s_challenge s)),
    (document_time_member s "created_at" (s_created_at s)) by
    (first [done | rewrite document_member; unfold members_of; cbn;
      by destruct (s_id s), (s_user_id s), (s_public_key s), (s_algorithm s), (s_challenge s), (s_has_expires s)]).
  cbn [mbind option_bind]. rewrite state_roundtrip. cbn [default from_option].
  destruct s as [id u st k a c e [] cr]; cbn [s_has_expires s_expires_at] in He.
  - destruct He as [He Hne]. rewrite (document_time_member _ "expires_at" e) by
      (first [done | rewrite document_member; unfold members_of; cbn; by destruct id, u, k, a, c]).
    cbn. by rewrite bool_decide_true by done.
  - subst e. assert (time_member (document (Session id u st k a c 0 false cr)) "expires_at" = None) as ->; [|done].
    unfold time_member. rewrite document_member. unfold members_of. cbn. by destruct id, u, k, a, c.
Qed.

Lemma readable_members l o :
  json_readable o → cJSON_IsObject o = true →
  Forall (λ p : string * option cJSON, json_safe p.1 ∧ ∀ v, p.2 = Some v → json_readable v) l →
  json_readable (foldl (λ o '(k, v), add_opt o k v) o l).
Proof using Type*.
  intros Ho Hobj Hl. revert o Ho Hobj.
  induction Hl as [|[k [v|]] l [Hk Hv] _ IH]; intros o Ho Hobj; [done|..]; cbn in *.
  - apply IH; [apply readable_add; auto|by rewrite is_object_add].
  - by apply IH.
Qed.

Lemma safe_string v : (∀ t, v = Some t → json_safe t) →
  ∀ j, cJSON_String <$> v = Some j → json_readable j.
Proof using Type*. intros Hv j. destruct v as [t|]; [|done]. intros [= <-]. apply readable_string. auto. Qed.

Lemma parsed_key_readable k : key_kept k → json_readable (parsed_key k).
Proof using Type*.
  unfold key_kept, parsed_key. destruct (cJSON_text_value _); cbn; [by intros (_ & _ & ?)|].
  apply readable_string.
Qed.

Lemma readable_time n : time_ok n → json_readable (cJSON_Number n).
Proof using Type*. intros Hn. unfold time_ok in Hn. apply readable_number. lia. Qed.

(** The text of a session is parsed to its document. *)
Lemma document_read s :
  redis_storable s → cJSON_text_value (ord <$> list_of_string (document_text s)) = Some (document s).
Proof using Type*.
  intros [[_ _ Hc He] Hsafe Hk]. apply readable_parse, readable_members;
    [apply readable_object|apply is_object_empty|].
  unfold all_safe in Hsafe. rewrite !Forall_cons in Hsafe. destruct Hsafe as (H1' & H2' & H3' & H4' & _).
  unfold members_of. repeat (apply Forall_cons; split; [split; [by apply json_safe_name|]|]);
    [..|apply Forall_nil_2]; cbn [snd].
  1,2,5,6: by apply safe_string.
  - intros j [= <-]. apply readable_string, json_safe_name. unfold state_text. by destruct (s_state s).
  - intros j Hj. destruct (s_public_key s) as [k|] eqn:E; [|done]. injection Hj as <-.
    by apply parsed_key_readable, Hk.
  - intros j Hj. destruct (s_has_expires s); [|done]. injection Hj as <-. by apply readable_time, He.
  - intros j [= <-]. by apply readable_time.
Qed.

(** *** The runs *)

Lemma add_member_run o k v w : no_oom w → add_member o k v w = Ret (add_opt o k v) w.
Proof using Type*.
  intros Hw. destruct v as [v|]; [|done]. unfold add_member, json_add_item.
  by run_by ltac:(by apply alloc_run).
Qed.

Lemma key_item_run k w : no_oom w → key_item k w = Ret (parsed_key <$> k) w.
Proof using Type*.
  intros Hw. destruct k as [k|]; [|done]. unfold key_item, json_parse, parsed_key. cbn.
  destruct (cJSON_text_value _); [by run_by ltac:(by apply alloc_run)|done].
Qed.

Lemma session_to_json_run s w : no_oom w → session_to_json s w = Ret (Some (document_text s)) w.
Proof using Type*.
  intros Hw. unfold session_to_json. run_by ltac:(by apply alloc_run).
  do 3 run_by ltac:(by apply add_member_run). run_by ltac:(by apply key_item_run).
  do 5 run_by ltac:(by apply add_member_run). unfold json_print_unformatted.
  rewrite alloc_run by done. unfold document_text, document, members_of. cbn [foldl].
  do 3 f_equal. unfold state_text. cbn. by destruct (s_state s).
Qed.

(** The setters of strings, on a field that is still NULL. *)
Lemma set_strings_run v s w :
  no_oom w →
  (s_id s = None → set_ignored opendbsc_session_set_id v s w = Ret (with_id v s) w) ∧
  (s_user_id s = None → set_ignored opendbsc_session_set_user_id v s w = Ret (with_user_id v s) w) ∧
  (s_public_key s = None →
     set_ignored opendbsc_session_set_public_key v s w = Ret (with_public_key v s) w) ∧
  (s_algorithm s = None → set_ignored opendbsc_session_set_algorithm v s w = Ret (with_algorithm v s) w) ∧
  (s_challenge s = None → set_ignored opendbsc_session_set_challenge v s w = Ret (with_challenge v s) w).
Proof using Type*.
  intros Hw. destruct v as [t|];
    [|split_and!; intros E; destruct s; cbn in E; by subst].
  split_and!; intros _; unfold set_ignored, on_local;
    (run_by ltac:(run_by ltac:(first [by apply session_set_id_run|by apply session_set_user_id_run
      |by apply session_set_public_key_run|by apply session_set_algorithm_run
      |by apply session_set_challenge_run]); done)); done.
Qed.

Lemma set_state_ignored_run v s w :
  set_ignored (λ p v, mret (opendbsc_session_set_state_str p v)) v s w =
    Ret (with_state (default (s_state s) (v ≫= state_of_text)) s) w.
Proof using Type*.
  destruct v as [t|]; cbn [mbind option_bind]; [|by destruct s]. unfold state_of_text, set_ignored, on_local.
  unfold opendbsc_session_set_state_str. rewrite !bind_unfold, ret_unfold.
  destruct (String.eqb t OPENDBSC_STATE_ACTIVE_STR); [done|].
  destruct (String.eqb t OPENDBSC_STATE_BOUND_STR); [done|]. by destruct s.
Qed.

Lemma set_time_ignored_run f obj key s w :
  time_fits (time_member obj key) → (∀ t, f (Some s) t ≠ None) →
  set_time_ignored f (json_get (Some obj) key) s w =
    Ret (match time_member obj key with Some t => default s (f (Some s) t) | None => s end) w.
Proof using Type*.
  intros Ht Hf. unfold set_time_ignored. fold (time_member obj key).
  destruct (time_member obj key) as [t|]; [|done]. cbn in Ht. unfold in_time_t.
  rewrite decide_True by done. run_by ltac:(reflexivity). specialize (Hf t).
  by destruct (f (Some s) t).
Qed.

Lemma key_branch_run obj s w :
  no_oom w → s_public_key s = None →
  (if json_is_object (json_get (Some obj) "public_key") then
     i ← deref (json_get (Some obj) "public_key");
     jwk ← json_print_unformatted i;
     '(_, session) ← on_local (λ p, opendbsc_session_set_public_key p jwk) s;
     mret session
   else set_ignored opendbsc_session_set_public_key
          (json_string (json_get (Some obj) "public_key")) s) w =
    Ret (with_public_key (key_member obj) s) w.
Proof using Type*.
  intros Hw Hs. unfold key_member. destruct (json_get (Some obj) "public_key") as [i|].
  2: { cbn. destruct s; cbn in Hs. by subst. }
  cbn [json_is_object mbind option_bind].
  destruct (cJSON_IsObject i); [|by apply (set_strings_run (cJSON_valuestring i) s w Hw)].
  run_by ltac:(reflexivity). run_by ltac:(by apply alloc_run). unfold on_local.
  by run_by ltac:(run_by ltac:(by apply session_set_public_key_run); done).
Qed.

(** Reading a text that parses to [obj]. *)
Lemma session_from_json_run text obj s0 w :
  no_oom w → cJSON_text_value (ord <$> list_of_string text) = Some obj →
  time_fits (time_member obj "expires_at") → time_fits (time_member obj "created_at") →
  session_from_json text s0 w = Ret (0, session_of_document obj) w.
Proof using Type*.
  intros Hw Hp He Hc. unfold session_from_json.
  run_by ltac:(unfold json_parse; rewrite Hp; by apply alloc_run).
  run_by ltac:(reflexivity). cbv zeta.
  do 2 run_by ltac:(by apply set_strings_run). run_by ltac:(apply set_state_ignored_run).
  run_by ltac:(by apply key_branch_run). do 2 run_by ltac:(by apply set_strings_run).
  do 2 run_by ltac:(by apply set_time_ignored_run).
  unfold session_of_document, text_member.
  destruct (time_member obj "expires_at"), (time_member obj "created_at"); done.
Qed.

End document.

(** ** The server

    Its keys at a time: a text, with the last second at which it is there, or
    a set, which is never empty. *)
Inductive rvalue :=
| RText (text : string) (deadline : option Z)
| RSet (members : gset string).

Abbreviation keyspace := (gmap string rvalue).

Inductive rcommand :=
| CSet (key text : string)
| CSetEx (key text : string) (ttl : Z)
| CGet (key : string)
| CDel (key : string)
| CSAdd (key member : string)
| CSRem (key member : string)
| CSMembers (key : string).

Definition command_words (c : rcommand) : list string :=
  match c with
  | CSet k v => ["SET"; k; v]
  | CSetEx k v ttl => ["SET"; k; v; "EX"; pretty ttl]
  | CGet k => ["GET"; k]
  | CDel k => ["DEL"; k]
  | CSAdd k m => ["SADD"; k; m]
  | CSRem k m => ["SREM"; k; m]
  | CSMembers k => ["SMEMBERS"; k]
  end.

(** The set under a key, unless there is a text. *)
Definition set_at (ks : keyspace) (k : string) : option (gset string) :=
  match ks !! k with None => Some ∅ | Some (RSet X) => Some X | Some (RText _ _) => None end.

Definition put_set (k : string) (X : gset string) (ks : keyspace) : keyspace :=
  if decide (X = ∅) then delete k ks else <[k := RSet X]> ks.

Definition type_of (r : redisReply) : Z := let '(Reply type _ _) := r in type.
Definition text_of (r : redisReply) : string := let '(Reply _ text _) := r in text.
Definition elements_of (r : redisReply) : list redisReply := let '(Reply _ _ l) := r in l.

(** A command of [c] at the time [now]: the reply and the keys afterwards. *)
Definition command_meaning (now : Z) (c : rcommand) (ks : keyspace) (r : redisReply)
    (ks' : keyspace) : Prop :=
  match c with
  | CSet k v => type_of r = REDIS_REPLY_STATUS ∧ ks' = <[k := RText v None]> ks
  | CSetEx k v ttl =>
      0 < ttl → type_of r = REDIS_REPLY_STATUS ∧ ks' = <[k := RText v (Some (now + ttl))]> ks
  | CGet k =>
      ks' = ks ∧
      match ks !! k with
      | None => type_of r = REDIS_REPLY_NIL
      | Some (RText v _) => type_of r = REDIS_REPLY_STRING ∧ text_of r = v
      | Some (RSet _) => type_of r = REDIS_REPLY_ERROR
      end
  | CDel k => type_of r = REDIS_REPLY_INTEGER ∧ ks' = delete k ks
  | CSAdd k m =>
      match set_at ks k with
      | Some X => type_of r = REDIS_REPLY_INTEGER ∧ ks' = put_set k ({[m]} ∪ X) ks
      | None => type_of r = REDIS_REPLY_ERROR ∧ ks' = ks
      end
  | CSRem k m =>
      match set_at ks k with
      | Some X => type_of r = REDIS_REPLY_INTEGER ∧ ks' = put_set k (X ∖ {[m]}) ks
      | None => type_of r = REDIS_REPLY_ERROR ∧ ks' = ks
      end
  | CSMembers k =>
      ks' = ks ∧
      match set_at ks k with
      | Some X => type_of r = REDIS_REPLY_ARRAY ∧ ∃ l, l ≡ₚ elements X ∧
          elements_of r = (λ m, Reply REDIS_REPLY_STRING m []) <$> l
      | None => type_of r = REDIS_REPLY_ERROR
      end
  end.

(** What the documentation of Redis says of a server that can be reached:
    each command has its meaning on the keys, and the keys that remain when
    time passes are those whose last second has not gone by. *)
Class RedisLaws `{Hiredis} := {
  redis_ready : redisContext → Prop;
  redis_keys : redisContext → Z → keyspace;
  redis_executes ctx now c :
    redis_ready ctx →
    ∃ r ctx', redis_command ctx now (command_words c) = (Some r, ctx') ∧ redis_ready ctx' ∧
      command_meaning now c (redis_keys ctx now) r (redis_keys ctx' now);
  redis_later ctx t t' : t ≤ t' → redis_keys ctx t' ⊆ redis_keys ctx t;
  redis_expires ctx t k v d : redis_keys ctx t !! k = Some (RText v (Some d)) → t ≤ d;
  redis_keeps ctx t t' k v :
    redis_keys ctx t !! k = Some v → t ≤ t' →
    (∀ text d, v = RText text (Some d) → t' < d) → redis_keys ctx t' !! k = Some v
}.

(** ** Keys that represent sessions *)

Section keys.
Context `{CJSON, !CJSONNumber, !CJSONTextLaws}.

(** The sessions, and the identifiers in the set of each user. *)
Abbreviation index := (string → gset string).

Definition deadline (s : OpenDBSC_Session) : option Z :=
  if s_has_expires s then Some (s_expires_at s) else None.

Record keys_hold (p : string) (ks : keyspace) (m : view) (x : index) : Prop := {
  kh_text id : ks !! session_key p id = (λ s, RText (document_text s) (deadline s)) <$> m !! id;
  kh_set u : set_at ks (user_key p u) = Some (x u);
  kh_session id s : m !! id = Some s → s_id s = Some id ∧ redis_storable s
}.

Definition index_set (u : string) (X : gset string) (x : index) : index :=
  λ v, if decide (v = u) then X else x v.
Definition index_add (u id : string) (x : index) : index := index_set u ({[id]} ∪ x u) x.
Definition index_remove (u id : string) (x : index) : index := index_set u (x u ∖ {[id]}) x.

Lemma elem_of_index_add u i x v id : id ∈ index_add u i x v ↔ id ∈ x v ∨ (v = u ∧ id = i).
Proof. unfold index_add, index_set. case_decide; [subst; rewrite ?elem_of_union, ?elem_of_difference, elem_of_singleton|]; intuition congruence. Qed.

Lemma elem_of_index_remove u i x v id :
  id ∈ index_remove u i x v ↔ id ∈ x v ∧ ¬ (v = u ∧ id = i).
Proof. unfold index_remove, index_set. case_decide; [subst; rewrite ?elem_of_union, ?elem_of_difference, elem_of_singleton|]; intuition congruence. Qed.

Lemma session_key_inj p a b : session_key p a = session_key p b → a = b.
Proof. unfold session_key. by intros ?%str_app_inj_l%str_app_inj_l. Qed.
Lemma user_key_inj p a b : user_key p a = user_key p b → a = b.
Proof. unfold user_key. by intros ?%str_app_inj_l%str_app_inj_l. Qed.
Lemma keys_apart p a b : session_key p a ≠ user_key p b.
Proof. unfold session_key, user_key. by intros E%str_app_inj_l. Qed.

Lemma set_at_insert_ne ks k k' v : k ≠ k' → set_at (<[k := v]> ks) k' = set_at ks k'.
Proof. intros Hk. unfold set_at. by rewrite lookup_insert_ne. Qed.
Lemma set_at_delete_ne ks k k' : k ≠ k' → set_at (delete k ks) k' = set_at ks k'.
Proof. intros Hk. unfold set_at. by rewrite lookup_delete_ne. Qed.
Lemma set_at_put ks k X : set_at (put_set k X ks) k = Some X.
Proof.
  unfold set_at, put_set. case_decide; [by subst; rewrite lookup_delete_eq|by rewrite lookup_insert_eq].
Qed.
Lemma lookup_put_ne ks k k' X : k ≠ k' → put_set k X ks !! k' = ks !! k'.
Proof. intros Hk. unfold put_set. case_decide; [by rewrite lookup_delete_ne|by rewrite lookup_insert_ne]. Qed.

Lemma keys_hold_insert p ks m x s id :
  keys_hold p ks m x → redis_storable s → s_id s = Some id →
  keys_hold p (<[session_key p id := RText (document_text s) (deadline s)]> ks) (<[id := s]> m) x.
Proof.
  intros [Ht Hu Hs] Hst Hid. split.
  - intros i. destruct (decide (id = i)) as [->|]; [by rewrite !lookup_insert_eq|].
    rewrite !lookup_insert_ne by (done || by intros ?%session_key_inj). apply Ht.
  - intros u. rewrite set_at_insert_ne by apply keys_apart. apply Hu.
  - intros i s' [[-> ->]|[_ Hi]]%lookup_insert_Some; [done|by apply Hs].
Qed.

Lemma keys_hold_delete p ks m x id :
  keys_hold p ks m x → keys_hold p (delete (session_key p id) ks) (delete id m) x.
Proof.
  intros [Ht Hu Hs]. split.
  - intros i. destruct (decide (id = i)) as [->|]; [by rewrite !lookup_delete_eq|].
    rewrite !lookup_delete_ne by (done || by intros ?%session_key_inj). apply Ht.
  - intros u. rewrite set_at_delete_ne by apply keys_apart. apply Hu.
  - intros i s' [_ Hi]%lookup_delete_Some. by apply Hs.
Qed.

Lemma keys_hold_put p ks m x u X :
  keys_hold p ks m x → keys_hold p (put_set (user_key p u) X ks) m (index_set u X x).
Proof.
  intros [Ht Hu Hs]. split; [..|done].
  - intros i. rewrite lookup_put_ne by (apply not_eq_sym, keys_apart). apply Ht.
  - intros v. unfold index_set. case_decide as Hv; [subst; apply set_at_put|].
    rewrite <-Hu. unfold set_at. rewrite lookup_put_ne; [done|]. by intros ?%user_key_inj.
Qed.

Lemma keys_hold_del_set p ks m x u :
  keys_hold p ks m x → keys_hold p (delete (user_key p u) ks) m (index_set u ∅ x).
Proof.
  intros Hk. replace (delete (user_key p u) ks) with (put_set (user_key p u) ∅ ks).
  { by apply keys_hold_put. }
  unfold put_set. by rewrite decide_True.
Qed.

End keys.
