(* ===== verification/RefRedis.v ===== *)
(** A concrete Redis server and the numbers and texts of the concrete JSON, for
    the examples of the Redis store: the laws of [RedisSpec.v] and
    [External.v] can be met together. *)

From S2P Require Export RedisSpec RefLibs.
From stdpp Require Import pretty options.
#[local] Open Scope Z_scope.

(** ** JSON texts read back *)

Definition quote_free (s : string) : bool := str_forall (λ c, negb (Ascii.eqb c DQ)) s.

Fixpoint json_plain (j : json) : bool :=
  match j with
  | JString s => quote_free s
  | JNumber n => (0 <=? n) && (n <? 10 ^ 16)
  | JArray l => forallb json_plain l
  | JObject l => forallb (λ p, quote_free p.1 && json_plain p.2) l
  | _ => true
  end.

Fixpoint items_text (l : list json) : string :=
  match l with
  | [] => "]"
  | [j] => json_print j +:+ "]"
  | j :: l => json_print j +:+ "," +:+ items_text l
  end.
Fixpoint fields_text (l : list (string * json)) : string :=
  match l with
  | [] => "}"
  | [(k, j)] => dquoted k +:+ ":" +:+ json_print j +:+ "}"
  | (k, j) :: l => dquoted k +:+ ":" +:+ json_print j +:+ "," +:+ fields_text l
  end.

Lemma print_array l : json_print (JArray l) = "[" +:+ items_text l.
Proof. done. Qed.
Lemma print_object l : json_print (JObject l) = "{" +:+ fields_text l.
Proof. done. Qed.

Lemma take_quoted_app s r :
  quote_free s = true → take_quoted (s +:+ String DQ r) = Some (s, r).
Proof.
  induction s as [|c s IH]; [done|]. unfold quote_free in *. rewrite str_app_cons. cbn [str_forall take_quoted].
  destruct (Ascii.eqb c DQ); [done|]. cbn [negb andb]. intros Hs. by rewrite (IH Hs).
Qed.

Lemma pad_S k n : pad (S k) n = String (digit (n `div` 10 ^ Z.of_nat k)) (pad k (n `mod` 10 ^ Z.of_nat k)).
Proof. done. Qed.

Lemma json_value_digit fuel c s :
  is_digit c = true →
  json_value (S fuel) (String c s) =
    (let '(n, r) := get_digits 16 0 (10 ^ 16) (String c s) in Some (JNumber n, r)).
Proof. destruct c as [[] [] [] [] [] [] [] []]; cbn -[get_digits Z.pow]; done. Qed.

Lemma json_value_items fuel c s :
  c ≠ "]"%char →
  json_value (S fuel) (String "[" (String c s)) =
    ('(l, r) ← json_items fuel (String c s); Some (JArray l, r)).
Proof. intros Hc. destruct c as [[] [] [] [] [] [] [] []]; done. Qed.

Lemma print_head j : json_plain j = true → ∃ c s, json_print j = String c s ∧ c ≠ "]"%char.
Proof.
  destruct j as [|[]|s|n|l|l]; intros Hj; try (by do 2 eexists).
  apply andb_true_iff in Hj as [Hn%Z.leb_le Hm%Z.ltb_lt].
  change (json_print (JNumber n)) with (pad 16 n). rewrite pad_S. do 2 eexists. split; [done|].
  destruct (is_digit_digit (n `div` 10 ^ Z.of_nat 15)) as [Hd _]; [by apply pad_head|].
  intros E. by rewrite E in Hd.
Qed.

Lemma json_read fuel :
  (∀ j rest, json_plain j = true → (String.length (json_print j) < fuel)%nat →
     json_value fuel (json_print j +:+ rest) = Some (j, rest)) ∧
  (∀ l rest, l ≠ [] → forallb (λ p, quote_free p.1 && json_plain p.2) l = true →
     (String.length (fields_text l) < fuel)%nat →
     json_fields fuel (fields_text l +:+ rest) = Some (l, rest)) ∧
  (∀ l rest, l ≠ [] → forallb json_plain l = true → (String.length (items_text l) < fuel)%nat →
     json_items fuel (items_text l +:+ rest) = Some (l, rest)).
Proof.
  induction fuel as [|fuel (IHv & IHf & IHi)]; [split_and!; intros; lia|]. split_and!.
  - intros [|[]|s|n|l|l] rest Hj Hl.
    1-3: (simpl json_print; rewrite !str_app_cons, str_app_nil_l; done).
    + change (json_print (JString s)) with (dquoted s) in *. unfold dquoted in *.
      rewrite str_app_cons, str_app_assoc, str_app_cons, str_app_nil_l. cbn [json_value DQ].
      by rewrite take_quoted_app.
    + apply andb_true_iff in Hj as [Hn%Z.leb_le Hm%Z.ltb_lt].
      change (json_print (JNumber n)) with (pad 16 n) in *. rewrite pad_S, str_app_cons.
      rewrite json_value_digit, <-str_app_cons, <-pad_S by (by apply is_digit_digit, pad_head).
      by rewrite get_digits_pad by (change (Z.of_nat 16) with 16; lia).
    + rewrite print_array in *. destruct l as [|j l]; [done|].
      rewrite str_app_assoc, str_app_cons, str_app_nil_l.
      cbn [json_plain forallb] in Hj. pose proof Hj as [Hj1 _]%andb_true_iff.
      destruct (print_head j Hj1) as (c & s & Hp & Hc).
      assert (∃ s', items_text (j :: l) +:+ rest = String c s') as [s' Hs'].
      { destruct l; cbn [items_text]; rewrite Hp, !str_app_cons; by eexists. }
      rewrite Hs', json_value_items, <-Hs' by done. rewrite IHi; [done|done|done|].
      rewrite str_length_app in Hl. simpl String.length in Hl at 1. lia.
    + rewrite print_object in *. destruct l as [|[k j] l]; [done|].
      rewrite str_app_assoc, str_app_cons, str_app_nil_l.
      assert (∃ s', fields_text ((k, j) :: l) +:+ rest = String DQ s') as [s' Hs'].
      { destruct l; cbn [fields_text]; unfold dquoted; rewrite !str_app_assoc, str_app_cons; by eexists. }
      change (json_value (S fuel) (String "{" (fields_text ((k, j) :: l) +:+ rest)) = Some (JObject ((k, j) :: l), rest)).
      rewrite Hs'. cbn [json_value DQ]. rewrite <-Hs'. rewrite IHf; [done|done|done|].
      rewrite str_length_app in Hl. simpl String.length in Hl at 1. lia.
  - intros [|[k j] l] rest Hne Hp Hl; [done|]. cbn [forallb fst snd] in Hp.
    apply andb_true_iff in Hp as [[Hk Hj]%andb_true_iff Hp].
    assert (∃ more, fields_text ((k, j) :: l) = dquoted k +:+ ":" +:+ json_print j +:+ more ∧
      (l = [] ∧ more = "}" ∨ l ≠ [] ∧ more = "," +:+ fields_text l)) as (more & E & Hm).
    { destruct l; eexists; split; [reflexivity|by left|reflexivity|by right]. }
    rewrite E in Hl |- *. unfold dquoted in *. rewrite !str_length_app in Hl. simpl String.length in Hl.
    repeat (progress rewrite ?str_app_assoc, ?str_app_cons, ?str_app_nil_l).
    cbn [json_fields expect].
    change (Ascii.eqb DQ DQ) with true. cbn [mbind option_bind].
        rewrite take_quoted_app by done. cbn [mbind option_bind expect].
    change (Ascii.eqb ":" ":") with true. cbn [mbind option_bind].
    rewrite IHv by (done || lia). cbn [mbind option_bind].
    destruct Hm as [[-> ->]|[Hl' ->]]; repeat (progress rewrite ?str_app_assoc, ?str_app_cons, ?str_app_nil_l); [done|].
    rewrite IHf; [done|done|done|]. rewrite !str_length_app in Hl. simpl String.length in Hl. lia.
  - intros [|j l] rest Hne Hp Hl; [done|]. cbn [forallb] in Hp. apply andb_true_iff in Hp as [Hj Hp].
    assert (∃ more, items_text (j :: l) = json_print j +:+ more ∧
      (l = [] ∧ more = "]" ∨ l ≠ [] ∧ more = "," +:+ items_text l)) as (more & E & Hm).
    { destruct l; eexists; split; [reflexivity|by left|reflexivity|by right]. }
    rewrite E in Hl |- *. rewrite !str_length_app in Hl. rewrite str_app_assoc. cbn [json_items].
    rewrite IHv; [|done|]. 
    2:{ destruct Hm as [[-> ->]|[? ->]]; rewrite ?str_length_app in Hl; simpl in Hl; lia. }
    cbn [mbind option_bind].
    destruct Hm as [[-> ->]|[Hl' ->]]; rewrite ?str_app_cons, ?str_app_nil_l; [done|].
    rewrite IHi; [done|done|done|]. rewrite !str_length_app in Hl. simpl String.length in Hl. lia.
Qed.

Lemma json_text_print j : json_plain j = true → json_text (json_print j) = Some j.
Proof.
  intros Hj. unfold json_text. rewrite <-(str_app_nil_r (json_print j)).
  rewrite (proj1 (json_read _) j "" Hj) by (rewrite str_app_nil_r; lia). done.
Qed.

#[export] Instance ref_CJSONNumber : CJSONNumber := {
  cJSON_Number := JNumber;
  cJSON_numbervalue j := match j with JNumber n => Some n | _ => None end
}.

#[export] Program Instance ref_CJSONTextLaws : CJSONTextLaws := {
  json_safe s := quote_free s = true;
  json_readable j := json_plain j = true
}.
Next Obligation.
  intros j Hj. cbn in *. rewrite <-list_fmap_compose.
  rewrite (list_fmap_ext _ id) by (intros; apply chr_ord). rewrite list_fmap_id.
  rewrite string_of_list_of_string. by apply json_text_print.
Qed.
Next Obligation. done. Qed.
Next Obligation.
  intros [] k v Ho Hobj Hk Hv; try done. cbn in *. rewrite forallb_app, Ho. cbn [forallb fst snd]. by rewrite Hk, Hv.
Qed.
Next Obligation. done. Qed.
Next Obligation. intros n Hn. cbn. lia. Qed.
Next Obligation.
  intros s. induction s as [|c s IH]; [done|]. cbn [str_forall]. intros [Hc Hs]%andb_true_iff.
  change (negb (Ascii.eqb c DQ) && quote_free s = true). rewrite IH by done.
  destruct (Ascii.eqb_spec c DQ) as [->|]; [by cbn in Hc|done].
Qed.
Next Obligation. done. Qed.
Next Obligation. done. Qed.

(** ** Decimal texts read back *)

Fixpoint decimal_value (s : string) (v : Z) : Z :=
  match s with EmptyString => v | String c s' => decimal_value s' (v * 10 + (ord c - 48)) end.

Lemma decimal_value_go n s :
  decimal_value (pretty_N_go n s) 0 = decimal_value s (Z.of_N n).
Proof.
  revert s. induction (N.lt_wf_0 n) as [n _ IH]; intros s.
  destruct (decide (n = 0)%N) as [->|Hn]; [by rewrite pretty_N_go_0|].
  rewrite pretty_N_go_step by lia. rewrite IH by (apply N.div_lt; lia). cbn [decimal_value].
  rewrite pretty_N_char_digit by (by apply N.mod_lt). unfold digit.
  pose proof (N.mod_lt n 10 ltac:(done)). rewrite ord_chr by (zify; lia_div).
  f_equal. zify. lia_div.
Qed.

Lemma decimal_value_pretty n : 0 < n → decimal_value (pretty n) 0 = n.
Proof. intros Hn. rewrite pretty_Z_pos, decimal_value_go by done. cbn. lia. Qed.

(** ** A server that is its keys *)

Definition alive (now : Z) (v : rvalue) : bool :=
  match v with RText _ (Some d) => now <=? d | _ => true end.

Definition alive_keys (ks : keyspace) (now : Z) : keyspace := filter (λ p, alive now p.2 = true) ks.

Definition read_command (words : list string) : option rcommand :=
  match words with
  | [c; k] =>
      if String.eqb c "GET" then Some (CGet k)
      else if String.eqb c "DEL" then Some (CDel k)
      else if String.eqb c "SMEMBERS" then Some (CSMembers k) else None
  | [c; k; v] =>
      if String.eqb c "SET" then Some (CSet k v)
      else if String.eqb c "SADD" then Some (CSAdd k v)
      else if String.eqb c "SREM" then Some (CSRem k v) else None
  | [_; k; v; _; ttl] => Some (CSetEx k v (decimal_value ttl 0))
  | _ => None
  end.

Definition reply (type : Z) : redisReply := Reply type "" [].

Definition run_command (now : Z) (c : rcommand) (ks : keyspace) : redisReply * keyspace :=
  match c with
  | CSet k v => (reply REDIS_REPLY_STATUS, <[k := RText v None]> ks)
  | CSetEx k v ttl =>
      if 0 <? ttl then (reply REDIS_REPLY_STATUS, <[k := RText v (Some (now + ttl))]> ks)
      else (reply REDIS_REPLY_ERROR, ks)
  | CGet k =>
      (match ks !! k with
       | None => reply REDIS_REPLY_NIL
       | Some (RText v _) => Reply REDIS_REPLY_STRING v []
       | Some (RSet _) => reply REDIS_REPLY_ERROR
       end, ks)
  | CDel k => (reply REDIS_REPLY_INTEGER, delete k ks)
  | CSAdd k m =>
      match set_at ks k with
      | Some X => (reply REDIS_REPLY_INTEGER, put_set k ({[m]} ∪ X) ks)
      | None => (reply REDIS_REPLY_ERROR, ks)
      end
  | CSRem k m =>
      match set_at ks k with
      | Some X => (reply REDIS_REPLY_INTEGER, put_set k (X ∖ {[m]}) ks)
      | None => (reply REDIS_REPLY_ERROR, ks)
      end
  | CSMembers k =>
      (match set_at ks k with
       | Some X =>
           Reply REDIS_REPLY_ARRAY "" ((λ m, Reply REDIS_REPLY_STRING m []) <$> elements X)
       | None => reply REDIS_REPLY_ERROR
       end, ks)
  end.

#[export] Instance ref_Hiredis : Hiredis := {
  redisContext := keyspace;
  redis_connect _ _ := (∅, false);
  redis_command ks now words :=
    match read_command words with
    | Some c => let '(r, ks) := run_command now c (alive_keys ks now) in (Some r, ks)
    | None => (Some (reply REDIS_REPLY_ERROR), ks)
    end
}.

Lemma run_command_spec now c ks :
  command_meaning now c ks (run_command now c ks).1 (run_command now c ks).2.
Proof.
  destruct c as [k v|k v ttl|k|k|k m|k m|k]; cbn; try done.
  - intros Ht%Z.ltb_lt. by rewrite Ht.
  - split; [done|]. by destruct (ks !! k) as [[]|].
  - by destruct (set_at ks k).
  - by destruct (set_at ks k).
  - split; [done|]. destruct (set_at ks k) as [X|]; [|done]. split; [done|]. by exists (elements X).
Qed.

Definition all_alive (now : Z) (ks : keyspace) : Prop := map_Forall (λ _ v, alive now v = true) ks.

Lemma alive_keys_alive ks now : all_alive now (alive_keys ks now).
Proof. intros k v [_ Hv]%map_lookup_filter_Some. exact Hv. Qed.

Lemma alive_keys_id ks now : all_alive now ks → alive_keys ks now = ks.
Proof. intros Hk. apply map_filter_id. apply Hk. Qed.

Lemma put_set_alive now k X ks : all_alive now ks → all_alive now (put_set k X ks).
Proof.
  intros Hk. unfold put_set. case_decide; [by apply map_Forall_delete|by apply map_Forall_insert_2].
Qed.

Lemma run_command_alive now c ks : all_alive now ks → all_alive now (run_command now c ks).2.
Proof.
  intros Hk. destruct c as [k v|k v ttl|k|k|k m|k m|k]; cbn; try done.
  - by apply map_Forall_insert_2.
  - destruct (Z.ltb_spec 0 ttl); cbn; [|done]. apply map_Forall_insert_2; [|done]. cbn.
    apply Z.leb_le. lia.
  - by apply map_Forall_delete.
  - destruct (set_at ks k); cbn; [by apply put_set_alive|done].
  - destruct (set_at ks k); cbn; [by apply put_set_alive|done].
Qed.

Lemma read_command_words c :
  (∀ k v ttl, c = CSetEx k v ttl → 0 < ttl) → read_command (command_words c) = Some c.
Proof.
  intros Hc. destruct c as [k v|k v ttl|k|k|k m|k m|k]; cbn; try done.
  by rewrite decimal_value_pretty by (by eapply Hc).
Qed.

#[export] Program Instance ref_RedisLaws : RedisLaws := {
  redis_ready _ := True;
  redis_keys := alive_keys
}.
Next Obligation.
  intros ks now c _.
  assert (∃ c', read_command (command_words c) = Some c' ∧
    (c' = c ∨ ∃ k v ttl, c = CSetEx k v ttl ∧ ttl ≤ 0)) as (c' & Hc' & Hcase).
  { destruct c as [k v|k v ttl|k|k|k m|k m|k]; try (eexists; split; [done|by left]).
    destruct (Z.lt_ge_cases 0 ttl).
    - exists (CSetEx k v ttl). split; [|by left]. apply read_command_words. by intros ??? [= -> -> ->].
    - eexists. split; [done|]. right. eauto. }
  pose proof (run_command_spec now c' (alive_keys ks now)) as Hm.
  pose proof (run_command_alive now c' _ (alive_keys_alive ks now)) as Ha.
  cbn -[command_words read_command run_command]. rewrite Hc'.
  destruct (run_command now c' (alive_keys ks now)) as [r ks'] eqn:E. cbn [fst snd] in *.
  exists r, ks'. split; [done|]. split; [done|]. rewrite (alive_keys_id ks') by done.
  destruct Hcase as [->|(k & v & ttl & -> & ?)]; [done|]. cbn. lia.
Qed.
Next Obligation.
  intros ks t t' Ht. apply map_subseteq_spec. intros k v [Hk Hv]%map_lookup_filter_Some.
  apply map_lookup_filter_Some. split; [done|]. destruct v as [text [d|]|]; cbn in *; [|done..].
  apply Z.leb_le in Hv. apply Z.leb_le. lia.
Qed.
Next Obligation. intros ks t k v d [_ Hv]%map_lookup_filter_Some. by apply Z.leb_le. Qed.
Next Obligation.
  intros ks t t' k v [Hk Hv]%map_lookup_filter_Some Ht Hd. apply map_lookup_filter_Some.
  split; [done|]. destruct v as [text [d|]|]; cbn; [|done..]. apply Z.leb_le.
  specialize (Hd text d eq_refl). lia.
Qed.
