(* ===== verification/RedisProps.v ===== *)
(** The theorems about the Redis store: the round trip of a session through
    its text, the calls against a map of sessions with an index of users, how
    long a session stays, and where the store departs from its contract. *)

From S2P Require Export RefRedis.
From stdpp Require Import pretty options.
#[local] Open Scope Z_scope.
#[local] Set Default Proof Using "Type*".

(** ** The abstract calls *)

Section spec.
Context `{CJSON, !CJSONNumber, !CJSONTextLaws}.
Abbreviation index := (string → gset string).

(** A session is handed over before its last second. *)
Definition lasting (now : Z) (s : OpenDBSC_Session) : Prop :=
  s_has_expires s = true → now < s_expires_at s.

Definition op_redis_ok (now : Z) (op : store_op) : Prop :=
  match op with
  | OpCreate (Some s) | OpUpdate (Some s) => s_id s ≠ None → redis_storable s ∧ lasting now s
  | _ => True
  end.

(** [create] overwrites, [update] does not take an identifier out of the set of
    another user, and what [get_by_user_id] returns is what the set of the
    user names. *)
Definition redis_spec (op : store_op) (m : view) (x : index) (r : store_reply)
    (m' : view) (x' : index) : Prop :=
  let stored s id := r = RCode 0 ∧ m' = <[id := s]> m ∧
    ∃ u, s_user_id s = Some u ∧ x' = index_add u id x in
  let refused := r = RCode (-1) ∧ m' = m ∧ x' = x in
  match op with
  | OpCreate (Some s) => match s_id s with Some id => stored s id | None => refused end
  | OpUpdate (Some s) =>
      match s_id s with
      | Some id => if decide (m !! id = None) then refused else stored s id
      | None => refused
      end
  | OpGet (Some id) (Some _) =>
      r = match m !! id with Some s => RSession 0 (Some (Some s)) | None => RSession (-1) (Some None) end ∧
      m' = m ∧ x' = x
  | OpDelete (Some id) =>
      r = RCode 0 ∧ m' = delete id m ∧
      x' = match m !! id ≫= s_user_id with Some u => index_remove u id x | None => x end
  | OpGetByUser (Some u) (Some _) (Some _) =>
      m' = m ∧ x' = x ∧
      ∃ l ids, r = RSessions 0 (Some l) (Some (length l)) ∧ ids ≡ₚ elements (x u) ∧
        l = omap (λ id, m !! id) ids
  | OpDeleteByUser (Some u) =>
      r = RCode 0 ∧ m' = filter (λ p, p.1 ∉ x u) m ∧
      ∀ v id, id ∈ x' v ↔ v ≠ u ∧ id ∈ x v ∧ ¬ (id ∈ x u ∧ m !! id ≫= s_user_id = Some v)
  | OpGet _ out => r = RSession (-1) out ∧ m' = m ∧ x' = x
  | OpGetByUser _ out n => r = RSessions (-1) out n ∧ m' = m ∧ x' = x
  | OpCreate None | OpUpdate None | OpDelete None | OpDeleteByUser None => refused
  end.

End spec.

(** ** The calls when nothing fails *)

Section runs.
Context `{CJSON, !CJSONNumber, !CJSONLaws, !CJSONTextLaws, Hiredis, !RedisLaws}.
Implicit Types (rctx : OpenDBSC_RedisCtx) (m : view) (x : string → gset string).

(** The keys of the server hold the sessions [m] and the index [x]. *)
Definition redis_holds rctx (now : Z) m x : Prop :=
  redis_ready (rc_ctx rctx) ∧ keys_hold (rc_prefix rctx) (redis_keys (rc_ctx rctx) now) m x.

Lemma format_key_run text w : no_oom w → format_key text w = Ret (Some text) w.
Proof.
  intros Hw. unfold format_key. run_by ltac:(by apply malloc_buf_run).
  unfold sprintf. cbn [b_text default from_option b_size]. rewrite str_app_nil_l.
  rewrite bind_unfold, decide_True by done. done.
Qed.

Lemma session_key_run rctx id w :
  no_oom w → redis_session_key rctx (Some id) w = Ret (Some (session_key (rc_prefix rctx) id)) w.
Proof. intros Hw. unfold redis_session_key. run_by ltac:(reflexivity). by apply format_key_run. Qed.
Lemma user_key_run rctx u w :
  no_oom w → redis_user_key rctx (Some u) w = Ret (Some (user_key (rc_prefix rctx) u)) w.
Proof. intros Hw. unfold redis_user_key. run_by ltac:(reflexivity). by apply format_key_run. Qed.

Lemma command_run rctx c w :
  no_oom w → redis_ready (rc_ctx rctx) →
  ∃ r rctx', redisCommand rctx (command_words c) w = Ret (Some r, rctx') w ∧
    redis_ready (rc_ctx rctx') ∧ rc_prefix rctx' = rc_prefix rctx ∧
    command_meaning (w_now w) c (redis_keys (rc_ctx rctx) (w_now w)) r
      (redis_keys (rc_ctx rctx') (w_now w)).
Proof.
  intros Hw Hr. destruct (redis_executes (rc_ctx rctx) (w_now w) c Hr) as (r & ctx' & Hc & Hr' & Hm).
  exists r, (RedisCtx ctx' (rc_prefix rctx)). split; [|done]. unfold redisCommand.
  run_by ltac:(by apply malloc_run). cbn [negb]. by rewrite Hc.
Qed.

Lemma held_live rctx now m x id s :
  redis_holds rctx now m x → m !! id = Some s → expired now s = false.
Proof.
  intros [_ [Ht _ _]] Hs. specialize (Ht id). rewrite Hs in Ht. cbn in Ht. unfold deadline, expired in *.
  destruct (s_has_expires s); [|done]. apply redis_expires in Ht. cbn. by apply Z.ltb_ge.
Qed.

Lemma redis_is_expired_run s w : quiet w → is_expired (Some s) w = Ret (expired (w_now w) s) w.
Proof.
  intros Hw. unfold is_expired, expired. destruct (s_has_expires s); [|done]. cbn [negb andb].
  by run_by ltac:(by apply time_run).
Qed.

(** Reading the text of a session gives it back. *)
Lemma session_text_run s s0 w :
  no_oom w → redis_storable s → session_from_json (document_text s) s0 w = Ret (0, s) w.
Proof.
  intros Hw Hs. pose proof (document_roundtrip s (rs_storable s Hs)) as Hrt.
  pose proof (rs_storable s Hs) as [_ _ Hc He].
  rewrite (session_from_json_run _ (document s) s0 w Hw (document_read s Hs)).
  - rewrite Hrt; [done|]. apply Hs.
  - destruct (s_has_expires s) eqn:E.
    + rewrite (document_time_member s "expires_at" (s_expires_at s)); [unfold time_ok in *; cbn; lia| |by apply He].
      rewrite document_member. unfold members_of. rewrite E. cbn.
      by destruct (s_id s), (s_user_id s), (s_public_key s), (s_algorithm s), (s_challenge s).
    + assert (time_member (document s) "expires_at" = None) as ->; [|done].
      unfold time_member. rewrite document_member. unfold members_of. rewrite E. cbn.
      by destruct (s_id s), (s_user_id s), (s_public_key s), (s_algorithm s), (s_challenge s).
  - rewrite (document_time_member s "created_at" (s_created_at s)); [unfold time_ok in *; cbn; lia| |done].
    rewrite document_member. unfold members_of. cbn.
    by destruct (s_id s), (s_user_id s), (s_public_key s), (s_algorithm s), (s_challenge s), (s_has_expires s).
Qed.

Lemma redis_get_run d rctx id o m x w :
  quiet w → redis_holds rctx (w_now w) m x →
  ∃ rctx', redis_holds rctx' (w_now w) m x ∧
    redis_get (S d) rctx (Some id) (Some o) w =
      Ret (match m !! id with Some s => (0, Some (Some s)) | None => (-1, Some None) end, rctx') w.
Proof.
  intros Hw Hh. pose proof Hh as [Hr Hk]. pose proof (quiet_no_oom _ Hw) as Hno.
  destruct (command_run rctx (CGet (session_key (rc_prefix rctx) id)) w Hno Hr)
    as (r & rctx' & Hrun & Hr' & Hp & Hks & Hm).
  exists rctx'. split; [split; [done|by rewrite Hp, Hks]|]. cbn [redis_get].
  run_by ltac:(by apply session_key_run). run_by ltac:(exact Hrun). destruct r as [type text l]. cbn [type_of text_of] in Hm.
  rewrite (kh_text _ _ _ _ Hk) in Hm. destruct (m !! id) as [s|] eqn:Hs; cbn in Hm.
  - destruct Hm as [-> ->]. eval_tests. step_by ltac:(by apply malloc_run). run_by ltac:(reflexivity).
    step_by ltac:(apply session_text_run; [done|by apply (kh_session _ _ _ _ Hk id)]).
    run_by ltac:(by apply redis_is_expired_run). by rewrite (held_live rctx (w_now w) m x id s).
  - by subst type.
Qed.

(** A command whose effect on the keys is [f]. *)
Lemma command_holds rctx c w m x m' x' :
  no_oom w → redis_holds rctx (w_now w) m x →
  (∀ r ks', command_meaning (w_now w) c (redis_keys (rc_ctx rctx) (w_now w)) r ks' →
     keys_hold (rc_prefix rctx) ks' m' x') →
  ∃ r rctx', redisCommand rctx (command_words c) w = Ret (Some r, rctx') w ∧
    redis_holds rctx' (w_now w) m' x' ∧ rc_prefix rctx' = rc_prefix rctx ∧
    ∃ ks', command_meaning (w_now w) c (redis_keys (rc_ctx rctx) (w_now w)) r ks'.
Proof.
  intros Hw [Hr Hk] Hf. destruct (command_run rctx c w Hw Hr) as (r & rctx' & Hrun & Hr' & Hp & Hm).
  exists r, rctx'. split; [done|]. split; [|eauto]. split; [done|]. rewrite Hp. by eapply Hf.
Qed.

Lemma del_run rctx id w m x :
  no_oom w → redis_holds rctx (w_now w) m x →
  ∃ r rctx', redisCommand rctx ["DEL"; session_key (rc_prefix rctx) id] w = Ret (Some r, rctx') w ∧
    redis_holds rctx' (w_now w) (delete id m) x ∧ rc_prefix rctx' = rc_prefix rctx.
Proof.
  intros Hw Hh. destruct (command_holds rctx (CDel (session_key (rc_prefix rctx) id)) w m x (delete id m) x)
    as (r & rctx' & ? & ? & ? & _); [done..| |by eauto].
  intros r ks' [_ ->]. by apply keys_hold_delete, Hh.
Qed.

Lemma srem_run rctx u id w m x :
  no_oom w → redis_holds rctx (w_now w) m x →
  ∃ r rctx', redisCommand rctx ["SREM"; user_key (rc_prefix rctx) u; id] w = Ret (Some r, rctx') w ∧
    redis_holds rctx' (w_now w) m (index_remove u id x).
Proof.
  intros Hw Hh. destruct (command_holds rctx (CSRem (user_key (rc_prefix rctx) u) id) w m x m (index_remove u id x))
    as (r & rctx' & ? & ? & _); [done..| |by eauto].
  intros r ks'. cbn. rewrite (kh_set _ _ _ _ (proj2 Hh)). intros [_ ->]. by apply keys_hold_put, Hh.
Qed.

Lemma sadd_run rctx u id w m x :
  no_oom w → redis_holds rctx (w_now w) m x →
  ∃ r rctx', redisCommand rctx ["SADD"; user_key (rc_prefix rctx) u; id] w = Ret (Some r, rctx') w ∧
    reply_failed (Some r) = false ∧ redis_holds rctx' (w_now w) m (index_add u id x).
Proof.
  intros Hw Hh. destruct (command_holds rctx (CSAdd (user_key (rc_prefix rctx) u) id) w m x m (index_add u id x))
    as (r & rctx' & ? & ? & _ & ks' & Hm); [done..| |].
  - intros r ks'. cbn. rewrite (kh_set _ _ _ _ (proj2 Hh)). intros [_ ->]. by apply keys_hold_put, Hh.
  - exists r, rctx'. split_and!; [done| |done]. cbn in Hm. rewrite (kh_set _ _ _ _ (proj2 Hh)) in Hm.
    destruct r as [type ? ?], Hm as [Hm _]. cbn in *. by subst.
Qed.

Lemma redis_delete_run d rctx id m x w :
  quiet w → redis_holds rctx (w_now w) m x →
  ∃ rctx', redis_delete (S d) rctx (Some id) w = Ret (0, rctx') w ∧
    redis_holds rctx' (w_now w) (delete id m)
      (match m !! id ≫= s_user_id with Some u => index_remove u id x | None => x end).
Proof.
  intros Hw Hh. pose proof (quiet_no_oom _ Hw) as Hno.
  destruct (redis_get_run d rctx id None m x w Hw Hh) as (rctx1 & Hh1 & Hget).
  unfold redis_delete, redis_delete_by. step_by ltac:(exact Hget).
  destruct (del_run rctx1 id w m x Hno Hh1) as (r2 & rctx2 & Hdel & Hh2 & Hp2).
  destruct (m !! id) as [s|] eqn:Hs; cbn [mbind option_bind]; eval_tests.
  - destruct (kh_session _ _ _ _ (proj2 Hh) id s Hs) as [_ [[_ Hu _ _] _ _]].
    destruct (s_user_id s) as [u|] eqn:E; [|done].
    run_by ltac:(run_by ltac:(reflexivity); rewrite E; by apply user_key_run).
    run_by ltac:(by apply session_key_run). run_by ltac:(exact Hdel).
    destruct (srem_run rctx2 u id w (delete id m) x Hno Hh2) as (r3 & rctx3 & Hrem & Hh3).
    rewrite Hp2 in Hrem. exists rctx3. split; [|done]. by run_by ltac:(exact Hrem).
  - run_by ltac:(reflexivity). run_by ltac:(by apply session_key_run). run_by ltac:(exact Hdel).
    by exists rctx2.
Qed.

(** Setting the text of a session, with its last second when it has one. *)
Lemma set_text_run rctx s id w m x :
  quiet w → 0 ≤ w_now w → redis_holds rctx (w_now w) m x → redis_storable s → s_id s = Some id →
  lasting (w_now w) s →
  ∃ r rctx', (if s_has_expires s then
       now ← time_NULL;
       ttl ← in_time_t (s_expires_at s - now);
       let ttl := if ttl <=? 0 then 1 else ttl in
       redisCommand rctx ["SET"; session_key (rc_prefix rctx) id; document_text s; "EX"; pretty ttl]
     else redisCommand rctx ["SET"; session_key (rc_prefix rctx) id; document_text s]) w =
      Ret (Some r, rctx') w ∧ reply_failed (Some r) = false ∧
    redis_holds rctx' (w_now w) (<[id := s]> m) x ∧ rc_prefix rctx' = rc_prefix rctx.
Proof.
  intros Hw Hnow Hh Hs Hid Hlast. pose proof (quiet_no_oom _ Hw) as Hno.
  set (k := session_key (rc_prefix rctx) id). set (v := document_text s).
  set (c := if s_has_expires s then CSetEx k v (s_expires_at s - w_now w) else CSet k v).
  assert (∀ r ks', command_meaning (w_now w) c (redis_keys (rc_ctx rctx) (w_now w)) r ks' →
    type_of r = REDIS_REPLY_STATUS ∧
    ks' = <[k := RText v (deadline s)]> (redis_keys (rc_ctx rctx) (w_now w))) as Hc.
  { intros r ks'. unfold c, lasting, deadline in *. destruct (s_has_expires s); [|done].
    specialize (Hlast eq_refl). intros [Ht ->]; [lia|]. split; [done|]. do 3 f_equal. lia. }
  destruct (command_holds rctx c w m x (<[id := s]> m) x Hno Hh) as (r & rctx' & Hrun & Hh' & Hp & ks' & Hm).
  { intros r ks' [_ ->]%Hc. by apply keys_hold_insert; [apply Hh|..]. }
  exists r, rctx'. split; [|split; [|done]].
  - unfold c in Hrun. unfold lasting in Hlast. destruct (s_has_expires s) eqn:E; [|exact Hrun].
    specialize (Hlast eq_refl). destruct (rs_storable s Hs) as [_ _ _ He]. rewrite E in He.
    unfold time_ok in He. run_by ltac:(by apply time_run). unfold in_time_t.
    rewrite decide_True by lia. run_by ltac:(reflexivity).
    destruct (Z.leb_spec (s_expires_at s - w_now w) 0); [lia|]. exact Hrun.
  - apply Hc in Hm as [Hm _]. destruct r as [type ? ?]. cbn in *. by subst.
Qed.

Lemma redis_create_run rctx s id u w m x :
  quiet w → 0 ≤ w_now w → redis_holds rctx (w_now w) m x → redis_storable s → s_id s = Some id →
  s_user_id s = Some u → lasting (w_now w) s →
  ∃ rctx', redis_create rctx (Some s) w = Ret (0, rctx') w ∧
    redis_holds rctx' (w_now w) (<[id := s]> m) (index_add u id x).
Proof.
  intros Hw Hnow Hh Hs Hid Hu Hlast. pose proof (quiet_no_oom _ Hw) as Hno.
  destruct (set_text_run rctx s id w m x Hw Hnow Hh Hs Hid Hlast) as (r1 & rctx1 & Hset & Hf1 & Hh1 & Hp1).
  destruct (sadd_run rctx1 u id w _ x Hno Hh1) as (r2 & rctx2 & Hadd & Hf2 & Hh2). rewrite Hp1 in Hadd.
  exists rctx2. split; [|done]. unfold redis_create. rewrite Hid, Hu.
  run_by ltac:(by apply session_to_json_run). run_by ltac:(by apply session_key_run).
  run_by ltac:(by apply user_key_run). run_by ltac:(exact Hset). rewrite Hf1.
  run_by ltac:(exact Hadd). by rewrite Hf2.
Qed.

Lemma get_none_run d rctx id out w :
  id = None ∨ out = None → redis_get (S d) rctx id out w = Ret (-1, out, rctx) w.
Proof. intros [->| ->]; [done|]. by destruct id. Qed.

Context `{CallStack}.
Hypothesis Hdepth : (1 ≤ stack_depth)%nat.

Lemma get_run rctx id o m x w :
  quiet w → redis_holds rctx (w_now w) m x →
  ∃ rctx', redis_holds rctx' (w_now w) m x ∧
    redis_get stack_depth rctx (Some id) (Some o) w =
      Ret (match m !! id with Some s => (0, Some (Some s)) | None => (-1, Some None) end, rctx') w.
Proof. destruct stack_depth as [|d]; [lia|]. apply redis_get_run. Qed.

Lemma delete_run rctx id m x w :
  quiet w → redis_holds rctx (w_now w) m x →
  ∃ rctx', redis_delete stack_depth rctx (Some id) w = Ret (0, rctx') w ∧
    redis_holds rctx' (w_now w) (delete id m)
      (match m !! id ≫= s_user_id with Some u => index_remove u id x | None => x end).
Proof. destruct stack_depth as [|d]; [lia|]. apply redis_delete_run. Qed.

Lemma redis_update_run rctx s id u w m x :
  quiet w → 0 ≤ w_now w → redis_holds rctx (w_now w) m x → redis_storable s → s_id s = Some id →
  s_user_id s = Some u → lasting (w_now w) s →
  ∃ rctx', if decide (m !! id = None)
    then redis_update rctx (Some s) w = Ret (-1, rctx') w ∧ redis_holds rctx' (w_now w) m x
    else redis_update rctx (Some s) w = Ret (0, rctx') w ∧
         redis_holds rctx' (w_now w) (<[id := s]> m) (index_add u id x).
Proof.
  intros Hw Hnow Hh Hs Hid Hu Hlast. destruct (get_run rctx id None m x w Hw Hh) as (rctx1 & Hh1 & Hget).
  unfold redis_update. rewrite Hid. destruct (m !! id) as [old|].
  - destruct (redis_create_run rctx1 s id u w m x Hw Hnow Hh1 Hs Hid Hu Hlast) as (rctx2 & Hc & Hh2).
    exists rctx2. rewrite decide_False by done. split; [|done]. by step_by ltac:(exact Hget).
  - exists rctx1. rewrite decide_True by done. split; [|done]. by step_by ltac:(exact Hget).
Qed.

Lemma collect_run l rctx acc m x w :
  quiet w → redis_holds rctx (w_now w) m x →
  ∃ rctx', collect_loop ((λ i, Reply REDIS_REPLY_STRING i []) <$> l) rctx acc w =
      Ret (Some (acc ++ omap (λ i, m !! i) l), rctx') w ∧ redis_holds rctx' (w_now w) m x.
Proof.
  intros Hw. revert rctx acc. induction l as [|i l IH]; intros rctx acc Hh.
  { exists rctx. by rewrite app_nil_r. }
  destruct (get_run rctx i None m x w Hw Hh) as (rctx1 & Hh1 & Hget). rewrite fmap_cons. cbn [collect_loop].
  eval_tests. destruct (m !! i) as [s|] eqn:Hi.
  - destruct (IH rctx1 (acc ++ [s]) Hh1) as (rctx2 & Hc & Hh2). exists rctx2. split; [|done].
    step_by ltac:(exact Hget). run_by ltac:(reflexivity).
    step_by ltac:(by apply malloc_run, quiet_no_oom). rewrite Hc, <-app_assoc. cbn [omap list_omap]. by rewrite Hi.
  - destruct (IH rctx1 acc Hh1) as (rctx2 & Hc & Hh2). exists rctx2. split; [|done].
    step_by ltac:(exact Hget). rewrite Hc. cbn [omap list_omap]. by rewrite Hi.
Qed.

Lemma redis_get_by_user_id_run rctx u o n m x w :
  quiet w → redis_holds rctx (w_now w) m x →
  ∃ rctx' ids, ids ≡ₚ elements (x u) ∧ redis_holds rctx' (w_now w) m x ∧
    redis_get_by_user_id rctx (Some u) (Some o) (Some n) w =
      Ret (0, Some (omap (λ i, m !! i) ids), Some (length (omap (λ i, m !! i) ids)), rctx') w.
Proof.
  intros Hw Hh. pose proof (quiet_no_oom _ Hw) as Hno.
  destruct (command_holds rctx (CSMembers (user_key (rc_prefix rctx) u)) w m x m x Hno Hh)
    as (r & rctx1 & Hrun & Hh1 & _ & ks' & Hm); [by intros r ks' [-> _]; apply Hh|].
  cbn in Hm. rewrite (kh_set _ _ _ _ (proj2 Hh)) in Hm. destruct Hm as (_ & Ht & ids & Hids & Hl).
  destruct (collect_run ids rctx1 [] m x w Hw Hh1) as (rctx2 & Hc & Hh2).
  exists rctx2, ids. split; [done|]. split; [done|]. unfold redis_get_by_user_id.
  run_by ltac:(by apply user_key_run). run_by ltac:(exact Hrun).
  destruct r as [type text l]. cbn in Ht, Hl. subst type l. eval_tests. by run_by ltac:(exact Hc).
Qed.

(** Deleting listed sessions that are there. *)
Lemma delete_loop_run l rctx m x w :
  quiet w → redis_holds rctx (w_now w) m x → NoDup (s_id <$> l) →
  Forall (λ s, ∃ id, s_id s = Some id ∧ m !! id = Some s) l →
  ∃ rctx' m' x', delete_loop l rctx w = Ret rctx' w ∧ redis_holds rctx' (w_now w) m' x' ∧
    (∀ id, m' !! id = if decide (Some id ∈ s_id <$> l) then None else m !! id) ∧
    (∀ v id, id ∈ x' v ↔ id ∈ x v ∧ ¬ (Some id ∈ s_id <$> l ∧ m !! id ≫= s_user_id = Some v)).
Proof.
  intros Hw. revert rctx m x. induction l as [|s l IH]; intros rctx m x Hh Hnd Hall.
  { exists rctx, m, x. split_and!; [done|done|..].
    - intros id. by rewrite decide_False by apply not_elem_of_nil.
    - intros v id. split; [intros ?; split; [done|intros [[]%not_elem_of_nil _]]|by intros []]. }
  rewrite fmap_cons in Hnd. apply NoDup_cons in Hnd as [Hni Hnd].
  apply Forall_cons in Hall as [(i & Hid & Hi) Hall].
  destruct (delete_run rctx i m x w Hw Hh) as (rctx1 & Hdel & Hh1).
  rewrite Hi in Hh1. cbn [mbind option_bind] in Hh1.
  destruct (IH rctx1 _ _ Hh1 Hnd) as (rctx2 & m2 & x2 & Hloop & Hh2 & Hm2 & Hx2).
  { apply Forall_forall. intros s' Hs'. rewrite Forall_forall in Hall.
    destruct (Hall s' Hs') as (i' & Hid' & Hi'). exists i'. split; [done|].
    rewrite lookup_delete_ne; [done|]. intros ->. apply Hni. rewrite Hid, <-Hid'.
    by apply list_elem_of_fmap_2. }
  exists rctx2, m2, x2. split; [|split; [done|split]].
  - cbn [delete_loop]. rewrite Hid. run_by ltac:(exact Hdel). exact Hloop.
  - intros id. rewrite Hm2, fmap_cons, Hid. destruct (decide (id = i)) as [->|Hne].
    + rewrite lookup_delete_eq, (decide_True (P := Some i ∈ Some i :: _)) by (by left). by case_decide.
    + rewrite lookup_delete_ne by done. apply decide_ext. rewrite elem_of_cons. intuition congruence.
  - intros v id. rewrite Hx2, fmap_cons, Hid, elem_of_cons. clear Hx2 Hm2 Hloop Hh2 IH.
    destruct (decide (id = i)) as [->|Hne].
    + rewrite lookup_delete_eq, Hi. cbn [mbind option_bind].
      destruct (s_user_id s) as [u|]; [rewrite elem_of_index_remove|].
      * split; [intros [[? Hn] _]; split; [done|intros [_ [= ->]]; auto]|].
        intros [? Hn]. split; [split; [done|intros [-> _]; apply Hn; auto]|by intros [_ ?]].
      * split; [intros [? _]|intros [? _]]; (split; [done|by intros [_ ?]]).
    + rewrite lookup_delete_ne by done. assert (Some id ≠ Some i) by congruence.
      destruct (s_user_id s) as [u|]; [rewrite elem_of_index_remove|]; tauto.
Qed.

Lemma del_set_run rctx u w m x :
  no_oom w → redis_holds rctx (w_now w) m x →
  ∃ r rctx', redisCommand rctx ["DEL"; user_key (rc_prefix rctx) u] w = Ret (Some r, rctx') w ∧
    redis_holds rctx' (w_now w) m (index_set u ∅ x).
Proof.
  intros Hw Hh. destruct (command_holds rctx (CDel (user_key (rc_prefix rctx) u)) w m x m (index_set u ∅ x))
    as (r & rctx' & ? & ? & _); [done..| |by eauto].
  intros r ks' [_ ->]. by apply keys_hold_del_set, Hh.
Qed.

(** The sessions that the set of a user names are there, each once. *)
Lemma named_sessions (x : string → gset string) u ids rctx now m :
  redis_holds rctx now m x → ids ≡ₚ elements (x u) →
  NoDup (s_id <$> omap (λ i, m !! i) ids) ∧
  Forall (λ s, ∃ id, s_id s = Some id ∧ m !! id = Some s) (omap (λ i, m !! i) ids) ∧
  ∀ id, Some id ∈ s_id <$> omap (λ i, m !! i) ids ↔ id ∈ x u ∧ is_Some (m !! id).
Proof.
  intros [_ [_ _ Hs]] Hids.
  assert (NoDup ids) as Hnd by (rewrite Hids; apply NoDup_elements).
  assert (∀ id, Some id ∈ s_id <$> omap (λ i, m !! i) ids ↔ id ∈ ids ∧ is_Some (m !! id)) as Hin.
  { intros id. rewrite list_elem_of_fmap. split.
    - intros (s & Hid & (i & Hi & Hm)%list_elem_of_omap). destruct (Hs i s Hm) as [Hid' _].
      rewrite Hid' in Hid. simplify_eq. eauto.
    - intros [Hi [s Hm]]. exists s. split; [by destruct (Hs id s Hm) as [-> _]|].
      apply list_elem_of_omap. eauto. }
  split_and!.
  - clear Hids Hin. induction ids as [|i ids IH]; [constructor|]. apply NoDup_cons in Hnd as [Hi Hnd].
    cbn [omap list_omap]. destruct (m !! i) as [s|] eqn:Hm; [|by apply IH]. rewrite fmap_cons.
    apply NoDup_cons. split; [|by apply IH]. destruct (Hs i s Hm) as [-> _].
    intros (s' & Hid' & (j & Hj & Hm')%list_elem_of_omap)%list_elem_of_fmap.
    destruct (Hs j s' Hm') as [Hid _]. rewrite Hid in Hid'. by simplify_eq.
  - apply Forall_forall. intros s (i & Hi & Hm)%list_elem_of_omap. exists i. split; [|done].
    by apply (Hs i s Hm).
  - intros id. rewrite Hin, Hids. by rewrite elem_of_elements.
Qed.

Lemma redis_delete_by_user_id_run rctx u m x w :
  quiet w → redis_holds rctx (w_now w) m x →
  ∃ rctx' x', redis_delete_by_user_id rctx (Some u) w = Ret (0, rctx') w ∧
    redis_holds rctx' (w_now w) (filter (λ p, p.1 ∉ x u) m) x' ∧
    ∀ v id, id ∈ x' v ↔ v ≠ u ∧ id ∈ x v ∧ ¬ (id ∈ x u ∧ m !! id ≫= s_user_id = Some v).
Proof.
  intros Hw Hh. pose proof (quiet_no_oom _ Hw) as Hno.
  destruct (redis_get_by_user_id_run rctx u [] 0 m x w Hw Hh) as (rctx1 & ids & Hids & Hh1 & Hget).
  destruct (named_sessions x u ids rctx (w_now w) m Hh Hids) as (Hnd & Hall & Hin).
  destruct (delete_loop_run _ rctx1 m x w Hw Hh1 Hnd Hall) as (rctx2 & m2 & x2 & Hloop & Hh2 & Hm2 & Hx2).
  destruct (del_set_run rctx2 u w m2 x2 Hno Hh2) as (r3 & rctx3 & Hdel & Hh3).
  assert (m2 = filter (λ p, p.1 ∉ x u) m) as ->.
  { apply map_eq. intros i. rewrite Hm2. apply option_eq. intros s.
    rewrite map_lookup_filter_Some. cbn [fst]. case_decide as Hi; rewrite Hin in Hi.
    - split; [done|]. intros [_ Hn]. destruct Hn. apply Hi.
    - split; [|by intros []]. intros Hs. split; [done|]. intros ?. apply Hi. by eauto. }
  exists rctx3, (index_set u ∅ x2). split; [|split; [done|]].
  - unfold redis_delete_by_user_id. step_by ltac:(exact Hget). run_by ltac:(reflexivity).
    run_by ltac:(exact Hloop). run_by ltac:(by apply user_key_run). by run_by ltac:(exact Hdel).
  - intros v id. unfold index_set. case_decide as Hv.
    + subst v. split; [by intros ?%elem_of_empty|by intros [[] _]].
    + rewrite Hx2, Hin. split.
      * intros [? Hn]. split_and!; [done..|]. intros [? Hu]. apply Hn. split_and!; [done| |done].
        destruct (m !! id); [eauto|done].
      * intros (_ & ? & Hn). split; [done|]. intros [[? _] ?]. by apply Hn.
Qed.

Lemma redis_exec_op op rctx m x w :
  quiet w → 0 ≤ w_now w → redis_holds rctx (w_now w) m x → op_redis_ok (w_now w) op →
  ∃ r rctx' m' x', exec_op op rctx w = Ret (r, rctx') w ∧ redis_holds rctx' (w_now w) m' x' ∧
    redis_spec op m x r m' x'.
Proof.
  intros Hw Hnow Hh Hop.
  destruct op as [[s|]|[id|] [o|]|[s|]|[id|]|[u|] [o|] [n|]|[u|]]; cbn [redis_spec op_redis_ok] in *;
    try (destruct stack_depth as [|d] eqn:Hd; [lia|];
         eexists _, rctx, m, x; (split; [cbn [exec_op st_get st_delete redis_Store]; rewrite ?Hd;
           run_by ltac:(reflexivity); reflexivity|by split_and!])).
  - destruct (s_id s) as [id|] eqn:Hid.
    + destruct (Hop ltac:(done)) as [Hs Hl]. destruct (s_user_id s) as [u|] eqn:Hu.
      2: { by destruct (storable_user s (rs_storable s Hs)). }
      destruct (redis_create_run rctx s id u w m x) as (rctx' & Hrun & Hh'); [done..|].
      do 4 eexists. split; [cbn [exec_op]; by run_by ltac:(exact Hrun)|]. split; [done|]. by eauto.
    + do 4 eexists. split; [cbn [exec_op st_create redis_Store]; unfold redis_create; by rewrite Hid|done].
  - destruct (get_run rctx id o m x w Hw Hh) as (rctx' & Hh' & Hrun).
    destruct (m !! id) as [s|];
      (do 4 eexists; split; [cbn [exec_op]; by run_by ltac:(exact Hrun)|done]).
  - destruct (s_id s) as [id|] eqn:Hid.
    + destruct (Hop ltac:(done)) as [Hs Hl]. destruct (s_user_id s) as [u|] eqn:Hu.
      2: { by destruct (storable_user s (rs_storable s Hs)). }
      destruct (redis_update_run rctx s id u w m x) as (rctx' & Hrun); [done..|].
      case_decide; destruct Hrun as [Hrun Hh'];
        (do 4 eexists; split; [cbn [exec_op]; by run_by ltac:(exact Hrun)|]); by eauto 10.
    + do 4 eexists. split; [cbn [exec_op st_update redis_Store]; unfold redis_update; by rewrite Hid|done].
  - destruct (delete_run rctx id m x w Hw Hh) as (rctx' & Hrun & Hh').
    do 4 eexists. split; [cbn [exec_op]; by run_by ltac:(exact Hrun)|done].
  - destruct (redis_get_by_user_id_run rctx u o n m x w Hw Hh) as (rctx' & ids & Hids & Hh' & Hrun).
    do 4 eexists. split; [cbn [exec_op]; by run_by ltac:(exact Hrun)|]. split; [done|]. by eauto 10.
  - destruct (redis_delete_by_user_id_run rctx u m x w Hw Hh) as (rctx' & x' & Hrun & Hh' & Hx').
    do 4 eexists. split; [cbn [exec_op]; by run_by ltac:(exact Hrun)|done].
Qed.

End runs.

(** ** The index of users *)

Section index.
Abbreviation index := (string → gset string).
Implicit Types (m : view) (x : index).

(** Every session is in the set of its user, and a set names no session of
    another user. *)
Record index_exact m x : Prop := {
  ix_listed id s u : m !! id = Some s → s_user_id s = Some u → id ∈ x u;
  ix_owned id s u : id ∈ x u → m !! id = Some s → s_user_id s = Some u
}.

(** A session that is handed over belongs to the user of its identifier. *)
Definition keeps_user (op : store_op) x : Prop :=
  match op with
  | OpCreate (Some s) | OpUpdate (Some s) =>
      ∀ id v, s_id s = Some id → id ∈ x v → s_user_id s = Some v
  | _ => True
  end.

(** With an exact index, the sessions that a user's set does not name are
    those of the others. *)
Lemma unlisted_sessions m x u :
  index_exact m x →
  filter (λ p, p.1 ∉ x u) m = filter (λ '(_, s), s_user_id s ≠ Some u) m.
Proof.
  intros [Hl Ho]. apply map_filter_ext. intros i s Hs. cbn. split.
  - intros Hn Hu. by apply Hn, (Hl i s u).
  - intros Hu Hi. by apply Hu, (Ho i s u).
Qed.

Lemma index_exact_store m x s id u :
  index_exact m x → s_user_id s = Some u → (∀ v, id ∈ x v → s_user_id s = Some v) →
  index_exact (<[id := s]> m) (index_add u id x).
Proof.
  intros [Hl Ho] Hu Hk. split.
  - intros i s' v [[<- <-]|[Hne Hi]]%lookup_insert_Some Hv; apply elem_of_index_add.
    + right. split; [congruence|done].
    + left. by eapply Hl.
  - intros i s' v Hi%elem_of_index_add [[<- <-]|[Hne Hs]]%lookup_insert_Some.
    + destruct Hi as [Hi|[-> _]]; auto.
    + destruct Hi as [Hi|[_ ?]]; [by eapply Ho|congruence].
Qed.

Lemma index_exact_delete m x id :
  index_exact m x →
  index_exact (delete id m) (match m !! id ≫= s_user_id with Some u => index_remove u id x | None => x end).
Proof.
  intros [Hl Ho]. split.
  - intros i s v [Hne Hi]%lookup_delete_Some Hv. pose proof (Hl i s v Hi Hv).
    destruct (m !! id ≫= s_user_id); [|done]. apply elem_of_index_remove. split; [done|]. by intros [_ ->].
  - intros i s v Hi [Hne Hs]%lookup_delete_Some. eapply Ho; [|done].
    destruct (m !! id ≫= s_user_id); [|done]. by apply elem_of_index_remove in Hi as [? _].
Qed.

Lemma index_exact_delete_user m x x' u :
  index_exact m x →
  (∀ v id, id ∈ x' v ↔ v ≠ u ∧ id ∈ x v ∧ ¬ (id ∈ x u ∧ m !! id ≫= s_user_id = Some v)) →
  index_exact (filter (λ p, p.1 ∉ x u) m) x'.
Proof.
  intros [Hl Ho] Hx'. split.
  - intros i s v [Hi Hn]%map_lookup_filter_Some Hv. pose proof (Hl i s v Hi Hv) as Hin.
    apply Hx'. split; [by intros ->|]. split; [done|]. by intros [? _].
  - intros i s v (_ & Hi & _)%Hx' [Hs _]%map_lookup_filter_Some. by eapply Ho.
Qed.

End index.

Lemma index_exact_spec `{CJSON, !CJSONNumber, !CJSONTextLaws} op m x r m' x' :
  redis_spec op m x r m' x' → index_exact m x → keeps_user op x → index_exact m' x'.
Proof.
  intros Hspec Hix Hk.
  assert (∀ s id, (∀ i v, s_id s = Some i → i ∈ x v → s_user_id s = Some v) → s_id s = Some id →
    r = RCode 0 ∧ m' = <[id := s]> m ∧ (∃ u, s_user_id s = Some u ∧ x' = index_add u id x) →
    index_exact m' x') as Hst.
  { intros s id Hkeep Hid (_ & -> & u & Hu & ->). apply index_exact_store; eauto. }
  destruct op as [[s|]|[id|] [o|]|[s|]|[id|]|[u|] [o|] [n|]|[u|]]; cbn [redis_spec keeps_user] in *;
    try (by destruct Hspec as (_ & -> & ->)); try (by destruct Hspec as (-> & -> & _)).
  - destruct (s_id s) as [id|] eqn:E; [|by destruct Hspec as (_ & -> & ->)].
    apply (Hst s id); [by rewrite E|done..].
  - destruct (s_id s) as [id|] eqn:E; [|by destruct Hspec as (_ & -> & ->)].
    case_decide; [by destruct Hspec as (_ & -> & ->)|]. apply (Hst s id); [by rewrite E|done..].
  - destruct Hspec as (_ & -> & ->). by apply index_exact_delete.
  - destruct Hspec as (_ & -> & Hx'). by apply index_exact_delete_user.
Qed.

(** ** Sessions that have expired *)

Section expired.
Context `{CJSON, !CJSONNumber, !CJSONLaws, !CJSONTextLaws, Hiredis, !RedisLaws}.

Lemma visible_expired_hangs depth rctx id s dl o w :
  quiet w → redis_ready (rc_ctx rctx) → redis_storable s → expired (w_now w) s = true →
  redis_keys (rc_ctx rctx) (w_now w) !! session_key (rc_prefix rctx) id =
    Some (RText (document_text s) dl) →
  redis_get depth rctx (Some id) (Some o) w = Hang.
Proof.
  intros Hw Hr Hs He Hk. revert rctx o Hr Hk. induction depth as [|d IH]; intros rctx o Hr Hk; [done|].
  pose proof (quiet_no_oom _ Hw) as Hno.
  destruct (command_run rctx (CGet (session_key (rc_prefix rctx) id)) w Hno Hr)
    as ([type text l] & rctx' & Hrun & Hr' & Hp & Hks & Hm).
  rewrite Hk in Hm. destruct Hm as [Ht Htext]. cbn in Ht, Htext. subst type text.
  cbn [redis_get]. run_by ltac:(by apply session_key_run). run_by ltac:(exact Hrun). eval_tests.
  step_by ltac:(by apply malloc_run). run_by ltac:(reflexivity).
  step_by ltac:(by apply session_text_run). run_by ltac:(by apply redis_is_expired_run). rewrite He.
  unfold redis_delete_by. rewrite !bind_unfold, IH; [done..|]. by rewrite Hks, Hp.
Qed.

End expired.

(** ** Properties *)

(** C27. Sessions survive their JSON text.  When no allocation fails, writing a
    session and reading the text gives the session back, field by field: the
    key that is stored as a nested object and printed again, the times that
    are stored as numbers, and the members that are left out. *)
Theorem redis_session_roundtrip `{CJSON, !CJSONNumber, !CJSONLaws, !CJSONTextLaws} s s0 w :
  no_oom w → redis_storable s →
  ∃ text, session_to_json s w = Ret (Some text) w ∧ session_from_json text s0 w = Ret (0, s) w.
Proof.
  intros Hw Hs. exists (document_text s). split; [by apply session_to_json_run|by apply session_text_run].
Qed.

Section properties.
Context `{CJSON, !CJSONNumber, !CJSONLaws, !CJSONTextLaws, Hiredis, !RedisLaws, CallStack}.

(** C13. The Redis store refines a map of sessions with an index of users.
    Over any server that behaves as documented and when nothing fails, each
    call that [op_redis_ok] admits (a session handed over has a user, texts, a
    key and times that its JSON text keeps, and is not past its expiry; the
    others are the subject of [redis_create_null_user] and
    [redis_late_session_recurses]) returns through the virtual table, one level
    of recursion being enough, and answers and updates the map and the index
    that the keys hold as [redis_spec] says.  [redis_spec] is what the code
    does: the calls by user go by the index, which an update with another user
    leaves behind ([redis_update_keeps_old_listing]), where [store.h] promises
    the sessions of the user; the next theorem says when the two agree. *)
Theorem redis_store_refines_map op rctx m x w :
  (1 ≤ stack_depth)%nat → quiet w → 0 ≤ w_now w → redis_holds rctx (w_now w) m x →
  op_redis_ok (w_now w) op →
  ∃ r rctx' m' x', exec_op op rctx w = Ret (r, rctx') w ∧ redis_holds rctx' (w_now w) m' x' ∧
    redis_spec op m x r m' x'.
Proof. intros Hd. by apply redis_exec_op. Qed.

(** C14. The index of users stays exact as long as sessions keep their users.
    When every session is in the set of its user and of no other, then a call
    that does not hand over a session under the identifier of another user's
    ([keeps_user]; without it the index goes wrong, see
    [redis_update_keeps_old_listing]) leaves it so, [get_by_user_id] returns
    exactly the sessions of the user, each once, and [delete_by_user_id]
    deletes exactly those. *)
Theorem redis_index_stays_exact op rctx m x w :
  (1 ≤ stack_depth)%nat → quiet w → 0 ≤ w_now w → redis_holds rctx (w_now w) m x →
  op_redis_ok (w_now w) op → index_exact m x → keeps_user op x →
  ∃ r rctx' m' x', exec_op op rctx w = Ret (r, rctx') w ∧ redis_holds rctx' (w_now w) m' x' ∧
    index_exact m' x' ∧
    (∀ u o n, op = OpGetByUser (Some u) (Some o) (Some n) →
      ∃ l, r = RSessions 0 (Some l) (Some (length l)) ∧ NoDup (s_id <$> l) ∧
        ∀ s, s ∈ l ↔ (∃ id, m !! id = Some s) ∧ s_user_id s = Some u) ∧
    (∀ u, op = OpDeleteByUser (Some u) →
      r = RCode 0 ∧ m' = filter (λ '(_, s), s_user_id s ≠ Some u) m).
Proof.
  intros Hd Hw Hnow Hh Hop Hix Hk.
  destruct (redis_exec_op Hd op rctx m x w Hw Hnow Hh Hop) as (r & rctx' & m' & x' & Hrun & Hh' & Hspec).
  exists r, rctx', m', x'. split; [done|]. split; [done|]. split; [by eapply index_exact_spec|].
  split; [|intros u ->; destruct Hspec as (-> & -> & _); split; [done|by apply unlisted_sessions]].
  intros u o n ->. destruct Hspec as (-> & -> & l & ids & -> & Hids & ->).
  destruct (named_sessions x u ids rctx (w_now w) m Hh Hids) as (Hnd & _ & _).
  eexists. split; [done|]. split; [done|]. intros s. rewrite list_elem_of_omap. split.
  - intros (id & Hi & Hs). split; [by eauto|]. rewrite Hids, elem_of_elements in Hi.
    by eapply (ix_owned m x Hix).
  - intros [[id Hs] Hu]. exists id. split; [|done]. rewrite Hids, elem_of_elements.
    by eapply (ix_listed m x Hix).
Qed.

(** When time passes without a call, the keys hold the sessions whose expiry is
    still to come, and none that has expired. *)
Lemma redis_holds_later rctx t t' m x :
  redis_holds rctx t m x → t ≤ t' →
  ∃ m', redis_holds rctx t' m' x ∧ m' ⊆ m ∧
    (∀ id s, m !! id = Some s → lasting t' s → m' !! id = Some s) ∧
    (∀ id s, m' !! id = Some s → expired t' s = false).
Proof.
  intros [Hr [Ht Hx Hs]] Hle. set (ks := redis_keys (rc_ctx rctx) t) in *.
  set (ks' := redis_keys (rc_ctx rctx) t'). set (p := rc_prefix rctx) in *.
  assert (ks' ⊆ ks) as Hsub by by apply redis_later.
  set (m' := filter (λ q, is_Some (ks' !! session_key p q.1)) m).
  assert (redis_holds rctx t' m' x) as Hh.
  { split; [done|]. fold ks' p. split.
    - intros id. unfold m'. apply option_eq. intros v. rewrite fmap_Some. split.
      + intros Hv. pose proof (lookup_weaken _ _ _ _ Hv Hsub) as Hv'. rewrite Ht in Hv'.
        destruct (m !! id) as [s|] eqn:Hm; [|done]. injection Hv' as <-. exists s. split; [|done].
        apply map_lookup_filter_Some. split; [done|]. cbn. eauto.
      + intros (s & [Hm [v' Hv']]%map_lookup_filter_Some & ->). cbn in Hv'.
        pose proof (lookup_weaken _ _ _ _ Hv' Hsub) as Hk. rewrite Ht, Hm in Hk. by injection Hk as <-.
    - intros u. specialize (Hx u). unfold set_at in *. destruct (ks !! user_key p u) as [[|X]|] eqn:E; [done|..].
      + assert (ks' !! user_key p u = Some (RSet X)) as ->; [|done]. by apply (redis_keeps _ t).
      + destruct (ks' !! user_key p u) as [v|] eqn:E'; [|done].
        pose proof (lookup_weaken _ _ _ _ E' Hsub). congruence.
    - intros id s [Hm _]%map_lookup_filter_Some. by apply Hs. }
  exists m'. split; [done|]. split; [apply map_filter_subseteq|]. split.
  - intros id s Hm Hlast. apply map_lookup_filter_Some. split; [done|]. cbn. eexists.
    apply (redis_keeps _ t); [fold ks p; by rewrite Ht, Hm|done|].
    intros text d [= _ Hd]. unfold deadline, lasting in *. destruct (s_has_expires s); [|done].
    injection Hd as <-. auto.
  - intros id s Hm. by eapply held_live.
Qed.

(** A session lives exactly for its term.  A session that [create] has
    stored is found by every [get] before its expiry, and by none after it,
    however much later that is; a session without expiry is always found. *)
Theorem redis_session_term s id u rctx m x w w' :
  (1 ≤ stack_depth)%nat → quiet w → quiet w' → 0 ≤ w_now w ≤ w_now w' →
  redis_holds rctx (w_now w) m x → redis_storable s → s_id s = Some id → s_user_id s = Some u →
  lasting (w_now w) s →
  ∃ rctx1, redis_create rctx (Some s) w = Ret (0, rctx1) w ∧
    (lasting (w_now w') s →
       ∃ rctx2, redis_get stack_depth rctx1 (Some id) (Some None) w' = Ret (0, Some (Some s), rctx2) w') ∧
    (expired (w_now w') s = true →
       ∃ rctx2, redis_get stack_depth rctx1 (Some id) (Some None) w' = Ret (-1, Some None, rctx2) w').
Proof.
  intros Hd Hw Hw' [Hnow Hle] Hh Hs Hid Hu Hlast.
  destruct (redis_create_run rctx s id u w m x) as (rctx1 & Hcr & Hh1); [done..|].
  destruct (redis_holds_later rctx1 _ _ _ _ Hh1 Hle) as (m' & Hh' & Hsub & Hkeep & Hlive).
  destruct (get_run Hd rctx1 id None m' _ w' Hw' Hh') as (rctx2 & _ & Hget).
  exists rctx1. split; [done|]. split; intros Ht; exists rctx2; rewrite Hget.
  - by rewrite (Hkeep id s) by (done || by rewrite lookup_insert_eq).
  - destruct (m' !! id) as [s'|] eqn:E; [|done]. pose proof (Hlive id s' E).
    pose proof (lookup_weaken _ _ _ _ E Hsub) as Hs'. rewrite lookup_insert_eq in Hs'. congruence.
Qed.

(** A session that is handed over too late makes the store recurse without
    end.  [create] accepts a session whose expiry has passed and answers 0,
    giving its key one second to live; as long as the key is there, [get]
    reads it, finds it expired and calls [delete], which calls [get]: no
    depth of the stack is enough, for a [get] or for a [delete]. *)
Theorem redis_late_session_recurses s id u rctx m x w :
  quiet w → time_ok (w_now w) → redis_holds rctx (w_now w) m x → redis_storable s →
  s_id s = Some id → s_user_id s = Some u → expired (w_now w) s = true →
  ∃ rctx', redis_create rctx (Some s) w = Ret (0, rctx') w ∧
    ∀ depth o, redis_get depth rctx' (Some id) (Some o) w = Hang ∧
               redis_delete depth rctx' (Some id) w = Hang.
Proof.
  intros Hw Hnow [Hr Hk] Hs Hid Hu He. pose proof (quiet_no_oom _ Hw) as Hno.
  set (p := rc_prefix rctx) in *. set (skey := session_key p id).
  destruct (command_run rctx (CSetEx skey (document_text s) 1) w Hno Hr)
    as ([type1 text1 l1] & rctx1 & Hrun1 & Hr1 & Hp1 & Hm1).
  destruct (Hm1 eq_refl) as [Ht1 Hks1]. cbn in Ht1. subst type1.
  destruct (command_run rctx1 (CSAdd (user_key p u) id) w Hno Hr1)
    as ([type2 text2 l2] & rctx2 & Hrun2 & Hr2 & Hp2 & Hm2).
  cbn in Hm2. rewrite Hks1, set_at_insert_ne, (kh_set _ _ _ _ Hk) in Hm2 by apply keys_apart.
  destruct Hm2 as [-> Hks2].
  assert (expired (w_now w) s = true → s_has_expires s = true ∧ s_expires_at s < w_now w) as Hexp.
  { unfold expired. intros [? ?%Z.ltb_lt]%andb_true_iff. done. }
  destruct (Hexp He) as [Hhas Hlt]. destruct (rs_storable s Hs) as [_ _ _ Hte]. rewrite Hhas in Hte.
  unfold time_ok in *. exists rctx2. split.
  - unfold redis_create. rewrite Hid, Hu. run_by ltac:(by apply session_to_json_run).
    run_by ltac:(by apply session_key_run). run_by ltac:(by apply user_key_run). rewrite Hhas.
    assert (∀ d, in_time_t (s_expires_at s - w_now w) d = Ret (s_expires_at s - w_now w) d) as Hin.
    { intros d. unfold in_time_t. by rewrite decide_True by lia. }
    run_by ltac:(run_by ltac:(by apply time_run); run_by ltac:(apply Hin); cbv zeta;
      rewrite (proj2 (Z.leb_le _ 0)) by lia; exact Hrun1).
    cbn [reply_failed]. eval_tests. by run_by ltac:(exact Hrun2).
  - assert (∀ depth o, redis_get depth rctx2 (Some id) (Some o) w = Hang) as Hget.
    { intros depth o. eapply visible_expired_hangs; [done..|]. rewrite Hks2, Hp2, Hp1.
      rewrite lookup_put_ne by (apply not_eq_sym, keys_apart). by rewrite lookup_insert_eq. }
    intros depth o. split; [apply Hget|]. unfold redis_delete, redis_delete_by.
    by rewrite bind_unfold, Hget.
Qed.

(** A session that changes its user stays listed under the old one.
    [update] adds the identifier to the set of the new user but leaves it in
    that of the old one: [get_by_user_id] of the old user then returns a
    session that belongs to somebody else. *)
Theorem redis_update_keeps_old_listing s old id u v rctx m x w :
  (1 ≤ stack_depth)%nat → quiet w → 0 ≤ w_now w → redis_holds rctx (w_now w) m x →
  m !! id = Some old → id ∈ x u → redis_storable s → lasting (w_now w) s →
  s_id s = Some id → s_user_id s = Some v → v ≠ u →
  ∃ rctx1 rctx2 l, redis_update rctx (Some s) w = Ret (0, rctx1) w ∧
    redis_get_by_user_id rctx1 (Some u) (Some []) (Some 0%nat) w =
      Ret (0, Some l, Some (length l), rctx2) w ∧
    s ∈ l ∧ s_user_id s ≠ Some u.
Proof.
  intros Hd Hw Hnow Hh Hm Hin Hs Hl Hid Hu Hne.
  destruct (redis_update_run Hd rctx s id v w m x) as (rctx1 & Hrun); [done..|].
  rewrite decide_False in Hrun by congruence. destruct Hrun as [Hrun Hh1].
  destruct (redis_get_by_user_id_run Hd rctx1 u [] 0 _ _ w Hw Hh1) as (rctx2 & ids & Hids & _ & Hget).
  do 3 eexists. split; [exact Hrun|]. split; [exact Hget|]. split; [|congruence].
  apply list_elem_of_omap. exists id. split; [|by rewrite lookup_insert_eq].
  rewrite Hids, elem_of_elements. apply elem_of_index_add. by left.
Qed.

(** A session without a user: its key is formatted from a NULL string. *)
Lemma redis_create_null_user s id rctx w :
  no_oom w → s_id s = Some id → s_user_id s = None → redis_create rctx (Some s) w = UB.
Proof.
  intros Hw Hid Hu. unfold redis_create. rewrite Hid, Hu. run_by ltac:(by apply session_to_json_run).
  by run_by ltac:(by apply session_key_run).
Qed.

End properties.

(** ** Witnesses *)

#[local] Instance demo_stack : CallStack := 1%nat.

(** A server that holds the session "b" of bob. *)
Definition bob_session : OpenDBSC_Session :=
  Session (Some "b") (Some "bob") OPENDBSC_SESSION_STATE_BOUND (Some (json_print ref_jwk))
    (Some "ES256") (Some "c2") 1500 true 100.
Definition alice_session : OpenDBSC_Session :=
  Session (Some "b") (Some "alice") OPENDBSC_SESSION_STATE_ACTIVE None None (Some "c3") 0 false 100.
Definition bob_keys : keyspace :=
  <[session_key "dbsc" "b" := RText (document_text bob_session) (Some 1500)]>
    (put_set (user_key "dbsc" "bob") {["b"]} ∅).
Definition bob_store : OpenDBSC_RedisCtx := RedisCtx bob_keys "dbsc".
Definition bob_view : view := {["b" := bob_session]}.
Definition bob_index : string → gset string := index_set "bob" {["b"]} (λ _, ∅).

Lemma bob_storable : redis_storable bob_session.
Proof.
  split; [split; unfold time_ok; cbn; try done; lia| |].
  - unfold all_safe. rewrite !Forall_cons. split_and!; [by intros t [= <-]..|done].
  - intros k [= <-]. split_and!; vm_compute; reflexivity.
Qed.

Lemma alice_storable : redis_storable alice_session.
Proof.
  split; [split; unfold time_ok; cbn; try done; lia| |done].
  unfold all_safe. rewrite !Forall_cons. split_and!; try by intros t [= <-]. done.
Qed.

Lemma bob_holds : redis_holds bob_store 1000 bob_view bob_index.
Proof.
  split; [done|]. cbn. rewrite alive_keys_id.
  - apply (keys_hold_insert "dbsc" _ ∅ _ bob_session "b"); [|apply bob_storable|done].
    apply (keys_hold_put "dbsc" ∅ ∅ (λ _, ∅)). by split.
  - apply map_Forall_insert_2; [done|]. by apply put_set_alive.
Qed.

Lemma bob_index_exact : index_exact bob_view bob_index.
Proof.
  unfold bob_view. split.
  - intros id s u [<- <-]%lookup_singleton_Some [= <-]. change ("b" ∈ ({["b"]} : gset string)). by apply elem_of_singleton.
  - intros id s u Hi [<- <-]%lookup_singleton_Some. unfold bob_index, index_set in Hi.
    destruct (decide (u = "bob")) as [->|]; [done|by apply elem_of_empty in Hi].
Qed.

Lemma redis_session_roundtrip_witness :
  redis_storable bob_session ∧
  ∃ text, session_to_json bob_session (fair_world 1000) = Ret (Some text) (fair_world 1000) ∧
    session_from_json text session_default (fair_world 1000) = Ret (0, bob_session) (fair_world 1000).
Proof. split; [apply bob_storable|]. apply redis_session_roundtrip; [done|apply bob_storable]. Defined.

Lemma redis_store_refines_map_witness :
  redis_holds bob_store 1000 bob_view bob_index ∧
  ∃ r rctx' m' x', exec_op (OpDeleteByUser (Some "bob")) bob_store (fair_world 1000) =
      Ret (r, rctx') (fair_world 1000) ∧ redis_holds rctx' 1000 m' x' ∧
    redis_spec (OpDeleteByUser (Some "bob")) bob_view bob_index r m' x'.
Proof.
  split; [apply bob_holds|].
  apply (redis_store_refines_map (OpDeleteByUser (Some "bob")) bob_store bob_view bob_index (fair_world 1000));
    [done|done|done|apply bob_holds|done].
Defined.

Lemma redis_index_stays_exact_witness :
  redis_holds bob_store 1000 bob_view bob_index ∧ index_exact bob_view bob_index ∧
  ∃ r rctx' m' x', exec_op (OpGetByUser (Some "bob") (Some []) (Some 0%nat)) bob_store (fair_world 1000) =
      Ret (r, rctx') (fair_world 1000) ∧ redis_holds rctx' 1000 m' x' ∧ index_exact m' x' ∧
    ∃ l, r = RSessions 0 (Some l) (Some (length l)) ∧ NoDup (s_id <$> l) ∧
      ∀ s, s ∈ l ↔ (∃ id, bob_view !! id = Some s) ∧ s_user_id s = Some "bob".
Proof.
  split; [apply bob_holds|]. split; [apply bob_index_exact|].
  destruct (redis_index_stays_exact (OpGetByUser (Some "bob") (Some []) (Some 0%nat)) bob_store bob_view
           bob_index (fair_world 1000)) as (r & rctx' & m' & x' & Hrun & Hh & Hix & Hget & _);
    [done|done|done|apply bob_holds|done|apply bob_index_exact|done|].
  exists r, rctx', m', x'. split; [exact Hrun|]. split; [exact Hh|]. split; [exact Hix|].
  exact (Hget "bob" [] 0%nat eq_refl).
Defined.

Lemma redis_session_term_witness :
  lasting 1000 bob_session ∧
  ∃ rctx1, redis_create bob_store (Some bob_session) (fair_world 1000) =
      Ret (0, rctx1) (fair_world 1000) ∧
    (lasting 1499 bob_session →
       ∃ rctx2, redis_get stack_depth rctx1 (Some "b") (Some None) (fair_world 1499) =
         Ret (0, Some (Some bob_session), rctx2) (fair_world 1499)) ∧
    (expired 1499 bob_session = true →
       ∃ rctx2, redis_get stack_depth rctx1 (Some "b") (Some None) (fair_world 1499) =
         Ret (-1, Some None, rctx2) (fair_world 1499)).
Proof.
  split; [done|].
  apply (redis_session_term bob_session "b" "bob" bob_store bob_view bob_index (fair_world 1000) (fair_world 1499));
    try done; [apply bob_holds|apply bob_storable].
Defined.

Lemma redis_late_session_recurses_witness :
  expired 2000 bob_session = true ∧
  ∃ rctx', redis_create (RedisCtx (∅ : redisContext) "dbsc") (Some bob_session) (fair_world 2000) =
      Ret (0, rctx') (fair_world 2000) ∧
    ∀ depth o, redis_get depth rctx' (Some "b") (Some o) (fair_world 2000) = Hang ∧
               redis_delete depth rctx' (Some "b") (fair_world 2000) = Hang.
Proof.
  split; [done|].
  apply (redis_late_session_recurses bob_session "b" "bob" (RedisCtx (∅ : redisContext) "dbsc") ∅ (λ _, ∅)
           (fair_world 2000)); [done|by split| |apply bob_storable|done..].
  split; [done|]. by split.
Defined.

Lemma redis_update_keeps_old_listing_witness :
  s_user_id alice_session = Some "alice" ∧
  ∃ rctx1 rctx2 l, redis_update bob_store (Some alice_session) (fair_world 1000) =
      Ret (0, rctx1) (fair_world 1000) ∧
    redis_get_by_user_id rctx1 (Some "bob") (Some []) (Some 0%nat) (fair_world 1000) =
      Ret (0, Some l, Some (length l), rctx2) (fair_world 1000) ∧
    alice_session ∈ l ∧ s_user_id alice_session ≠ Some "bob".
Proof.
  split; [done|].
  apply (redis_update_keeps_old_listing alice_session bob_session "b" "bob" "alice" bob_store bob_view
           bob_index (fair_world 1000)); try done; [apply bob_holds|apply alice_storable].
Defined.
