(* ===== verification/Jwt.v ===== *)
(** [src/protocol/jwt.c], second part: decoding a DBSC proof and verifying
    its signature, over the interfaces of cJSON and OpenSSL. *)

From S2P Require Export Base64 External RefLibs.
From stdpp Require Import options.
#[local] Open Scope Z_scope.

Record OpenDBSC_ProofJWT := ProofJWT {
  p_algorithm : cstr;
  p_type : cstr;
  p_jwk : cstr;
  p_challenge : cstr;
  p_authorization : cstr;
  p_signature : cstr
}.

#[export] Instance ProofJWT_eq_dec : EqDecision OpenDBSC_ProofJWT.
Proof. solve_decision. Defined.

Definition proof_default : OpenDBSC_ProofJWT := ProofJWT None None None None None None.

(** The suffixes of [token] at its three parts; [None] is [return -1]. *)
Definition split_jwt (token : cstr) : option (string * string * string) :=
  match token with
  | None => None
  | Some token =>
      match strchr token "." with
      | None => None
      | Some first =>
          match strchr (next first) "." with
          | None => None
          | Some second =>
              match strchr (next second) "." with
              | Some _ => None
              | None => Some (token, next first, next second)
              end
          end
      end
  end.

Definition strndup_null (s : cstr) (n : nat) : C cstr :=
  match s with None => mret None | Some s => memcpy_str s n end.

Definition opendbsc_proof_jwt_init (proof : option OpenDBSC_ProofJWT)
    : option OpenDBSC_ProofJWT :=
  match proof with None => None | Some _ => Some proof_default end.

Definition opendbsc_proof_jwt_free (proof : option OpenDBSC_ProofJWT)
    : option OpenDBSC_ProofJWT :=
  match proof with None => None | Some p => opendbsc_proof_jwt_init (Some p) end.

Definition check_proof_type (proof : OpenDBSC_ProofJWT) : Z :=
  match p_type proof with
  | None => -1
  | Some t => if String.eqb t "dbsc+jwt" then 0 else -1
  end.

Definition check_registration_jwk_rules (proof : OpenDBSC_ProofJWT) : C Z :=
  alg ← need_str (p_algorithm proof);
  mret (if String.eqb alg "none"
        then (if bool_decide (p_jwk proof = None) then 0 else -1)
        else (if bool_decide (p_jwk proof = None) then -1 else 0)).

(** [if (cJSON_IsString(item)) field = strdup(item->valuestring);] *)
Definition dup_string_item `{CJSON} (item : option cJSON) : C cstr :=
  match json_string item with Some s => strdup s | None => mret None end.

(** The fields that [parse_proof] does not find stay NULL. *)
Definition parse_proof `{CJSON} (header_json : list Z) (header_len : nat)
    (payload_json : list Z) (payload_len : nat) (signature_raw : cstr)
    (proof : OpenDBSC_ProofJWT) : C (Z * OpenDBSC_ProofJWT) :=
  header ← json_parse_with_length header_json header_len;
  if bool_decide (is_Some header) then
    payload ← json_parse_with_length payload_json payload_len;
    if bool_decide (is_Some payload) then
      let alg := json_get header "alg" in
      let typ := json_get header "typ" in
      let jwk := json_get header "jwk" in
      let jti := json_get payload "jti" in
      let authorization := json_get payload "authorization" in
      algorithm ← dup_string_item alg;
      type ← dup_string_item typ;
      jwk ← (match jwk with
             | Some j => if cJSON_IsObject j then alloc (cJSON_PrintUnformatted j) else mret None
             | None => mret None
             end);
      challenge ← dup_string_item jti;
      auth ← dup_string_item authorization;
      signature ← (match signature_raw with Some s => strdup s | None => mret None end);
      if bool_decide (algorithm = None) || bool_decide (challenge = None)
      then mret (-1, proof_default)
      else mret (0, ProofJWT algorithm type jwk challenge auth signature)
    else mret (-1, proof)
  else mret (-1, proof).

Definition b64_decode (s : cstr) : C (Z * option (list Z) * nat) :=
  '(rc, out, out_len) ← opendbsc_base64url_decode s (Some None) (Some 0%nat);
  out ← deref out;
  out_len ← deref out_len;
  mret (rc, out, out_len).

Definition opendbsc_jwt_decode `{CJSON} (token : cstr) (proof : option OpenDBSC_ProofJWT)
    : C (Z * option OpenDBSC_ProofJWT) :=
  match token, proof with
  | Some token, Some proof =>
      match split_jwt (Some token) with
      | None => mret (-1, Some proof)
      | Some (h_start, p_start, s_start) =>
          let h_len := (pdiff p_start h_start - 1)%nat in
          let p_len := (pdiff s_start p_start - 1)%nat in
          let s_len := String.length s_start in
          header_b64 ← strndup_null (Some h_start) h_len;
          payload_b64 ← strndup_null (Some p_start) p_len;
          sig_copy ← strndup_null (Some s_start) s_len;
          match header_b64, payload_b64, sig_copy with
          | Some _, Some _, Some _ =>
              '(rc, header_json, header_len) ← b64_decode header_b64;
              if negb (rc =? 0) then mret (-1, Some proof) else
              '(rc, payload_json, payload_len) ← b64_decode payload_b64;
              if negb (rc =? 0) then mret (-1, Some proof) else
              header_json ← deref header_json;
              payload_json ← deref payload_json;
              '(rc, proof) ← parse_proof header_json header_len payload_json payload_len
                               sig_copy proof;
              mret (rc, Some proof)
          | _, _, _ => mret (-1, Some proof)
          end
      end
  | _, _ => mret (-1, proof)
  end.

(** ** Keys *)

Section keys.
Context `{CJSON, OpenSSL}.

Definition jwk_get_b64 (jwk : option cJSON) (key : string) : C (Z * option (list Z) * nat) :=
  match json_string (json_get jwk key) with
  | None => mret (-1, None, 0%nat)
  | Some s => b64_decode (Some s)
  end.

(** [BN_bin2bn(buf, len, NULL)]. *)
Definition bn_bin2bn (buf : list Z) (len : nat) : C (option BIGNUM) :=
  if decide (len ≤ length buf)%nat then alloc (BN_bin2bn (take len buf)) else ub.

Definition evp_pkey_from_ec_jwk (jwk : option cJSON) : C (option EVP_PKEY) :=
  '(rc, x, x_len) ← jwk_get_b64 jwk "x";
  if negb (rc =? 0) then mret None else
  '(rc, y, y_len) ← jwk_get_b64 jwk "y";
  if negb (rc =? 0) then mret None else
  ec ← alloc EC_KEY_prime256v1;
  match ec with
  | None => mret None
  | Some ec =>
      x ← deref x; bx ← bn_bin2bn x x_len;
      y ← deref y; by_ ← bn_bin2bn y y_len;
      match bx with None => mret None | Some bx =>
      match by_ with None => mret None | Some by_ =>
          '(rc, ec) ← ssl_call (EC_KEY_set_public_key_affine_coordinates ec bx by_) ec;
          if negb (rc =? 1) then mret None else
          pkey ← alloc EVP_PKEY_blank;
          match pkey with
          | None => mret None
          | Some pkey =>
              '(rc, pkey) ← ssl_call (EVP_PKEY_assign_EC_KEY pkey ec) pkey;
              if negb (rc =? 1) then mret None else mret (Some pkey)
          end
      end end
  end.

Definition evp_pkey_from_rsa_jwk (jwk : option cJSON) : C (option EVP_PKEY) :=
  '(rc, n, n_len) ← jwk_get_b64 jwk "n";
  if negb (rc =? 0) then mret None else
  '(rc, e, e_len) ← jwk_get_b64 jwk "e";
  if negb (rc =? 0) then mret None else
  rsa ← alloc RSA_blank;
  match rsa with
  | None => mret None
  | Some rsa =>
      n ← deref n; bn_n ← bn_bin2bn n n_len;
      e ← deref e; bn_e ← bn_bin2bn e e_len;
      match bn_n with None => mret None | Some bn_n =>
      match bn_e with None => mret None | Some bn_e =>
          '(rc, rsa) ← ssl_call (RSA_set0_key rsa bn_n bn_e) rsa;
          if negb (rc =? 1) then mret None else
          pkey ← alloc EVP_PKEY_blank;
          match pkey with
          | None => mret None
          | Some pkey =>
              '(rc, pkey) ← ssl_call (EVP_PKEY_assign_RSA pkey rsa) pkey;
              if negb (rc =? 1) then mret None else mret (Some pkey)
          end
      end end
  end.

Definition evp_pkey_from_jwk (jwk : option cJSON) : C (option EVP_PKEY) :=
  match json_string (json_get jwk "kty") with
  | None => mret None
  | Some kty =>
      if String.eqb kty "EC" then
        match json_string (json_get jwk "crv") with
        | Some crv => if String.eqb crv "P-256" then evp_pkey_from_ec_jwk jwk else mret None
        | None => mret None
        end
      else if String.eqb kty "RSA" then evp_pkey_from_rsa_jwk jwk
      else mret None
  end.

(** ** Signatures *)

(** [es256_raw_to_der(&sig, &sig_len)]. *)
Definition es256_raw_to_der (sig : list Z) (sig_len : nat) : C (Z * list Z * nat) :=
  if negb (Nat.eqb sig_len 64) then mret (-1, sig, sig_len) else
  ecsig ← malloc;
  if negb ecsig then mret (-1, sig, sig_len) else
  r ← bn_bin2bn sig 32;
  s ← bn_bin2bn (drop 32 sig) 32;
  match r, s with
  | Some r, Some s =>
      der ← alloc (i2d_ECDSA_SIG r s);
      match der with
      | Some der =>
          if bool_decide (0 < length der)%nat then mret (0, der, length der)
          else mret (-1, sig, sig_len)
      | None => mret (-1, sig, sig_len)
      end
  | _, _ => mret (-1, sig, sig_len)
  end.

Definition verify_signature_with_jwk (token : cstr) (proof : option OpenDBSC_ProofJWT)
    (jwk_json : cstr) : C Z :=
  match token, (p ← proof; alg ← p_algorithm p; Some (p, alg)) with
  | Some token, Some (proof, algorithm) =>
      if String.eqb algorithm "none" then mret 0 else
      if negb (String.eqb algorithm "ES256") && negb (String.eqb algorithm "RS256")
      then mret (-1) else
      match jwk_json, p_signature proof with
      | Some jwk_json, Some signature =>
          match split_jwt (Some token) with
          | None => mret (-1)
          | Some (h_start, p_start, s_start) =>
              let signed_len := (pdiff s_start token - 1)%nat in
              '(rc, sig, sig_len) ← b64_decode (Some signature);
              if negb (rc =? 0) then mret (-1) else
              sig ← deref sig;
              '(rc, sig, sig_len) ← (if String.eqb algorithm "ES256"
                                     then es256_raw_to_der sig sig_len
                                     else mret (0, sig, sig_len));
              if negb (rc =? 0) then mret (-1) else
              jwk ← json_parse jwk_json;
              match jwk with
              | None => mret (-1)
              | Some _ =>
                  pkey ← evp_pkey_from_jwk jwk;
                  match pkey with
                  | None => mret (-1)
                  | Some pkey =>
                      ctx ← alloc EVP_MD_CTX_blank;
                      match ctx with
                      | None => mret (-1)
                      | Some ctx =>
                          '(init, ctx) ← ssl_call (EVP_DigestVerifyInit ctx EVP_sha256 pkey) ctx;
                          '(update, ctx) ←
                            ssl_call (EVP_DigestVerifyUpdate ctx (str_take signed_len token)) ctx;
                          '(final, _) ←
                            ssl_call (EVP_DigestVerifyFinal ctx (take sig_len sig), tt) tt;
                          mret (if (init =? 1) && (update =? 1) && (final =? 1) then 0 else -1)
                      end
                  end
              end
          end
      | _, _ => mret (-1)
      end
  | _, _ => mret (-1)
  end.

Definition opendbsc_jwt_verify_signature (token : cstr) (proof : option OpenDBSC_ProofJWT)
    : C Z :=
  match proof with
  | None => mret (-1)
  | Some p => verify_signature_with_jwk token proof (p_jwk p)
  end.

(** [target] is [proof] when the caller passed one, [&local] otherwise. *)
Definition opendbsc_jwt_decode_and_verify (token : cstr) (proof : option OpenDBSC_ProofJWT)
    : C (Z * option OpenDBSC_ProofJWT) :=
  let local := proof_default in
  let target := default local proof in
  let back (t : OpenDBSC_ProofJWT) := (λ _, t) <$> proof in
  '(rc, target) ← on_local (opendbsc_jwt_decode token) target;
  if negb (rc =? 0) then mret (-1, back target) else
  if negb (check_proof_type target =? 0) then mret (-1, back target) else
  rc ← check_registration_jwk_rules target;
  if negb (rc =? 0) then mret (-1, back target) else
  rc ← verify_signature_with_jwk token (Some target) (p_jwk target);
  if negb (rc =? 0) then mret (-1, back target) else
  mret (0, back target).

Definition opendbsc_jwt_verify_with_jwk (token jwk_json : cstr)
    (proof : option OpenDBSC_ProofJWT) : C (Z * option OpenDBSC_ProofJWT) :=
  match token, jwk_json with
  | Some _, Some _ =>
      let local := proof_default in
      let target := default local proof in
      let back (t : OpenDBSC_ProofJWT) := (λ _, t) <$> proof in
      '(rc, target) ← on_local (opendbsc_jwt_decode token) target;
      if negb (rc =? 0) then mret (-1, back target) else
      if negb (bool_decide (p_jwk target = None)) then mret (-1, back target) else
      if negb (check_proof_type target =? 0) then mret (-1, back target) else
      alg ← need_str (p_algorithm target);
      if String.eqb alg "none" then mret (-1, back target) else
      rc ← verify_signature_with_jwk token (Some target) jwk_json;
      if negb (rc =? 0) then mret (-1, back target) else
      mret (0, back target)
  | _, _ => mret (-1, proof)
  end.

End keys.

(** ** What a proof says

    The reference reading of a token: three parts between two dots, the first
    two the base64url of JSON texts. *)

Fixpoint split_dot (s : string) : option (string * string) :=
  match s with
  | EmptyString => None
  | String c s' =>
      if Ascii.eqb c "." then Some ("", s')
      else '(a, b) ← split_dot s'; Some (String c a, b)
  end.

Definition token_parts (t : string) : option (string * string * string) :=
  '(h, r) ← split_dot t;
  '(p, s) ← split_dot r;
  match split_dot s with Some _ => None | None => Some (h, p, s) end.

Definition signing_input (h p : string) : string := h +:+ String "." p.

Definition part_bytes (s : string) : option (list Z) :=
  if decide (s = "") then None else decode_groups (list_of_string s).

Definition part_json `{CJSON} (s : string) : option cJSON :=
  b ← part_bytes s; cJSON_text_value b.

(** The embedded key, as the text the code keeps of it. *)
Definition embedded_key `{CJSON} (header : cJSON) : cstr :=
  j ← json_get (Some header) "jwk";
  if cJSON_IsObject j then Some (cJSON_PrintUnformatted j) else None.

Definition proof_claims `{CJSON} (header payload : cJSON) (signature : string)
    : option OpenDBSC_ProofJWT :=
  alg ← json_string (json_get (Some header) "alg");
  jti ← json_string (json_get (Some payload) "jti");
  Some (ProofJWT (Some alg) (json_string (json_get (Some header) "typ"))
          (embedded_key header) (Some jti)
          (json_string (json_get (Some payload) "authorization")) (Some signature)).

Definition token_proof `{CJSON} (t : string) : option OpenDBSC_ProofJWT :=
  '(h, p, s) ← token_parts t;
  header ← part_json h;
  payload ← part_json p;
  proof_claims header payload s.

Lemma token_proof_claims `{CJSON} t r :
  token_proof t = Some r →
  p_algorithm r ≠ None ∧ p_challenge r ≠ None ∧ p_signature r ≠ None.
Proof.
  unfold token_proof, proof_claims. intros Hr.
  destruct (token_parts t) as [[[h p] s]|]; simplify_option_eq. by split_and!.
Qed.

(** ** Splitting *)

Lemma split_dot_strchr s :
  strchr s "." = (λ '(_, b), String "." b) <$> split_dot s ∧
  (∀ a b, split_dot s = Some (a, b) → s = a +:+ String "." b).
Proof.
  induction s as [|c s [IH1 IH2]]; [done|]. simpl.
  destruct (Ascii.eqb_spec c ".") as [->|Hc].
  - split; [done|]. by intros a b [= <- <-].
  - rewrite IH1. destruct (split_dot s) as [[a b]|]; [|done]. split; [done|].
    intros a' b' [= <- <-]. rewrite str_app_cons. f_equal. by apply IH2.
Qed.

Lemma split_jwt_parts t :
  split_jwt (Some t) = (λ '(h, p, s), (t, p +:+ String "." s, s)) <$> token_parts t.
Proof.
  unfold split_jwt, token_parts. destruct (split_dot_strchr t) as [-> Ht].
  destruct (split_dot t) as [[h r]|]; [|done]. simpl.
  destruct (split_dot_strchr r) as [-> Hr]. destruct (split_dot r) as [[p s]|]; [|done]. simpl.
  destruct (split_dot_strchr s) as [-> Hs]. destruct (split_dot s) as [[]|]; [done|]. simpl.
  by rewrite (Hr _ _ eq_refl).
Qed.

Lemma token_parts_eq t h p s :
  token_parts t = Some (h, p, s) → t = signing_input h p +:+ String "." s.
Proof.
  unfold token_parts, signing_input. destruct (split_dot_strchr t) as [_ Ht].
  destruct (split_dot t) as [[h' r]|]; [|done]. simpl.
  destruct (split_dot_strchr r) as [_ Hr]. destruct (split_dot r) as [[p' s']|]; [|done]. simpl.
  destruct (split_dot s'); [done|]. intros [= -> -> ->].
  rewrite (Ht _ _ eq_refl), (Hr _ _ eq_refl). by rewrite str_app_assoc, str_app_cons.
Qed.

(** The lengths the code computes from the three pointers. *)
Lemma token_parts_take t h p s :
  token_parts t = Some (h, p, s) →
  (pdiff (p +:+ String "." s) t - 1)%nat = String.length h ∧
  (pdiff s (p +:+ String "." s) - 1)%nat = String.length p ∧
  (pdiff s t - 1)%nat = String.length (signing_input h p) ∧
  str_take (String.length h) t = h ∧
  str_take (String.length p) (p +:+ String "." s) = p ∧
  str_take (String.length (signing_input h p)) t = signing_input h p.
Proof.
  intros Ht%token_parts_eq. rewrite Ht. split_and!.
  - unfold signing_input. str_lia.
  - str_lia.
  - str_lia.
  - unfold signing_input. rewrite str_app_assoc. apply str_take_app.
  - apply str_take_app.
  - apply str_take_app.
Qed.

(** ** Decoding *)

(** [x] is [v], or NULL after a failed allocation. *)
Definition copy_of (w : world) (x v : cstr) : Prop := x = v ∨ x = None ∧ ¬ no_oom w.

Lemma copy_of_mono w w' x v : env_step w w' → copy_of w' x v → copy_of w x v.
Proof. intros Hw [?|[??]]; [by left|right; split; [done|by eapply step_oom]]. Qed.

Lemma wp_b64_decode s w Q :
  (∀ b w', env_step w w' → part_bytes s = Some b → Q (0, Some b, length b) w') →
  (∀ w', env_step w w' → part_bytes s = None ∨ ¬ no_oom w → Q (-1, None, 0%nat) w') →
  wp (b64_decode (Some s)) w Q.
Proof.
  intros HS HN. unfold part_bytes in *. apply wp_bind, wp_base64url_decode.
  - intros b w' Hw Hs Hb. do 2 (apply wp_bind, wp_deref). apply wp_ret, HS; [done|].
    by rewrite decide_False.
  - intros w' Hw H. do 2 (apply wp_bind, wp_deref). apply wp_ret, HN; [done|].
    case_decide; [by left|]. destruct H as [?|[?|?]]; auto; done.
Qed.

Section decoding.
Context `{CJSON}.

Lemma wp_dup_string_item item w Q :
  (∀ r w', env_step w w' → copy_of w r (json_string item) → Q r w') →
  wp (dup_string_item item) w Q.
Proof.
  intros HQ. unfold dup_string_item, copy_of in *.
  destruct (json_string item) as [s|]; [|by apply wp_ret, HQ; auto].
  apply wp_alloc; intros; apply HQ; auto.
Qed.

(** The fields of [p] are those of [r], or NULL after a failed allocation; the
    algorithm and the challenge are there. *)
Definition proof_copy (w : world) (p r : OpenDBSC_ProofJWT) : Prop :=
  p_algorithm p = p_algorithm r ∧ p_challenge p = p_challenge r ∧
  p_algorithm p ≠ None ∧ p_challenge p ≠ None ∧
  copy_of w (p_type p) (p_type r) ∧ copy_of w (p_jwk p) (p_jwk r) ∧
  copy_of w (p_authorization p) (p_authorization r) ∧
  copy_of w (p_signature p) (p_signature r).

Lemma proof_copy_exact w p r : no_oom w → proof_copy w p r → p = r.
Proof.
  intros Hw (? & ? & _ & _ & Ht & Hj & Ha & Hs). unfold copy_of in *.
  destruct p, r; simpl in *. f_equal; tauto.
Qed.

Lemma proof_copy_mono w w' p r : env_step w w' → proof_copy w' p r → proof_copy w p r.
Proof.
  intros Hw (? & ? & ? & ? & ? & ? & ? & ?).
  split_and!; try done; by eapply copy_of_mono.
Qed.

Lemma wp_parse_proof hb pb sig p0 w (Q : Z * OpenDBSC_ProofJWT → world → Prop) :
  let r := header ← cJSON_text_value hb; payload ← cJSON_text_value pb;
           proof_claims header payload sig in
  (∀ p r' w', env_step w w' → r = Some r' → proof_copy w p r' → Q (0, p) w') →
  (∀ p w', env_step w w' → (p = p0 ∨ p = proof_default) → r = None ∨ ¬ no_oom w →
     Q (-1, p) w') →
  wp (parse_proof hb (length hb) pb (length pb) (Some sig) p0) w Q.
Proof.
  intros r HS HN. unfold parse_proof.
  apply wp_bind, wp_json_parse_with_length.
  2:{ intros w1 Hw1 H1. rewrite bool_decide_false by (by intros []).
      apply wp_ret, HN; [done|by left|]. destruct H1 as [E|?]; [|by right].
      left. subst r. by rewrite E. }
  intros hj w1 Hw1 Hh. rewrite bool_decide_true by done.
  apply wp_bind, wp_json_parse_with_length.
  2:{ intros w2 Hw2 H2. rewrite bool_decide_false by (by intros []).
      apply wp_ret, HN; [by etrans|by left|]. destruct H2 as [E|?]; [|right; eauto using step_oom].
      left. subst r. by rewrite Hh, E. }
  intros pj w2 Hw2 Hp. rewrite bool_decide_true by done. cbv zeta.
  assert (r = proof_claims hj pj sig) as Hr by (subst r; by rewrite Hh, Hp).
  clearbody r. subst r. clear Hh Hp.
  assert (env_step w w2) as Hw by (by etrans). clear w1 Hw1 Hw2.
  apply wp_bind, wp_dup_string_item. intros alg w3 ? Halg%(copy_of_mono w); [|done].
  apply wp_bind, wp_dup_string_item.
  intros typ w4 ? Htyp%(copy_of_mono w); [|by etrans; [|eassumption]].
  apply wp_bind. apply (wp_mono _ _ (λ jwk w', env_step w w' ∧ copy_of w jwk (embedded_key hj))).
  { assert (env_step w w4) by (by repeat (etrans; [eassumption|])).
    unfold embedded_key, copy_of. destruct (json_get (Some hj) "jwk") as [j|]; simpl;
      [|by apply wp_ret; auto]. destruct (cJSON_IsObject j); [|by apply wp_ret; auto].
    apply wp_alloc; intros; (split; [by etrans|]); [by left|right; eauto using step_oom]. }
  intros jwk w5 [Hw5 Hjwk].
  apply wp_bind, wp_dup_string_item. intros jti w6 ? Hjti%(copy_of_mono w); [|done].
  apply wp_bind, wp_dup_string_item.
  intros auth w7 ? Hauth%(copy_of_mono w); [|by etrans].
  assert (env_step w w7) as Hw7 by (by repeat (etrans; [eassumption|])).
  apply wp_bind. apply (wp_mono _ _ (λ s w', env_step w w' ∧ copy_of w s (Some sig))).
  { apply wp_alloc; intros; (split; [by etrans|]); [by left|right; eauto using step_oom]. }
  intros s w8 [Hw8 Hs]. unfold proof_claims in *.
  destruct (decide (alg = None)) as [->|Ha].
  { rewrite (bool_decide_true (None = None)) by done. apply wp_ret, HN; [done|by right|].
    destruct Halg as [<-|[]]; [by left|by right]. }
  destruct (decide (jti = None)) as [->|Hc].
  { rewrite (bool_decide_true (None = None)), orb_true_r by done. apply wp_ret, HN; [done|by right|].
    destruct Hjti as [<-|[]]; [|by right]. left. by destruct (json_string (json_get (Some hj) "alg")). }
  rewrite !bool_decide_false by done. apply wp_ret.
  destruct Halg as [Halg|[]]; [|done]. destruct Hjti as [Hjti|[]]; [|done].
  rewrite <-Halg, <-Hjti in HS. destruct alg as [alg|]; [|done]. destruct jti as [jti|]; [|done].
  eapply HS; [done|done|]. by split_and!.
Qed.

Lemma wp_strndup_null s n x w Q :
  str_take n s = x → (n ≤ String.length s)%nat →
  (∀ r w', env_step w w' → copy_of w r (Some x) → Q r w') →
  wp (strndup_null (Some s) n) w Q.
Proof.
  intros <- Hn HQ. unfold copy_of in *. apply wp_memcpy_str; [done|..]; intros; apply HQ; auto.
Qed.

Lemma wp_jwt_decode t p0 w (Q : Z * option OpenDBSC_ProofJWT → world → Prop) :
  (∀ p r w', env_step w w' → token_proof t = Some r → proof_copy w p r → Q (0, Some p) w') →
  (∀ p w', env_step w w' → (p = p0 ∨ p = proof_default) → token_proof t = None ∨ ¬ no_oom w →
     Q (-1, Some p) w') →
  wp (opendbsc_jwt_decode (Some t) (Some p0)) w Q.
Proof.
  intros HS HN. unfold opendbsc_jwt_decode. rewrite split_jwt_parts.
  unfold token_proof in *. destruct (token_parts t) as [[[h p] s]|] eqn:Ht; cbn [fmap option_fmap option_map];
    [|by apply wp_ret, HN; auto]. cbn [mbind option_bind] in HS, HN.
  destruct (token_parts_take _ _ _ _ Ht) as (-> & -> & _ & Hh & Hp & _).
  assert (String.length h ≤ String.length t)%nat as Hle.
  { apply token_parts_eq in Ht. rewrite Ht. unfold signing_input. str_lia. }
  apply wp_bind, (wp_strndup_null _ _ h); [done|done|]. intros h' w1 Hw1 Hh'.
  apply wp_bind, (wp_strndup_null _ _ p); [done|str_lia|].
  intros p' w2 Hw2 Hp'%(copy_of_mono w); [|done].
  apply wp_bind, (wp_strndup_null _ _ s); [apply str_take_all|done|].
  intros s' w3 Hw3 Hs'%(copy_of_mono w); [|by etrans].
  assert (env_step w w3) as Hw by (by repeat (etrans; [eassumption|])).
  destruct Hh' as [->|[-> ?]]; [|by apply wp_ret, HN; auto].
  destruct Hp' as [->|[-> ?]]; [|by apply wp_ret, HN; auto].
  destruct Hs' as [->|[-> ?]]; [|by apply wp_ret, HN; auto].
  clear w1 w2 Hw1 Hw2 Hw3. unfold part_json in *.
  apply wp_bind, wp_b64_decode.
  2:{ intros w4 ? E. apply wp_ret, HN; [by etrans|by left|].
      destruct E as [E|?]; [left; by rewrite E|right; eauto using step_oom]. }
  intros hb w4 Hw4 Hhb. apply wp_bind, wp_b64_decode.
  2:{ intros w5 Hw5 E. apply wp_ret, HN; [by repeat (etrans; [eassumption|])|by left|].
      destruct E as [E|?]; [left; rewrite Hhb, E|right; eauto using step_oom].
      simpl. by destruct (cJSON_text_value hb). }
  intros pb w5 Hw5 Hpb. rewrite Hhb, Hpb in HS, HN. cbn [mbind option_bind] in HS, HN.
  assert (env_step w w5) as Hw' by (by repeat (etrans; [eassumption|])).
  change (negb (0 =? 0)) with false. cbn match.
  do 2 (apply wp_bind, wp_deref). apply wp_bind, wp_parse_proof.
  - intros q r w6 Hw6 Hr Hq. apply wp_ret. apply (HS q r); [by etrans|done|].
    by eapply proof_copy_mono.
  - intros q w6 Hw6 Hq Hr. apply wp_ret, HN; [by etrans|done|].
    destruct Hr; [by left|right; eauto using step_oom].
Qed.

End decoding.

(** ** What a valid signature is *)

Section reference.
Context `{CJSON, OpenSSL}.

(** The bytes OpenSSL is given: DER for ES256, from exactly 64 bytes. *)
Definition signature_bytes (alg sig : string) : option (list Z) :=
  b ← part_bytes sig;
  if String.eqb alg "ES256" then
    if Nat.eqb (length b) 64 then
      let der := i2d_ECDSA_SIG (BN_bin2bn (take 32 b)) (BN_bin2bn (take 32 (drop 32 b))) in
      if bool_decide (0 < length der)%nat then Some der else None
    else None
  else Some b.

Definition jwk_field (jwk : cJSON) (key : string) : option BIGNUM :=
  s ← json_string (json_get (Some jwk) key); b ← part_bytes s; Some (BN_bin2bn b).

Definition status_ok {A} (r : Z * A) : option A := if r.1 =? 1 then Some r.2 else None.

Definition ec_key (jwk : cJSON) : option EVP_PKEY :=
  x ← jwk_field jwk "x"; y ← jwk_field jwk "y";
  ec ← status_ok (EC_KEY_set_public_key_affine_coordinates EC_KEY_prime256v1 x y);
  status_ok (EVP_PKEY_assign_EC_KEY EVP_PKEY_blank ec).

Definition rsa_key (jwk : cJSON) : option EVP_PKEY :=
  n ← jwk_field jwk "n"; e ← jwk_field jwk "e";
  rsa ← status_ok (RSA_set0_key RSA_blank n e);
  status_ok (EVP_PKEY_assign_RSA EVP_PKEY_blank rsa).

Definition public_key (jwk : cJSON) : option EVP_PKEY :=
  kty ← json_string (json_get (Some jwk) "kty");
  if String.eqb kty "EC" then
    crv ← json_string (json_get (Some jwk) "crv");
    if String.eqb crv "P-256" then ec_key jwk else None
  else if String.eqb kty "RSA" then rsa_key jwk else None.

(** OpenSSL's SHA-256 verification of [msg] under the key. *)
Definition evp_verifies (key : EVP_PKEY) (msg : string) (sig : list Z) : bool :=
  let '(init, ctx) := EVP_DigestVerifyInit EVP_MD_CTX_blank EVP_sha256 key in
  let '(update, ctx) := EVP_DigestVerifyUpdate ctx msg in
  (init =? 1) && (update =? 1) && (EVP_DigestVerifyFinal ctx sig =? 1).

(** The token is signed, with one of the two algorithms, by the key that the
    JWK text describes. *)
Definition signed_by (alg jwk_json token sig : string) : bool :=
  (String.eqb alg "ES256" || String.eqb alg "RS256") &&
  match token_parts token, signature_bytes alg sig,
        (j ← cJSON_text_value (ord <$> list_of_string jwk_json); public_key j) with
  | Some (h, p, _), Some b, Some key => evp_verifies key (signing_input h p) b
  | _, _, _ => false
  end.

End reference.

(** ** Verifying *)

Section verifying.
Context `{CJSON, OpenSSL}.

Lemma wp_bn_bin2bn b w Q :
  (∀ r w', env_step w w' → r = Some (BN_bin2bn b) ∨ r = None ∧ ¬ no_oom w → Q r w') →
  wp (bn_bin2bn b (length b)) w Q.
Proof.
  intros HQ. unfold bn_bin2bn. rewrite decide_True, take_ge by lia.
  apply wp_alloc; intros; apply HQ; auto.
Qed.

Lemma wp_jwk_get_b64 jwk key w Q :
  (∀ b w', env_step w w' → jwk_field jwk key = Some (BN_bin2bn b) → Q (0, Some b, length b) w') →
  (∀ w', env_step w w' → jwk_field jwk key = None ∨ ¬ no_oom w → Q (-1, None, 0%nat) w') →
  wp (jwk_get_b64 (Some jwk) key) w Q.
Proof.
  intros HS HN. unfold jwk_get_b64, jwk_field in *.
  destruct (json_string (json_get (Some jwk) key)) as [s|]; [|by apply wp_ret, HN; auto].
  cbn [mbind option_bind] in *. apply wp_b64_decode.
  - intros b w' ? E. apply HS; [done|]. by rewrite E.
  - intros w' ? E. apply HN; [done|]. destruct E as [E|?]; [left; by rewrite E|by right].
Qed.

(** The two big numbers of a key, then a status call and a new [EVP_PKEY]. *)
Lemma wp_key_from_fields {K} (blank : K) (f1 f2 : string)
    (set : K → BIGNUM → BIGNUM → Z * K) (assign : EVP_PKEY → K → Z * EVP_PKEY) jwk :
  wp_computes
    ('(rc, x, x_len) ← jwk_get_b64 (Some jwk) f1;
     if negb (rc =? 0) then mret None else
     '(rc, y, y_len) ← jwk_get_b64 (Some jwk) f2;
     if negb (rc =? 0) then mret None else
     k ← alloc blank;
     match k with
     | None => mret None
     | Some k =>
         x ← deref x; bx ← bn_bin2bn x x_len;
         y ← deref y; by_ ← bn_bin2bn y y_len;
         match bx with None => mret None | Some bx =>
      match by_ with None => mret None | Some by_ =>
             '(rc, k) ← ssl_call (set k bx by_) k;
             if negb (rc =? 1) then mret None else
             pkey ← alloc EVP_PKEY_blank;
             match pkey with
             | None => mret None
             | Some pkey =>
                 '(rc, pkey) ← ssl_call (assign pkey k) pkey;
                 if negb (rc =? 1) then mret None else mret (Some pkey)
             end
         end end
     end)
    (x ← jwk_field jwk f1; y ← jwk_field jwk f2; k ← status_ok (set blank x y);
     status_ok (assign EVP_PKEY_blank k)).
Proof.
  intros w Q HS HN.
  apply wp_bind, wp_jwk_get_b64.
  2:{ intros w1 ? E. apply wp_ret, HN; [done|]. destruct E as [E|?]; [left; by rewrite E|by right]. }
  intros x w1 Hw1 Hx. rewrite Hx in HS, HN. cbn [mbind option_bind] in HS, HN. apply wp_bind, wp_jwk_get_b64.
  2:{ intros w2 ? E. apply wp_ret, HN; [by etrans|].
      destruct E as [E|?]; [left; by rewrite E|right; eauto using step_oom]. }
  intros y w2 Hw2 Hy. rewrite Hy in HS, HN. cbn [mbind option_bind] in HS, HN.
  assert (env_step w w2) as Hw by (by etrans). clear w1 Hw1 Hw2.
  change (negb (0 =? 0)) with false. cbn match.
  apply wp_bind, wp_alloc; intros w3 ?.
  2:{ intros ?. apply wp_ret, HN; [by etrans|right; eauto using step_oom]. }
  assert (env_step w w3) as Hw3 by (by etrans).
  apply wp_bind, wp_deref, wp_bind, wp_bn_bin2bn. intros bx w4 ? Hbx.
  apply wp_bind, wp_deref, wp_bind, wp_bn_bin2bn. intros by_ w5 ? Hby.
  assert (env_step w w4) by (by etrans). assert (env_step w w5) as Hw5 by (by etrans).
  destruct Hbx as [->|[-> ?]]; [|apply wp_ret, HN; [done|right; eauto using step_oom]].
  destruct Hby as [->|[-> ?]]; [|apply wp_ret, HN; [done|right; eauto using step_oom]].
  apply wp_bind, wp_ssl_call; intros w6 ?.
  2:{ intros ?. apply wp_ret, HN; [by etrans|right; eauto using step_oom]. }
  assert (env_step w w6) as Hw6 by (by etrans).
  destruct (set blank (BN_bin2bn x) (BN_bin2bn y)) as [rc k]. unfold status_ok in HS, HN.
  cbn [fst snd] in HS, HN. destruct (rc =? 1) eqn:Hrc; cbn [negb mbind option_bind] in *;
    [|by apply wp_ret, HN; auto].
  apply wp_bind, wp_alloc; intros w7 ?.
  2:{ intros ?. apply wp_ret, HN; [by etrans|right; eauto using step_oom]. }
  assert (env_step w w7) as Hw7 by (by etrans).
  apply wp_bind, wp_ssl_call; intros w8 ?.
  2:{ intros ?. apply wp_ret, HN; [by etrans|right; eauto using step_oom]. }
  destruct (assign EVP_PKEY_blank k) as [rc' pkey]. cbn [fst snd] in HS, HN.
  destruct (rc' =? 1); cbn [negb]; apply wp_ret; [apply HS|apply HN]; auto; by etrans.
Qed.

Lemma wp_evp_pkey_from_jwk jwk : wp_computes (evp_pkey_from_jwk (Some jwk)) (public_key jwk).
Proof.
  intros w Q HS HN. unfold evp_pkey_from_jwk, public_key in *.
  destruct (json_string (json_get (Some jwk) "kty")) as [kty|]; [|by apply wp_ret, HN; auto].
  cbn [mbind option_bind] in *. destruct (String.eqb kty "EC").
  - destruct (json_string (json_get (Some jwk) "crv")) as [crv|]; [|by apply wp_ret, HN; auto].
    cbn [mbind option_bind] in *. destruct (String.eqb crv "P-256"); [|by apply wp_ret, HN; auto].
    by apply (wp_key_from_fields EC_KEY_prime256v1 "x" "y"
      EC_KEY_set_public_key_affine_coordinates EVP_PKEY_assign_EC_KEY jwk w Q).
  - destruct (String.eqb kty "RSA"); [|by apply wp_ret, HN; auto].
    by apply (wp_key_from_fields RSA_blank "n" "e" RSA_set0_key EVP_PKEY_assign_RSA
      jwk w Q).
Qed.

(** The signature as OpenSSL is given it. *)
Lemma wp_signature_bytes alg sig w Q :
  (∀ b w', env_step w w' → signature_bytes alg sig = Some b → Q (0, b, length b) w') →
  (∀ b n w', env_step w w' → signature_bytes alg sig = None ∨ ¬ no_oom w → Q (-1, b, n) w') →
  ∀ b, part_bytes sig = Some b →
  wp (if String.eqb alg "ES256" then es256_raw_to_der b (length b)
      else mret (0, b, length b)) w Q.
Proof.
  intros HS HN b Hb. unfold signature_bytes in *. rewrite Hb in HS, HN.
  cbn [mbind option_bind] in HS, HN. destruct (String.eqb alg "ES256"); [|by apply wp_ret, HS].
  unfold es256_raw_to_der. destruct (Nat.eqb_spec (length b) 64) as [Hl|Hl]; cbn [negb];
    [|by apply wp_ret, HN; auto].
  apply wp_bind, wp_malloc. intros [] w1 Hw1 ?; cbn [negb]; [|apply wp_ret, HN; auto].
  unfold bn_bin2bn. rewrite !decide_True by (rewrite ?length_drop; lia).
  apply wp_bind, wp_alloc; intros w2 Hw2; [|intros ?];
    (apply wp_bind, wp_alloc; intros w3 Hw3; [|intros ?]);
    assert (env_step w w3) as Hw by (by repeat (etrans; [eassumption|]));
    try (apply wp_ret, HN; [done|right; eauto using step_oom]; fail).
  apply wp_bind, wp_alloc; intros w4 Hw4; [|intros ?; apply wp_ret, HN;
    [by etrans|right; eauto using step_oom]].
  assert (env_step w w4) by (by etrans).
  destruct (bool_decide _); apply wp_ret; [by apply HS|by apply HN; auto].
Qed.

(** The context, and the three verification calls. *)
Lemma wp_evp_verifies key msg sb w (Q : Z → world → Prop) :
  (∀ w', env_step w w' → evp_verifies key msg sb = true → Q 0 w') →
  (∀ w', env_step w w' → evp_verifies key msg sb = false ∨ ¬ no_oom w → Q (-1) w') →
  wp (ctx ← alloc EVP_MD_CTX_blank;
      match ctx with
      | None => mret (-1)
      | Some ctx =>
          '(init, ctx) ← ssl_call (EVP_DigestVerifyInit ctx EVP_sha256 key) ctx;
          '(update, ctx) ← ssl_call (EVP_DigestVerifyUpdate ctx msg) ctx;
          '(final, _) ← ssl_call (EVP_DigestVerifyFinal ctx sb, tt) tt;
          mret (if (init =? 1) && (update =? 1) && (final =? 1) then 0 else -1)
      end) w Q.
Proof.
  intros HS HN. apply wp_bind, wp_alloc; intros w1 Hw1; [|intros ?; by apply wp_ret, HN; auto].
  assert (∀ w' i c u f, env_step w1 w' → ¬ no_oom w → i = 0 ∨ u = 0 ∨ f = 0 →
    c = (if (i =? 1) && (u =? 1) && (f =? 1) then 0 else -1) → wp (mret c : C Z) w' Q) as Hoom.
  { intros w' i c u f ? ? Hz ->. apply wp_ret.
    destruct (i =? 1) eqn:?, (u =? 1) eqn:?, (f =? 1) eqn:?; simpl; try lia;
      (apply HN; [by etrans|by right]). }
  unfold evp_verifies in HS, HN.
  destruct (EVP_DigestVerifyInit EVP_MD_CTX_blank EVP_sha256 key) as [i c1] eqn:Hi.
  apply wp_bind, wp_ssl_call; intros w2 Hw2; [|intros Ho2].
  2:{ apply wp_bind, (wp_mono _ _ (λ _ w', env_step w1 w')).
      { destruct (EVP_DigestVerifyUpdate _ _) eqn:E.
        apply wp_ssl_call; intros; rewrite ?E; by etrans. }
      intros [u c2] w3 Hw3. apply wp_bind, wp_ssl_call; intros w4 Hw4; [|intros _];
        (eapply (Hoom _ 0 _ u); [by etrans|eauto using step_oom|by left|done]). }
  destruct (EVP_DigestVerifyUpdate c1 msg) as [u c2] eqn:Hu.
  apply wp_bind, wp_ssl_call; intros w3 Hw3; [|intros Ho3].
  2:{ apply wp_bind, wp_ssl_call; intros w4 Hw4; [|intros _];
        (eapply (Hoom _ i _ 0); [by repeat (etrans; [eassumption|])
          |eauto using step_oom|by right; left|done]). }
  apply wp_bind, wp_ssl_call; intros w4 Hw4; [|intros Ho4].
  2:{ eapply (Hoom _ i _ u 0); [by repeat (etrans; [eassumption|])
          |eauto 6 using step_oom|by right; right|done]. }
  apply wp_ret. assert (env_step w w4) by (by repeat (etrans; [eassumption|])).
  destruct (_ && _) eqn:E; [by apply HS|by apply HN; auto].
Qed.

(** What [verify_signature_with_jwk] accepts. *)
Definition signature_accepted (token : string) (proof : OpenDBSC_ProofJWT) (jwk_json : cstr)
    : bool :=
  match p_algorithm proof with
  | None => false
  | Some alg =>
      String.eqb alg "none" ||
      match jwk_json, p_signature proof with
      | Some key, Some sig => signed_by alg key token sig
      | _, _ => false
      end
  end.

Lemma wp_verify_signature_with_jwk token proof jwk_json w (Q : Z → world → Prop) :
  (∀ w', env_step w w' → signature_accepted token proof jwk_json = true → Q 0 w') →
  (∀ w', env_step w w' → signature_accepted token proof jwk_json = false ∨ ¬ no_oom w →
     Q (-1) w') →
  wp (verify_signature_with_jwk (Some token) (Some proof) jwk_json) w Q.
Proof.
  intros HS HN. unfold verify_signature_with_jwk, signature_accepted in *.
  cbn [mbind option_bind]. destruct (p_algorithm proof) as [alg|]; cbn [mbind option_bind];
    [|by apply wp_ret, HN; auto].
  destruct (String.eqb alg "none"); [by apply wp_ret, HS|]. cbn [orb] in HS, HN.
  unfold signed_by in HS, HN.
  destruct (String.eqb alg "ES256" || String.eqb alg "RS256") eqn:Halg.
  2:{ apply orb_false_iff in Halg as [-> ->]. apply wp_ret, HN; [done|left].
      by destruct jwk_json, (p_signature proof). }
  assert (negb (String.eqb alg "ES256") && negb (String.eqb alg "RS256") = false) as ->.
  { by destruct (String.eqb alg "ES256"), (String.eqb alg "RS256"). }
  destruct jwk_json as [key|], (p_signature proof) as [sig|]; try (by apply wp_ret, HN; auto).
  cbn [andb] in HS, HN. rewrite split_jwt_parts.
  destruct (token_parts token) as [[[h p] s]|] eqn:Ht; cbn [fmap option_fmap option_map];
    [|by apply wp_ret, HN; auto].
  destruct (token_parts_take _ _ _ _ Ht) as (_ & _ & -> & _ & _ & ->).
  assert (∀ B (r : option B) w1 w2 (E : r = None ∨ ¬ no_oom w1), env_step w w1 → env_step w1 w2 →
    (r = None → Q (-1) w2) → wp (mret (-1) : C Z) w2 Q) as Hfail.
  { intros B r w1 w2 [E|E] ?? Hr; apply wp_ret; [by apply Hr|].
    apply HN; [by etrans|right; eauto using step_oom]. }
  apply wp_bind, wp_b64_decode.
  2:{ intros w1 ? E. eapply (Hfail _ _ w w1 E); [done|done|]. intros E'. apply HN; [done|left].
      unfold signature_bytes. by rewrite E'. }
  intros b w1 Hw1 Hb. change (negb (0 =? 0)) with false. cbn match. apply wp_bind, wp_deref.
  apply wp_bind, (wp_signature_bytes alg sig); [| |done].
  2:{ intros b' n w2 ? E. eapply (Hfail _ _ w1 w2 E); [done|done|]. intros E'.
      apply HN; [by etrans|left]. by rewrite E'. }
  intros sb w2 Hw2 Hsb. rewrite Hsb in HS, HN. change (negb (0 =? 0)) with false. cbn match.
  assert (env_step w w2) by (by etrans).
  apply wp_bind, wp_json_parse.
  2:{ intros w3 ? E. eapply (Hfail _ _ w2 w3 E); [done|done|]. intros E'.
      apply HN; [by etrans|left]. by rewrite E'. }
  intros j w3 Hw3 Hj. rewrite Hj in HS, HN. cbn [mbind option_bind] in HS, HN.
  assert (env_step w w3) by (by etrans).
  apply wp_bind, wp_evp_pkey_from_jwk.
  2:{ intros w4 ? E. eapply (Hfail _ _ w3 w4 E); [done|done|]. intros E'.
      apply HN; [by etrans|left]. by rewrite E'. }
  intros k w4 Hw4 Hk. rewrite Hk in HS, HN. assert (env_step w w4) by (by etrans).
  rewrite take_ge by lia. apply wp_evp_verifies; intros w5 ? E.
  - apply HS; [by etrans|done].
  - apply HN; [by etrans|]. destruct E; [by left|right; eauto using step_oom].
Qed.

(** *** The two verifications of a proof *)

Definition type_ok (p : OpenDBSC_ProofJWT) : bool := bool_decide (p_type p = Some "dbsc+jwt").

(** Registration: the proof carries its key, unless it is unsigned. *)
Definition registration_rules (p : OpenDBSC_ProofJWT) : bool :=
  Bool.eqb (bool_decide (p_algorithm p = Some "none")) (bool_decide (p_jwk p = None)).

Definition registration_checks (token : string) (p : OpenDBSC_ProofJWT) : bool :=
  type_ok p && registration_rules p && signature_accepted token p (p_jwk p).

(** Refresh: the proof carries no key and is signed by the given one. *)
Definition refresh_checks (token key : string) (p : OpenDBSC_ProofJWT) : bool :=
  bool_decide (p_jwk p = None) && type_ok p && bool_decide (p_algorithm p ≠ Some "none") &&
  signature_accepted token p (Some key).

Definition accepts (checks : OpenDBSC_ProofJWT → bool) (token : string) : bool :=
  match token_proof token with Some r => checks r | None => false end.

Lemma check_proof_type_spec p : check_proof_type p = if type_ok p then 0 else -1.
Proof.
  unfold check_proof_type, type_ok. destruct (p_type p) as [t|]; [|done].
  destruct (String.eqb_spec t "dbsc+jwt") as [->|Ht]; [done|].
  rewrite bool_decide_false by congruence. done.
Qed.

Lemma wp_check_registration_jwk_rules p w (Q : Z → world → Prop) :
  p_algorithm p ≠ None → Q (if registration_rules p then 0 else -1) w →
  wp (check_registration_jwk_rules p) w Q.
Proof.
  intros Ha HQ. unfold check_registration_jwk_rules, registration_rules in *.
  destruct (p_algorithm p) as [alg|]; [|done]. apply wp_bind, wp_deref, wp_ret.
  destruct (String.eqb_spec alg "none") as [->|Hn].
  - by destruct (bool_decide (p_jwk p = None)).
  - rewrite bool_decide_false in HQ by congruence. by destruct (bool_decide (p_jwk p = None)).
Qed.

(** The checks were made on a copy, which is exact when nothing failed. *)
Lemma checks_of_copy w p r token (checks : OpenDBSC_ProofJWT → bool) :
  token_proof token = Some r → proof_copy w p r → checks p = false →
  accepts checks token = false ∨ ¬ no_oom w.
Proof.
  intros Hr Hp Hc. destruct (decide (w_alloc w = [])) as [Hw|]; [left|by right].
  unfold accepts. rewrite Hr. by rewrite <-(proof_copy_exact w p r Hw Hp).
Qed.

(** [target] after the call, when the caller gave one. *)
Definition proof_out (proof : option OpenDBSC_ProofJWT) (p : OpenDBSC_ProofJWT)
    : option OpenDBSC_ProofJWT := (λ _, p) <$> proof.

Lemma wp_jwt_decode_local token p0 w (Q : Z * OpenDBSC_ProofJWT → world → Prop) :
  (∀ p r w', env_step w w' → token_proof token = Some r → proof_copy w p r → Q (0, p) w') →
  (∀ p w', env_step w w' → token_proof token = None ∨ ¬ no_oom w → Q (-1, p) w') →
  wp (on_local (opendbsc_jwt_decode (Some token)) p0) w Q.
Proof.
  intros HS HN. apply wp_bind, wp_jwt_decode.
  - intros p r w' ???. apply wp_bind, wp_deref, wp_ret. by eapply HS.
  - intros p w' ???. apply wp_bind, wp_deref, wp_ret. by apply HN.
Qed.

Lemma wp_jwt_decode_and_verify token proof w (Q : Z * option OpenDBSC_ProofJWT → world → Prop) :
  (∀ p r w', env_step w w' → token_proof token = Some r → proof_copy w p r →
     registration_checks token p = true → Q (0, proof_out proof p) w') →
  (∀ p w', env_step w w' → accepts (registration_checks token) token = false ∨ ¬ no_oom w →
     Q (-1, proof_out proof p) w') →
  wp (opendbsc_jwt_decode_and_verify (Some token) proof) w Q.
Proof.
  intros HS HN. unfold opendbsc_jwt_decode_and_verify.
  apply wp_bind, wp_jwt_decode_local.
  2:{ intros p w1 ? E. apply wp_ret, HN; [done|]. unfold accepts.
      destruct E as [->|?]; [by left|by right]. }
  intros p r w1 Hw1 Hr Hp. cbn [negb Z.eqb].
  assert (registration_checks token p = false → ∀ w', env_step w w' →
    wp (mret (-1, proof_out proof p) : C (Z * option OpenDBSC_ProofJWT)) w' Q) as Hfail.
  { intros Hc w' ?. apply wp_ret, HN; [done|]. by eapply checks_of_copy. }
  unfold registration_checks in *. rewrite check_proof_type_spec.
  destruct (type_ok p) eqn:E1; cbn [negb Z.eqb]; [|by apply Hfail].
  apply wp_bind, wp_check_registration_jwk_rules; [apply Hp|].
  destruct (registration_rules p) eqn:E2; cbn [negb Z.eqb]; [|by apply Hfail].
  apply wp_bind, wp_verify_signature_with_jwk.
  - intros w2 ? E. apply wp_ret, (HS p r); [by etrans|done|done|by rewrite E1, E2, E].
  - intros w2 ? E. destruct E as [E|?].
    + apply Hfail; [by rewrite E|by etrans].
    + apply wp_ret, HN; [by etrans|right; eauto using step_oom].
Qed.

Lemma wp_jwt_verify_with_jwk token key proof w (Q : Z * option OpenDBSC_ProofJWT → world → Prop) :
  (∀ p r w', env_step w w' → token_proof token = Some r → proof_copy w p r →
     refresh_checks token key p = true → Q (0, proof_out proof p) w') →
  (∀ p w', env_step w w' → accepts (refresh_checks token key) token = false ∨ ¬ no_oom w →
     Q (-1, proof_out proof p) w') →
  wp (opendbsc_jwt_verify_with_jwk (Some token) (Some key) proof) w Q.
Proof.
  intros HS HN. unfold opendbsc_jwt_verify_with_jwk.
  apply wp_bind, wp_jwt_decode_local.
  2:{ intros p w1 ? E. apply wp_ret, HN; [done|]. unfold accepts.
      destruct E as [->|?]; [by left|by right]. }
  intros p r w1 Hw1 Hr Hp. cbn [negb Z.eqb].
  assert (refresh_checks token key p = false → ∀ w', env_step w w' →
    wp (mret (-1, proof_out proof p) : C (Z * option OpenDBSC_ProofJWT)) w' Q) as Hfail.
  { intros Hc w' ?. apply wp_ret, HN; [done|]. by eapply checks_of_copy. }
  unfold refresh_checks in *.
  destruct (bool_decide (p_jwk p = None)) eqn:E2; cbn [negb]; [|by apply Hfail].
  rewrite check_proof_type_spec. destruct (type_ok p) eqn:E1; cbn [negb Z.eqb]; [|by apply Hfail].
  destruct (p_algorithm p) as [alg|] eqn:Ha; [|by destruct Hp as (_ & _ & ? & _)].
  apply wp_bind, wp_deref. destruct (String.eqb_spec alg "none") as [->|Hn].
  { apply Hfail; [|done]. rewrite bool_decide_false; [done|]. by intros []. }
  rewrite (bool_decide_true (Some alg ≠ Some "none")) in * by congruence.
  apply wp_bind, wp_verify_signature_with_jwk.
  - intros w2 ? E. apply wp_ret, (HS p r); [by etrans|done|done|].
    by rewrite E1, E2, E, Ha, bool_decide_true by congruence.
  - intros w2 ? E. destruct E as [E|?].
    + apply Hfail; [by rewrite E|by etrans].
    + apply wp_ret, HN; [by etrans|right; eauto using step_oom].
Qed.

End verifying.

(** ** Properties *)

(** C20. Registration proofs, soundness.  Whatever the allocator does and
    whatever the token, [opendbsc_jwt_decode_and_verify] returns without
    undefined behaviour; when it returns 0 the decoded proof is the token's
    (its algorithm and challenge exactly, the other fields unless their
    duplication failed), its type is "dbsc+jwt", and either it is an unsigned
    proof ("none") that carries no key, or its algorithm is ES256 or RS256,
    it carries a key, and OpenSSL verified the token's first two parts under
    that very key. *)
Theorem jwt_registration_proof_sound `{CJSON, OpenSSL} (token : string)
    (p0 : OpenDBSC_ProofJWT) (w : world) :
  wp (opendbsc_jwt_decode_and_verify (Some token) (Some p0)) w (λ '(rc, out) w',
    env_step w w' ∧
    (rc = -1 ∨
     rc = 0 ∧ ∃ p r, out = Some p ∧ token_proof token = Some r ∧ proof_copy w p r ∧
       p_type p = Some "dbsc+jwt" ∧
       (p_algorithm p = Some "none" ∧ p_jwk p = None ∨
        ∃ alg key sig, p_algorithm p = Some alg ∧ (alg = "ES256" ∨ alg = "RS256") ∧
          p_jwk p = Some key ∧ p_signature p = Some sig ∧
          signed_by alg key token sig = true))).
Proof.
  apply wp_jwt_decode_and_verify; [|by auto].
  intros p r w' Hw Hr Hp Hc. split; [done|right; split; [done|]]. exists p, r.
  apply andb_true_iff in Hc as [[Ht%bool_decide_eq_true_1 Hrules]%andb_true_iff Hs].
  split_and!; try done. unfold registration_rules, signature_accepted in *.
  destruct (p_algorithm p) as [alg|]; [|done].
  destruct (String.eqb_spec alg "none") as [->|Hn].
  - left. split; [done|]. rewrite bool_decide_true in Hrules by done.
    by apply Bool.eqb_prop, eq_sym, bool_decide_eq_true_1 in Hrules.
  - right. cbn [orb] in Hs. destruct (p_jwk p) as [key|]; [|done].
    destruct (p_signature p) as [sig|]; [|done]. exists alg, key, sig. split_and!; try done.
    unfold signed_by in Hs. apply andb_true_iff in Hs as [Ha _].
    apply orb_true_iff in Ha as [->%String.eqb_eq| ->%String.eqb_eq]; auto.
Qed.

(** C21. Refresh proofs are pinned to the registered key.  Whatever the
    allocator does and whatever the token, [opendbsc_jwt_verify_with_jwk]
    returns without undefined behaviour; when it returns 0 the proof is the
    token's, its type is "dbsc+jwt", its algorithm is ES256 or RS256, never
    "none", the decoded proof holds no key of its own, and OpenSSL verified the
    token's first two parts under the key of the caller. *)
Theorem jwt_refresh_proof_pinned `{CJSON, OpenSSL} (token key : string)
    (p0 : OpenDBSC_ProofJWT) (w : world) :
  wp (opendbsc_jwt_verify_with_jwk (Some token) (Some key) (Some p0)) w (λ '(rc, out) w',
    env_step w w' ∧
    (rc = -1 ∨
     rc = 0 ∧ ∃ p r alg sig, out = Some p ∧ token_proof token = Some r ∧ proof_copy w p r ∧
       p_type p = Some "dbsc+jwt" ∧ p_jwk p = None ∧
       p_algorithm p = Some alg ∧ (alg = "ES256" ∨ alg = "RS256") ∧
       p_signature p = Some sig ∧ signed_by alg key token sig = true)).
Proof.
  apply wp_jwt_verify_with_jwk; [|by auto].
  intros p r w' Hw Hr Hp Hc. split; [done|right; split; [done|]].
  apply andb_true_iff in Hc as [[[Hj%bool_decide_eq_true_1 Ht%bool_decide_eq_true_1]%andb_true_iff
    Hn%bool_decide_eq_true_1]%andb_true_iff Hs].
  unfold signature_accepted in Hs. destruct (p_algorithm p) as [alg|] eqn:Ha; [|done].
  destruct (String.eqb_spec alg "none") as [->|_]; [done|]. cbn [orb] in Hs.
  destruct (p_signature p) as [sig|] eqn:Hsig; [|done]. exists p, r, alg, sig.
  split_and!; try done. unfold signed_by in Hs. apply andb_true_iff in Hs as [Hes _].
  apply orb_true_iff in Hes as [->%String.eqb_eq| ->%String.eqb_eq]; auto.
Qed.

(** C22. Decoding and verifying, exactly.  When no allocation fails the decoder
    returns the reference reading of every token, and the two verifications
    return 0 with that reading exactly when it passes their checks (type, the
    rules on the embedded key, the algorithm, the signature), -1 otherwise. *)
Theorem jwt_verification_exact `{CJSON, OpenSSL} (token key : string)
    (p0 : OpenDBSC_ProofJWT) (w : world) :
  no_oom w →
  wp (opendbsc_jwt_decode (Some token) (Some p0)) w (λ '(rc, out) _,
    match token_proof token with Some r => rc = 0 ∧ out = Some r | None => rc = -1 end) ∧
  wp (opendbsc_jwt_decode_and_verify (Some token) (Some p0)) w (λ '(rc, out) _,
    if accepts (registration_checks token) token then rc = 0 ∧ out = token_proof token
    else rc = -1) ∧
  wp (opendbsc_jwt_verify_with_jwk (Some token) (Some key) (Some p0)) w (λ '(rc, out) _,
    if accepts (refresh_checks token key) token then rc = 0 ∧ out = token_proof token
    else rc = -1).
Proof.
  intros Hw. split_and!.
  - apply wp_jwt_decode; [|by intros p w' _ _ [->|?]].
    intros p r w' _ -> Hp%proof_copy_exact; [|done]. by subst p.
  - apply wp_jwt_decode_and_verify; [|by intros p w' _ [->|?]].
    intros p r w' _ Hr Hp%proof_copy_exact Hc; [|done]. subst p.
    unfold accepts. by rewrite Hr, Hc.
  - apply wp_jwt_verify_with_jwk; [|by intros p w' _ [->|?]].
    intros p r w' _ Hr Hp%proof_copy_exact Hc; [|done]. subst p.
    unfold accepts. by rewrite Hr, Hc.
Qed.

(** A registration proof for the challenge "c1", signed with [ref_key]. *)
Definition sample_header : json :=
  JObject [("alg", JString "ES256"); ("typ", JString "dbsc+jwt"); ("jwk", ref_jwk)].
Definition sample_payload : json := JObject [("jti", JString "c1")].
Definition sample_token : string := ref_token sample_header sample_payload ref_key.

Lemma jwt_verification_exact_witness :
  no_oom (fair_world 0) ∧ accepts (registration_checks sample_token) sample_token = true ∧
  wp (opendbsc_jwt_decode_and_verify (Some sample_token) (Some proof_default)) (fair_world 0)
    (λ '(rc, out) _,
      if accepts (registration_checks sample_token) sample_token
      then rc = 0 ∧ out = token_proof sample_token else rc = -1).
Proof.
  split; [reflexivity|]. split; [vm_compute; reflexivity|].
  exact (proj1 (proj2 (jwt_verification_exact sample_token "" proof_default (fair_world 0)
                         eq_refl))).
Defined.

(** An embedded key can go unnoticed.  Refresh proofs must not carry a key,
    but the decoder takes a failed duplication of the key for its absence: a
    token that carries one, and is refused when memory suffices, is accepted
    when exactly that allocation fails. *)
Theorem jwt_embedded_key_unnoticed_oom :
  let key := json_print ref_jwk in
  let w := World (replicate 11 true ++ [false]) 0 [] [] [] [] in
  accepts (refresh_checks sample_token key) sample_token = false ∧
  wp (opendbsc_jwt_verify_with_jwk (Some sample_token) (Some key) (Some proof_default))
    (fair_world 0) (λ r _, r.1 = -1) ∧
  wp (opendbsc_jwt_verify_with_jwk (Some sample_token) (Some key) (Some proof_default))
    w (λ r _, r.1 = 0).
Proof. vm_compute. auto. Qed.
