(* ===== verification/Instruction.v ===== *)
(** [src/protocol/instruction.c] and [include/protocol/instruction.h]: the
    session instruction, its growable arrays and its JSON form.  An array with
    its count is the list of its initialised elements; a write at or past the
    capacity is undefined behaviour. *)

From S2P Require Export Session External RefLibs.
From stdpp Require Import options.
#[local] Open Scope Z_scope.

(** ** Data *)

Record OpenDBSC_ScopeRule := ScopeRule { r_type : cstr; r_domain : cstr; r_path : cstr }.

Record OpenDBSC_SessionScope := SessionScope {
  sc_origin : cstr;
  sc_include_site : bool;
  sc_specification : list OpenDBSC_ScopeRule;
  sc_specification_capacity : nat
}.

Record OpenDBSC_SessionCredential := SessionCredential {
  c_type : cstr;
  c_name : cstr;
  c_attributes : cstr
}.

Record OpenDBSC_SessionInstruction := SessionInstruction {
  i_session_identifier : cstr;
  i_refresh_url : cstr;
  i_continue_session : bool;
  i_has_continue : bool;
  i_scope : OpenDBSC_SessionScope;
  i_credentials : list OpenDBSC_SessionCredential;
  i_credentials_capacity : nat;
  i_allowed_refresh_initiators : list string;
  i_allowed_refresh_initiators_capacity : nat
}.

Definition rule_default : OpenDBSC_ScopeRule := ScopeRule None None None.
Definition scope_default : OpenDBSC_SessionScope := SessionScope None false [] 0.
Definition credential_default : OpenDBSC_SessionCredential := SessionCredential None None None.
Definition instruction_default : OpenDBSC_SessionInstruction :=
  SessionInstruction None None true false scope_default [] 0 [] 0.

(** Assignments to one field. *)
Definition with_session_identifier v (i : OpenDBSC_SessionInstruction) :=
  SessionInstruction v (i_refresh_url i) (i_continue_session i) (i_has_continue i) (i_scope i)
    (i_credentials i) (i_credentials_capacity i) (i_allowed_refresh_initiators i)
    (i_allowed_refresh_initiators_capacity i).
Definition with_refresh_url v (i : OpenDBSC_SessionInstruction) :=
  SessionInstruction (i_session_identifier i) v (i_continue_session i) (i_has_continue i)
    (i_scope i) (i_credentials i) (i_credentials_capacity i) (i_allowed_refresh_initiators i)
    (i_allowed_refresh_initiators_capacity i).
Definition with_continue c h (i : OpenDBSC_SessionInstruction) :=
  SessionInstruction (i_session_identifier i) (i_refresh_url i) c h (i_scope i)
    (i_credentials i) (i_credentials_capacity i) (i_allowed_refresh_initiators i)
    (i_allowed_refresh_initiators_capacity i).
Definition with_scope v (i : OpenDBSC_SessionInstruction) :=
  SessionInstruction (i_session_identifier i) (i_refresh_url i) (i_continue_session i)
    (i_has_continue i) v (i_credentials i) (i_credentials_capacity i)
    (i_allowed_refresh_initiators i) (i_allowed_refresh_initiators_capacity i).
Definition with_credentials l cap (i : OpenDBSC_SessionInstruction) :=
  SessionInstruction (i_session_identifier i) (i_refresh_url i) (i_continue_session i)
    (i_has_continue i) (i_scope i) l cap (i_allowed_refresh_initiators i)
    (i_allowed_refresh_initiators_capacity i).
Definition with_initiators l cap (i : OpenDBSC_SessionInstruction) :=
  SessionInstruction (i_session_identifier i) (i_refresh_url i) (i_continue_session i)
    (i_has_continue i) (i_scope i) (i_credentials i) (i_credentials_capacity i) l cap.
Definition with_specification l cap (s : OpenDBSC_SessionScope) :=
  SessionScope (sc_origin s) (sc_include_site s) l cap.

(** ** Internal helpers *)

(** The [set_string] of this file. *)
Definition instruction_set_string (field value : cstr) : C (Z * cstr) :=
  match value with
  | None => mret (0, None)
  | Some v =>
      copy ← strdup v;
      match copy with None => mret (-1, field) | Some c => mret (0, Some c) end
  end.

(** The return code and the new capacity. *)
Definition grow_array (count capacity : nat) : C (Z * nat) :=
  if decide (count < capacity)%nat then mret (0, capacity) else
  let new_capacity := if decide (capacity = 0%nat) then 4%nat else (capacity * 2)%nat in
  ok ← malloc;
  if ok : bool then mret (0, new_capacity) else mret (-1, capacity).

(** [array[count++] = x]. *)
Definition array_push {A} (l : list A) (capacity : nat) (x : A) : C (list A) :=
  if decide (length l < capacity)%nat then mret (l ++ [x]) else ub.

(** ** Rules *)

Definition opendbsc_rule_init (rule : option OpenDBSC_ScopeRule) : option OpenDBSC_ScopeRule :=
  match rule with None => None | Some _ => Some rule_default end.
Definition opendbsc_rule_free (rule : option OpenDBSC_ScopeRule) : option OpenDBSC_ScopeRule :=
  match rule with None => None | Some r => opendbsc_rule_init (Some r) end.

Definition opendbsc_rule_set_type (rule : option OpenDBSC_ScopeRule) (type : cstr)
    : C (Z * option OpenDBSC_ScopeRule) :=
  match rule with
  | None => mret (-1, None)
  | Some r =>
      '(rc, f) ← instruction_set_string (r_type r) type;
      mret (rc, Some (ScopeRule f (r_domain r) (r_path r)))
  end.
Definition opendbsc_rule_set_domain (rule : option OpenDBSC_ScopeRule) (domain : cstr)
    : C (Z * option OpenDBSC_ScopeRule) :=
  match rule with
  | None => mret (-1, None)
  | Some r =>
      '(rc, f) ← instruction_set_string (r_domain r) domain;
      mret (rc, Some (ScopeRule (r_type r) f (r_path r)))
  end.
Definition opendbsc_rule_set_path (rule : option OpenDBSC_ScopeRule) (path : cstr)
    : C (Z * option OpenDBSC_ScopeRule) :=
  match rule with
  | None => mret (-1, None)
  | Some r =>
      '(rc, f) ← instruction_set_string (r_path r) path;
      mret (rc, Some (ScopeRule (r_type r) (r_domain r) f))
  end.

(** ** Credentials *)

Definition opendbsc_credential_init (credential : option OpenDBSC_SessionCredential)
    : option OpenDBSC_SessionCredential :=
  match credential with None => None | Some _ => Some credential_default end.
Definition opendbsc_credential_free (credential : option OpenDBSC_SessionCredential)
    : option OpenDBSC_SessionCredential :=
  match credential with None => None | Some c => opendbsc_credential_init (Some c) end.

Definition opendbsc_credential_set_type (credential : option OpenDBSC_SessionCredential)
    (type : cstr) : C (Z * option OpenDBSC_SessionCredential) :=
  match credential with
  | None => mret (-1, None)
  | Some c =>
      '(rc, f) ← instruction_set_string (c_type c) type;
      mret (rc, Some (SessionCredential f (c_name c) (c_attributes c)))
  end.
Definition opendbsc_credential_set_name (credential : option OpenDBSC_SessionCredential)
    (name : cstr) : C (Z * option OpenDBSC_SessionCredential) :=
  match credential with
  | None => mret (-1, None)
  | Some c =>
      '(rc, f) ← instruction_set_string (c_name c) name;
      mret (rc, Some (SessionCredential (c_type c) f (c_attributes c)))
  end.
Definition opendbsc_credential_set_attributes (credential : option OpenDBSC_SessionCredential)
    (attributes : cstr) : C (Z * option OpenDBSC_SessionCredential) :=
  match credential with
  | None => mret (-1, None)
  | Some c =>
      '(rc, f) ← instruction_set_string (c_attributes c) attributes;
      mret (rc, Some (SessionCredential (c_type c) (c_name c) f))
  end.

(** ** The scope *)

Definition opendbsc_scope_init (scope : option OpenDBSC_SessionScope)
    : option OpenDBSC_SessionScope :=
  match scope with None => None | Some _ => Some scope_default end.
Definition opendbsc_scope_free (scope : option OpenDBSC_SessionScope)
    : option OpenDBSC_SessionScope :=
  match scope with None => None | Some s => opendbsc_scope_init (Some s) end.

Definition opendbsc_scope_set_origin (scope : option OpenDBSC_SessionScope) (origin : cstr)
    : C (Z * option OpenDBSC_SessionScope) :=
  match scope with
  | None => mret (-1, None)
  | Some s =>
      '(rc, f) ← instruction_set_string (sc_origin s) origin;
      mret (rc, Some (SessionScope f (sc_include_site s) (sc_specification s)
                        (sc_specification_capacity s)))
  end.

Definition opendbsc_scope_set_include_site (scope : option OpenDBSC_SessionScope)
    (include_site : Z) : option OpenDBSC_SessionScope :=
  match scope with
  | None => None
  | Some s =>
      Some (SessionScope (sc_origin s) (negb (include_site =? 0)) (sc_specification s)
              (sc_specification_capacity s))
  end.

(** The new slot is filled in place and counted last: on [fail] the array is
    as it was, except for its capacity. *)
Definition opendbsc_scope_add_rule (scope : option OpenDBSC_SessionScope)
    (rule : option OpenDBSC_ScopeRule) : C (Z * option OpenDBSC_SessionScope) :=
  match scope, rule with
  | Some s, Some rule =>
      '(rc, cap) ← grow_array (length (sc_specification s)) (sc_specification_capacity s);
      let s := with_specification (sc_specification s) cap s in
      if negb (rc =? 0) then mret (-1, Some s) else
      let dst := rule_default in
      '(rc, dst) ← on_local (λ d, opendbsc_rule_set_type d (r_type rule)) dst;
      if negb (rc =? 0) then mret (-1, Some s) else
      '(rc, dst) ← on_local (λ d, opendbsc_rule_set_domain d (r_domain rule)) dst;
      if negb (rc =? 0) then mret (-1, Some s) else
      '(rc, dst) ← on_local (λ d, opendbsc_rule_set_path d (r_path rule)) dst;
      if negb (rc =? 0) then mret (-1, Some s) else
      l ← array_push (sc_specification s) cap dst;
      mret (0, Some (with_specification l cap s))
  | _, _ => mret (-1, scope)
  end.

(** ** The instruction *)

Definition opendbsc_instruction_init (instruction : option OpenDBSC_SessionInstruction)
    : option OpenDBSC_SessionInstruction :=
  match instruction with None => None | Some _ => Some instruction_default end.
Definition opendbsc_instruction_free (instruction : option OpenDBSC_SessionInstruction)
    : option OpenDBSC_SessionInstruction :=
  match instruction with None => None | Some i => opendbsc_instruction_init (Some i) end.

Definition opendbsc_instruction_set_session_identifier
    (instruction : option OpenDBSC_SessionInstruction) (session_identifier : cstr)
    : C (Z * option OpenDBSC_SessionInstruction) :=
  match instruction with
  | None => mret (-1, None)
  | Some i =>
      '(rc, f) ← instruction_set_string (i_session_identifier i) session_identifier;
      mret (rc, Some (with_session_identifier f i))
  end.

Definition opendbsc_instruction_set_refresh_url
    (instruction : option OpenDBSC_SessionInstruction) (refresh_url : cstr)
    : C (Z * option OpenDBSC_SessionInstruction) :=
  match instruction with
  | None => mret (-1, None)
  | Some i =>
      '(rc, f) ← instruction_set_string (i_refresh_url i) refresh_url;
      mret (rc, Some (with_refresh_url f i))
  end.

Definition opendbsc_instruction_set_continue_session
    (instruction : option OpenDBSC_SessionInstruction) (continue_session : Z)
    : option OpenDBSC_SessionInstruction :=
  match instruction with
  | None => None
  | Some i => Some (with_continue (negb (continue_session =? 0)) true i)
  end.

Definition opendbsc_instruction_set_continue
    (instruction : option OpenDBSC_SessionInstruction) (continue_session : bool)
    : option OpenDBSC_SessionInstruction :=
  opendbsc_instruction_set_continue_session instruction (if continue_session then 1 else 0).

Definition opendbsc_instruction_add_refresh_initiator
    (instruction : option OpenDBSC_SessionInstruction) (origin : cstr)
    : C (Z * option OpenDBSC_SessionInstruction) :=
  match instruction, origin with
  | Some i, Some origin =>
      '(rc, cap) ← grow_array (length (i_allowed_refresh_initiators i))
                     (i_allowed_refresh_initiators_capacity i);
      let i := with_initiators (i_allowed_refresh_initiators i) cap i in
      if negb (rc =? 0) then mret (-1, Some i) else
      copy ← strdup origin;
      match copy with
      | None => mret (-1, Some i)
      | Some copy =>
          l ← array_push (i_allowed_refresh_initiators i) cap copy;
          mret (0, Some (with_initiators l cap i))
      end
  | _, _ => mret (-1, instruction)
  end.

Definition opendbsc_instruction_add_credential
    (instruction : option OpenDBSC_SessionInstruction)
    (credential : option OpenDBSC_SessionCredential)
    : C (Z * option OpenDBSC_SessionInstruction) :=
  match instruction, credential with
  | Some i, Some credential =>
      '(rc, cap) ← grow_array (length (i_credentials i)) (i_credentials_capacity i);
      let i := with_credentials (i_credentials i) cap i in
      if negb (rc =? 0) then mret (-1, Some i) else
      let dst := credential_default in
      '(rc, dst) ← on_local (λ d, opendbsc_credential_set_type d (c_type credential)) dst;
      if negb (rc =? 0) then mret (-1, Some i) else
      '(rc, dst) ← on_local (λ d, opendbsc_credential_set_name d (c_name credential)) dst;
      if negb (rc =? 0) then mret (-1, Some i) else
      '(rc, dst) ← on_local (λ d, opendbsc_credential_set_attributes d
                                    (c_attributes credential)) dst;
      if negb (rc =? 0) then mret (-1, Some i) else
      l ← array_push (i_credentials i) cap dst;
      mret (0, Some (with_credentials l cap i))
  | _, _ => mret (-1, instruction)
  end.

(** ** JSON *)

Section json.
Context `{CJSON}.

(** [if (v != NULL && cJSON_AddStringToObject(obj, key, v) == NULL) goto fail;] *)
Definition add_optional_string (obj : cJSON) (key : string) (v : cstr) : C (option cJSON) :=
  match v with None => mret (Some obj) | Some s => json_add_string obj key s end.

Definition scope_rule_to_json (rule : option OpenDBSC_ScopeRule) : C (option cJSON) :=
  match rule with
  | None => mret None
  | Some rule =>
      or_fail (alloc cJSON_Object) (λ obj,
      or_fail (add_optional_string obj "type" (r_type rule)) (λ obj,
      or_fail (add_optional_string obj "domain" (r_domain rule)) (λ obj,
      or_fail (add_optional_string obj "path" (r_path rule)) (λ obj,
      mret (Some obj)))))
  end.

(** [for (i = 0; i < count; i++)]: the elements converted and added in order. *)
Fixpoint items_to_json {A} (to_json : A → C (option cJSON)) (l : list A) (array : cJSON)
    : C (option cJSON) :=
  match l with
  | [] => mret (Some array)
  | x :: l' =>
      or_fail (to_json x) (λ item, items_to_json to_json l' (cJSON_AddItemToArray array item))
  end.

Definition scope_to_json (scope : option OpenDBSC_SessionScope) : C (option cJSON) :=
  match scope with
  | None => mret None
  | Some scope =>
      or_fail (alloc cJSON_Object) (λ obj,
      or_fail (add_optional_string obj "origin" (sc_origin scope)) (λ obj,
      or_fail (json_add_bool obj "include_site" (sc_include_site scope)) (λ obj,
      or_fail (alloc cJSON_Array) (λ spec,
      or_fail (items_to_json (λ r, scope_rule_to_json (Some r)) (sc_specification scope) spec)
        (λ spec,
      json_add_item obj "scope_specification" spec)))))
  end.

Definition credential_to_json (credential : option OpenDBSC_SessionCredential)
    : C (option cJSON) :=
  match credential with
  | None => mret None
  | Some c =>
      or_fail (alloc cJSON_Object) (λ obj,
      or_fail (add_optional_string obj "type" (c_type c)) (λ obj,
      or_fail (add_optional_string obj "name" (c_name c)) (λ obj,
      or_fail (add_optional_string obj "attributes" (c_attributes c)) (λ obj,
      mret (Some obj)))))
  end.

Definition opendbsc_instruction_to_json (instruction : option OpenDBSC_SessionInstruction)
    : C (option cJSON) :=
  match instruction with
  | None => mret None
  | Some i =>
      or_fail (alloc cJSON_Object) (λ obj,
      if i_has_continue i && negb (i_continue_session i) then
        json_add_bool obj "continue" false
      else
      or_fail (add_optional_string obj "session_identifier" (i_session_identifier i)) (λ obj,
      or_fail (add_optional_string obj "refresh_url" (i_refresh_url i)) (λ obj,
      or_fail (if i_has_continue i then json_add_bool obj "continue" (i_continue_session i)
               else mret (Some obj)) (λ obj,
      or_fail (if bool_decide (0 < length (i_allowed_refresh_initiators i))%nat then
                 or_fail (alloc cJSON_Array) (λ initiators,
                 or_fail (items_to_json (λ o, json_create_string (Some o))
                            (i_allowed_refresh_initiators i) initiators) (λ initiators,
                 json_add_item obj "allowed_refresh_initiators" initiators))
               else mret (Some obj)) (λ obj,
      or_fail (scope_to_json (Some (i_scope i))) (λ scope,
      or_fail (json_add_item obj "scope" scope) (λ obj,
      or_fail (alloc cJSON_Array) (λ creds,
      or_fail (items_to_json (λ c, credential_to_json (Some c)) (i_credentials i) creds) (λ creds,
      json_add_item obj "credentials" creds)))))))))
  end.

Definition opendbsc_instruction_to_string (instruction : option OpenDBSC_SessionInstruction)
    : C cstr :=
  json ← opendbsc_instruction_to_json instruction;
  match json with None => mret None | Some json => alloc (cJSON_Print json) end.

End json.

(** ** The JSON document *)

Section document.
Context `{CJSON}.

Definition with_optional (obj : cJSON) (key : string) (v : cstr) : cJSON :=
  match v with Some s => cJSON_AddItemToObject obj key (cJSON_String s) | None => obj end.

Definition array_of {A} (f : A → cJSON) (l : list A) : cJSON :=
  foldl (λ a x, cJSON_AddItemToArray a (f x)) cJSON_Array l.

Definition rule_document (r : OpenDBSC_ScopeRule) : cJSON :=
  with_optional (with_optional (with_optional cJSON_Object "type" (r_type r))
    "domain" (r_domain r)) "path" (r_path r).

Definition scope_document (s : OpenDBSC_SessionScope) : cJSON :=
  cJSON_AddItemToObject
    (cJSON_AddItemToObject (with_optional cJSON_Object "origin" (sc_origin s))
       "include_site" (cJSON_Bool (sc_include_site s)))
    "scope_specification" (array_of rule_document (sc_specification s)).

Definition credential_document (c : OpenDBSC_SessionCredential) : cJSON :=
  with_optional (with_optional (with_optional cJSON_Object "type" (c_type c))
    "name" (c_name c)) "attributes" (c_attributes c).

(** The keys of an instruction, in the order they are written. *)
Definition instruction_document (i : OpenDBSC_SessionInstruction) : cJSON :=
  if i_has_continue i && negb (i_continue_session i)
  then cJSON_AddItemToObject cJSON_Object "continue" (cJSON_Bool false)
  else
    let o := with_optional cJSON_Object "session_identifier" (i_session_identifier i) in
    let o := with_optional o "refresh_url" (i_refresh_url i) in
    let o := if i_has_continue i
             then cJSON_AddItemToObject o "continue" (cJSON_Bool (i_continue_session i)) else o in
    let o := if bool_decide (0 < length (i_allowed_refresh_initiators i))%nat
             then cJSON_AddItemToObject o "allowed_refresh_initiators"
                    (array_of cJSON_String (i_allowed_refresh_initiators i)) else o in
    let o := cJSON_AddItemToObject o "scope" (scope_document (i_scope i)) in
    cJSON_AddItemToObject o "credentials" (array_of credential_document (i_credentials i)).

Lemma computes_optional obj key v :
  wp_computes (add_optional_string obj key v) (Some (with_optional obj key v)).
Proof. destruct v; [apply computes_alloc|apply computes_ret]. Qed.

Lemma computes_items {A} (f : A → C (option cJSON)) (g : A → cJSON) l :
  (∀ x, wp_computes (f x) (Some (g x))) → ∀ a,
  wp_computes (items_to_json f l a) (Some (foldl (λ a x, cJSON_AddItemToArray a (g x)) a l)).
Proof.
  intros Hf. induction l as [|x l IH]; intros a; [apply computes_ret|].
  eapply computes_or_fail; [apply Hf|apply IH].
Qed.

Lemma computes_rule r : wp_computes (scope_rule_to_json (Some r)) (Some (rule_document r)).
Proof. eauto 6 using computes_optional with computes. Qed.

Lemma computes_credential c :
  wp_computes (credential_to_json (Some c)) (Some (credential_document c)).
Proof. eauto 6 using computes_optional with computes. Qed.

Lemma computes_scope s : wp_computes (scope_to_json (Some s)) (Some (scope_document s)).
Proof.
  repeat (eapply computes_or_fail; [solve [apply computes_alloc|apply computes_optional|
    apply computes_items, computes_rule]|]). apply computes_alloc.
Qed.

Lemma computes_instruction i :
  wp_computes (opendbsc_instruction_to_json (Some i)) (Some (instruction_document i)).
Proof.
  unfold instruction_document. cbn [opendbsc_instruction_to_json].
  eapply computes_or_fail; [apply computes_alloc|].
  destruct (i_has_continue i && negb (i_continue_session i)); [apply computes_alloc|].
  do 2 (eapply computes_or_fail; [apply computes_optional|]).
  eapply computes_or_fail; [apply computes_when, computes_alloc|].
  eapply computes_or_fail.
  { apply computes_when. eapply computes_or_fail; [apply computes_alloc|].
    eapply computes_or_fail; [|apply computes_alloc].
    apply (computes_items _ cJSON_String). intros o. apply computes_alloc. }
  eapply computes_or_fail; [apply computes_scope|].
  do 2 (eapply computes_or_fail; [apply computes_alloc|]).
  eapply computes_or_fail; [|apply computes_alloc].
  apply computes_items, computes_credential.
Qed.

Lemma computes_instruction_to_string i w Q :
  (∀ w', env_step w w' → Q (Some (cJSON_Print (instruction_document i))) w') →
  (∀ w', env_step w w' → ¬ no_oom w → Q None w') →
  wp (opendbsc_instruction_to_string (Some i)) w Q.
Proof.
  intros HS HN.
  apply (computes_wp (or_fail (opendbsc_instruction_to_json (Some i))
    (λ json, alloc (cJSON_Print json))) (cJSON_Print (instruction_document i))); [|done..].
  eapply computes_or_fail; [apply computes_instruction|apply computes_alloc].
Qed.

End document.

(** ** Growable arrays *)

Lemma instruction_set_string_eq : instruction_set_string = set_string.
Proof. done. Qed.

(** The setters when no allocation fails. *)
Lemma set_session_identifier_run i v w :
  no_oom w → opendbsc_instruction_set_session_identifier (Some i) v w
    = Ret (0, Some (with_session_identifier v i)) w.
Proof. intros Hw. simpl. by rewrite bind_unfold, set_string_run. Qed.

Lemma set_refresh_url_run i v w :
  no_oom w → opendbsc_instruction_set_refresh_url (Some i) v w
    = Ret (0, Some (with_refresh_url v i)) w.
Proof. intros Hw. simpl. by rewrite bind_unfold, set_string_run. Qed.

Lemma credential_set_type_run c v w :
  no_oom w → opendbsc_credential_set_type (Some c) v w
    = Ret (0, Some (SessionCredential v (c_name c) (c_attributes c))) w.
Proof. intros Hw. simpl. by rewrite bind_unfold, set_string_run. Qed.

Lemma credential_set_name_run c v w :
  no_oom w → opendbsc_credential_set_name (Some c) v w
    = Ret (0, Some (SessionCredential (c_type c) v (c_attributes c))) w.
Proof. intros Hw. simpl. by rewrite bind_unfold, set_string_run. Qed.

Lemma credential_set_attributes_run c v w :
  no_oom w → opendbsc_credential_set_attributes (Some c) v w
    = Ret (0, Some (SessionCredential (c_type c) (c_name c) v)) w.
Proof. intros Hw. simpl. by rewrite bind_unfold, set_string_run. Qed.

Lemma add_first_credential_run i c w :
  no_oom w → i_credentials i = [] → i_credentials_capacity i = 0%nat →
  opendbsc_instruction_add_credential (Some i) (Some c) w
    = Ret (0, Some (with_credentials [c] 4 i)) w.
Proof.
  destruct w, i. unfold no_oom. cbn. intros -> -> ->. by destruct c as [[] [] []].
Qed.

(** Room for one more element after a successful call, and never less room. *)
Lemma wp_grow_array count capacity w (Q : Z * nat → world → Prop) :
  (count ≤ capacity)%nat →
  (∀ cap w', env_step w w' → (count < cap)%nat → (capacity ≤ cap)%nat → Q (0, cap) w') →
  (∀ w', env_step w w' → ¬ no_oom w → Q (-1, capacity) w') →
  wp (grow_array count capacity) w Q.
Proof.
  intros Hc HS HN. unfold grow_array. case_decide; [by apply wp_ret, HS|].
  apply wp_bind, wp_malloc. intros [] w' ??; apply wp_ret; [|auto].
  apply HS; [done|..]; case_decide; lia.
Qed.

Lemma wp_array_push {A} (l : list A) cap x w Q :
  (length l < cap)%nat → Q (l ++ [x]) w → wp (array_push l cap x) w Q.
Proof. intros Hl HQ. unfold array_push. by rewrite decide_True. Qed.

Definition scope_wf (s : OpenDBSC_SessionScope) : Prop :=
  (length (sc_specification s) ≤ sc_specification_capacity s)%nat.

(** The counts never exceed the capacities. *)
Definition instruction_wf (i : OpenDBSC_SessionInstruction) : Prop :=
  (length (i_credentials i) ≤ i_credentials_capacity i)%nat ∧
  (length (i_allowed_refresh_initiators i) ≤ i_allowed_refresh_initiators_capacity i)%nat ∧
  scope_wf (i_scope i).

(** [with_*] on the contents, whatever the capacities. *)
Definition same_content (i j : OpenDBSC_SessionInstruction) : Prop :=
  i_session_identifier i = i_session_identifier j ∧ i_refresh_url i = i_refresh_url j ∧
  i_continue_session i = i_continue_session j ∧ i_has_continue i = i_has_continue j ∧
  i_scope i = i_scope j ∧ i_credentials i = i_credentials j ∧
  i_allowed_refresh_initiators i = i_allowed_refresh_initiators j.

Lemma wp_add_credential i c w (Q : Z * option OpenDBSC_SessionInstruction → world → Prop) :
  instruction_wf i →
  (∀ cap w', env_step w w' → (length (i_credentials i) < cap)%nat →
     Q (0, Some (with_credentials (i_credentials i ++ [c]) cap i)) w') →
  (∀ cap w', env_step w w' → ¬ no_oom w → (length (i_credentials i) ≤ cap)%nat →
     Q (-1, Some (with_credentials (i_credentials i) cap i)) w') →
  wp (opendbsc_instruction_add_credential (Some i) (Some c)) w Q.
Proof.
  intros (Hwf & _ & _) HS HN. unfold opendbsc_instruction_add_credential.
  apply wp_bind, wp_grow_array; [done| |]; [|intros w' ??; by apply wp_ret, HN].
  intros cap w1 Hw1 Hcap _. cbn [Z.eqb negb].
  assert (∀ w', env_step w1 w' → ¬ no_oom w1 →
    Q (-1, Some (with_credentials (i_credentials i) cap i)) w') as Hfail.
  { intros w' ??. apply HN; [by etrans|eauto using step_oom|lia]. }
  do 3 (apply wp_bind, wp_bind, wp_bind; rewrite instruction_set_string_eq;
    apply wp_set_string; intros;
    apply wp_ret, wp_bind, wp_deref, wp_ret; cbn [Z.eqb negb];
    [|apply wp_ret, Hfail; [by repeat (etrans; [eassumption|])|eauto 6 using step_oom]]).
  cbn. apply wp_bind, wp_array_push; [done|]. destruct c. apply wp_ret, HS; [|done].
  by repeat (etrans; [eassumption|]).
Qed.

Lemma wp_add_refresh_initiator i o w (Q : Z * option OpenDBSC_SessionInstruction → world → Prop) :
  instruction_wf i →
  (∀ cap w', env_step w w' → (length (i_allowed_refresh_initiators i) < cap)%nat →
     Q (0, Some (with_initiators (i_allowed_refresh_initiators i ++ [o]) cap i)) w') →
  (∀ cap w', env_step w w' → ¬ no_oom w → (length (i_allowed_refresh_initiators i) ≤ cap)%nat →
     Q (-1, Some (with_initiators (i_allowed_refresh_initiators i) cap i)) w') →
  wp (opendbsc_instruction_add_refresh_initiator (Some i) (Some o)) w Q.
Proof.
  intros (_ & Hwf & _) HS HN. unfold opendbsc_instruction_add_refresh_initiator.
  apply wp_bind, wp_grow_array; [done| |]; [|intros w' ??; by apply wp_ret, HN].
  intros cap w1 Hw1 Hcap _. cbn [Z.eqb negb].
  apply wp_bind, wp_alloc; intros w2 Hw2.
  - apply wp_bind, wp_array_push; [done|]. apply wp_ret, HS; [by etrans|done].
  - intros ?. apply wp_ret, HN; [by etrans|eauto using step_oom|lia].
Qed.

Lemma wp_scope_add_rule s r w (Q : Z * option OpenDBSC_SessionScope → world → Prop) :
  scope_wf s →
  (∀ cap w', env_step w w' → (length (sc_specification s) < cap)%nat →
     Q (0, Some (with_specification (sc_specification s ++ [r]) cap s)) w') →
  (∀ cap w', env_step w w' → ¬ no_oom w → (length (sc_specification s) ≤ cap)%nat →
     Q (-1, Some (with_specification (sc_specification s) cap s)) w') →
  wp (opendbsc_scope_add_rule (Some s) (Some r)) w Q.
Proof.
  intros Hwf HS HN. unfold opendbsc_scope_add_rule.
  apply wp_bind, wp_grow_array; [done| |]; [|intros w' ??; by apply wp_ret, HN].
  intros cap w1 Hw1 Hcap _. cbn [Z.eqb negb].
  assert (∀ w', env_step w1 w' → ¬ no_oom w1 →
    Q (-1, Some (with_specification (sc_specification s) cap s)) w') as Hfail.
  { intros w' ??. apply HN; [by etrans|eauto using step_oom|lia]. }
  do 3 (apply wp_bind, wp_bind, wp_bind; rewrite instruction_set_string_eq;
    apply wp_set_string; intros;
    apply wp_ret, wp_bind, wp_deref, wp_ret; cbn [Z.eqb negb];
    [|apply wp_ret, Hfail; [by repeat (etrans; [eassumption|])|eauto 6 using step_oom]]).
  cbn. apply wp_bind, wp_array_push; [done|]. destruct r. apply wp_ret, HS; [|done].
  by repeat (etrans; [eassumption|]).
Qed.

(** ** Lookups in the document *)

Section fields.
Context `{CJSON, !CJSONLaws}.

Lemma is_object_optional o k v :
  cJSON_IsObject (with_optional o k v) = cJSON_IsObject o.
Proof using Type*. destruct v; [apply is_object_add|done]. Qed.

Lemma get_item_optional o k v k' :
  cJSON_IsObject o = true →
  cJSON_GetObjectItemCaseSensitive (with_optional o k v) k' =
    match cJSON_GetObjectItemCaseSensitive o k' with
    | Some x => Some x
    | None => if String.eqb k k' then cJSON_String <$> v else None
    end.
Proof using Type*.
  intros Ho. destruct v; cbn; [by apply get_item_add|].
  destruct (cJSON_GetObjectItemCaseSensitive o k'); [done|]. by destruct (String.eqb k k').
Qed.

End fields.

Ltac lookup_fields :=
  repeat first
    [ rewrite get_item_add | rewrite get_item_optional | rewrite get_item_empty
    | rewrite is_object_add | rewrite is_object_optional | rewrite is_object_empty
    | case_match; simplify_eq | done | progress (cbn [String.eqb Ascii.eqb Bool.eqb]) ].

(** ** Properties *)

(** C37. The instruction text.  Whatever the allocator does, converting an
    instruction to text runs its loops to the end and yields the printed
    document of the instruction, with its keys, rules, initiators and
    credentials in order, or NULL, only if an allocation failed. *)
Theorem instruction_to_string_exact `{CJSON} (i : OpenDBSC_SessionInstruction) (w : world) :
  wp (opendbsc_instruction_to_string (Some i)) w (λ r w', env_step w w' ∧
    (r = Some (cJSON_Print (instruction_document i)) ∨ r = None ∧ ¬ no_oom w)) ∧
  opendbsc_instruction_to_string None w = Ret None w.
Proof. split; [|done]. apply computes_instruction_to_string; auto. Qed.

(** The keys of an instruction.  An instruction that ends the session has
    the key "continue", false, and no other of the protocol's keys; any other
    has its identifier and refresh URL when they are set, "continue" when it
    is set, "allowed_refresh_initiators" when there is one, and always a scope
    and the list of credentials. *)
Theorem instruction_document_keys `{CJSON, !CJSONLaws} (i : OpenDBSC_SessionInstruction) :
  let get := cJSON_GetObjectItemCaseSensitive (instruction_document i) in
  if i_has_continue i && negb (i_continue_session i) then
    get "continue" = Some (cJSON_Bool false) ∧
    ∀ k, k ≠ "continue" → get k = None
  else
    get "session_identifier" = cJSON_String <$> i_session_identifier i ∧
    get "refresh_url" = cJSON_String <$> i_refresh_url i ∧
    get "continue" = (if i_has_continue i then Some (cJSON_Bool (i_continue_session i)) else None) ∧
    get "allowed_refresh_initiators" =
      (if bool_decide (0 < length (i_allowed_refresh_initiators i))%nat
       then Some (array_of cJSON_String (i_allowed_refresh_initiators i)) else None) ∧
    get "scope" = Some (scope_document (i_scope i)) ∧
    get "credentials" = Some (array_of credential_document (i_credentials i)).
Proof.
  cbn zeta. unfold instruction_document.
  destruct (i_has_continue i && negb (i_continue_session i)).
  - rewrite !get_item_add, !get_item_empty by apply is_object_empty. split; [done|].
    intros k Hk. rewrite get_item_add, get_item_empty by apply is_object_empty.
    destruct (String.eqb_spec "continue" k); congruence.
  - split_and!; destruct (i_has_continue i), (bool_decide _); lookup_fields.
Qed.

(** An instruction as the manager builds it. *)
Definition sample_instruction : OpenDBSC_SessionInstruction :=
  SessionInstruction (Some "s-1") (Some "/dbsc/refresh") true true scope_default
    [SessionCredential (Some "cookie") (Some "session_id") (Some "Path=/")] 4 [] 0.

Lemma instruction_document_keys_witness :
  cJSON_GetObjectItemCaseSensitive (instruction_document sample_instruction)
    "session_identifier" = Some (cJSON_String "s-1") ∧
  cJSON_GetObjectItemCaseSensitive (instruction_document sample_instruction)
    "allowed_refresh_initiators" = None.
Proof.
  destruct (instruction_document_keys (H := ref_CJSON) sample_instruction)
    as (Hid & _ & _ & Hinit & _).
  split; [exact Hid|exact Hinit].
Defined.

(** The arrays of an instruction.  Whatever the allocator does, adding a
    rule, a credential or an initiator to a well-formed instruction (no count
    above its capacity) writes inside the array: it returns 0 with exactly
    that element appended, or -1, only if an allocation failed, with the same
    elements as before; the instruction stays well-formed. *)
Theorem instruction_arrays_grow_safely (i : OpenDBSC_SessionInstruction)
    (c : OpenDBSC_SessionCredential) (o : string) (r : OpenDBSC_ScopeRule) (w : world) :
  instruction_wf i →
  wp (opendbsc_instruction_add_credential (Some i) (Some c)) w (λ '(rc, out) _,
    ∃ i', out = Some i' ∧ instruction_wf i' ∧
      (rc = 0 ∧ (∃ cap, i' = with_credentials (i_credentials i ++ [c]) cap i) ∨
       rc = -1 ∧ ¬ no_oom w ∧ same_content i' i)) ∧
  wp (opendbsc_instruction_add_refresh_initiator (Some i) (Some o)) w (λ '(rc, out) _,
    ∃ i', out = Some i' ∧ instruction_wf i' ∧
      (rc = 0 ∧ (∃ cap, i' = with_initiators (i_allowed_refresh_initiators i ++ [o]) cap i) ∨
       rc = -1 ∧ ¬ no_oom w ∧ same_content i' i)) ∧
  wp (opendbsc_scope_add_rule (Some (i_scope i)) (Some r)) w (λ '(rc, out) _,
    ∃ s', out = Some s' ∧ scope_wf s' ∧
      (rc = 0 ∧ sc_specification s' = sc_specification (i_scope i) ++ [r] ∨
       rc = -1 ∧ ¬ no_oom w ∧ sc_specification s' = sc_specification (i_scope i))).
Proof.
  intros Hwf. pose proof Hwf as (H1 & H2 & H3). unfold scope_wf in H3.
  split_and!; [apply wp_add_credential|apply wp_add_refresh_initiator|apply wp_scope_add_rule];
    try done; intros cap w' Hw; intros; eexists; (split; [done|]);
    unfold instruction_wf, scope_wf; cbn; rewrite ?length_app; cbn [length];
    (split; [repeat split; (done || lia)|]); (left; split; [done|by eauto]) ||
    (right; by split_and!).
Qed.

Lemma instruction_arrays_grow_safely_witness :
  instruction_wf sample_instruction ∧
  wp (opendbsc_instruction_add_refresh_initiator (Some sample_instruction) (Some "https://a"))
    (fair_world 0) (λ '(rc, out) _,
    ∃ i', out = Some i' ∧ instruction_wf i' ∧
      (rc = 0 ∧ (∃ cap, i' = with_initiators ["https://a"] cap sample_instruction) ∨
       rc = -1 ∧ ¬ no_oom (fair_world 0) ∧ same_content i' sample_instruction)).
Proof.
  assert (instruction_wf sample_instruction) as Hwf by (vm_compute; repeat constructor).
  split; [exact Hwf|].
  exact (proj1 (proj2 (instruction_arrays_grow_safely sample_instruction credential_default
    "https://a" rule_default (fair_world 0) Hwf))).
Defined.
