(* ===== verification/InstructionHeap.v ===== *)
(** [src/protocol/instruction.c] over the heap of [Heap.v]: the strings of a
    session instruction, its three growable arrays, and every allocation and
    [free] of the builder.  The functions are those of [Instruction.v] with
    pointers for strings; the theorem at the end says what a program that
    builds an instruction and frees it does with its blocks.  The JSON document
    that an instruction is printed from is a tree of cJSON, with one block for
    each tree that has not been added to another: every label of the
    conversion deletes the trees that are left. *)

From S2P Require Export SessionHeap Instruction.
From stdpp Require Import options.
#[local] Open Scope Z_scope.

(** ** Data *)

Record rule_of (S : Type) := RuleOf {
  hr_type : option S; hr_domain : option S; hr_path : option S }.
Arguments RuleOf {_} _ _ _.
Arguments hr_type {_} _.
Arguments hr_domain {_} _.
Arguments hr_path {_} _.

Record credential_of (S : Type) := CredentialOf {
  hc_type : option S; hc_name : option S; hc_attributes : option S }.
Arguments CredentialOf {_} _ _ _.
Arguments hc_type {_} _.
Arguments hc_name {_} _.
Arguments hc_attributes {_} _.

(** A growable array of [A]: the pointer, the initialised elements, the
    capacity. *)
Record array_of_ (A : Type) := ArrayOf {
  ha_array : option ptr; ha_items : list A; ha_capacity : nat }.
Arguments ArrayOf {_} _ _ _.
Arguments ha_array {_} _.
Arguments ha_items {_} _.
Arguments ha_capacity {_} _.
Abbreviation array := array_of_.

Record scope_of (S : Type) := ScopeOf {
  hsc_origin : option S; hsc_include_site : bool; hsc_specification : array (rule_of S) }.
Arguments ScopeOf {_} _ _ _.
Arguments hsc_origin {_} _.
Arguments hsc_include_site {_} _.
Arguments hsc_specification {_} _.

Record instruction_of (S : Type) := InstructionOf {
  hi_session_identifier : option S;
  hi_refresh_url : option S;
  hi_continue_session : bool;
  hi_has_continue : bool;
  hi_scope : scope_of S;
  hi_credentials : array (credential_of S);
  hi_initiators : array S
}.
Arguments InstructionOf {_} _ _ _ _ _ _ _.
Arguments hi_session_identifier {_} _.
Arguments hi_refresh_url {_} _.
Arguments hi_continue_session {_} _.
Arguments hi_has_continue {_} _.
Arguments hi_scope {_} _.
Arguments hi_credentials {_} _.
Arguments hi_initiators {_} _.

Definition h_array_default {A} : array A := ArrayOf None [] 0.
Definition h_rule_default {S} : rule_of S := RuleOf None None None.
Definition h_credential_default {S} : credential_of S := CredentialOf None None None.
Definition h_scope_default {S} : scope_of S := ScopeOf None false h_array_default.
Definition h_instruction_default {S} : instruction_of S :=
  InstructionOf None None true false h_scope_default h_array_default h_array_default.

(** Assignments to one field. *)
Definition hi_with_session_identifier {S} v (i : instruction_of S) : instruction_of S :=
  InstructionOf v (hi_refresh_url i) (hi_continue_session i) (hi_has_continue i) (hi_scope i)
    (hi_credentials i) (hi_initiators i).
Definition hi_with_refresh_url {S} v (i : instruction_of S) : instruction_of S :=
  InstructionOf (hi_session_identifier i) v (hi_continue_session i) (hi_has_continue i)
    (hi_scope i) (hi_credentials i) (hi_initiators i).
Definition hi_with_continue {S} c b (i : instruction_of S) : instruction_of S :=
  InstructionOf (hi_session_identifier i) (hi_refresh_url i) c b (hi_scope i) (hi_credentials i)
    (hi_initiators i).
Definition hi_with_scope {S} s (i : instruction_of S) : instruction_of S :=
  InstructionOf (hi_session_identifier i) (hi_refresh_url i) (hi_continue_session i)
    (hi_has_continue i) s (hi_credentials i) (hi_initiators i).
Definition hi_with_credentials {S} l (i : instruction_of S) : instruction_of S :=
  InstructionOf (hi_session_identifier i) (hi_refresh_url i) (hi_continue_session i)
    (hi_has_continue i) (hi_scope i) l (hi_initiators i).
Definition hi_with_initiators {S} l (i : instruction_of S) : instruction_of S :=
  InstructionOf (hi_session_identifier i) (hi_refresh_url i) (hi_continue_session i)
    (hi_has_continue i) (hi_scope i) (hi_credentials i) l.
Definition hsc_with_specification {S} l (s : scope_of S) : scope_of S :=
  ScopeOf (hsc_origin s) (hsc_include_site s) l.

(** ** Arrays *)

(** [grow_array(&array, count, &capacity, size)]. *)
Definition h_grow_array {A} (a : array A) : HC (Z * array A) :=
  if decide (length (ha_items a) < ha_capacity a)%nat then mret (0, a) else
  let new_capacity :=
    if decide (ha_capacity a = 0%nat) then 4%nat else (ha_capacity a * 2)%nat in
  new_array ← h_realloc (ha_array a);
  match new_array with
  | None => mret (-1, a)
  | Some _ => mret (0, ArrayOf new_array (ha_items a) new_capacity)
  end.

(** [&array[count]], where the next element is written. *)
Definition h_next_slot {A} (a : array A) : HC unit :=
  if decide (length (ha_items a) < ha_capacity a)%nat then h_live (ha_array a) else h_ub.

Definition h_push {A} (x : A) (a : array A) : array A :=
  ArrayOf (ha_array a) (ha_items a ++ [x]) (ha_capacity a).

(** [for (i = 0; i < count; i++) f(&array[i]);] *)
Fixpoint h_each {A} (p : option ptr) (f : A → HC unit) (l : list A) : HC unit :=
  match l with
  | [] => mret tt
  | x :: l' => h_live p;; f x;; h_each p f l'
  end.

Definition h_free_array {A} (f : A → HC unit) (a : array A) : HC unit :=
  h_each (ha_array a) f (ha_items a);; h_free (ha_array a).

(** ** Rules and credentials *)

Definition h_rule_free (r : rule_of ptr) : HC (rule_of ptr) :=
  h_free (hr_type r);; h_free (hr_domain r);; h_free (hr_path r);; mret h_rule_default.
Definition h_rule_set_type (r : rule_of ptr) (v : option ptr) : HC (Z * rule_of ptr) :=
  '(rc, f) ← h_set_string (hr_type r) v; mret (rc, RuleOf f (hr_domain r) (hr_path r)).
Definition h_rule_set_domain (r : rule_of ptr) (v : option ptr) : HC (Z * rule_of ptr) :=
  '(rc, f) ← h_set_string (hr_domain r) v; mret (rc, RuleOf (hr_type r) f (hr_path r)).
Definition h_rule_set_path (r : rule_of ptr) (v : option ptr) : HC (Z * rule_of ptr) :=
  '(rc, f) ← h_set_string (hr_path r) v; mret (rc, RuleOf (hr_type r) (hr_domain r) f).

Definition h_credential_free (c : credential_of ptr) : HC (credential_of ptr) :=
  h_free (hc_type c);; h_free (hc_name c);; h_free (hc_attributes c);; mret h_credential_default.
Definition h_credential_set_type (c : credential_of ptr) (v : option ptr)
    : HC (Z * credential_of ptr) :=
  '(rc, f) ← h_set_string (hc_type c) v; mret (rc, CredentialOf f (hc_name c) (hc_attributes c)).
Definition h_credential_set_name (c : credential_of ptr) (v : option ptr)
    : HC (Z * credential_of ptr) :=
  '(rc, f) ← h_set_string (hc_name c) v; mret (rc, CredentialOf (hc_type c) f (hc_attributes c)).
Definition h_credential_set_attributes (c : credential_of ptr) (v : option ptr)
    : HC (Z * credential_of ptr) :=
  '(rc, f) ← h_set_string (hc_attributes c) v; mret (rc, CredentialOf (hc_type c) (hc_name c) f).

(** ** The scope *)

Definition h_scope_free (s : scope_of ptr) : HC (scope_of ptr) :=
  h_free (hsc_origin s);;
  h_free_array (λ r, h_rule_free r;; mret tt) (hsc_specification s);;
  mret h_scope_default.

Definition h_scope_set_origin (s : scope_of ptr) (v : option ptr) : HC (Z * scope_of ptr) :=
  '(rc, f) ← h_set_string (hsc_origin s) v;
  mret (rc, ScopeOf f (hsc_include_site s) (hsc_specification s)).

Definition h_scope_set_include_site {S} (s : scope_of S) (include_site : Z) : scope_of S :=
  ScopeOf (hsc_origin s) (negb (include_site =? 0)) (hsc_specification s).

Definition h_scope_add_rule (s : scope_of ptr) (rule : option (rule_of ptr))
    : HC (Z * scope_of ptr) :=
  match rule with
  | None => mret (-1, s)
  | Some rule =>
      '(rc, a) ← h_grow_array (hsc_specification s);
      let s := hsc_with_specification a s in
      if negb (rc =? 0) then mret (-1, s) else
      h_next_slot a;;
      let dst := h_rule_default in
      '(rc, dst) ← h_rule_set_type dst (hr_type rule);
      if negb (rc =? 0) then (h_rule_free dst;; mret (-1, s)) else
      '(rc, dst) ← h_rule_set_domain dst (hr_domain rule);
      if negb (rc =? 0) then (h_rule_free dst;; mret (-1, s)) else
      '(rc, dst) ← h_rule_set_path dst (hr_path rule);
      if negb (rc =? 0) then (h_rule_free dst;; mret (-1, s)) else
      mret (0, hsc_with_specification (h_push dst a) s)
  end.

(** ** The instruction *)

Definition h_instruction_free (i : instruction_of ptr) : HC (instruction_of ptr) :=
  h_free (hi_session_identifier i);;
  h_free (hi_refresh_url i);;
  h_free_array (λ c, h_credential_free c;; mret tt) (hi_credentials i);;
  h_free_array (λ p, h_free (Some p)) (hi_initiators i);;
  h_scope_free (hi_scope i);;
  mret h_instruction_default.

Definition h_instruction_set_session_identifier (i : instruction_of ptr) (v : option ptr)
    : HC (Z * instruction_of ptr) :=
  '(rc, f) ← h_set_string (hi_session_identifier i) v; mret (rc, hi_with_session_identifier f i).

Definition h_instruction_set_refresh_url (i : instruction_of ptr) (v : option ptr)
    : HC (Z * instruction_of ptr) :=
  '(rc, f) ← h_set_string (hi_refresh_url i) v; mret (rc, hi_with_refresh_url f i).

Definition h_instruction_set_continue {S} (i : instruction_of S) (c : bool) : instruction_of S :=
  hi_with_continue c true i.

Definition h_instruction_add_refresh_initiator (i : instruction_of ptr) (origin : option ptr)
    : HC (Z * instruction_of ptr) :=
  match origin with
  | None => mret (-1, i)
  | Some origin =>
      '(rc, a) ← h_grow_array (hi_initiators i);
      let i := hi_with_initiators a i in
      if negb (rc =? 0) then mret (-1, i) else
      s ← h_str origin;
      copy ← h_strdup s;
      match copy with
      | None => mret (-1, i)
      | Some p => h_next_slot a;; mret (0, hi_with_initiators (h_push p a) i)
      end
  end.

Definition h_instruction_add_credential (i : instruction_of ptr)
    (credential : option (credential_of ptr)) : HC (Z * instruction_of ptr) :=
  match credential with
  | None => mret (-1, i)
  | Some credential =>
      '(rc, a) ← h_grow_array (hi_credentials i);
      let i := hi_with_credentials a i in
      if negb (rc =? 0) then mret (-1, i) else
      h_next_slot a;;
      let dst := h_credential_default in
      '(rc, dst) ← h_credential_set_type dst (hc_type credential);
      if negb (rc =? 0) then (h_credential_free dst;; mret (-1, i)) else
      '(rc, dst) ← h_credential_set_name dst (hc_name credential);
      if negb (rc =? 0) then (h_credential_free dst;; mret (-1, i)) else
      '(rc, dst) ← h_credential_set_attributes dst (hc_attributes credential);
      if negb (rc =? 0) then (h_credential_free dst;; mret (-1, i)) else
      mret (0, hi_with_credentials (h_push dst a) i)
  end.

(** ** The blocks of an instruction *)

Abbreviation ostr := (ptr * string)%type.

Definition array_map {A B} (f : A → B) (a : array A) : array B :=
  ArrayOf (ha_array a) (f <$> ha_items a) (ha_capacity a).
Definition rule_map {S S'} (f : S → S') (r : rule_of S) : rule_of S' :=
  RuleOf (f <$> hr_type r) (f <$> hr_domain r) (f <$> hr_path r).
Definition credential_map {S S'} (f : S → S') (c : credential_of S) : credential_of S' :=
  CredentialOf (f <$> hc_type c) (f <$> hc_name c) (f <$> hc_attributes c).
Definition scope_map {S S'} (f : S → S') (s : scope_of S) : scope_of S' :=
  ScopeOf (f <$> hsc_origin s) (hsc_include_site s) (array_map (rule_map f) (hsc_specification s)).
Definition instruction_map {S S'} (f : S → S') (i : instruction_of S) : instruction_of S' :=
  InstructionOf (f <$> hi_session_identifier i) (f <$> hi_refresh_url i) (hi_continue_session i)
    (hi_has_continue i) (scope_map f (hi_scope i)) (array_map (credential_map f) (hi_credentials i))
    (array_map f (hi_initiators i)).

(** The structs on values. *)
Definition rule_vals (r : rule_of ostr) : OpenDBSC_ScopeRule :=
  ScopeRule (snd <$> hr_type r) (snd <$> hr_domain r) (snd <$> hr_path r).
Definition credential_vals (c : credential_of ostr) : OpenDBSC_SessionCredential :=
  SessionCredential (snd <$> hc_type c) (snd <$> hc_name c) (snd <$> hc_attributes c).
Definition scope_vals (s : scope_of ostr) : OpenDBSC_SessionScope :=
  SessionScope (snd <$> hsc_origin s) (hsc_include_site s)
    (rule_vals <$> ha_items (hsc_specification s)) (ha_capacity (hsc_specification s)).
Definition instruction_vals (i : instruction_of ostr) : OpenDBSC_SessionInstruction :=
  SessionInstruction (snd <$> hi_session_identifier i) (snd <$> hi_refresh_url i)
    (hi_continue_session i) (hi_has_continue i) (scope_vals (hi_scope i))
    (credential_vals <$> ha_items (hi_credentials i)) (ha_capacity (hi_credentials i))
    (snd <$> ha_items (hi_initiators i)) (ha_capacity (hi_initiators i)).

Definition rule_cells (r : rule_of ostr) : cells :=
  str_cells (hr_type r) ++ str_cells (hr_domain r) ++ str_cells (hr_path r).
Definition credential_cells (c : credential_of ostr) : cells :=
  str_cells (hc_type c) ++ str_cells (hc_name c) ++ str_cells (hc_attributes c).
Definition text_cells (x : ostr) : cells := str_cells (Some x).
Definition array_cells {A} (f : A → cells) (a : array A) : cells :=
  mem_cells (ha_array a) ++ (ha_items a ≫= f).
Definition scope_cells (s : scope_of ostr) : cells :=
  str_cells (hsc_origin s) ++ array_cells rule_cells (hsc_specification s).
Definition instruction_cells (i : instruction_of ostr) : cells :=
  str_cells (hi_session_identifier i) ++ str_cells (hi_refresh_url i) ++
  array_cells credential_cells (hi_credentials i) ++ array_cells text_cells (hi_initiators i) ++
  scope_cells (hi_scope i).

(** The count never exceeds the capacity, which is 0 for the NULL array. *)
Definition array_ok {A} (a : array A) : Prop :=
  (length (ha_items a) ≤ ha_capacity a)%nat ∧ (ha_array a = None → ha_capacity a = 0%nat).

Lemma array_ok_None {A} (a : array A) : array_ok a → ha_array a = None → ha_items a = [].
Proof. intros [Hlen Hn] HN. rewrite (Hn HN) in Hlen. by destruct (ha_items a); cbn in *; [|lia]. Qed.
Definition instruction_ok (i : instruction_of ostr) : Prop :=
  array_ok (hsc_specification (hi_scope i)) ∧ array_ok (hi_credentials i) ∧
  array_ok (hi_initiators i).

Lemma instruction_default_ok : instruction_ok h_instruction_default.
Proof. by repeat split. Qed.

(** *** Freeing *)

(** [f] frees the blocks [cs] of the struct whose pointers are [g x]. *)
Definition frees {A B} (f : B → HC unit) (g : A → B) (cs : A → cells) : Prop :=
  ∀ x h F, holds h (cs x ++ F) → ∃ h', holds h' F ∧ heap_run (f (g x)) h tt h'.

Lemma each_run {A B} (f : B → HC unit) (g : A → B) (cs : A → cells) p l h F :
  frees f g cs → (p = None → l = []) → holds h (mem_cells p ++ (l ≫= cs) ++ F) →
  ∃ h', holds h' (mem_cells p ++ F) ∧ heap_run (h_each p f (g <$> l)) h tt h'.
Proof.
  intros Hf Hp. revert h. induction l as [|x l IH]; intros h Hh; [by exists h|].
  destruct p as [p|]; [|by specialize (Hp eq_refl)].
  assert (holds h (cs x ++ mem_cells (Some p) ++ (l ≫= cs) ++ F)) as Hx.
  { eapply holds_perm; [|exact Hh]. simpl. solve_Permutation. }
  destruct (Hf x h _ Hx) as (h1 & H1 & R1). destruct (IH ltac:(done) h1 H1) as (h2 & H2 & R2).
  exists h2. split; [done|]. eapply heap_run_bind; [eapply live_run; [exact Hh|by left]|].
  by eapply heap_run_bind.
Qed.

Lemma free_array_run {A B} (f : B → HC unit) (g : A → B) (cs : A → cells) a h F :
  frees f g cs → array_ok a → holds h (array_cells cs a ++ F) →
  ∃ h', holds h' F ∧ heap_run (h_free_array f (array_map g a)) h tt h'.
Proof.
  intros Hf Ha Hh. unfold array_cells in Hh. rewrite <-(assoc_L (++)) in Hh.
  destruct (each_run f g cs _ _ _ _ Hf (array_ok_None _ Ha) Hh) as (h1 & H1 & R1).
  destruct (free_mem_run _ _ _ H1) as (h2 & H2 & R2). exists h2. split; [done|].
  by eapply heap_run_bind.
Qed.

Lemma rule_free_run r h F :
  holds h (rule_cells r ++ F) →
  ∃ h', holds h' F ∧ heap_run (h_rule_free (rule_map fst r)) h h_rule_default h'.
Proof.
  unfold rule_cells. rewrite <-!(assoc_L (++)). intros Hh.
  destruct (free_str_run _ _ _ Hh) as (h1 & H1 & R1).
  destruct (free_str_run _ _ _ H1) as (h2 & H2 & R2).
  destruct (free_str_run _ _ _ H2) as (h3 & H3 & R3).
  exists h3. split; [done|]. by do 3 (eapply heap_run_bind; [eassumption|]).
Qed.

Lemma credential_free_run c h F :
  holds h (credential_cells c ++ F) →
  ∃ h', holds h' F ∧
    heap_run (h_credential_free (credential_map fst c)) h h_credential_default h'.
Proof.
  unfold credential_cells. rewrite <-!(assoc_L (++)). intros Hh.
  destruct (free_str_run _ _ _ Hh) as (h1 & H1 & R1).
  destruct (free_str_run _ _ _ H1) as (h2 & H2 & R2).
  destruct (free_str_run _ _ _ H2) as (h3 & H3 & R3).
  exists h3. split; [done|]. by do 3 (eapply heap_run_bind; [eassumption|]).
Qed.

Lemma frees_rule : frees (λ r, h_rule_free r;; mret tt) (rule_map fst) rule_cells.
Proof.
  intros r h F Hh. destruct (rule_free_run _ _ _ Hh) as (h1 & H1 & R1).
  exists h1. split; [done|]. by eapply heap_run_bind.
Qed.

Lemma frees_credential :
  frees (λ c, h_credential_free c;; mret tt) (credential_map fst) credential_cells.
Proof.
  intros c h F Hh. destruct (credential_free_run _ _ _ Hh) as (h1 & H1 & R1).
  exists h1. split; [done|]. by eapply heap_run_bind.
Qed.

Lemma frees_text : frees (λ p, h_free (Some p)) fst text_cells.
Proof. intros x h F Hh. by apply (free_str_run h (Some x) F). Qed.

Lemma scope_free_run s h F :
  array_ok (hsc_specification s) → holds h (scope_cells s ++ F) →
  ∃ h', holds h' F ∧ heap_run (h_scope_free (scope_map fst s)) h h_scope_default h'.
Proof.
  intros Hs Hh. unfold scope_cells in Hh. rewrite <-!(assoc_L (++)) in Hh.
  destruct (free_str_run _ _ _ Hh) as (h1 & H1 & R1).
  destruct (free_array_run _ _ _ _ _ _ frees_rule Hs H1) as (h2 & H2 & R2).
  exists h2. split; [done|]. by do 2 (eapply heap_run_bind; [eassumption|]).
Qed.

(** [opendbsc_instruction_free] frees what the instruction owns, each block
    once. *)
Lemma instruction_free_run i h F :
  instruction_ok i → holds h (instruction_cells i ++ F) →
  ∃ h', holds h' F ∧
    heap_run (h_instruction_free (instruction_map fst i)) h h_instruction_default h'.
Proof.
  intros (Hs & Hc & Hi) Hh. unfold instruction_cells in Hh. rewrite <-!(assoc_L (++)) in Hh.
  destruct (free_str_run _ _ _ Hh) as (h1 & H1 & R1).
  destruct (free_str_run _ _ _ H1) as (h2 & H2 & R2).
  destruct (free_array_run _ _ _ _ _ _ frees_credential Hc H2) as (h3 & H3 & R3).
  destruct (free_array_run _ _ _ _ _ _ frees_text Hi H3) as (h4 & H4 & R4).
  destruct (scope_free_run _ _ _ Hs H4) as (h5 & H5 & R5).
  exists h5. split; [done|]. by do 5 (eapply heap_run_bind; [eassumption|]).
Qed.

(** What a function with a return code leaves: the same code on both sides, and
    a struct that is well formed and owns its blocks beside [F]. *)
Definition grown {X Y Z'} (g : X → Y) (val : X → Z') (cs : X → cells) (ok : X → Prop) (F : cells)
    (r : Z * Y) (r' : Z * option Z') (h : heap) : Prop :=
  ∃ rc x, r = (rc, g x) ∧ r' = (rc, Some (val x)) ∧ ok x ∧ holds h (cs x ++ F).

Abbreviation scope_left :=
  (grown (scope_map fst) scope_vals scope_cells (λ s, array_ok (hsc_specification s))).
Abbreviation instruction_left :=
  (grown (instruction_map fst) instruction_vals instruction_cells instruction_ok).

(** *** Growing *)

Section sims.
Context (calm : Prop).

Lemma hsim_grow_array {A B} (g : A → B) (cs : A → cells) a h F :
  array_ok a → holds h (array_cells cs a ++ F) →
  hsim calm (h_grow_array (array_map g a)) (grow_array (length (ha_items a)) (ha_capacity a)) h
    (λ r r' h', ∃ rc p n, let a' := ArrayOf p (ha_items a) n in
       r = (rc, array_map g a') ∧ r' = (rc, n) ∧ array_ok a' ∧ (calm → rc = 0) ∧
       (rc = 0 → (length (ha_items a) < n)%nat) ∧ holds h' (array_cells cs a' ++ F)).
Proof.
  intros Ha Hh. unfold h_grow_array, grow_array. simpl. rewrite length_fmap.
  case_decide as Hlt.
  { apply hsim_ret. exists 0, (ha_array a), (ha_capacity a). by destruct a. }
  set (n := if decide (ha_capacity a = 0%nat) then 4%nat else _).
  unfold array_cells in Hh. rewrite <-(assoc_L (++)) in Hh.
  eapply (hsim_bind _ _ _ _ _ (λ p ok h', ok = bool_decide (p ≠ None) ∧ (p = None → ¬ calm ∧ h' = h) ∧
    (∀ q, p = Some q → holds h' ((q, Mem) :: (ha_items a ≫= cs) ++ F)))).
  - eapply hsim_realloc; [exact Hh| |done]. intros q h1 H1. by split_and!; [| |intros ? [= <-]].
  - intros [q|] ok h1 (-> & HN & H1); simpl; apply hsim_ret.
    + assert (length (ha_items a) < n)%nat as Hn
        by (destruct Ha; unfold n; case_decide; lia).
      exists 0, (Some q), n. split_and!; [done|done|by split; cbn; [lia|]|done|done|by apply (H1 q)].
    + destruct (HN eq_refl) as [? ->]. exists (-1), (ha_array a), (ha_capacity a).
      split_and!; [by destruct a|done|by destruct a|done|done|].
      unfold array_cells. simpl. by rewrite <-(assoc_L (++)).
Qed.

(** *** Setting a string *)

Lemma hsim_field {X Y} h f v F (put : option ptr → X) (put' : cstr → Y) :
  holds h (str_cells f ++ F) → str_cells v ⊆ F →
  hsim calm ('(rc, p) ← h_set_string (fst <$> f) (fst <$> v); mret (rc, put p))
    ('(rc, x) ← instruction_set_string (snd <$> f) (snd <$> v); mret (rc, put' x)) h
    (λ r r' h', ∃ rc f', r = (rc, put (fst <$> f')) ∧ r' = (rc, put' (snd <$> f')) ∧
       (calm → rc = 0) ∧ holds h' (str_cells f' ++ F)).
Proof.
  intros Hh Hv. rewrite instruction_set_string_eq.
  eapply hsim_bind; [by apply (hsim_set_string calm h f v F)|].
  intros [rc p] [rc' x] h1 (-> & ? & f' & -> & -> & H1). apply hsim_ret. by exists rc', f'.
Qed.

(** What a setter leaves: the same code on both sides, 0 when no allocation
    fails, and a struct that owns its blocks beside [F]. *)
Definition struct_left {X Y Z'} (g : X → Y) (val : X → Z') (cs : X → cells) (F : cells)
    (r : Z * Y) (r' : Z * Z') (h : heap) : Prop :=
  ∃ rc x, r = (rc, g x) ∧ r' = (rc, val x) ∧ (calm → rc = 0) ∧ holds h (cs x ++ F).

Abbreviation rule_left := (struct_left (rule_map fst) rule_vals rule_cells).
Abbreviation credential_left :=
  (struct_left (credential_map fst) credential_vals credential_cells).

(** A field of a struct, as [mk] puts it there. *)
Lemma hsim_struct {X Y Z'} (g : X → Y) (val : X → Z') (cs : X → cells) (mk : option ostr → X)
    (put : option ptr → Y) (put' : cstr → Z') (m : C (Z * Z')) f v h F :
  (∀ x, put (fst <$> x) = g (mk x)) → (∀ x, put' (snd <$> x) = val (mk x)) →
  (∀ x, cs (mk x) ≡ₚ str_cells x ++ cs (mk None)) →
  (∀ w, m w = ('(rc, x) ← instruction_set_string (snd <$> f) (snd <$> v); mret (rc, put' x)) w) →
  holds h (cs (mk f) ++ F) → str_cells v ⊆ F →
  hsim calm ('(rc, p) ← h_set_string (fst <$> f) (fst <$> v); mret (rc, put p)) m h
    (struct_left g val cs F).
Proof.
  intros Hg Hval Hcs Hm Hh Hv. apply (hsim_ext _ _ _ _ _ Hm).
  rewrite Hcs, <-(assoc_L (++)) in Hh.
  eapply hsim_mono; [apply (hsim_field _ _ _ _ put put' Hh); set_solver|].
  intros ? ? h1 (rc & f' & -> & -> & ? & H1). exists rc, (mk f').
  rewrite Hg, Hval, Hcs, <-(assoc_L (++)). by split_and!.
Qed.

#[local] Ltac setter r mk put :=
  eapply (hsim_struct _ _ _ mk _ put); [done|done| | |by destruct r|done];
  [intros x; unfold rule_cells, credential_cells, scope_cells, instruction_cells; simpl;
   solve_Permutation
  |intros w; unfold on_local; rewrite ?bind_unfold; simpl; rewrite ?bind_unfold;
   by destruct (instruction_set_string _ _ w) as [[rc x] w'| |]].

Lemma hsim_rule_set_type r v h F :
  holds h (rule_cells r ++ F) → str_cells v ⊆ F →
  hsim calm (h_rule_set_type (rule_map fst r) (fst <$> v))
    (on_local (λ d, opendbsc_rule_set_type d (snd <$> v)) (rule_vals r)) h (rule_left F).
Proof.
  intros Hh Hv.
  setter r (λ y, RuleOf y (hr_domain r) (hr_path r)) (λ y, ScopeRule y (snd <$> hr_domain r) (snd <$> hr_path r)).
Qed.

Lemma hsim_rule_set_domain r v h F :
  holds h (rule_cells r ++ F) → str_cells v ⊆ F →
  hsim calm (h_rule_set_domain (rule_map fst r) (fst <$> v))
    (on_local (λ d, opendbsc_rule_set_domain d (snd <$> v)) (rule_vals r)) h (rule_left F).
Proof.
  intros Hh Hv.
  setter r (λ y, RuleOf (hr_type r) y (hr_path r)) (λ y, ScopeRule (snd <$> hr_type r) y (snd <$> hr_path r)).
Qed.

Lemma hsim_rule_set_path r v h F :
  holds h (rule_cells r ++ F) → str_cells v ⊆ F →
  hsim calm (h_rule_set_path (rule_map fst r) (fst <$> v))
    (on_local (λ d, opendbsc_rule_set_path d (snd <$> v)) (rule_vals r)) h (rule_left F).
Proof.
  intros Hh Hv.
  setter r (λ y, RuleOf (hr_type r) (hr_domain r) y) (λ y, ScopeRule (snd <$> hr_type r) (snd <$> hr_domain r) y).
Qed.

Lemma hsim_credential_set_type c v h F :
  holds h (credential_cells c ++ F) → str_cells v ⊆ F →
  hsim calm (h_credential_set_type (credential_map fst c) (fst <$> v))
    (on_local (λ d, opendbsc_credential_set_type d (snd <$> v)) (credential_vals c)) h (credential_left F).
Proof.
  intros Hh Hv.
  setter c (λ y, CredentialOf y (hc_name c) (hc_attributes c)) (λ y, SessionCredential y (snd <$> hc_name c) (snd <$> hc_attributes c)).
Qed.

Lemma hsim_credential_set_name c v h F :
  holds h (credential_cells c ++ F) → str_cells v ⊆ F →
  hsim calm (h_credential_set_name (credential_map fst c) (fst <$> v))
    (on_local (λ d, opendbsc_credential_set_name d (snd <$> v)) (credential_vals c)) h (credential_left F).
Proof.
  intros Hh Hv.
  setter c (λ y, CredentialOf (hc_type c) y (hc_attributes c)) (λ y, SessionCredential (snd <$> hc_type c) y (snd <$> hc_attributes c)).
Qed.

Lemma hsim_credential_set_attributes c v h F :
  holds h (credential_cells c ++ F) → str_cells v ⊆ F →
  hsim calm (h_credential_set_attributes (credential_map fst c) (fst <$> v))
    (on_local (λ d, opendbsc_credential_set_attributes d (snd <$> v)) (credential_vals c)) h (credential_left F).
Proof.
  intros Hh Hv.
  setter c (λ y, CredentialOf (hc_type c) (hc_name c) y) (λ y, SessionCredential (snd <$> hc_type c) (snd <$> hc_name c) y).
Qed.

Lemma array_push_run {A} (l : list A) n x w :
  (length l < n)%nat → array_push l n x w = Ret (l ++ [x]) w.
Proof. intros Hl. unfold array_push. by rewrite decide_True. Qed.

Lemma fmap_snoc {A B} (f : A → B) l x : f <$> (l ++ [x]) = (f <$> l) ++ [f x].
Proof. by rewrite fmap_app. Qed.

(** The next slot exists and is live. *)
Lemma next_slot_run {A B} (g : A → B) (cs : A → cells) a h F :
  array_ok a → (length (ha_items a) < ha_capacity a)%nat → holds h (array_cells cs a ++ F) →
  heap_run (h_next_slot (array_map g a)) h tt h.
Proof.
  intros [_ Ha] Hlt Hh. unfold h_next_slot. simpl. rewrite length_fmap, decide_True by done.
  destruct (ha_array a) as [p|] eqn:E; [|rewrite Ha in Hlt by done; lia].
  eapply live_run; [exact Hh|]. unfold array_cells. rewrite E. by left.
Qed.

Lemma push_cells {A} (cs : A → cells) x a :
  array_cells cs (h_push x a) ≡ₚ cs x ++ array_cells cs a.
Proof.
  unfold array_cells, h_push. simpl. rewrite bind_app. simpl. rewrite (right_id_L [] (++)).
  solve_Permutation.
Qed.

Lemma push_ok {A} (x : A) a :
  array_ok a → (length (ha_items a) < ha_capacity a)%nat → array_ok (h_push x a).
Proof. intros [_ Ha] Hlt. split; [|exact Ha]. cbn. rewrite length_app. cbn. lia. Qed.

Lemma push_map {A B} (g : A → B) x a : h_push (g x) (array_map g a) = array_map g (h_push x a).
Proof. unfold h_push, array_map. simpl. by rewrite fmap_app. Qed.

Definition opt_cells {A} (f : A → cells) (o : option A) : cells := from_option f [] o.

(** The next field of a new struct is set; when that fails the struct is freed
    and the owner is what it was. *)
#[local] Ltac fill lem free fail :=
  eapply hsim_bind; [eapply lem; [eassumption|set_solver]|];
  let rc := fresh "rc" in let x := fresh "x" in let h := fresh "h" in let H := fresh "Hh" in
  intros ? ? h (rc & x & -> & -> & _ & H); simpl;
  destruct (Z.eqb_spec rc 0) as [->|]; simpl;
  [|let h' := fresh "h" in let H' := fresh "Hh" in let R := fresh "R" in
    destruct (free _ _ _ H) as (h' & H' & R); eapply hsim_heap; [exact R|];
    by apply fail].

Lemma hsim_scope_add_rule s r h F :
  array_ok (hsc_specification s) → holds h (scope_cells s ++ F) → opt_cells rule_cells r ⊆ F →
  hsim calm (h_scope_add_rule (scope_map fst s) (rule_map fst <$> r))
    (opendbsc_scope_add_rule (Some (scope_vals s)) (rule_vals <$> r)) h (scope_left F).
Proof.
  intros Hs Hh Hr. destruct r as [r|]; [|by apply hsim_ret; exists (-1), s].
  unfold h_scope_add_rule, opendbsc_scope_add_rule. simpl.
  set (rest := str_cells (hsc_origin s) ++ F).
  assert (holds h (array_cells rule_cells (hsc_specification s) ++ rest)) as Hh1.
  { eapply holds_perm; [|exact Hh]. unfold scope_cells, rest. solve_Permutation. }
  rewrite length_fmap.
  eapply hsim_bind; [by apply (hsim_grow_array (rule_map fst) rule_cells _ _ rest)|].
  intros ? ? h1 (rc & p & n & -> & -> & Ha & _ & Hlt & H1). simpl.
  set (a := ArrayOf p (ha_items (hsc_specification s)) n) in *.
  assert (∀ rc h' b, array_ok b → holds h' (array_cells rule_cells b ++ rest) →
    hsim calm (mret (rc, hsc_with_specification (array_map (rule_map fst) b) (scope_map fst s)))
      (mret (rc, Some (with_specification (rule_vals <$> ha_items b) (ha_capacity b) (scope_vals s))))
      h' (scope_left F)) as Hend.
  { intros rc' h' b Hb Hb'. apply hsim_ret. exists rc', (hsc_with_specification b s).
    split_and!; [done|done|done|]. eapply holds_perm; [|exact Hb'].
    unfold scope_cells, rest. simpl. solve_Permutation. }
  destruct (Z.eqb_spec rc 0) as [->|]; simpl; [|by apply Hend].
  eapply hsim_heap; [by apply (next_slot_run _ rule_cells _ _ rest Ha (Hlt eq_refl) H1)|].
  change (holds h1 (rule_cells h_rule_default ++ (array_cells rule_cells a ++ rest))) in H1.
  assert (opt_cells rule_cells (Some r) ⊆ array_cells rule_cells a ++ rest) as Hin by set_solver.
  unfold opt_cells, rule_cells in Hin. cbn [from_option] in Hin.
  fill (hsim_rule_set_type h_rule_default (hr_type r)) rule_free_run Hend.
  fill (hsim_rule_set_domain x (hr_domain r)) rule_free_run Hend.
  fill (hsim_rule_set_path x0 (hr_path r)) rule_free_run Hend.
  eapply hsim_value; [by intros w; apply array_push_run; rewrite length_fmap; apply Hlt|].
  rewrite push_map, <-(fmap_snoc rule_vals). apply (Hend 0 h3 (h_push x1 a)).
  - apply push_ok; [done|by apply Hlt].
  - by rewrite push_cells, <-(assoc_L (++)).
Qed.

Lemma hsim_add_credential i c h F :
  instruction_ok i → holds h (instruction_cells i ++ F) → opt_cells credential_cells c ⊆ F →
  hsim calm (h_instruction_add_credential (instruction_map fst i) (credential_map fst <$> c))
    (opendbsc_instruction_add_credential (Some (instruction_vals i)) (credential_vals <$> c)) h
    (instruction_left F).
Proof.
  intros Hi Hh Hc. destruct c as [c|]; [|by apply hsim_ret; exists (-1), i].
  unfold h_instruction_add_credential, opendbsc_instruction_add_credential. simpl.
  set (rest := str_cells (hi_session_identifier i) ++ str_cells (hi_refresh_url i) ++
    array_cells text_cells (hi_initiators i) ++ scope_cells (hi_scope i) ++ F).
  assert (holds h (array_cells credential_cells (hi_credentials i) ++ rest)) as Hh1.
  { eapply holds_perm; [|exact Hh]. unfold instruction_cells, rest. solve_Permutation. }
  destruct Hi as (Hs & Hcs & Hin'). rewrite length_fmap.
  eapply hsim_bind; [by apply (hsim_grow_array (credential_map fst) credential_cells _ _ rest)|].
  intros ? ? h1 (rc & p & n & -> & -> & Ha & _ & Hlt & H1). simpl.
  set (a := ArrayOf p (ha_items (hi_credentials i)) n) in *.
  assert (∀ rc h' b, array_ok b → holds h' (array_cells credential_cells b ++ rest) →
    hsim calm (mret (rc, hi_with_credentials (array_map (credential_map fst) b) (instruction_map fst i)))
      (mret (rc, Some (with_credentials (credential_vals <$> ha_items b) (ha_capacity b)
                         (instruction_vals i)))) h' (instruction_left F)) as Hend.
  { intros rc' h' b Hb Hb'. apply hsim_ret. exists rc', (hi_with_credentials b i).
    split_and!; [done|done|by split|]. eapply holds_perm; [|exact Hb'].
    unfold instruction_cells, rest. simpl. solve_Permutation. }
  destruct (Z.eqb_spec rc 0) as [->|]; simpl; [|by apply Hend].
  eapply hsim_heap; [by apply (next_slot_run _ credential_cells _ _ rest Ha (Hlt eq_refl) H1)|].
  change (holds h1 (credential_cells h_credential_default ++ (array_cells credential_cells a ++ rest)))
    in H1.
  assert (opt_cells credential_cells (Some c) ⊆ array_cells credential_cells a ++ rest) as Hin
    by set_solver.
  unfold opt_cells, credential_cells in Hin. cbn [from_option] in Hin.
  fill (hsim_credential_set_type h_credential_default (hc_type c)) credential_free_run Hend.
  fill (hsim_credential_set_name x (hc_name c)) credential_free_run Hend.
  fill (hsim_credential_set_attributes x0 (hc_attributes c)) credential_free_run Hend.
  eapply hsim_value; [by intros w; apply array_push_run; rewrite length_fmap; apply Hlt|].
  rewrite push_map, <-(fmap_snoc credential_vals). apply (Hend 0 h3 (h_push x1 a)).
  - apply push_ok; [done|by apply Hlt].
  - by rewrite push_cells, <-(assoc_L (++)).
Qed.

Lemma hsim_add_refresh_initiator i o h F :
  instruction_ok i → holds h (instruction_cells i ++ F) → str_cells o ⊆ F →
  hsim calm (h_instruction_add_refresh_initiator (instruction_map fst i) (fst <$> o))
    (opendbsc_instruction_add_refresh_initiator (Some (instruction_vals i)) (snd <$> o)) h
    (instruction_left F).
Proof.
  intros Hi Hh Ho. destruct o as [[q t]|]; [|by apply hsim_ret; exists (-1), i].
  unfold h_instruction_add_refresh_initiator, opendbsc_instruction_add_refresh_initiator. simpl.
  set (rest := str_cells (hi_session_identifier i) ++ str_cells (hi_refresh_url i) ++
    array_cells credential_cells (hi_credentials i) ++ scope_cells (hi_scope i) ++ F).
  assert (holds h (array_cells text_cells (hi_initiators i) ++ rest)) as Hh1.
  { eapply holds_perm; [|exact Hh]. unfold instruction_cells, rest. solve_Permutation. }
  destruct Hi as (Hs & Hcs & Hin'). rewrite length_fmap.
  eapply hsim_bind; [by apply (hsim_grow_array fst text_cells _ _ rest)|].
  intros ? ? h1 (rc & p & n & -> & -> & Ha & _ & Hlt & H1). simpl.
  set (a := ArrayOf p (ha_items (hi_initiators i)) n) in *.
  assert (∀ rc h' b, array_ok b → holds h' (array_cells text_cells b ++ rest) →
    hsim calm (mret (rc, hi_with_initiators (array_map fst b) (instruction_map fst i)))
      (mret (rc, Some (with_initiators (snd <$> ha_items b) (ha_capacity b)
                         (instruction_vals i)))) h' (instruction_left F)) as Hend.
  { intros rc' h' b Hb Hb'. apply hsim_ret. exists rc', (hi_with_initiators b i).
    split_and!; [done|done|by split|]. eapply holds_perm; [|exact Hb'].
    unfold instruction_cells, rest. simpl. solve_Permutation. }
  destruct (Z.eqb_spec rc 0) as [->|]; simpl; [|by apply Hend].
  assert ((q, Str t) ∈ array_cells text_cells a ++ rest) as Hq by set_solver.
  eapply hsim_heap; [by eapply str_run|].
  eapply (hsim_bind _ _ _ _ _ (λ p x h', p = None ∧ x = None ∧ h' = h1 ∨
    ∃ q, p = Some q ∧ x = Some t ∧ holds h' ((q, Str t) :: array_cells text_cells a ++ rest))).
  { eapply hsim_alloc; [exact H1|by eauto 10|by left]. }
  intros ? ? h2 [(-> & -> & ->)|(p2 & -> & -> & H2)]; [by apply Hend|].
  eapply hsim_heap.
  { eapply (next_slot_run _ text_cells _ _ ((p2, Str t) :: rest) Ha (Hlt eq_refl)).
    eapply holds_perm; [|exact H2]. solve_Permutation. }
  eapply hsim_value; [by intros w; apply array_push_run; rewrite length_fmap; apply Hlt|].
  change p2 with (fst (p2, t)). change [t] with [snd (p2, t)].
  rewrite push_map, <-(fmap_snoc snd). apply (Hend 0 h2 (h_push (p2, t) a)).
  - apply push_ok; [done|by apply Hlt].
  - by rewrite push_cells, <-(assoc_L (++)).
Qed.

End sims.

(** ** The JSON document of an instruction

    The nodes of a cJSON tree are the library's: one block stands for a whole
    tree, and an item that is added to another joins the block of its new
    parent, so that only the root may be deleted, and only once. *)

Section json.
Context `{CJSON}.

(** The root of a tree, and the document it holds. *)
Record item := Item { it_ptr : ptr; it_value : cJSON }.

(** [cJSON_CreateObject()], [cJSON_CreateArray()], and the constructor of a
    string: the new tree, or NULL. *)
Definition h_cJSON_Create (j : cJSON) : HC (option item) :=
  p ← h_malloc; mret ((λ p, Item p j) <$> p).

Definition h_cJSON_CreateString (s : ptr) : HC (option item) :=
  s ← h_str s; h_cJSON_Create (cJSON_String s).

(** [cJSON_Delete(item)]: the whole tree; nothing for NULL. *)
Definition h_cJSON_Delete (o : option item) : HC unit := h_free (it_ptr <$> o).

(** The calls that add a node the library makes itself: on failure the object
    is as it was. *)
Definition h_json_extend (obj : item) (j : cJSON) : HC (option item) :=
  h_live (Some (it_ptr obj));;
  added ← lift malloc;
  mret (if added : bool then Some (Item (it_ptr obj) j) else None).

Definition h_cJSON_AddStringToObject (obj : item) (key : string) (s : ptr) : HC (option item) :=
  s ← h_str s; h_json_extend obj (cJSON_AddItemToObject (it_value obj) key (cJSON_String s)).

Definition h_cJSON_AddBoolToObject (obj : item) (key : string) (b : bool) : HC (option item) :=
  h_json_extend obj (cJSON_AddItemToObject (it_value obj) key (cJSON_Bool b)).

(** [cJSON_AddItemToObject(obj, key, x)]: when the key cannot be duplicated,
    [x] is not added and stays the caller's. *)
Definition h_cJSON_AddItemToObject (obj : item) (key : string) (x : item) : HC (option item) :=
  h_live (Some (it_ptr x));;
  added ← h_json_extend obj (cJSON_AddItemToObject (it_value obj) key (it_value x));
  match added with
  | None => mret None
  | Some obj => h_free (Some (it_ptr x));; mret (Some obj)
  end.

(** [cJSON_AddItemToArray(a, x)] on items that exist: nothing is allocated. *)
Definition h_cJSON_AddItemToArray (a x : item) : HC item :=
  h_live (Some (it_ptr a));;
  h_free (Some (it_ptr x));;
  mret (Item (it_ptr a) (cJSON_AddItemToArray (it_value a) (it_value x))).

Definition h_cJSON_Print (x : item) : HC (option ptr) :=
  h_live (Some (it_ptr x));; h_strdup (cJSON_Print (it_value x)).

(** [if (m == NULL) goto fail;], where what [fail] labels ends in
    [return NULL]. *)
Definition h_or_goto {A B} (fail : HC unit) (m : HC (option A)) (f : A → HC (option B))
    : HC (option B) :=
  r ← m; match r with None => fail;; mret None | Some a => f a end.

(** [if (v != NULL && cJSON_AddStringToObject(obj, key, v) == NULL)]. *)
Definition h_add_optional_string (obj : item) (key : string) (v : option ptr)
    : HC (option item) :=
  match v with None => mret (Some obj) | Some s => h_cJSON_AddStringToObject obj key s end.

Definition h_rule_to_json (r : rule_of ptr) : HC (option item) :=
  h_or_goto (mret tt) (h_cJSON_Create cJSON_Object) (λ obj,
  let fail := h_cJSON_Delete (Some obj) in
  h_or_goto fail (h_add_optional_string obj "type" (hr_type r)) (λ obj,
  h_or_goto fail (h_add_optional_string obj "domain" (hr_domain r)) (λ obj,
  h_or_goto fail (h_add_optional_string obj "path" (hr_path r)) (λ obj,
  mret (Some obj))))).

(** [for (i = 0; i < count; i++)] over the array at [p]: the item of an element
    is added to [array]; when there is none, [cJSON_Delete(NULL)] and out, to
    the label of the caller. *)
Fixpoint h_items_to_json {A} (p : option ptr) (to_json : A → HC (option item)) (l : list A)
    (array : item) : HC (option item) :=
  match l with
  | [] => mret (Some array)
  | x :: l' =>
      h_live p;;
      h_or_goto (h_cJSON_Delete None) (to_json x) (λ item,
      array ← h_cJSON_AddItemToArray array item;
      h_items_to_json p to_json l' array)
  end.

Definition h_array_to_json {A} (to_json : A → HC (option item)) (a : array A) (array : item)
    : HC (option item) :=
  h_items_to_json (ha_array a) to_json (ha_items a) array.

Definition h_scope_to_json (s : scope_of ptr) : HC (option item) :=
  h_or_goto (mret tt) (h_cJSON_Create cJSON_Object) (λ obj,
  let fail := h_cJSON_Delete (Some obj) in
  h_or_goto fail (h_add_optional_string obj "origin" (hsc_origin s)) (λ obj,
  h_or_goto fail (h_cJSON_AddBoolToObject obj "include_site" (hsc_include_site s)) (λ obj,
  h_or_goto fail (h_cJSON_Create cJSON_Array) (λ spec,
  let fail_spec := h_cJSON_Delete (Some spec);; fail in
  h_or_goto fail_spec (h_array_to_json h_rule_to_json (hsc_specification s) spec) (λ spec,
  h_or_goto fail_spec (h_cJSON_AddItemToObject obj "scope_specification" spec) (λ obj,
  mret (Some obj))))))).

Definition h_credential_to_json (c : credential_of ptr) : HC (option item) :=
  h_or_goto (mret tt) (h_cJSON_Create cJSON_Object) (λ obj,
  let fail := h_cJSON_Delete (Some obj) in
  h_or_goto fail (h_add_optional_string obj "type" (hc_type c)) (λ obj,
  h_or_goto fail (h_add_optional_string obj "name" (hc_name c)) (λ obj,
  h_or_goto fail (h_add_optional_string obj "attributes" (hc_attributes c)) (λ obj,
  mret (Some obj))))).

(** The initiators, when there are any; a failure deletes the array and leaves
    the object to the caller's label. *)
Definition h_add_initiators (obj : item) (a : array ptr) : HC (option item) :=
  if bool_decide (0 < length (ha_items a))%nat then
    h_or_goto (mret tt) (h_cJSON_Create cJSON_Array) (λ initiators,
    let fail := h_cJSON_Delete (Some initiators) in
    h_or_goto fail (h_array_to_json h_cJSON_CreateString a initiators) (λ initiators,
    h_or_goto fail (h_cJSON_AddItemToObject obj "allowed_refresh_initiators" initiators) (λ obj,
    mret (Some obj))))
  else mret (Some obj).

Definition h_instruction_to_json (i : instruction_of ptr) : HC (option item) :=
  h_or_goto (mret tt) (h_cJSON_Create cJSON_Object) (λ obj,
  let fail := h_cJSON_Delete (Some obj) in
  if hi_has_continue i && negb (hi_continue_session i) then
    h_or_goto fail (h_cJSON_AddBoolToObject obj "continue" false) (λ obj, mret (Some obj))
  else
  h_or_goto fail (h_add_optional_string obj "session_identifier" (hi_session_identifier i)) (λ obj,
  h_or_goto fail (h_add_optional_string obj "refresh_url" (hi_refresh_url i)) (λ obj,
  h_or_goto fail (if hi_has_continue i
                  then h_cJSON_AddBoolToObject obj "continue" (hi_continue_session i)
                  else mret (Some obj)) (λ obj,
  h_or_goto fail (h_add_initiators obj (hi_initiators i)) (λ obj,
  h_or_goto (h_cJSON_Delete None;; fail) (h_scope_to_json (hi_scope i)) (λ scope,
  h_or_goto (h_cJSON_Delete (Some scope);; fail) (h_cJSON_AddItemToObject obj "scope" scope) (λ obj,
  h_or_goto fail (h_cJSON_Create cJSON_Array) (λ creds,
  let fail_creds := h_cJSON_Delete (Some creds);; fail in
  h_or_goto fail_creds (h_array_to_json h_credential_to_json (hi_credentials i) creds) (λ creds,
  h_or_goto fail_creds (h_cJSON_AddItemToObject obj "credentials" creds) (λ obj,
  mret (Some obj))))))))))).

Definition h_instruction_to_string (i : instruction_of ptr) : HC (option ptr) :=
  json ← h_instruction_to_json i;
  match json with
  | None => mret None
  | Some json => str ← h_cJSON_Print json; h_cJSON_Delete (Some json);; mret str
  end.

(** *** What the conversion leaves *)

(** Both runs returned something, or both returned NULL. *)
Definition both {A B} (S : A → B → heap → Prop) (N : heap → Prop)
    (o : option A) (o' : option B) (h : heap) : Prop :=
  match o, o' with Some a, Some b => S a b h | None, None => N h | _, _ => False end.

(** A new tree with the document of the run on values. *)
Definition json_left (L : cells) : option item → option cJSON → heap → Prop :=
  both (λ x j h, ∃ q, x = Item q j ∧ holds h ((q, Mem) :: L)) (λ h, holds h L).

(** The tree at [q] extended to the document of the run on values; on failure
    the blocks [K] are still there. *)
Definition json_kept (q : ptr) (K L : cells) : option item → option cJSON → heap → Prop :=
  both (λ x j h, x = Item q j ∧ holds h ((q, Mem) :: L)) (λ h, holds h K).

(** [fail] frees the blocks of [K] that are not in [L]. *)
Definition clears (fail : HC unit) (K L : cells) : Prop :=
  ∀ h, holds h K → ∃ h', holds h' L ∧ heap_run fail h tt h'.

Lemma clears_none L : clears (mret tt) L L.
Proof. intros h Hh. by exists h. Qed.

Lemma clears_null L : clears (h_cJSON_Delete None) L L.
Proof. intros h Hh. by exists h. Qed.

Lemma clears_delete q j L : clears (h_cJSON_Delete (Some (Item q j))) ((q, Mem) :: L) L.
Proof. intros h Hh. eapply free_run, Hh. Qed.

Lemma clears_then f g K L M : clears f K L → clears g L M → clears (f;; g) K M.
Proof.
  intros Hf Hg h Hh. destruct (Hf h Hh) as (h1 & H1 & R1). destruct (Hg h1 H1) as (h2 & H2 & R2).
  exists h2. split; [done|]. by eapply heap_run_bind.
Qed.

Context (calm : Prop).

Lemma hsim_or_goto {A A' B B'} (fail : HC unit) (m : HC (option A)) (m' : C (option A'))
    (f : A → HC (option B)) (f' : A' → C (option B')) h S K L R :
  hsim calm m m' h (both S (λ h, holds h K)) → clears fail K L →
  (∀ h', holds h' L → R None None h') →
  (∀ x y h', S x y h' → hsim calm (f x) (f' y) h' R) →
  hsim calm (h_or_goto fail m f) (or_fail m' f') h R.
Proof.
  intros Hm Hfail HR Hf. eapply hsim_bind; [exact Hm|].
  intros [x|] [y|] h1; cbn; try done; [apply Hf|]. intros HK.
  destruct (Hfail h1 HK) as (h2 & H2 & R2). eapply hsim_heap; [exact R2|]. by apply hsim_ret, HR.
Qed.

(** The last call before [return obj;]. *)
Lemma hsim_last_or_goto {A A'} (fail : HC unit) (m : HC (option A)) (m' : C (option A')) h S K L R :
  hsim calm m m' h (both S (λ h, holds h K)) → clears fail K L →
  (∀ h', holds h' L → R None None h') → (∀ x y h', S x y h' → R (Some x) (Some y) h') →
  hsim calm (h_or_goto fail m (λ x, mret (Some x))) m' h R.
Proof.
  intros Hm Hfail HN HS. apply (hsim_ext _ _ (or_fail m' (λ y, mret (Some y)))).
  { intros w. unfold or_fail. rewrite bind_unfold. by destruct (m' w) as [[y|] w'| |]. }
  eapply hsim_or_goto; [exact Hm|exact Hfail|exact HN|]. intros x y h1 H1. by apply hsim_ret, HS.
Qed.

Lemma hsim_new_item j h L : holds h L → hsim calm (h_cJSON_Create j) (alloc j) h (json_left L).
Proof.
  intros Hh. eapply hsim_bind;
    [eapply (hsim_malloc _ _ _ (λ p ok h', match p with
       | Some p => ok = true ∧ holds h' ((p, Mem) :: L) | None => ok = false ∧ holds h' L end));
     [exact Hh|by split|by split]|].
  intros [p|] ok h1 [-> H1]; apply hsim_ret; [by exists p|done].
Qed.

Lemma hsim_extend q j0 j h L :
  holds h ((q, Mem) :: L) →
  hsim calm (h_json_extend (Item q j0) j) (alloc j) h (json_kept q ((q, Mem) :: L) L).
Proof.
  intros Hh. eapply hsim_heap; [eapply live_run; [exact Hh|by left]|].
  eapply hsim_bind; [apply (hsim_lift_malloc _ _ (λ a b h', a = b ∧ h' = h)); done|].
  intros [] ? h1 [<- ->]; by apply hsim_ret.
Qed.

Lemma hsim_add_bool q j key b h L :
  holds h ((q, Mem) :: L) →
  hsim calm (h_cJSON_AddBoolToObject (Item q j) key b) (json_add_bool j key b) h
    (json_kept q ((q, Mem) :: L) L).
Proof. apply hsim_extend. Qed.

Lemma hsim_optional q j key v h L :
  holds h ((q, Mem) :: L) → str_cells v ⊆ L →
  hsim calm (h_add_optional_string (Item q j) key (fst <$> v)) (add_optional_string j key (snd <$> v))
    h (json_kept q ((q, Mem) :: L) L).
Proof.
  intros Hh Hv. destruct v as [[p s]|]; cbn; [|by apply hsim_ret].
  eapply hsim_heap; [eapply str_run; [exact Hh|]|by apply hsim_extend].
  right. apply Hv. by left.
Qed.

Lemma hsim_add_item q j key x k h L :
  holds h ((x, Mem) :: (q, Mem) :: L) →
  hsim calm (h_cJSON_AddItemToObject (Item q j) key (Item x k)) (json_add_item j key k) h
    (json_kept q ((x, Mem) :: (q, Mem) :: L) L).
Proof.
  intros Hh. eapply hsim_heap; [eapply live_run; [exact Hh|by left]|].
  apply (hsim_ext _ _ (json_add_item j key k ≫= mret)).
  { intros w. rewrite bind_unfold. by destruct (json_add_item j key k w). }
  eapply hsim_bind.
  { apply (hsim_extend q j _ h ((x, Mem) :: L)). eapply holds_perm; [|exact Hh]. apply perm_swap. }
  intros [?|] [y|] h1; cbn; try done; [intros [-> H1]|intros H1].
  - rewrite perm_swap in H1. destruct (free_run _ _ _ _ H1) as (h2 & H2 & R2). eapply hsim_heap; [exact R2|].
    by apply hsim_ret.
  - apply hsim_ret. by rewrite perm_swap in H1.
Qed.

Lemma add_to_array_run q a x k h L :
  holds h ((x, Mem) :: (q, Mem) :: L) →
  ∃ h', holds h' ((q, Mem) :: L) ∧
    heap_run (h_cJSON_AddItemToArray (Item q a) (Item x k)) h
      (Item q (cJSON_AddItemToArray a k)) h'.
Proof.
  intros Hh. destruct (free_run _ _ _ _ Hh) as (h1 & H1 & R1). exists h1. split; [done|].
  eapply heap_run_bind; [eapply live_run; [exact Hh|right; by left]|].
  by eapply heap_run_bind.
Qed.

(** [f] converts the struct whose pointers are [g x] and whose blocks are
    [cs x] to the document that [f'] makes of its value. *)
Definition converts {A B X} (f : B → HC (option item)) (g : A → B) (cs : A → cells)
    (val : A → X) (f' : X → C (option cJSON)) : Prop :=
  ∀ x h L, holds h L → cs x ⊆ L → hsim calm (f (g x)) (f' (val x)) h (json_left L).

Lemma hsim_items {A B X} (f : B → HC (option item)) (g : A → B) (cs : A → cells) (val : A → X)
    (f' : X → C (option cJSON)) a q j h L :
  converts f g cs val f' → array_ok a → holds h ((q, Mem) :: L) → array_cells cs a ⊆ L →
  hsim calm (h_array_to_json f (array_map g a) (Item q j))
    (items_to_json f' (val <$> ha_items a) j) h (json_kept q ((q, Mem) :: L) L).
Proof.
  intros Hf Ha. pose proof (array_ok_None _ Ha) as HN. clear Ha.
  unfold h_array_to_json, array_cells. cbn. destruct a as [p l n]; cbn in *. clear n.
  intros Hh Hin. revert j h HN Hh Hin. induction l as [|x l IH]; intros j h HN Hh Hin; [by apply hsim_ret|].
  destruct p as [p|]; [|by specialize (HN eq_refl)]. cbn in Hin |- *.
  eapply hsim_heap; [eapply live_run; [exact Hh|right; apply Hin; by left]|].
  eapply hsim_or_goto; [apply Hf; [exact Hh|set_solver]|apply clears_null|done|].
  intros ? k h1 (x' & -> & H1).
  destruct (add_to_array_run _ j _ k _ _ H1) as (h2 & H2 & R2). eapply hsim_heap; [exact R2|].
  apply IH; [done|done|set_solver].
Qed.

(** One call and its label, then the rest. *)
#[local] Ltac json_call :=
  first [by apply hsim_new_item|by apply hsim_add_bool|by apply hsim_add_item
        |solve [apply hsim_optional; [done|set_solver]]].
#[local] Ltac json_items H := eapply hsim_items; [apply H|done|eassumption|set_solver].
#[local] Ltac json_clear :=
  solve [eauto using clears_none, clears_null, clears_delete, clears_then].
#[local] Ltac json_next call :=
  eapply hsim_or_goto; [call|json_clear|done|];
  let h := fresh "h" in let Hh := fresh "Hh" in
  intros ? ? h; first [intros [-> Hh]|intros (? & -> & Hh)].
#[local] Ltac json_step := json_next json_call.
#[local] Ltac json_last :=
  eapply hsim_last_or_goto; [json_call|json_clear|done|by intros ? ? ? [-> ?]; first [done|eexists]].

Lemma converts_rule :
  converts h_rule_to_json (rule_map fst) rule_cells rule_vals (λ r, scope_rule_to_json (Some r)).
Proof.
  intros r h L Hh Hin. unfold rule_cells in Hin. do 4 json_step. apply hsim_ret. by eexists.
Qed.

Lemma converts_credential :
  converts h_credential_to_json (credential_map fst) credential_cells credential_vals
    (λ c, credential_to_json (Some c)).
Proof.
  intros c h L Hh Hin. unfold credential_cells in Hin. do 4 json_step. apply hsim_ret. by eexists.
Qed.

Lemma converts_text :
  converts h_cJSON_CreateString fst text_cells snd (λ o, json_create_string (Some o)).
Proof.
  intros [p s] h L Hh Hin. eapply hsim_heap; [eapply str_run; [exact Hh|apply Hin; by left]|].
  by apply hsim_new_item.
Qed.

Lemma hsim_scope_to_json s h L :
  array_ok (hsc_specification s) → holds h L → scope_cells s ⊆ L →
  hsim calm (h_scope_to_json (scope_map fst s)) (scope_to_json (Some (scope_vals s))) h
    (json_left L).
Proof.
  intros Hs Hh Hin. unfold scope_cells in Hin. do 4 json_step.
  json_next ltac:(json_items converts_rule). json_last.
Qed.

Lemma hsim_add_initiators q j a h L :
  array_ok a → holds h ((q, Mem) :: L) → array_cells text_cells a ⊆ L →
  hsim calm (h_add_initiators (Item q j) (array_map fst a))
    (if bool_decide (0 < length (snd <$> ha_items a))%nat then
       or_fail (alloc cJSON_Array) (λ initiators,
       or_fail (items_to_json (λ o, json_create_string (Some o)) (snd <$> ha_items a) initiators)
         (λ initiators, json_add_item j "allowed_refresh_initiators" initiators))
     else mret (Some j)) h (json_kept q ((q, Mem) :: L) L).
Proof.
  intros Ha Hh Hin. unfold h_add_initiators. cbn [array_map ha_items]. rewrite !length_fmap.
  destruct (bool_decide _); [|by apply hsim_ret].
  json_step. json_next ltac:(json_items converts_text). json_last.
Qed.

Lemma hsim_to_json i h L :
  instruction_ok i → holds h L → instruction_cells i ⊆ L →
  hsim calm (h_instruction_to_json (instruction_map fst i))
    (opendbsc_instruction_to_json (Some (instruction_vals i))) h (json_left L).
Proof.
  intros (Hs & Hc & Hi) Hh Hin. unfold instruction_cells in Hin. json_step.
  cbn [instruction_map instruction_vals hi_has_continue i_has_continue hi_continue_session
       i_continue_session].
  destruct (hi_has_continue i && negb (hi_continue_session i)); [json_last|].
  do 2 json_step.
  json_next ltac:(destruct (hi_has_continue i); [by apply hsim_add_bool|by apply hsim_ret]).
  json_next ltac:(apply hsim_add_initiators; [done|done|set_solver]).
  json_next ltac:(apply hsim_scope_to_json; [done|done|set_solver]).
  do 2 json_step. json_next ltac:(json_items converts_credential). json_last.
Qed.

(** The text is the caller's, and the tree is gone. *)
Lemma hsim_to_string i h F :
  instruction_ok i → holds h (instruction_cells i ++ F) →
  hsim calm (h_instruction_to_string (instruction_map fst i))
    (opendbsc_instruction_to_string (Some (instruction_vals i))) h
    (string_left (instruction_cells i ++ F)).
Proof.
  intros Hi Hh. eapply hsim_bind; [eapply hsim_to_json; [done|exact Hh|set_solver]|].
  intros [x|] [j|] h1; cbn; try done.
  - intros (q & -> & H1). apply (hsim_ext _ _ (alloc (cJSON_Print j) ≫= mret)).
    { intros w. rewrite bind_unfold. by destruct (alloc (cJSON_Print j) w). }
    eapply hsim_bind.
    { eapply hsim_heap; [eapply live_run; [exact H1|by left]|by apply hsim_strdup]. }
    intros ? ? h2 (f & -> & -> & H2). rewrite <-Permutation_middle in H2.
    destruct (clears_delete q j _ _ H2) as (h3 & H3 & R3). eapply hsim_heap; [exact R3|].
    apply hsim_ret. by exists f.
  - intros H1. apply hsim_ret. by exists None.
Qed.

End json.

(** ** Programs that build an instruction *)

Inductive instruction_op (S : Type) :=
| OSetSessionIdentifier (v : option S)
| OSetRefreshUrl (v : option S)
| OSetContinue (c : bool)
| OAddRefreshInitiator (origin : option S)
| OAddCredential (credential : option (credential_of S))
| OSetOrigin (v : option S)
| OSetIncludeSite (include_site : Z)
| OAddRule (rule : option (rule_of S)).
Arguments OSetSessionIdentifier {_} _.
Arguments OSetRefreshUrl {_} _.
Arguments OSetContinue {_} _.
Arguments OAddRefreshInitiator {_} _.
Arguments OAddCredential {_} _.
Arguments OSetOrigin {_} _.
Arguments OSetIncludeSite {_} _.
Arguments OAddRule {_} _.

Definition instruction_op_map {S S'} (f : S → S') (op : instruction_op S) : instruction_op S' :=
  match op with
  | OSetSessionIdentifier v => OSetSessionIdentifier (f <$> v)
  | OSetRefreshUrl v => OSetRefreshUrl (f <$> v)
  | OSetContinue c => OSetContinue c
  | OAddRefreshInitiator o => OAddRefreshInitiator (f <$> o)
  | OAddCredential c => OAddCredential (credential_map f <$> c)
  | OSetOrigin v => OSetOrigin (f <$> v)
  | OSetIncludeSite z => OSetIncludeSite z
  | OAddRule r => OAddRule (rule_map f <$> r)
  end.

(** The blocks of the caller that a call reads. *)
Definition instruction_op_cells (op : instruction_op ostr) : cells :=
  match op with
  | OSetSessionIdentifier v | OSetRefreshUrl v | OAddRefreshInitiator v | OSetOrigin v =>
      str_cells v
  | OAddCredential c => opt_cells credential_cells c
  | OAddRule r => opt_cells rule_cells r
  | OSetContinue _ | OSetIncludeSite _ => []
  end.

Definition h_instruction_op (op : instruction_op ptr) (i : instruction_of ptr)
    : HC (Z * instruction_of ptr) :=
  match op with
  | OSetSessionIdentifier v => h_instruction_set_session_identifier i v
  | OSetRefreshUrl v => h_instruction_set_refresh_url i v
  | OSetContinue c => mret (0, h_instruction_set_continue i c)
  | OAddRefreshInitiator o => h_instruction_add_refresh_initiator i o
  | OAddCredential c => h_instruction_add_credential i c
  | OSetOrigin v => '(rc, s) ← h_scope_set_origin (hi_scope i) v; mret (rc, hi_with_scope s i)
  | OSetIncludeSite z => mret (0, hi_with_scope (h_scope_set_include_site (hi_scope i) z) i)
  | OAddRule r => '(rc, s) ← h_scope_add_rule (hi_scope i) r; mret (rc, hi_with_scope s i)
  end.

(** The same call on values. *)
Definition instruction_op_run (op : instruction_op ostr) (i : OpenDBSC_SessionInstruction)
    : C (Z * option OpenDBSC_SessionInstruction) :=
  match op with
  | OSetSessionIdentifier v => opendbsc_instruction_set_session_identifier (Some i) (snd <$> v)
  | OSetRefreshUrl v => opendbsc_instruction_set_refresh_url (Some i) (snd <$> v)
  | OSetContinue c => mret (0, opendbsc_instruction_set_continue (Some i) c)
  | OAddRefreshInitiator o => opendbsc_instruction_add_refresh_initiator (Some i) (snd <$> o)
  | OAddCredential c => opendbsc_instruction_add_credential (Some i) (credential_vals <$> c)
  | OSetOrigin v =>
      '(rc, s) ← opendbsc_scope_set_origin (Some (i_scope i)) (snd <$> v);
      mret (rc, (λ s, with_scope s i) <$> s)
  | OSetIncludeSite z =>
      mret (0, (λ s, with_scope s i) <$> opendbsc_scope_set_include_site (Some (i_scope i)) z)
  | OAddRule r =>
      '(rc, s) ← opendbsc_scope_add_rule (Some (i_scope i)) (rule_vals <$> r);
      mret (rc, (λ s, with_scope s i) <$> s)
  end.

(** A program that sets up an instruction, prints it and frees it. *)
Fixpoint h_instruction_ops (ops : list (instruction_op ptr)) (i : instruction_of ptr)
    : HC (list Z * instruction_of ptr) :=
  match ops with
  | [] => mret ([], i)
  | op :: ops =>
      '(rc, i) ← h_instruction_op op i;
      '(rcs, i) ← h_instruction_ops ops i;
      mret (rc :: rcs, i)
  end.

Definition h_instruction_program `{CJSON} (ops : list (instruction_op ptr))
    : HC (list Z * cstr) :=
  '(rcs, i) ← h_instruction_ops ops h_instruction_default;
  p ← h_instruction_to_string i;
  text ← h_read p;
  h_free p;;
  h_instruction_free i;;
  mret (rcs, text).

Fixpoint instruction_ops_run (ops : list (instruction_op ostr)) (i : OpenDBSC_SessionInstruction)
    : C (list Z * OpenDBSC_SessionInstruction) :=
  match ops with
  | [] => mret ([], i)
  | op :: ops =>
      '(rc, i) ← instruction_op_run op i;
      i ← deref i;
      '(rcs, i) ← instruction_ops_run ops i;
      mret (rc :: rcs, i)
  end.

Definition instruction_program `{CJSON} (ops : list (instruction_op ostr)) : C (list Z * cstr) :=
  '(rcs, i) ← instruction_ops_run ops instruction_default;
  text ← opendbsc_instruction_to_string (Some i);
  mret (rcs, text).

Section program.
Context (calm : Prop).

Lemma hsim_instruction_field i v h F (get : instruction_of ostr → option ostr)
    (mk : option ostr → instruction_of ostr) (put : option ptr → instruction_of ptr)
    (put' : cstr → option OpenDBSC_SessionInstruction) :
  (∀ x, put (fst <$> x) = instruction_map fst (mk x)) →
  (∀ x, put' (snd <$> x) = Some (instruction_vals (mk x))) →
  (∀ x, instruction_cells (mk x) ≡ₚ str_cells x ++ instruction_cells (mk None)) →
  (∀ x, instruction_ok (mk x)) → mk (get i) = i →
  holds h (instruction_cells i ++ F) → str_cells v ⊆ F →
  hsim calm ('(rc, p) ← h_set_string (fst <$> get i) (fst <$> v); mret (rc, put p))
    ('(rc, x) ← instruction_set_string (snd <$> get i) (snd <$> v); mret (rc, put' x)) h
    (instruction_left F).
Proof.
  intros Hg Hval Hcs Hok Hi Hh Hv. rewrite <-Hi, Hcs, <-(assoc_L (++)) in Hh.
  eapply hsim_mono; [apply (hsim_field calm h (get i) v _ put put' Hh); set_solver|].
  intros ? ? h1 (rc & f & -> & -> & _ & H1). exists rc, (mk f).
  rewrite Hg, Hval, Hcs, <-(assoc_L (++)). by split_and!.
Qed.

#[local] Ltac cells_perm :=
  intros x; unfold instruction_cells, scope_cells; simpl; solve_Permutation.

Lemma hsim_set_session_identifier i v h F :
  instruction_ok i → holds h (instruction_cells i ++ F) → str_cells v ⊆ F →
  hsim calm (h_instruction_set_session_identifier (instruction_map fst i) (fst <$> v))
    (opendbsc_instruction_set_session_identifier (Some (instruction_vals i)) (snd <$> v)) h
    (instruction_left F).
Proof.
  intros Hi Hh Hv. unfold h_instruction_set_session_identifier.
  apply (hsim_instruction_field i v h F hi_session_identifier
    (λ x, hi_with_session_identifier x i) (λ p, hi_with_session_identifier p (instruction_map fst i))
    (λ x, Some (with_session_identifier x (instruction_vals i)))); [done|done|cells_perm|done|by destruct i|done|done].
Qed.

Lemma hsim_set_refresh_url i v h F :
  instruction_ok i → holds h (instruction_cells i ++ F) → str_cells v ⊆ F →
  hsim calm (h_instruction_set_refresh_url (instruction_map fst i) (fst <$> v))
    (opendbsc_instruction_set_refresh_url (Some (instruction_vals i)) (snd <$> v)) h
    (instruction_left F).
Proof.
  intros Hi Hh Hv. unfold h_instruction_set_refresh_url.
  apply (hsim_instruction_field i v h F hi_refresh_url
    (λ x, hi_with_refresh_url x i) (λ p, hi_with_refresh_url p (instruction_map fst i))
    (λ x, Some (with_refresh_url x (instruction_vals i)))); [done|done|cells_perm|done|by destruct i|done|done].
Qed.

(** Around a function of the scope. *)
Lemma hsim_on_scope (mh : HC (Z * scope_of ptr)) (m : C (Z * option OpenDBSC_SessionScope)) i h F :
  instruction_ok i →
  hsim calm mh m h (scope_left (str_cells (hi_session_identifier i) ++
    str_cells (hi_refresh_url i) ++ array_cells credential_cells (hi_credentials i) ++
    array_cells text_cells (hi_initiators i) ++ F)) →
  hsim calm ('(rc, s) ← mh; mret (rc, hi_with_scope s (instruction_map fst i)))
    ('(rc, s) ← m; mret (rc, (λ s, with_scope s (instruction_vals i)) <$> s)) h
    (instruction_left F).
Proof.
  intros (_ & Hc & Hi) Hm. eapply hsim_bind; [exact Hm|].
  intros ? ? h1 (rc & s & -> & -> & Hs & H1). apply hsim_ret. exists rc, (hi_with_scope s i).
  split_and!; [done|done|by split|]. eapply holds_perm; [|exact H1].
  unfold instruction_cells. simpl. solve_Permutation.
Qed.

Lemma hsim_scope_set_origin s v h F :
  array_ok (hsc_specification s) → holds h (scope_cells s ++ F) → str_cells v ⊆ F →
  hsim calm (h_scope_set_origin (scope_map fst s) (fst <$> v))
    (opendbsc_scope_set_origin (Some (scope_vals s)) (snd <$> v)) h (scope_left F).
Proof.
  intros Hs Hh Hv. unfold scope_cells in Hh. rewrite <-(assoc_L (++)) in Hh.
  eapply hsim_mono; [apply (hsim_field calm h (hsc_origin s) v _
    (λ p, ScopeOf p (hsc_include_site s) (hsc_specification (scope_map fst s)))
    (λ x, Some (SessionScope x (hsc_include_site s) (sc_specification (scope_vals s))
                  (sc_specification_capacity (scope_vals s)))) Hh); set_solver|].
  intros ? ? h1 (rc & f & -> & -> & _ & H1).
  exists rc, (ScopeOf f (hsc_include_site s) (hsc_specification s)).
  split_and!; [done..|]. unfold scope_cells. by rewrite <-(assoc_L (++)).
Qed.

Lemma hsim_instruction_op op i h F :
  instruction_ok i → holds h (instruction_cells i ++ F) → instruction_op_cells op ⊆ F →
  hsim calm (h_instruction_op (instruction_op_map fst op) (instruction_map fst i))
    (instruction_op_run op (instruction_vals i)) h (instruction_left F).
Proof.
  intros Hi Hh Hop.
  assert (holds h (scope_cells (hi_scope i) ++ str_cells (hi_session_identifier i) ++
    str_cells (hi_refresh_url i) ++ array_cells credential_cells (hi_credentials i) ++
    array_cells text_cells (hi_initiators i) ++ F)) as Hsc.
  { eapply holds_perm; [|exact Hh]. unfold instruction_cells. solve_Permutation. }
  destruct op as [v|v|c|o|c|v|z|r]; cbn [instruction_op_map h_instruction_op instruction_op_run].
  - by apply hsim_set_session_identifier.
  - by apply hsim_set_refresh_url.
  - apply hsim_ret. exists 0, (h_instruction_set_continue i c). by destruct c.
  - by apply hsim_add_refresh_initiator.
  - by apply hsim_add_credential.
  - apply hsim_on_scope; [done|]. apply hsim_scope_set_origin; [apply Hi|exact Hsc|]. set_solver.
  - apply hsim_ret. exists 0, (hi_with_scope (h_scope_set_include_site (hi_scope i) z) i).
    by split_and!.
  - apply hsim_on_scope; [done|]. apply hsim_scope_add_rule; [apply Hi|exact Hsc|]. set_solver.
Qed.

Lemma hsim_instruction_ops ops i h F :
  instruction_ok i → holds h (instruction_cells i ++ F) →
  Forall (λ op, instruction_op_cells op ⊆ F) ops →
  hsim calm (h_instruction_ops (instruction_op_map fst <$> ops) (instruction_map fst i))
    (instruction_ops_run ops (instruction_vals i)) h (λ r r' h', ∃ rcs i',
      r = (rcs, instruction_map fst i') ∧ r' = (rcs, instruction_vals i') ∧ instruction_ok i' ∧
      holds h' (instruction_cells i' ++ F)).
Proof.
  intros Hi Hh Hops. revert i h Hi Hh. induction Hops as [|op ops Hop _ IH]; intros i h Hi Hh.
  { apply hsim_ret. by exists [], i. }
  cbn. eapply hsim_bind; [by apply hsim_instruction_op|].
  intros ? ? h1 (rc & i1 & -> & -> & Hi1 & H1). eapply hsim_value; [done|].
  eapply hsim_bind; [by apply IH|]. intros ? ? h2 (rcs & i2 & -> & -> & Hi2 & H2).
  apply hsim_ret. by exists (rc :: rcs), i2.
Qed.

Lemma hsim_instruction_program `{CJSON} ops h F :
  holds h F → Forall (λ op, instruction_op_cells op ⊆ F) ops →
  hsim calm (h_instruction_program (instruction_op_map fst <$> ops)) (instruction_program ops) h
    (λ r r' h', r = r' ∧ holds h' F).
Proof.
  intros Hh Hops. unfold h_instruction_program, instruction_program.
  eapply hsim_bind; [by apply (hsim_instruction_ops ops h_instruction_default h F)|].
  intros ? ? h1 (rcs & i & -> & -> & Hi & H1).
  eapply hsim_bind; [by apply hsim_to_string|]. intros p x h2 (f & -> & -> & H2).
  eapply hsim_heap; [eapply read_run; [exact H2|set_solver]|].
  destruct (free_str_run _ _ _ H2) as (h3 & H3 & R3). eapply hsim_heap; [exact R3|].
  destruct (instruction_free_run _ _ _ Hi H3) as (h4 & H4 & R4). eapply hsim_heap; [exact R4|].
  by apply hsim_ret.
Qed.

End program.

(** Every call returns, with an instruction whose counts fit. *)
Lemma wp_instruction_op op i w :
  instruction_wf i →
  wp (instruction_op_run op i) w (λ r _, ∃ i', r.2 = Some i' ∧ instruction_wf i').
Proof.
  intros Hi. pose proof Hi as (Hc & Hr & Hs).
  destruct op as [v|v|c|[o|]|[c|]|v|z|[r|]]; cbn [instruction_op_run fmap option_fmap option_map];
    try (by apply wp_ret; eauto).
  - apply wp_bind. rewrite instruction_set_string_eq. apply wp_set_string; intros; apply wp_ret; eauto.
  - apply wp_bind. rewrite instruction_set_string_eq. apply wp_set_string; intros; apply wp_ret; eauto.
  - apply wp_add_refresh_initiator; [done|..]; cbn; intros; (eexists; split; [done|]);
      (split_and!; cbn; [lia| |done]); rewrite ?length_app; cbn; lia.
  - apply wp_add_credential; [done|..]; cbn; intros; (eexists; split; [done|]);
      (split_and!; cbn; [|lia|done]); rewrite ?length_app; cbn; lia.
  - apply wp_bind, wp_bind. rewrite instruction_set_string_eq.
    apply wp_set_string; intros; apply wp_ret, wp_ret; eauto.
  - apply wp_bind, wp_scope_add_rule; [done|..]; intros; apply wp_ret; cbn;
      (eexists; split; [done|]); (split_and!; cbn; [lia|lia|]); unfold scope_wf; cbn;
      rewrite ?length_app; cbn; lia.
Qed.

Lemma wp_instruction_ops ops i w :
  instruction_wf i → wp (instruction_ops_run ops i) w (λ r _, instruction_wf r.2).
Proof.
  revert i w. induction ops as [|op ops IH]; intros i w Hi; [by apply wp_ret|].
  cbn. apply wp_bind. eapply wp_mono; [by apply wp_instruction_op|].
  intros [rc o] w1 (i1 & E & Hi1). cbn in E. subst o. apply wp_bind, wp_deref, wp_bind.
  eapply wp_mono; [by apply IH|]. intros [rcs i2] w2 Hi2. by apply wp_ret.
Qed.

Lemma wp_instruction_program `{CJSON} ops w : wp (instruction_program ops) w (λ _ _, True).
Proof.
  apply wp_bind. eapply wp_mono; [apply wp_instruction_ops; split_and!; unfold scope_wf; cbn; lia|].
  intros [rcs i] w1 _. apply wp_bind, computes_instruction_to_string; intros; by apply wp_ret.
Qed.

(** ** Properties *)

(** C9. Building an instruction leaks nothing.  A program sets up an
    instruction with any calls of the builder, in any order and with strings
    and structs of its own (in [F]) or NULL; prints it, which builds and deletes
    the JSON tree; and frees the text and the instruction.  In any environment, whichever allocations fail, the
    program over the heap runs to the end with the codes and the text of the
    definitions on values, never uses or frees a freed block, never writes
    past an array, and leaves the heap exactly as it was. *)
Theorem instruction_frees_everything `{CJSON} (ops : list (instruction_op ostr)) (F : cells)
    (h : heap) (w : world) :
  holds h F → Forall (λ op, instruction_op_cells op ⊆ F) ops →
  ∃ r h' w', instruction_program ops w = Ret r w' ∧
    h_instruction_program (instruction_op_map fst <$> ops) h w = Ret (r, h') w' ∧
    blocks h' = blocks h.
Proof.
  intros Hh Hops. destruct (wp_elim _ _ _ (wp_instruction_program ops w)) as (r & w' & Hrun & _).
  destruct (hsim_instruction_program False ops h F Hh Hops w r w' (λ H, False_ind _ H) Hrun)
    as (_ & r' & h' & Hrun' & -> & Hh').
  exists r, h', w'. split_and!; [done|done|].
  by rewrite (holds_blocks _ _ Hh'), (holds_blocks _ _ Hh).
Qed.

(** ** Witnesses *)

(** The strings "s-1", "/dbsc/refresh" and "cookie" of the caller, and a world
    in which the fifth allocation fails: the array of credentials was grown,
    and the name of the credential cannot be duplicated. *)
Definition builder_strings : cells :=
  [(1%positive, Str "s-1"); (2%positive, Str "/dbsc/refresh"); (3%positive, Str "cookie")].
Definition builder_heap : heap := Heap (list_to_map builder_strings) 4.
Definition builder_ops : list (instruction_op ostr) :=
  [OSetSessionIdentifier (Some (1%positive, "s-1")); OSetRefreshUrl (Some (2%positive, "/dbsc/refresh"));
   OAddCredential (Some (CredentialOf (Some (3%positive, "cookie")) (Some (1%positive, "s-1")) None));
   OAddRefreshInitiator (Some (2%positive, "/dbsc/refresh"));
   OAddRule (Some (RuleOf (Some (3%positive, "cookie")) None None))].
Definition builder_world : world := World [true; true; true; true; false] 1000 [] [] [] [].

Lemma instruction_frees_everything_witness :
  holds builder_heap builder_strings ∧
  Forall (λ op, instruction_op_cells op ⊆ builder_strings) builder_ops ∧
  ∃ r h' w', instruction_program builder_ops builder_world = Ret r w' ∧
    h_instruction_program (instruction_op_map fst <$> builder_ops) builder_heap builder_world
      = Ret (r, h') w' ∧
    r.1 = [0; 0; -1; 0; 0] ∧ blocks h' = blocks builder_heap.
Proof.
  assert (holds builder_heap builder_strings) as Hh.
  { split; [apply (bool_decide_unpack _); vm_compute; exact I|done|]. repeat constructor. }
  assert (Forall (λ op, instruction_op_cells op ⊆ builder_strings) builder_ops) as Hops.
  { repeat (apply Forall_cons; split; [unfold builder_strings; simpl; set_solver|]). constructor. }
  split; [exact Hh|]. split; [exact Hops|].
  destruct (instruction_frees_everything builder_ops builder_strings builder_heap builder_world
              Hh Hops) as (r & h' & w' & H1 & H2 & H3).
  exists r, h', w'. split_and!; [exact H1|exact H2| |exact H3].
  assert ((match instruction_program builder_ops builder_world with
           | Ret r _ => r.1 | _ => [] end) = [0; 0; -1; 0; 0]) as E by (vm_compute; reflexivity).
  by rewrite H1 in E.
Defined.
