(* ===== verification/Manager.v ===== *)
(** [src/manager/manager.c] and [include/manager/manager.h]: the DBSC manager.
    It runs over any session store ([Store]), any JSON and OpenSSL library and
    any identifier generator; the state of the store is threaded through every
    request.  [cfg_store] says whether the store pointer is there. *)

From S2P Require Export Store Header Jwt Instruction.
From stdpp Require Import pretty.
From stdpp Require Import options.
#[local] Open Scope Z_scope.

(** ** Data *)

Definition OPENDBSC_DEFAULT_COOKIE_NAME : string := "session_id".
Definition OPENDBSC_DEFAULT_COOKIE_PATH : string := "/".
Definition OPENDBSC_DEFAULT_SAME_SITE : string := "Lax".
Definition OPENDBSC_DEFAULT_COOKIE_TTL : Z := 3600.

Record OpenDBSC_ManagerConfig := ManagerConfig {
  cfg_store : bool;
  cfg_cookie_name : cstr;
  cfg_cookie_path : cstr;
  cfg_cookie_domain : cstr;
  cfg_secure : bool;
  cfg_same_site : cstr;
  cfg_cookie_ttl_seconds : Z;
  cfg_session_ttl_seconds : Z;
  cfg_authorization : cstr;
  cfg_on_event : bool
}.

Record OpenDBSC_ManagerResponse := ManagerResponse {
  status_code : Z;
  set_cookie : cstr;
  registration_header : cstr;
  challenge_header : cstr;
  body : cstr
}.

#[export] Instance ManagerResponse_eq_dec : EqDecision OpenDBSC_ManagerResponse.
Proof. solve_decision. Defined.

(** The manager is its configuration (copied). *)
Abbreviation OpenDBSC_Manager := OpenDBSC_ManagerConfig.

Definition response_default : OpenDBSC_ManagerResponse := ManagerResponse 0 None None None None.
Definition manager_zero : OpenDBSC_Manager :=
  ManagerConfig false None None None false None 0 0 None false.

Definition opendbsc_manager_response_init (resp : option OpenDBSC_ManagerResponse)
    : option OpenDBSC_ManagerResponse :=
  match resp with None => None | Some _ => Some response_default end.
Definition opendbsc_manager_response_free (resp : option OpenDBSC_ManagerResponse)
    : option OpenDBSC_ManagerResponse :=
  match resp with None => None | Some r => opendbsc_manager_response_init (Some r) end.

(** ** Internal helpers *)

Definition emit_event (mgr : OpenDBSC_Manager) (type : string) (user session_id detail : cstr)
    : C unit :=
  if cfg_on_event mgr then call_on_event (Event type user session_id detail) else mret tt.

(** ["%02x"] of an [unsigned char]. *)
Definition hex_nibble (n : Z) : ascii :=
  default NUL (String.get (Z.to_nat n) "0123456789abcdef").
Definition fmt_02x (b : Z) : string := String (hex_nibble (b / 16)) (String (hex_nibble (b mod 16)) "").

Fixpoint write_hex (bytes : list Z) (out : cbuf) : C cbuf :=
  match bytes with
  | [] => mret out
  | b :: bytes' => out ← sprintf out (fmt_02x b); write_hex bytes' out
  end.

Definition opendbsc_manager_generate_challenge : C cstr :=
  bytes ← getentropy 32;
  match bytes with
  | None => strdup "fallback-challenge"
  | Some bytes =>
      out ← malloc_buf (32 * 2 + 1);
      match out with
      | None => mret None
      | Some out =>
          out ← write_hex bytes out;
          out ← buf_nul out;
          s ← buf_cstr out;
          mret (Some s)
      end
  end.

Definition copy_string (s : cstr) : C cstr :=
  match s with None => mret None | Some s => strdup s end.

(** [p != NULL ? p : d]. *)
Definition or_default (p : cstr) (d : string) : cstr :=
  match p with Some _ => p | None => Some d end.

Definition opendbsc_manager_init (mgr : option OpenDBSC_Manager)
    (cfg : option OpenDBSC_ManagerConfig) : C (Z * option OpenDBSC_Manager) :=
  match mgr, cfg with
  | Some _, Some cfg =>
      if negb (cfg_store cfg) then mret (-1, mgr) else
      cookie_name ← copy_string (or_default (cfg_cookie_name cfg) OPENDBSC_DEFAULT_COOKIE_NAME);
      cookie_path ← copy_string (or_default (cfg_cookie_path cfg) OPENDBSC_DEFAULT_COOKIE_PATH);
      cookie_domain ← copy_string (cfg_cookie_domain cfg);
      same_site ← copy_string (or_default (cfg_same_site cfg) OPENDBSC_DEFAULT_SAME_SITE);
      authorization ← copy_string (cfg_authorization cfg);
      let cookie_ttl_seconds :=
        if cfg_cookie_ttl_seconds cfg =? 0 then OPENDBSC_DEFAULT_COOKIE_TTL
        else cfg_cookie_ttl_seconds cfg in
      mret (0, Some (ManagerConfig (cfg_store cfg) cookie_name cookie_path cookie_domain
                       (cfg_secure cfg) same_site cookie_ttl_seconds
                       (cfg_session_ttl_seconds cfg) authorization (cfg_on_event cfg)))
  | _, _ => mret (-1, mgr)
  end.

Definition opendbsc_manager_destroy (mgr : option OpenDBSC_Manager) : option OpenDBSC_Manager :=
  match mgr with None => None | Some _ => Some manager_zero end.

(** The string of a pointer that is neither NULL nor empty. *)
Definition nonempty (p : cstr) : cstr :=
  match p with Some (String _ _) => p | _ => None end.

(** The [int n] that adds up what [snprintf] measured is unbounded: it would
    overflow for a cookie of 2^31 characters. *)
Definition build_set_cookie_with_max_age (mgr : OpenDBSC_Manager) (value : cstr) (max_age : Z)
    : C cstr :=
  let same_site := nonempty (cfg_same_site mgr) in
  let domain := nonempty (cfg_cookie_domain mgr) in
  let secure := if cfg_secure mgr then "; Secure" else "" in
  name ← need_str (cfg_cookie_name mgr);
  value ← need_str value;
  path ← need_str (cfg_cookie_path mgr);
  let head := name +:+ "=" +:+ value +:+ "; Path=" +:+ path +:+ "; Max-Age=" +:+ pretty max_age
                +:+ "; HttpOnly" +:+ secure in
  let n := (String.length head +
            String.length (if bool_decide (is_Some same_site) then "; SameSite=" else ""))%nat in
  let n := match same_site with Some s => (n + String.length s)%nat | None => n end in
  let n := match domain with
           | Some d => (n + String.length ("; Domain=" +:+ d))%nat
           | None => n
           end in
  cookie ← malloc_buf (n + 1);
  match cookie with
  | None => mret None
  | Some w =>
      w ← sprintf w head;
      w ← (match domain with Some d => sprintf w ("; Domain=" +:+ d) | None => mret w end);
      w ← (match same_site with Some s => sprintf w ("; SameSite=" +:+ s) | None => mret w end);
      s ← buf_cstr w;
      mret (Some s)
  end.

Definition build_set_cookie (mgr : OpenDBSC_Manager) (value : cstr) : C cstr :=
  build_set_cookie_with_max_age mgr value (cfg_cookie_ttl_seconds mgr).

(** A setter whose return code is ignored. *)
Definition ignore {A} (f : option A → C (Z * option A)) (a : A) : C A :=
  '(_, a) ← on_local f a; mret a.

Definition apply_session_ttl (session : OpenDBSC_Session) (ttl_seconds : Z)
    : C OpenDBSC_Session :=
  if 0 <? ttl_seconds then
    now ← time_NULL;
    deref (opendbsc_session_set_expires_at (Some session) (now + ttl_seconds))
  else mret (with_expires 0 false session).

Definition set_challenge_response (resp : OpenDBSC_ManagerResponse) (challenge session_id : cstr)
    (status : Z) : C OpenDBSC_ManagerResponse :=
  header ← opendbsc_challenge_serialize challenge session_id;
  b ← strdup (dquoted "Secure-Session-Challenge issued");
  mret (ManagerResponse status (set_cookie resp) (registration_header resp) header b).

(** [resp->status_code = status; resp->body = strdup(text);] *)
Definition message_response (resp : OpenDBSC_ManagerResponse) (status : Z) (text : string)
    : C OpenDBSC_ManagerResponse :=
  b ← strdup (dquoted text);
  mret (ManagerResponse status (set_cookie resp) (registration_header resp)
          (challenge_header resp) b).

Section manager.
Context `{CJSON, OpenSSL, UUIDv7} {T : Type} `{Store T}.

Definition build_instruction_body (mgr : OpenDBSC_Manager) (session : OpenDBSC_Session)
    (continue_session : bool) : C cstr :=
  let inst := instruction_default in
  if negb continue_session then
    inst ← deref (opendbsc_instruction_set_continue (Some inst) false);
    opendbsc_instruction_to_string (Some inst)
  else
    inst ← deref (opendbsc_instruction_set_continue (Some inst) true);
    inst ← ignore (λ i, opendbsc_instruction_set_session_identifier i (s_id session)) inst;
    inst ← ignore (λ i, opendbsc_instruction_set_refresh_url i (Some "/dbsc/refresh")) inst;
    scope ← deref (opendbsc_scope_set_include_site (Some (i_scope inst)) 0);
    let inst := with_scope scope inst in
    let cred := credential_default in
    cred ← ignore (λ c, opendbsc_credential_set_type c (Some "cookie")) cred;
    cred ← ignore (λ c, opendbsc_credential_set_name c (cfg_cookie_name mgr)) cred;
    path ← need_str (cfg_cookie_path mgr);
    same_site ← need_str (cfg_same_site mgr);
    let text := "Path=" +:+ path +:+ "; Secure; HttpOnly; SameSite=" +:+ same_site in
    attrs ← malloc_buf (String.length text + 1);
    cred ← (match attrs with
            | None => mret cred
            | Some attrs =>
                attrs ← sprintf attrs text;
                a ← buf_cstr attrs;
                ignore (λ c, opendbsc_credential_set_attributes c (Some a)) cred
            end);
    inst ← ignore (λ i, opendbsc_instruction_add_credential i (Some cred)) inst;
    opendbsc_instruction_to_string (Some inst).

(** [mgr->cfg.store->...] *)
Definition need_store (mgr : OpenDBSC_Manager) : C unit :=
  if cfg_store mgr then mret tt else ub.

(** ** Requests *)

Definition opendbsc_manager_initiate (mgr : option OpenDBSC_Manager) (user_id : cstr)
    (out_session : option OpenDBSC_Session) (resp : option OpenDBSC_ManagerResponse) (st : T)
    : C (Z * option OpenDBSC_Session * option OpenDBSC_ManagerResponse * T) :=
  match mgr, user_id, resp with
  | Some mgr, Some user_id, Some _ =>
      let resp := response_default in
      '(rc, id) ← opendbsc_session_new_id (Some (CBuf 37 None));
      if negb (rc =? 0) then mret (-1, out_session, Some resp, st) else
      id ← deref id;
      id ← buf_cstr id;
      let session := session_default in
      session ← ignore (λ s, opendbsc_session_set_id s (Some id)) session;
      session ← ignore (λ s, opendbsc_session_set_user_id s (Some user_id)) session;
      session ← deref (opendbsc_session_set_state (Some session) OPENDBSC_SESSION_STATE_ACTIVE);
      challenge ← opendbsc_manager_generate_challenge;
      match challenge with
      | None => mret (-1, out_session, Some resp, st)
      | Some challenge =>
          session ← ignore (λ s, opendbsc_session_set_challenge s (Some challenge)) session;
          now ← time_NULL;
          session ← deref (opendbsc_session_set_created_at (Some session) now);
          session ← apply_session_ttl session (cfg_session_ttl_seconds mgr);
          need_store mgr;;
          '(rc, st) ← st_create st (Some session);
          if negb (rc =? 0) then mret (-1, out_session, Some resp, st) else
          cookie ← build_set_cookie mgr (s_id session);
          header ← opendbsc_registration_serialize (Some [Some "ES256"; Some "RS256"]) 2
                     (Some "/dbsc/register") (s_challenge session) (cfg_authorization mgr)
                     None None None;
          out_session ← (match out_session with
                         | None => mret None
                         | Some out =>
                             '(_, out) ← opendbsc_session_copy (Some out) (Some session);
                             mret out
                         end);
          emit_event mgr "LOGIN" (Some user_id) (s_id session) (Some "login successful");;
          mret (0, out_session, Some (ManagerResponse 200 cookie header None None), st)
      end
  | _, _, _ => mret (-1, out_session, resp, st)
  end.

(** [out] is the output pointer with what it points to. *)
Definition opendbsc_manager_get_session (mgr : option OpenDBSC_Manager)
    (cookie_session_id : cstr) (out : option (option OpenDBSC_Session)) (st : T)
    : C (Z * option (option OpenDBSC_Session) * T) :=
  match mgr, cookie_session_id, out with
  | Some mgr, Some _, Some _ => need_store mgr;; st_get st cookie_session_id out
  | _, _, _ => mret (-1, out, st)
  end.

Definition opendbsc_manager_register (mgr : option OpenDBSC_Manager)
    (cookie_session_id session_response_header : cstr)
    (resp : option OpenDBSC_ManagerResponse) (st : T)
    : C (Z * option OpenDBSC_ManagerResponse * T) :=
  match mgr, resp with
  | Some mgr, Some _ =>
      let resp := response_default in
      match nonempty cookie_session_id with
      | None => r ← message_response resp 401 "missing session cookie"; mret (0, Some r, st)
      | Some cookie_session_id =>
          need_store mgr;;
          '(rc, session, st) ← call_get st cookie_session_id;
          if negb (rc =? 0) then
            r ← message_response resp 401 "invalid session"; mret (0, Some r, st)
          else
          session ← deref session;
          if negb (bool_decide (s_state session = OPENDBSC_SESSION_STATE_ACTIVE)) then
            r ← message_response resp 400 "session is not in active state for registration";
            mret (0, Some r, st)
          else
          let challenge_response :=
            r ← set_challenge_response resp (s_challenge session) (s_id session) 403;
            mret (0, Some r, st) in
          match nonempty session_response_header with
          | None => challenge_response
          | Some header =>
              '(rc, proof) ← on_local (opendbsc_jwt_decode_and_verify (Some header)) proof_default;
              if negb (rc =? 0) then challenge_response else
              challenge_ok ← (match p_challenge proof with
                              | None => mret false
                              | Some c => d ← need_str (s_challenge session);
                                          mret (String.eqb c d)
                              end);
              if negb challenge_ok then challenge_response else
              let authorization_ok :=
                match cfg_authorization mgr with
                | None => true
                | Some a => bool_decide (p_authorization proof = Some a)
                end in
              if negb authorization_ok then challenge_response else
              session ← deref (opendbsc_session_set_state (Some session)
                                 OPENDBSC_SESSION_STATE_BOUND);
              session ← ignore (λ s, opendbsc_session_set_public_key s (p_jwk proof)) session;
              session ← ignore (λ s, opendbsc_session_set_algorithm s (p_algorithm proof)) session;
              new_challenge ← opendbsc_manager_generate_challenge;
              match new_challenge with
              | None => mret (-1, Some resp, st)
              | Some _ =>
                  session ← ignore (λ s, opendbsc_session_set_challenge s new_challenge) session;
                  session ← apply_session_ttl session (cfg_session_ttl_seconds mgr);
                  '(rc, st) ← st_update st (Some session);
                  if negb (rc =? 0) then mret (-1, Some resp, st) else
                  alg ← need_str (p_algorithm proof);
                  emit_event mgr "REGISTER" (s_user_id session) (s_id session)
                    (Some (str_take 255 ("alg=" +:+ alg)));;
                  cookie ← build_set_cookie mgr (s_id session);
                  header ← opendbsc_challenge_serialize (s_challenge session) (s_id session);
                  b ← build_instruction_body mgr session true;
                  mret (0, Some (ManagerResponse 200 cookie None header b), st)
              end
          end
      end
  | _, _ => mret (-1, resp, st)
  end.

Definition opendbsc_manager_refresh (mgr : option OpenDBSC_Manager)
    (session_id session_response_header : cstr)
    (resp : option OpenDBSC_ManagerResponse) (st : T)
    : C (Z * option OpenDBSC_ManagerResponse * T) :=
  match mgr, resp with
  | Some mgr, Some _ =>
      let resp := response_default in
      match nonempty session_id with
      | None => r ← message_response resp 400 "missing session identification";
                mret (0, Some r, st)
      | Some session_id =>
          need_store mgr;;
          '(rc, session, st) ← call_get st session_id;
          if negb (rc =? 0) then
            r ← message_response resp 401 "invalid session"; mret (0, Some r, st)
          else
          session ← deref session;
          if negb (bool_decide (s_state session = OPENDBSC_SESSION_STATE_BOUND)) then
            r ← message_response resp 400 "session is not bound"; mret (0, Some r, st)
          else
          let challenge_response :=
            r ← set_challenge_response resp (s_challenge session) (s_id session) 403;
            mret (0, Some r, st) in
          match nonempty session_response_header with
          | None => challenge_response
          | Some header =>
              '(rc, proof) ← (match s_public_key session with
                              | None => mret (-1, proof_default)
                              | Some key =>
                                  on_local (opendbsc_jwt_verify_with_jwk (Some header) (Some key))
                                    proof_default
                              end);
              if negb (rc =? 0) then challenge_response else
              challenge_ok ← (match p_challenge proof with
                              | None => mret false
                              | Some c => d ← need_str (s_challenge session);
                                          mret (String.eqb c d)
                              end);
              if negb challenge_ok then challenge_response else
              new_challenge ← opendbsc_manager_generate_challenge;
              match new_challenge with
              | None => mret (-1, Some resp, st)
              | Some _ =>
                  session ← ignore (λ s, opendbsc_session_set_challenge s new_challenge) session;
                  session ← apply_session_ttl session (cfg_session_ttl_seconds mgr);
                  '(rc, st) ← st_update st (Some session);
                  if negb (rc =? 0) then mret (-1, Some resp, st) else
                  emit_event mgr "REFRESH" (s_user_id session) (s_id session)
                    (Some "session extended");;
                  cookie ← build_set_cookie mgr (s_id session);
                  header ← opendbsc_challenge_serialize (s_challenge session) (s_id session);
                  b ← build_instruction_body mgr session true;
                  mret (0, Some (ManagerResponse 200 cookie None header b), st)
              end
          end
      end
  | _, _ => mret (-1, resp, st)
  end.

Definition opendbsc_manager_close (mgr : option OpenDBSC_Manager) (session_id : cstr)
    (resp : option OpenDBSC_ManagerResponse) (st : T)
    : C (Z * option OpenDBSC_ManagerResponse * T) :=
  match mgr, resp with
  | Some mgr, Some _ =>
      let resp := response_default in
      match nonempty session_id with
      | None => r ← message_response resp 400 "missing session identification";
                mret (0, Some r, st)
      | Some session_id =>
          need_store mgr;;
          '(rc, session, st) ← call_get st session_id;
          if negb (rc =? 0) then
            r ← message_response resp 401 "invalid session"; mret (0, Some r, st)
          else
          session ← deref session;
          user_id ← copy_string (s_user_id session);
          if negb (bool_decide (s_user_id session = None)) && bool_decide (user_id = None)
          then mret (-1, Some resp, st) else
          b ← build_instruction_body mgr session false;
          match b with
          | None => mret (-1, Some resp, st)
          | Some _ =>
              cookie ← build_set_cookie_with_max_age mgr (s_id session) 0;
              let resp := ManagerResponse 200 cookie None None b in
              '(rc, st) ← st_delete st (Some session_id);
              if negb (rc =? 0) then mret (-1, Some resp, st) else
              emit_event mgr "CLOSE" user_id (Some session_id) (Some "session closed");;
              mret (0, Some resp, st)
          end
      end
  | _, _ => mret (-1, resp, st)
  end.

End manager.
