(* ===== verification/Http.v ===== *)
(** [src/wrapper/http.c] and [include/wrapper/http.h]: the binding of the
    manager to the mongoose HTTP server.  Mongoose, the application's route and
    the files are parameters; what the handler sends on a connection is a list
    of [mg_output]. *)

From S2P Require Export Manager.
From stdpp Require Import pretty.
From stdpp Require Import options.
#[local] Open Scope Z_scope.

(** ** Mongoose

    An [mg_str] is its bytes, as a string that may hold NULs (a NULL buffer is
    the empty one). *)
Class Mongoose := {
  mg_http_message : Type;
  hm_method : mg_http_message → string;
  hm_uri : mg_http_message → string;
  hm_body : mg_http_message → string;
  mg_http_get_header : mg_http_message → string → option string;
  mg_http_listen : string → bool;
  mg_file_read : string → option string
}.

(** [mg_http_reply], [mg_http_serve_dir] and [mg_tls_init]. *)
Inductive mg_output :=
| mg_http_reply (code : Z) (headers body : string)
| mg_http_serve_dir (root : string)
| mg_tls_init (cert key : string).

Definition CRLF : string := String "013" (String "010" "").

Definition internal_error : mg_output :=
  mg_http_reply 500 ("Content-Type: text/plain" +:+ CRLF) "Internal Server Error".
Definition not_found : mg_output :=
  mg_http_reply 404 ("Content-Type: text/plain" +:+ CRLF) "Not Found".

(** The C string at the start of a buffer of bytes. *)
Fixpoint until_nul (s : string) : string :=
  match s with
  | EmptyString => EmptyString
  | String c s' => if Ascii.eqb c NUL then EmptyString else String c (until_nul s')
  end.

(** ** Strings of a request *)

Definition mg_str_dup (str : option string) : C cstr :=
  match str with
  | None | Some EmptyString => mret None
  | Some s => copy ← memcpy_str s (String.length s); mret (until_nul <$> copy)
  end.

(** The last character of a string that is not empty. *)
Definition last_char (s : string) : ascii :=
  default NUL (String.get (String.length s - 1) s).

Definition strip_quotes (s : cstr) : C cstr :=
  match s with
  | None => mret None
  | Some s =>
      let len := String.length s in
      if bool_decide (2 ≤ len)%nat && Ascii.eqb (cur s) DQ && Ascii.eqb (last_char s) DQ
      then memcpy_str (next s) (len - 2)
      else strdup s
  end.

Definition is_blank (c : ascii) : bool := Ascii.eqb c " " || Ascii.eqb c "009".

(** [p] runs over the bytes of the header, to its end. *)
Fixpoint cookie_loop (fuel : nat) (p name : string) : C cstr :=
  match fuel with
  | O => hang
  | S fuel' =>
      if decide (p = "") then mret None else
      let p := skip_while is_blank p in
      if decide (p = "") then mret None else
      let start := p in
      let p := skip_while (λ c, negb (Ascii.eqb c "=") && negb (Ascii.eqb c ";")) p in
      if bool_decide (p = "") || negb (Ascii.eqb (cur p) "=") then mret None else
      let key_len := pdiff p start in
      let p := next p in
      let value_start := p in
      let p := skip_while (λ c, negb (Ascii.eqb c ";")) p in
      let value_len := pdiff p value_start in
      if Nat.eqb key_len (String.length name) && strncmp_eq start name (String.length name) then
        out ← memcpy_str value_start value_len;
        mret (until_nul <$> out)
      else
        let p := if negb (bool_decide (p = "")) && Ascii.eqb (cur p) ";" then next p else p in
        cookie_loop fuel' p name
  end.

Section http.
Context `{CJSON, OpenSSL, UUIDv7, Mongoose} {T : Type} `{Store T}.

Definition opendbsc_http_get_cookie (hm : mg_http_message) (name : cstr) : C cstr :=
  match mg_http_get_header hm "Cookie", name with
  | Some cookie, Some name => cookie_loop (S (String.length cookie)) cookie name
  | _, _ => mret None
  end.

(** [strcat], [strcpy] to the buffer. *)
Definition strcat (b : cbuf) (s : string) : C cbuf := sprintf b s.

(** One optional header: the buffer grows when it is too small. *)
Definition add_header (headers : cbuf) (name : string) (value : cstr) : C (option cbuf) :=
  match value with
  | None => mret (Some headers)
  | Some v =>
      h ← buf_cstr headers;
      let need := (String.length h + String.length v + 64)%nat in
      headers ← (if decide (b_size headers < need)%nat
                 then (ok ← malloc;
                       mret (if ok : bool then Some (CBuf (need * 2) (b_text headers)) else None))
                 else mret (Some headers));
      match headers with
      | None => mret None
      | Some headers =>
          headers ← strcat headers name;
          headers ← strcat headers v;
          headers ← strcat headers CRLF;
          mret (Some headers)
      end
  end.

Definition content_type_json : string := "Content-Type: application/json" +:+ CRLF.

Definition send_response (resp : OpenDBSC_ManagerResponse) : C mg_output :=
  headers ← malloc_buf 256;
  match headers with
  | None => mret internal_error
  | Some headers =>
      headers ← strcat headers "";
      headers ← add_header headers "Set-Cookie: " (set_cookie resp);
      match headers with
      | None => mret internal_error
      | Some headers =>
          headers ← add_header headers "Secure-Session-Registration: " (registration_header resp);
          match headers with
          | None => mret internal_error
          | Some headers =>
              headers ← add_header headers "Secure-Session-Challenge: " (challenge_header resp);
              match headers with
              | None => mret internal_error
              | Some headers =>
                  h ← buf_cstr headers;
                  final_headers ← malloc_buf (String.length h + String.length content_type_json + 1);
                  match final_headers with
                  | None => mret internal_error
                  | Some final_headers =>
                      final_headers ← strcat final_headers h;
                      final_headers ← strcat final_headers content_type_json;
                      h ← buf_cstr final_headers;
                      mret (mg_http_reply (status_code resp) h (default "" (body resp)))
                  end
              end
          end
      end
  end.

(** ** The server *)

(** The application's route: it may call the manager, and change it. *)
Definition OpenDBSC_HTTPRoute : Type :=
  string → string → cstr → nat → OpenDBSC_Manager → OpenDBSC_ManagerResponse → T →
  C (Z * OpenDBSC_Manager * OpenDBSC_ManagerResponse * T).

Record OpenDBSC_HTTPServerConfig := HTTPServerConfig {
  hc_manager : option OpenDBSC_Manager;
  hc_listen_addr : cstr;
  hc_cert_path : cstr;
  hc_key_path : cstr;
  hc_static_root : cstr;
  hc_route : option OpenDBSC_HTTPRoute
}.

Record OpenDBSC_HTTPServer := HTTPServer {
  hs_manager : OpenDBSC_Manager;
  hs_route : option OpenDBSC_HTTPRoute;
  hs_static_root : cstr;
  hs_running : bool;
  hs_tls_cert : cstr;
  hs_tls_key : cstr
}.

Definition with_manager (mgr : OpenDBSC_Manager) (s : OpenDBSC_HTTPServer) : OpenDBSC_HTTPServer :=
  HTTPServer mgr (hs_route s) (hs_static_root s) (hs_running s) (hs_tls_cert s) (hs_tls_key s).
Definition with_running (b : bool) (s : OpenDBSC_HTTPServer) : OpenDBSC_HTTPServer :=
  HTTPServer (hs_manager s) (hs_route s) (hs_static_root s) b (hs_tls_cert s) (hs_tls_key s).

(** The reports of the entries, in order. *)
Fixpoint emit_skipped (mgr : OpenDBSC_Manager) (entries : list OpenDBSC_SkippedEntry) : C unit :=
  match entries with
  | [] => mret tt
  | e :: entries' =>
      emit_event mgr "SESSION_SKIPPED" None (se_session_id e) (se_reason e);;
      emit_skipped mgr entries'
  end.

Definition handle_session_skipped (server : OpenDBSC_HTTPServer) (hm : mg_http_message) : C unit :=
  value ← mg_str_dup (mg_http_get_header hm "Secure-Session-Skipped");
  match value with
  | None => mret tt
  | Some value =>
      '(rc, entries, _) ← opendbsc_parse_session_skipped (Some value) (Some []) (Some 0%nat);
      if negb (rc =? 0) then mret tt else
      entries ← deref entries;
      emit_skipped (hs_manager server) entries
  end.

(** A header as a C string, without its quotes. *)
Definition header_unquoted (hm : mg_http_message) (name : string) : C cstr :=
  raw ← mg_str_dup (mg_http_get_header hm name);
  strip_quotes raw.

(** POST /dbsc/register. *)
Definition serve_register (server : OpenDBSC_HTTPServer) (hm : mg_http_message)
    (resp : OpenDBSC_ManagerResponse) (st : T) : C (list mg_output * OpenDBSC_HTTPServer * T) :=
  cookie ← opendbsc_http_get_cookie hm (cfg_cookie_name (hs_manager server));
  proof ← header_unquoted hm "Secure-Session-Response";
  '(_, resp, st) ← opendbsc_manager_register (Some (hs_manager server)) cookie proof (Some resp) st;
  resp ← deref resp;
  out ← send_response resp;
  mret ([out], server, st).

(** POST /dbsc/refresh. *)
Definition serve_refresh (server : OpenDBSC_HTTPServer) (hm : mg_http_message)
    (resp : OpenDBSC_ManagerResponse) (st : T) : C (list mg_output * OpenDBSC_HTTPServer * T) :=
  session_id ← header_unquoted hm "Sec-Secure-Session-Id";
  session_id ← (match session_id with
                | None => opendbsc_http_get_cookie hm (cfg_cookie_name (hs_manager server))
                | Some _ => mret session_id
                end);
  proof ← header_unquoted hm "Secure-Session-Response";
  '(_, resp, st) ← opendbsc_manager_refresh (Some (hs_manager server)) session_id proof
                     (Some resp) st;
  resp ← deref resp;
  out ← send_response resp;
  mret ([out], server, st).

Definition me_text (user : string) (now : Z) : string :=
  "{" +:+ dquoted "user" +:+ ":" +:+ dquoted user +:+ "," +:+ dquoted "time" +:+ ":" +:+
  dquoted (pretty now) +:+ "}".
Definition unauthorized_text : string :=
  "{" +:+ dquoted "error" +:+ ":" +:+ dquoted "unauthorized" +:+ "}".

(** [resp.status_code = status; resp.body = body;] *)
Definition with_answer (status : Z) (b : cstr) (resp : OpenDBSC_ManagerResponse)
    : OpenDBSC_ManagerResponse :=
  ManagerResponse status (set_cookie resp) (registration_header resp) (challenge_header resp) b.

(** GET /api/me; [snprintf] keeps the first 511 characters. *)
Definition serve_me (server : OpenDBSC_HTTPServer) (hm : mg_http_message)
    (resp : OpenDBSC_ManagerResponse) (st : T) : C (list mg_output * OpenDBSC_HTTPServer * T) :=
  cookie ← opendbsc_http_get_cookie hm (cfg_cookie_name (hs_manager server));
  '(rc, session, st) ← (match cookie with
                        | None => mret (-1, None, st)
                        | Some _ =>
                            '(rc, out, st) ← opendbsc_manager_get_session
                                               (Some (hs_manager server)) cookie (Some None) st;
                            out ← deref out;
                            mret (rc, out, st)
                        end);
  resp ← (if rc =? 0 then
            session ← deref session;
            user ← need_str (s_user_id session);
            now ← time_NULL;
            b ← strdup (str_take 511 (me_text user now));
            mret (with_answer 200 b resp)
          else
            b ← strdup unauthorized_text;
            mret (with_answer 401 b resp));
  out ← send_response resp;
  mret ([out], server, st).

(** The endpoints, after the application's route. *)
Definition dbsc_endpoints (server : OpenDBSC_HTTPServer) (hm : mg_http_message)
    (method uri : string) (resp : OpenDBSC_ManagerResponse) (st : T)
    : C (list mg_output * OpenDBSC_HTTPServer * T) :=
  if String.eqb method "POST" && String.eqb uri "/dbsc/register" then
    serve_register server hm resp st
  else if String.eqb method "POST" && String.eqb uri "/dbsc/refresh" then
    serve_refresh server hm resp st
  else if String.eqb method "GET" && String.eqb uri "/api/me" then
    serve_me server hm resp st
  else match hs_static_root server with
       | Some root => mret ([mg_http_serve_dir root], server, st)
       | None => mret ([not_found], server, st)
       end.

Inductive mg_event :=
| MG_EV_ACCEPT
| MG_EV_HTTP_MSG (hm : mg_http_message)
| MG_EV_OTHER.

Definition dbsc_event_handler (server : option OpenDBSC_HTTPServer) (ev : mg_event) (st : T)
    : C (list mg_output * option OpenDBSC_HTTPServer * T) :=
  match server with
  | None => mret ([], None, st)
  | Some server =>
      match ev with
      | MG_EV_ACCEPT =>
          match hs_tls_cert server, hs_tls_key server with
          | Some cert, Some key => mret ([mg_tls_init cert key], Some server, st)
          | _, _ => mret ([], Some server, st)
          end
      | MG_EV_OTHER => mret ([], Some server, st)
      | MG_EV_HTTP_MSG hm =>
          handle_session_skipped server hm;;
          uri ← mg_str_dup (Some (hm_uri hm));
          method ← mg_str_dup (Some (hm_method hm));
          b ← mg_str_dup (Some (hm_body hm));
          let body_len := String.length (hm_body hm) in
          match uri, method with
          | Some uri, Some method =>
              let resp := response_default in
              '(rc, mgr, resp, st) ←
                (match hs_route server with
                 | None => mret (-1, hs_manager server, resp, st)
                 | Some route => route method uri b body_len (hs_manager server) resp st
                 end);
              let server := with_manager mgr server in
              if rc =? 0 then
                out ← send_response resp;
                mret ([out], Some server, st)
              else
                '(outs, server, st) ← dbsc_endpoints server hm method uri resp st;
                mret (outs, Some server, st)
          | _, _ => mret ([internal_error], Some server, st)
          end
      end
  end.

Definition opendbsc_http_server_start (config : option OpenDBSC_HTTPServerConfig)
    : C (option OpenDBSC_HTTPServer) :=
  match config with
  | None => mret None
  | Some config =>
      match hc_manager config, hc_listen_addr config with
      | Some mgr, Some addr =>
          ok ← malloc;
          if negb ok then mret None else
          let server := HTTPServer mgr (hc_route config) (hc_static_root config) true None None in
          if negb (mg_http_listen addr) then mret None else
          match hc_cert_path config, hc_key_path config with
          | Some cert_path, Some key_path =>
              match mg_file_read cert_path, mg_file_read key_path with
              | Some cert_data, Some key_data =>
                  tls_cert ← memcpy_str cert_data (String.length cert_data);
                  tls_key ← memcpy_str key_data (String.length key_data);
                  match tls_cert, tls_key with
                  | Some cert, Some key =>
                      mret (Some (HTTPServer mgr (hc_route config) (hc_static_root config) true
                                    (Some (until_nul cert)) (Some (until_nul key))))
                  | _, _ => mret (Some server)
                  end
              | _, _ => mret (Some server)
              end
          | _, _ => mret (Some server)
          end
      | _, _ => mret None
      end
  end.

(** What one [mg_mgr_poll] meets, in order: an event of a connection, a signal
    whose handler calls [opendbsc_http_server_request_stop], or a wait, during
    which the wall clock moves. *)
Inductive mg_input :=
| MG_EVENT (ev : mg_event)
| MG_STOP
| MG_WAIT (d : Z).

Definition opendbsc_http_server_request_stop (server : option OpenDBSC_HTTPServer)
    : option OpenDBSC_HTTPServer :=
  match server with None => None | Some s => Some (with_running false s) end.

(** [mg_mgr_poll(&server->mgr, 1000)]: the handler is called for every event;
    what it sends to each is collected. *)
Fixpoint mg_mgr_poll (inputs : list mg_input) (server : OpenDBSC_HTTPServer) (st : T)
    : C (list (list mg_output) * OpenDBSC_HTTPServer * T) :=
  match inputs with
  | [] => mret ([], server, st)
  | MG_WAIT d :: inputs' => wait d;; mg_mgr_poll inputs' server st
  | MG_STOP :: inputs' =>
      server ← deref (opendbsc_http_server_request_stop (Some server));
      mg_mgr_poll inputs' server st
  | MG_EVENT ev :: inputs' =>
      '(out, server, st) ← dbsc_event_handler (Some server) ev st;
      server ← deref server;
      '(outs, server, st) ← mg_mgr_poll inputs' server st;
      mret (out :: outs, server, st)
  end.

(** The loop over the polls to come; when nothing more will happen it polls
    for ever. *)
Fixpoint run_loop (polls : list (list mg_input)) (server : OpenDBSC_HTTPServer) (st : T)
    : C (list (list mg_output) * OpenDBSC_HTTPServer * T) :=
  if negb (hs_running server) then mret ([], server, st) else
  match polls with
  | [] => hang
  | inputs :: polls' =>
      '(outs, server, st) ← mg_mgr_poll inputs server st;
      '(outs', server, st) ← run_loop polls' server st;
      mret (outs ++ outs', server, st)
  end.

Definition opendbsc_http_server_run (polls : list (list mg_input))
    (server : option OpenDBSC_HTTPServer) (st : T)
    : C (list (list mg_output) * option OpenDBSC_HTTPServer * T) :=
  match server with
  | None => mret ([], None, st)
  | Some server =>
      '(outs, server, st) ← run_loop polls server st;
      mret (outs, Some server, st)
  end.

(** The server is gone. *)
Definition opendbsc_http_server_stop (server : option OpenDBSC_HTTPServer)
    : option OpenDBSC_HTTPServer := None.

End http.
