(* ===== verification/ManagerSpec.v ===== *)
(** What the manager promises, as functions on the abstract store (a map from
    identifiers to sessions), and the proof that the request handlers of
    [Manager] compute them over every lawful store, when no allocation fails
    and the clock stands still during a request. *)

From S2P Require Export Manager.
From stdpp Require Import pretty.
From stdpp Require Import options.
#[local] Open Scope Z_scope.

(** ** Texts *)

Definition hex_text (l : list Z) : string :=
  string_of_list (b ← l; list_of_string (fmt_02x b)).

(** The challenge the next request would issue. *)
Definition challenge_of (w : world) : string :=
  match w_entropy w with
  | Some bs :: _ =>
      hex_text (take 32 (((λ b, b `mod` 256) <$> bs) ++ replicate 32 0))
  | _ => "fallback-challenge"
  end.

(** The environment after it was drawn, and after an event. *)
Definition drawn (w : world) : world :=
  World (w_alloc w) (w_now w) (w_ticks w) (tail (w_entropy w)) (w_realtime w) (w_events w).
Definition told (mgr : OpenDBSC_Manager) (e : event) (w : world) : world :=
  if cfg_on_event mgr
  then World (w_alloc w) (w_now w) (w_ticks w) (w_entropy w) (w_realtime w) (w_events w ++ [(w_now w, e)])
  else w.

Definition cookie_text (mgr : OpenDBSC_Manager) (value : string) (max_age : Z) : string :=
  default "" (cfg_cookie_name mgr) +:+ "=" +:+ value +:+
  "; Path=" +:+ default "" (cfg_cookie_path mgr) +:+
  "; Max-Age=" +:+ pretty max_age +:+ "; HttpOnly" +:+ (if cfg_secure mgr then "; Secure" else "") +:+
  match nonempty (cfg_cookie_domain mgr) with Some d => "; Domain=" +:+ d | None => "" end +:+
  match nonempty (cfg_same_site mgr) with Some s => "; SameSite=" +:+ s | None => "" end.

(** The instruction sent after a registration or a refresh, and on closing. *)
Definition instruction_of (mgr : OpenDBSC_Manager) (s : OpenDBSC_Session)
    : OpenDBSC_SessionInstruction :=
  SessionInstruction (s_id s) (Some "/dbsc/refresh") true true scope_default
    [SessionCredential (Some "cookie") (cfg_cookie_name mgr)
       (Some ("Path=" +:+ default "" (cfg_cookie_path mgr) +:+ "; Secure; HttpOnly; SameSite=" +:+
              default "" (cfg_same_site mgr)))] 4 [] 0.
Definition closing_instruction : OpenDBSC_SessionInstruction :=
  with_continue false true instruction_default.

(** ** Configuration *)

(** What [opendbsc_manager_init] leaves when its duplications succeed. *)
Record manager_ready (mgr : OpenDBSC_Manager) : Prop := {
  ready_store : cfg_store mgr = true;
  ready_name : cfg_cookie_name mgr ≠ None;
  ready_path : cfg_cookie_path mgr ≠ None;
  ready_same_site : cfg_same_site mgr ≠ None
}.

(** ** Calls that only allocate *)

Lemma computes_run {A} (m : C (option A)) a w :
  wp_computes m (Some a) → quiet w → m w = Ret (Some a) w.
Proof.
  intros Hm Hw. assert (wp m w (λ r w', r = Some a ∧ w' = w)) as (r & w' & -> & -> & ->)%wp_elim;
    [|done].
  apply Hm; [intros x w' Hst [= ->]; split; [done|by apply step_quiet]|].
  intros w' _ [?|Ho]; [done|]. destruct Ho. by apply quiet_no_oom.
Qed.

Lemma wp_write_hex bytes w : ∀ b (Q : cbuf → world → Prop),
  (String.length (default "" (b_text b)) + 2 * length bytes + 1 ≤ b_size b)%nat →
  (∀ b', b_size b' = b_size b →
     default "" (b_text b') = default "" (b_text b) +:+
       string_of_list (x ← bytes; list_of_string (fmt_02x x)) → Q b' w) →
  wp (write_hex bytes b) w Q.
Proof.
  induction bytes as [|x bytes IH]; intros b Q Hlen HQ; cbn [write_hex].
  { apply wp_ret, HQ; [done|]. by rewrite str_app_nil_r. }
  cbn [length] in Hlen. apply wp_bind, wp_sprintf; [unfold fmt_02x; cbn [String.length]; lia|].
  apply IH; cbn [b_size b_text from_option id].
  - rewrite str_length_app. unfold fmt_02x; cbn [String.length]. lia.
  - intros b' Hs Ht. apply HQ; [done|]. rewrite Ht, str_app_assoc. done.
Qed.

Lemma hex_text_length l : String.length (hex_text l) = (2 * length l)%nat.
Proof.
  unfold hex_text. rewrite <-length_list_of_string, list_of_string_of_list.
  induction l as [|x l IH]; [done|]. cbn. cbn in IH. lia.
Qed.

(** Thirty-two bytes in hexadecimal fit the 65 bytes allocated for them. *)
Lemma wp_hex_buffer l w (Q : cstr → world → Prop) :
  length l = 32%nat →
  (∀ w', env_step w w' → Q (Some (hex_text l)) w') →
  (∀ w', env_step w w' → ¬ no_oom w → Q None w') →
  wp (out ← malloc_buf (32 * 2 + 1);
      match out with
      | None => mret None
      | Some out =>
          out ← write_hex l out; out ← buf_nul out; s ← buf_cstr out; mret (Some s)
      end) w Q.
Proof.
  intros Hl HS HN.
  apply wp_bind, wp_alloc; intros w' Hw; [|intros ?; by apply wp_ret, HN].
  apply wp_bind, wp_write_hex; cbn [b_size b_text from_option id String.length]; [lia|].
  intros b Hb Ht. rewrite str_app_nil_l in Ht. fold (hex_text l) in Ht.
  apply wp_bind. unfold buf_nul. rewrite Ht, decide_True by (rewrite Hb, hex_text_length; lia).
  apply wp_ret, wp_bind, wp_deref, wp_ret. by apply HS.
Qed.

Lemma wp_generate_challenge w (Q : cstr → world → Prop) :
  (∀ w', env_step (drawn w) w' → Q (Some (challenge_of w)) w') →
  (∀ w', env_step (drawn w) w' → ¬ no_oom w → Q None w') →
  wp opendbsc_manager_generate_challenge w Q.
Proof.
  intros HS HN. unfold opendbsc_manager_generate_challenge, challenge_of, drawn in *.
  apply wp_bind. unfold wp at 1, getentropy.
  destruct w as [al now tk [|[bs|] en] rt ev]; cbn [w_entropy fmap option_fmap option_map tail] in *.
  1,3: by apply wp_alloc.
  apply wp_hex_buffer; [|done..]. rewrite length_take, length_app, length_replicate. lia.
Qed.

Lemma generate_challenge_run w :
  quiet w → opendbsc_manager_generate_challenge w = Ret (Some (challenge_of w)) (drawn w).
Proof.
  intros Hw. assert (quiet (drawn w)) as Hd by done.
  assert (wp opendbsc_manager_generate_challenge w (λ r w', r = Some (challenge_of w) ∧ w' = drawn w))
    as (r & w' & -> & -> & ->)%wp_elim; [|done].
  apply wp_generate_challenge; intros w' Hst; [split; [done|by apply step_quiet]|].
  intros Ho. destruct Ho. by apply quiet_no_oom.
Qed.

(** The two passes of the cookie agree: what is written is what was measured. *)
Lemma computes_cookie mgr value max_age :
  manager_ready mgr →
  wp_computes (build_set_cookie_with_max_age mgr (Some value) max_age)
    (Some (cookie_text mgr value max_age)).
Proof.
  intros [_ Hname Hpath _] w Q HS HN. unfold build_set_cookie_with_max_age, cookie_text in *.
  destruct (cfg_cookie_name mgr) as [name|]; [|done]. destruct (cfg_cookie_path mgr) as [path|]; [|done].
  cbn [from_option id] in HS, HN.
  do 3 apply wp_bind, wp_deref.
  set (head := name +:+ "=" +:+ value +:+ "; Path=" +:+ path +:+ "; Max-Age=" +:+ pretty max_age +:+
    "; HttpOnly" +:+ (if cfg_secure mgr then "; Secure" else "")) in *.
  assert (∀ t, name +:+ "=" +:+ value +:+ "; Path=" +:+ path +:+ "; Max-Age=" +:+ pretty max_age +:+
    "; HttpOnly" +:+ (if cfg_secure mgr then "; Secure" else "") +:+ t = head +:+ t) as Hhead.
  { intros t. unfold head. by rewrite !str_app_assoc. }
  rewrite Hhead in HS. clear Hhead. clearbody head.
  assert (bool_decide (is_Some (None : cstr)) = false) as HbN by (by apply bool_decide_false; intros []).
  assert (∀ s : string, bool_decide (is_Some (Some s)) = true) as HbS by
    (intros s; apply bool_decide_true; eauto).
  destruct (nonempty (cfg_cookie_domain mgr)) as [d|], (nonempty (cfg_same_site mgr)) as [s|];
    rewrite ?HbN, ?HbS;
    (apply wp_bind, wp_alloc; intros w' Hw; [|intros ?; by apply wp_ret, HN; auto]);
    (apply wp_bind, wp_sprintf; cbn [b_size b_text from_option id]; [str_lia|]);
    (apply wp_bind; first [apply wp_sprintf; cbn [b_size b_text from_option id]; [str_lia|]
                          |apply wp_ret]);
    (apply wp_bind; first [apply wp_sprintf; cbn [b_size b_text from_option id]; [str_lia|]
                          |apply wp_ret]);
    apply wp_bind, wp_deref, wp_ret;
    rewrite ?str_app_nil_r in HS; rewrite ?str_app_nil_l, ?str_app_assoc; by apply HS.
Qed.

Lemma cookie_run mgr value max_age w :
  manager_ready mgr → quiet w →
  build_set_cookie_with_max_age mgr (Some value) max_age w = Ret (Some (cookie_text mgr value max_age)) w.
Proof. intros Hm Hw. apply computes_run; [by apply computes_cookie|done]. Qed.

Lemma message_response_run resp status text w :
  quiet w → message_response resp status text w
    = Ret (ManagerResponse status (set_cookie resp) (registration_header resp)
             (challenge_header resp) (Some (dquoted text))) w.
Proof. intros Hw. unfold message_response. by crun. Qed.

Lemma challenge_serialize_run value id w :
  quiet w → opendbsc_challenge_serialize (Some value) id w = Ret (Some (challenge_text value id)) w.
Proof.
  intros Hw. apply computes_run; [|done]. intros w' Q HS HN.
  apply wp_challenge_serialize; [by intros; apply HS|by intros; apply HN; auto].
Qed.

Lemma set_challenge_response_run resp c id status w :
  quiet w → set_challenge_response resp (Some c) id status w
    = Ret (ManagerResponse status (set_cookie resp) (registration_header resp)
             (Some (challenge_text c id))
             (Some (dquoted "Secure-Session-Challenge issued"))) w.
Proof.
  intros Hw. unfold set_challenge_response. rewrite bind_unfold, challenge_serialize_run by done.
  by crun.
Qed.

Lemma ignore_run {A} (f : option A → C (Z * option A)) a rc a' w w' :
  f (Some a) w = Ret (rc, Some a') w' → ignore f a w = Ret a' w'.
Proof. intros Hf. unfold ignore, on_local. rewrite !bind_unfold, Hf. done. Qed.

Section body.
Context `{CJSON, OpenSSL, UUIDv7} {T : Type} `{Store T}.

Lemma instruction_to_string_run i w :
  quiet w →
  opendbsc_instruction_to_string (Some i) w = Ret (Some (cJSON_Print (instruction_document i))) w.
Proof.
  intros Hw. apply computes_run; [|done]. intros w' Q HS HN.
  apply computes_instruction_to_string; [by intros; apply HS|by intros; apply HN; auto].
Qed.

Lemma body_run mgr s w :
  manager_ready mgr → quiet w →
  build_instruction_body mgr s true w
    = Ret (Some (cJSON_Print (instruction_document (instruction_of mgr s)))) w.
Proof.
  intros [_ Hname Hpath Hss] Hw. assert (no_oom w) as Ho by by apply quiet_no_oom.
  unfold build_instruction_body, instruction_of.
  destruct (cfg_cookie_path mgr) as [path|]; [|done]. destruct (cfg_same_site mgr) as [ss|]; [|done].
  cbn [negb from_option id].
  erewrite bind_run by reflexivity.
  erewrite bind_run by (eapply ignore_run, set_session_identifier_run; done).
  erewrite bind_run by (eapply ignore_run, set_refresh_url_run; done).
  erewrite bind_run by reflexivity. cbv zeta.
  erewrite bind_run by (eapply ignore_run, credential_set_type_run; done).
  erewrite bind_run by (eapply ignore_run, credential_set_name_run; done).
  do 2 (erewrite bind_run by reflexivity). cbv zeta.
  erewrite bind_run by (apply malloc_buf_run; done).
  erewrite bind_run.
  2:{ unfold sprintf. cbn [b_text b_size from_option id]. rewrite str_app_nil_l, decide_True by done.
      rewrite bind_unfold, ret_unfold. cbn beta iota.
      erewrite bind_run by reflexivity. eapply ignore_run, credential_set_attributes_run. done. }
  erewrite bind_run by (eapply ignore_run, add_first_credential_run; done).
  by apply instruction_to_string_run.
Qed.

Lemma closing_body_run mgr s w :
  quiet w →
  build_instruction_body mgr s false w
    = Ret (Some (cJSON_Print (instruction_document closing_instruction))) w.
Proof.
  intros Hw. unfold build_instruction_body. cbn [negb]. erewrite bind_run by reflexivity.
  by apply instruction_to_string_run.
Qed.

Lemma ttl_run s ttl w :
  quiet w → apply_session_ttl s ttl w =
    Ret (if 0 <? ttl then with_expires (w_now w + ttl) (bool_decide (w_now w + ttl ≠ 0)) s
         else with_expires 0 false s) w.
Proof.
  intros Hw. unfold apply_session_ttl. destruct (0 <? ttl); [|done]. by crun.
Qed.

Lemma decode_and_verify_run header w :
  quiet w → ∃ rc p,
    on_local (opendbsc_jwt_decode_and_verify (Some header)) proof_default w = Ret (rc, p) w ∧
    if accepts (registration_checks header) header
    then rc = 0 ∧ token_proof header = Some p else rc = -1.
Proof.
  intros Hw. assert (no_oom w) as Ho by by apply quiet_no_oom.
  assert (wp (on_local (opendbsc_jwt_decode_and_verify (Some header)) proof_default) w
    (λ '(rc, p) w', w' = w ∧ if accepts (registration_checks header) header
       then rc = 0 ∧ token_proof header = Some p else rc = -1))
    as ([rc p] & w' & Hrun & -> & Hp)%wp_elim; [|eauto].
  apply wp_bind, wp_jwt_decode_and_verify.
  - intros p r w' Hst Hr Hp%proof_copy_exact Hc; [subst p|done].
    apply wp_bind, wp_deref, wp_ret. split; [by apply step_quiet|]. unfold accepts.
    by rewrite Hr, Hc.
  - intros p w' Hst [Hn|[]]; [|done].
    apply wp_bind, wp_deref, wp_ret. split; [by apply step_quiet|]. by rewrite Hn.
Qed.

Lemma verify_with_jwk_run header key w :
  quiet w → ∃ rc p,
    on_local (opendbsc_jwt_verify_with_jwk (Some header) (Some key)) proof_default w = Ret (rc, p) w ∧
    if accepts (refresh_checks header key) header
    then rc = 0 ∧ token_proof header = Some p else rc = -1.
Proof.
  intros Hw. assert (no_oom w) as Ho by by apply quiet_no_oom.
  assert (wp (on_local (opendbsc_jwt_verify_with_jwk (Some header) (Some key)) proof_default) w
    (λ '(rc, p) w', w' = w ∧ if accepts (refresh_checks header key) header
       then rc = 0 ∧ token_proof header = Some p else rc = -1))
    as ([rc p] & w' & Hrun & -> & Hp)%wp_elim; [|eauto].
  apply wp_bind, wp_jwt_verify_with_jwk.
  - intros p r w' Hst Hr Hp%proof_copy_exact Hc; [subst p|done].
    apply wp_bind, wp_deref, wp_ret. split; [by apply step_quiet|]. unfold accepts.
    by rewrite Hr, Hc.
  - intros p w' Hst [Hn|[]]; [|done].
    apply wp_bind, wp_deref, wp_ret. split; [by apply step_quiet|]. by rewrite Hn.
Qed.

End body.

(** ** The abstract manager *)

Definition ttl_applied (mgr : OpenDBSC_Manager) (now : Z) (s : OpenDBSC_Session)
    : OpenDBSC_Session :=
  let ttl := cfg_session_ttl_seconds mgr in
  if 0 <? ttl then with_expires (now + ttl) (bool_decide (now + ttl ≠ 0)) s
  else with_expires 0 false s.

(** A session with a new challenge and a new term. *)
Definition renewed (mgr : OpenDBSC_Manager) (now : Z) (c : string) (s : OpenDBSC_Session)
    : OpenDBSC_Session := ttl_applied mgr now (with_challenge (Some c) s).

(** A session bound to the key of a proof. *)
Definition bound_to (p : OpenDBSC_ProofJWT) (s : OpenDBSC_Session) : OpenDBSC_Session :=
  with_algorithm (p_algorithm p)
    (with_public_key (p_jwk p) (with_state OPENDBSC_SESSION_STATE_BOUND s)).

Definition message (status : Z) (text : string) : OpenDBSC_ManagerResponse :=
  ManagerResponse status None None None (Some (dquoted text)).

Definition challenged (s : OpenDBSC_Session) : OpenDBSC_ManagerResponse :=
  ManagerResponse 403 None None (Some (challenge_text (default "" (s_challenge s)) (s_id s)))
    (Some (dquoted "Secure-Session-Challenge issued")).

(** The clock a request runs at: a term starts and ends between 1970 and 9999. *)
Definition clock_ok (mgr : OpenDBSC_Manager) (now : Z) : Prop :=
  0 ≤ now ∧ now + Z.max 0 (cfg_session_ttl_seconds mgr) < 253402300800.

(** Every stored session can be stored again and has a challenge. *)
Definition sessions_ok (m : view) : Prop :=
  map_Forall (λ _ s, storable s ∧ s_challenge s ≠ None) m.

Section spec.
Context `{CJSON, OpenSSL}.

Definition granted (mgr : OpenDBSC_Manager) (s : OpenDBSC_Session) : OpenDBSC_ManagerResponse :=
  ManagerResponse 200
    (Some (cookie_text mgr (default "" (s_id s)) (cfg_cookie_ttl_seconds mgr))) None
    (Some (challenge_text (default "" (s_challenge s)) (s_id s)))
    (Some (cJSON_Print (instruction_document (instruction_of mgr s)))).

(** The proof of a registration that the manager takes for session [s]. *)
Definition registration_proof (mgr : OpenDBSC_Manager) (s : OpenDBSC_Session) (t : string)
    : option OpenDBSC_ProofJWT :=
  p ← (if accepts (registration_checks t) t then token_proof t else None);
  if bool_decide (p_challenge p = s_challenge s) &&
     match cfg_authorization mgr with
     | None => true
     | Some a => bool_decide (p_authorization p = Some a)
     end
  then Some p else None.

(** The proof of a refresh. *)
Definition refresh_proof (s : OpenDBSC_Session) (t : string) : option OpenDBSC_ProofJWT :=
  key ← s_public_key s;
  p ← (if accepts (refresh_checks t key) t then token_proof t else None);
  if bool_decide (p_challenge p = s_challenge s) then Some p else None.

(** What a request does: its response, the sessions afterwards, and the event
    it reports; a challenge is drawn exactly when there is an event. *)
Abbreviation outcome := (OpenDBSC_ManagerResponse * view * option event)%type.

Definition register_spec (mgr : OpenDBSC_Manager) (now : Z) (c : string) (id header : cstr)
    (m : view) : outcome :=
  match nonempty id with
  | None => (message 401 "missing session cookie", m, None)
  | Some id =>
      match lookup_live now id m with
      | None => (message 401 "invalid session", delete id m, None)
      | Some s =>
          if decide (s_state s ≠ OPENDBSC_SESSION_STATE_ACTIVE)
          then (message 400 "session is not in active state for registration", m, None)
          else
          match (t ← nonempty header; registration_proof mgr s t) with
          | None => (challenged s, m, None)
          | Some p =>
              let s' := renewed mgr now c (bound_to p s) in
              (granted mgr s', <[id := s']> m,
               Some (Event "REGISTER" (s_user_id s) (s_id s)
                       (Some (str_take 255 ("alg=" +:+ default "" (p_algorithm p))))))
          end
      end
  end.

Definition refresh_spec (mgr : OpenDBSC_Manager) (now : Z) (c : string) (id header : cstr)
    (m : view) : outcome :=
  match nonempty id with
  | None => (message 400 "missing session identification", m, None)
  | Some id =>
      match lookup_live now id m with
      | None => (message 401 "invalid session", delete id m, None)
      | Some s =>
          if decide (s_state s ≠ OPENDBSC_SESSION_STATE_BOUND)
          then (message 400 "session is not bound", m, None)
          else
          match (t ← nonempty header; refresh_proof s t) with
          | None => (challenged s, m, None)
          | Some _ =>
              let s' := renewed mgr now c s in
              (granted mgr s', <[id := s']> m,
               Some (Event "REFRESH" (s_user_id s) (s_id s) (Some "session extended")))
          end
      end
  end.

Definition close_spec (mgr : OpenDBSC_Manager) (now : Z) (id : cstr) (m : view) : outcome :=
  match nonempty id with
  | None => (message 400 "missing session identification", m, None)
  | Some id =>
      match lookup_live now id m with
      | None => (message 401 "invalid session", delete id m, None)
      | Some s =>
          (ManagerResponse 200 (Some (cookie_text mgr id 0)) None None
             (Some (cJSON_Print (instruction_document closing_instruction))),
           delete id m,
           Some (Event "CLOSE" (s_user_id s) (Some id) (Some "session closed")))
      end
  end.

(** The environment after a request that draws a challenge, or does not. *)
Definition after (mgr : OpenDBSC_Manager) (w : world) (e : option event) : world :=
  match e with Some e => told mgr e (drawn w) | None => w end.

End spec.

(** ** Sessions stay storable *)

Lemma nonempty_Some p s : nonempty p = Some s → p = Some s ∧ s ≠ "".
Proof. destruct p as [[|c s']|]; simpl; [done| |done]. by intros [= <-]. Qed.

Lemma renewed_storable mgr now c s :
  clock_ok mgr now → storable s → storable (renewed mgr now c s) ∧
  s_id (renewed mgr now c s) = s_id s ∧ s_created_at (renewed mgr now c s) = s_created_at s ∧
  s_challenge (renewed mgr now c s) = Some c.
Proof.
  intros [? ?] []. unfold renewed, ttl_applied. destruct (0 <? cfg_session_ttl_seconds mgr) eqn:E;
    (split; [split; try done|done]). cbn. apply Z.ltb_lt in E.
  rewrite bool_decide_true by lia. unfold time_ok. lia.
Qed.

Lemma renewed_fields mgr now c s :
  s_user_id (renewed mgr now c s) = s_user_id s ∧ s_state (renewed mgr now c s) = s_state s ∧
  s_public_key (renewed mgr now c s) = s_public_key s ∧
  s_algorithm (renewed mgr now c s) = s_algorithm s ∧
  s_id (renewed mgr now c s) = s_id s ∧
  s_created_at (renewed mgr now c s) = s_created_at s ∧
  s_challenge (renewed mgr now c s) = Some c.
Proof. unfold renewed, ttl_applied. by destruct (0 <? cfg_session_ttl_seconds mgr). Qed.

Lemma bound_to_storable p s : storable s → storable (bound_to p s).
Proof. intros []. by split. Qed.

Lemma sessions_ok_insert m id s :
  sessions_ok m → storable s → s_challenge s ≠ None → sessions_ok (<[id := s]> m).
Proof. intros Hm ??. by apply map_Forall_insert_2. Qed.

Lemma sessions_ok_delete m id : sessions_ok m → sessions_ok (delete id m).
Proof. apply map_Forall_delete. Qed.

(** ** The handlers compute the specification *)

Section refinement.
Context `{CJSON, OpenSSL, UUIDv7} {T : Type} `{StoreLaws T}.

Lemma quiet_drawn w : quiet w → quiet (drawn w).
Proof. done. Qed.

Lemma quiet_told mgr e w : quiet w → quiet (told mgr e w).
Proof. intros. unfold told. by destruct (cfg_on_event mgr). Qed.

Lemma emit_event_run mgr type user id detail w :
  emit_event mgr type user id detail w = Ret tt (told mgr (Event type user id detail) w).
Proof. unfold emit_event, told. by destruct (cfg_on_event mgr). Qed.

Lemma need_store_run mgr w : manager_ready mgr → need_store mgr w = Ret tt w.
Proof. intros [Hs _ _ _]. unfold need_store. by rewrite Hs. Qed.

(** The answer to an accepted proof. *)
Lemma grant_run mgr s id c (st : T) w :
  quiet w → manager_ready mgr → s_id s = Some id → s_challenge s = Some c →
  (cookie ← build_set_cookie mgr (s_id s);
   header ← opendbsc_challenge_serialize (s_challenge s) (s_id s);
   b ← build_instruction_body mgr s true;
   mret (0, Some (ManagerResponse 200 cookie None header b), st)) w
    = Ret (0, Some (granted mgr s), st) w.
Proof.
  intros Hw Hm Hid Hc. unfold granted. rewrite Hid, Hc. unfold build_set_cookie.
  run_by ltac:(by apply cookie_run).
  run_by ltac:(by apply challenge_serialize_run).
  by run_by ltac:(by apply body_run).
Qed.

(** What every request leaves behind. *)
Definition run_to (env : option event → world) (w : world) (st : T)
    (o : OpenDBSC_ManagerResponse * view * option event)
    (m : C (Z * option OpenDBSC_ManagerResponse * T)) : Prop :=
  let '(resp, v, e) := o in
  ∃ st', m w = Ret (0, Some resp, st') (env e) ∧ store_inv st' ∧
    (∀ n, store_room n st → store_room n st') ∧ store_view st' = v ∧ sessions_ok v.

(** The challenge of the session, against that of the proof. *)
Lemma challenge_check_run (p : cstr) c w :
  (match p with
   | None => mret false
   | Some x => d ← need_str (Some c); mret (String.eqb x d)
   end : C bool) w = Ret (bool_decide (p = Some c)) w.
Proof.
  destruct p as [x|]; [|done]. cbn. rewrite bind_unfold, ret_unfold, ret_unfold. f_equal.
  destruct (String.eqb_spec x c); [by subst; rewrite bool_decide_true|].
  rewrite bool_decide_false by congruence. done.
Qed.

(** A session that is found, and one that is not. *)
Lemma found st id w s :
  quiet w → store_inv st → sessions_ok (store_view st) →
  lookup_live (w_now w) id (store_view st) = Some s →
  ∃ st' c, call_get st id w = Ret (0, Some s, st') w ∧ store_inv st' ∧
    (∀ n, store_room n st → store_room n st') ∧ store_view st' = store_view st ∧
    store_view st !! id = Some s ∧ s_id s = Some id ∧ storable s ∧ s_challenge s = Some c.
Proof.
  intros Hw Hst Hok Hs. destruct (call_get_live st id w s Hw Hst Hs) as (st' & ? & ? & ? & ?).
  apply lookup_live_Some in Hs as [Hs _]. destruct (Hok _ _ Hs) as [Hsto Hch].
  destruct (s_challenge s) as [c|] eqn:Hc; [|done]. exists st', c.
  split_and!; try done. by apply (store_view_id st).
Qed.

Lemma missing_refines env w st id status text (m : C (Z * option OpenDBSC_ManagerResponse * T)) r :
  quiet w → store_inv st → sessions_ok (store_view st) →
  lookup_live (w_now w) id (store_view st) = None → 
  (∀ st', call_get st id w = Ret (-1, None, st') w →
     m w = (r ← message_response response_default status text; mret (0, Some r, st')) w) →
  r = message status text → env None = w →
  run_to env w st (r, delete id (store_view st), None) m.
Proof.
  intros Hw Hst Hok Hs Hm -> Henv.
  destruct (call_get_dead st id w Hw Hst Hs) as (st' & Hget & Hi & Hr & Hv).
  exists st'. split_and!; try done; [|by apply sessions_ok_delete].
  rewrite (Hm _ Hget), Henv. by run_by ltac:(by apply message_response_run).
Qed.

Lemma run_to_steps env w st o (m m' : C (Z * option OpenDBSC_ManagerResponse * T)) :
  m w = m' w → run_to env w st o m' → run_to env w st o m.
Proof. unfold run_to. by intros ->. Qed.

(** The store was only read. *)
Lemma run_to_same env w st st1 r (m : C (Z * option OpenDBSC_ManagerResponse * T)) :
  store_inv st1 → (∀ n, store_room n st → store_room n st1) → store_view st1 = store_view st →
  sessions_ok (store_view st) → env None = w → m w = Ret (0, Some r, st1) w →
  run_to env w st (r, store_view st, None) m.
Proof. intros ???? He ?. exists st1. rewrite He. split_and!; done. Qed.

(** A new challenge, a new term, and the update of the store; then the rest. *)
Lemma renewal_refines env mgr s id old st st1 w o
    (fail1 : C (Z * option OpenDBSC_ManagerResponse * T))
    (fail2 : T → C (Z * option OpenDBSC_ManagerResponse * T))
    (K : OpenDBSC_Session → T → C (Z * option OpenDBSC_ManagerResponse * T)) :
  quiet w → clock_ok mgr (w_now w) → store_inv st1 → store_view st1 !! id = Some old →
  storable s → s_id s = Some id → s_created_at s = s_created_at old →
  let s' := renewed mgr (w_now w) (challenge_of w) s in
  (∀ st', store_inv st' → (∀ n, store_room n st1 → store_room n st') →
     store_view st' = <[id := s']> (store_view st1) →
     run_to env w st o (λ _, K s' st' (drawn w))) →
  run_to env w st o
    (new_challenge ← opendbsc_manager_generate_challenge;
     match new_challenge with
     | None => fail1
     | Some _ =>
         session ← ignore (λ s, opendbsc_session_set_challenge s new_challenge) s;
         session ← apply_session_ttl session (cfg_session_ttl_seconds mgr);
         '(rc, st) ← st_update st1 (Some session);
         if negb (rc =? 0) then fail2 st else K session st
     end).
Proof.
  intros Hw Hclk Hst Hold Hs Hid Hcr s' HK.
  destruct (renewed_storable mgr (w_now w) (challenge_of w) s Hclk Hs) as (Hs' & Hid' & Hcr' & _).
  fold s' in Hs', Hid', Hcr'.
  destruct (store_update st1 s' id old (drawn w)) as (st' & Hup & Hst' & Hroom & Hv);
    [done|done|done|by rewrite Hid'|done|by rewrite Hcr'|].
  eapply run_to_steps; [|by apply HK].
  run_by ltac:(by apply generate_challenge_run).
  run_by ltac:(by eapply ignore_run, session_set_challenge_run, quiet_no_oom, Hw).
  run_by ltac:(by apply ttl_run).
  change (w_now (drawn w)) with (w_now w).
  match goal with |- context [st_update st1 (Some ?x)] => change x with s' end.
  by run_by ltac:(apply Hup).
Qed.

Ltac steps tac := eapply run_to_steps; [tac; reflexivity|].

(** The session is there and is loaded. *)
Ltac loaded Hget := steps ltac:(run_by ltac:(by apply need_store_run);
  run_by ltac:(apply Hget); cbn [Z.eqb negb]; run_by ltac:(reflexivity)).

Lemma challenged_run s c w :
  quiet w → s_challenge s = Some c →
  set_challenge_response response_default (s_challenge s) (s_id s) 403 w = Ret (challenged s) w.
Proof. intros Hw Hc. unfold challenged. rewrite Hc. by apply set_challenge_response_run. Qed.

Lemma register_refines mgr id header r0 st w :
  quiet w → manager_ready mgr → clock_ok mgr (w_now w) → store_inv st →
  sessions_ok (store_view st) →
  run_to (after mgr w) w st (register_spec mgr (w_now w) (challenge_of w) id header (store_view st))
    (opendbsc_manager_register (Some mgr) id header (Some r0) st).
Proof.
  intros Hw Hm Hclk Hst Hok. unfold register_spec, opendbsc_manager_register.
  destruct (nonempty id) as [id'|].
  2:{ exists st. split_and!; try done. by run_by ltac:(by apply message_response_run). }
  destruct (lookup_live (w_now w) id' (store_view st)) as [s|] eqn:Hs.
  2:{ eapply missing_refines; [done..| |done|done]. intros st' Hget.
      run_by ltac:(by apply need_store_run). by run_by ltac:(apply Hget). }
  destruct (found st id' w s Hw Hst Hok Hs)
    as (st1 & c & Hget & Hi & Hr & Hv & Hin & Hid & Hsto & Hc).
  loaded Hget. pose proof (challenged_run s c w Hw Hc) as Hchal.
  case_decide as Hact.
  { rewrite bool_decide_false by done. cbn [negb]. eapply run_to_same; [done..|].
    by run_by ltac:(by apply message_response_run). }
  rewrite bool_decide_true by (by destruct (s_state s)). cbn [negb]. cbv zeta.
  destruct (nonempty header) as [t|]; cbn [mbind option_bind];
    [|eapply run_to_same; [done..|]; by run_by ltac:(by apply Hchal)].
  destruct (decode_and_verify_run t w Hw) as (rc & p & Hdec & Hp).
  steps ltac:(run_by ltac:(apply Hdec)). unfold registration_proof.
  destruct (accepts (registration_checks t) t).
  2:{ subst rc. eapply run_to_same; [done..|]. cbn [Z.eqb negb]. by run_by ltac:(by apply Hchal). }
  destruct Hp as [-> Hp]. rewrite Hp. cbn [mbind option_bind Z.eqb negb]. rewrite Hc.
  steps ltac:(run_by ltac:(apply challenge_check_run)).
  destruct (bool_decide (p_challenge p = Some c)); cbn [andb negb].
  2:{ eapply run_to_same; [done..|]. rewrite <-Hc. by run_by ltac:(by apply Hchal). }
  destruct (match cfg_authorization mgr with Some _ => _ | None => _ end); cbn [negb].
  2:{ eapply run_to_same; [done..|]. rewrite <-Hc. by run_by ltac:(by apply Hchal). }
  steps ltac:(run_by ltac:(reflexivity);
    run_by ltac:(by eapply ignore_run, session_set_public_key_run, quiet_no_oom, Hw);
    run_by ltac:(by eapply ignore_run, session_set_algorithm_run, quiet_no_oom, Hw)).
  fold (bound_to p s).
  eapply (renewal_refines _ mgr (bound_to p s) id' s); [done|done|done|by rewrite Hv
    |by apply bound_to_storable|done|done|].
  intros st' Hi' Hr' Hv'. 
  destruct (renewed_storable mgr (w_now w) (challenge_of w) (bound_to p s) Hclk
    (bound_to_storable p s Hsto)) as (Hsto' & Hid' & _ & Hc').
  destruct (renewed_fields mgr (w_now w) (challenge_of w) (bound_to p s)) as (Hu' & _).
  destruct (token_proof_claims t p Hp) as (Halg & _).
  destruct (p_algorithm p) as [alg|] eqn:Ha; [|done].
  exists st'. rewrite Hv', Hv. split_and!; [|done|by auto|done
    |apply sessions_ok_insert; [done|done|by rewrite Hc']].
  run_by ltac:(reflexivity). run_by ltac:(apply emit_event_run).
  rewrite (grant_run _ _ id' (challenge_of w)); [|by apply quiet_told|done|by rewrite Hid'|done].
  by rewrite Hu', Hid'.
Qed.

Lemma refresh_refines mgr id header r0 st w :
  quiet w → manager_ready mgr → clock_ok mgr (w_now w) → store_inv st →
  sessions_ok (store_view st) →
  run_to (after mgr w) w st (refresh_spec mgr (w_now w) (challenge_of w) id header (store_view st))
    (opendbsc_manager_refresh (Some mgr) id header (Some r0) st).
Proof.
  intros Hw Hm Hclk Hst Hok. unfold refresh_spec, opendbsc_manager_refresh.
  destruct (nonempty id) as [id'|].
  2:{ exists st. split_and!; try done. by run_by ltac:(by apply message_response_run). }
  destruct (lookup_live (w_now w) id' (store_view st)) as [s|] eqn:Hs.
  2:{ eapply missing_refines; [done..| |done|done]. intros st' Hget.
      run_by ltac:(by apply need_store_run). by run_by ltac:(apply Hget). }
  destruct (found st id' w s Hw Hst Hok Hs)
    as (st1 & c & Hget & Hi & Hr & Hv & Hin & Hid & Hsto & Hc).
  loaded Hget. pose proof (challenged_run s c w Hw Hc) as Hchal.
  case_decide as Hbound.
  { rewrite bool_decide_false by done. cbn [negb]. eapply run_to_same; [done..|].
    by run_by ltac:(by apply message_response_run). }
  rewrite bool_decide_true by (by destruct (s_state s)). cbn [negb]. cbv zeta.
  destruct (nonempty header) as [t|]; cbn [mbind option_bind];
    [|eapply run_to_same; [done..|]; by run_by ltac:(by apply Hchal)].
  unfold refresh_proof. destruct (s_public_key s) as [key|] eqn:Hkey; cbn [mbind option_bind].
  2:{ eapply run_to_same; [done..|]. run_by ltac:(reflexivity). cbn [Z.eqb negb].
      by run_by ltac:(by apply Hchal). }
  destruct (verify_with_jwk_run t key w Hw) as (rc & p & Hdec & Hp).
  steps ltac:(run_by ltac:(apply Hdec)).
  destruct (accepts (refresh_checks t key) t).
  2:{ subst rc. eapply run_to_same; [done..|]. cbn [Z.eqb negb]. by run_by ltac:(by apply Hchal). }
  destruct Hp as [-> Hp]. rewrite Hp. cbn [mbind option_bind Z.eqb negb]. rewrite Hc.
  steps ltac:(run_by ltac:(apply challenge_check_run)).
  destruct (bool_decide (p_challenge p = Some c)); cbn [negb].
  2:{ eapply run_to_same; [done..|]. rewrite <-Hc. by run_by ltac:(by apply Hchal). }
  eapply (renewal_refines _ mgr s id' s); [done|done|done|by rewrite Hv|done|done|done|].
  intros st' Hi' Hr' Hv'.
  destruct (renewed_fields mgr (w_now w) (challenge_of w) s) as (Hu' & _ & _ & _ & Hid' & _ & Hc').
  destruct (renewed_storable mgr (w_now w) (challenge_of w) s Hclk Hsto) as (Hsto' & _).
  exists st'. rewrite Hv', Hv. split_and!; [|done|by auto|done
    |apply sessions_ok_insert; [done|done|by rewrite Hc']].
  run_by ltac:(apply emit_event_run).
  rewrite (grant_run _ _ id' (challenge_of w)); [|by apply quiet_told|done|by rewrite Hid'|done].
  by rewrite Hu', Hid'.
Qed.

Lemma close_refines mgr id r0 st w :
  quiet w → manager_ready mgr → store_inv st → sessions_ok (store_view st) →
  run_to (λ e, match e with Some e => told mgr e w | None => w end) w st
    (close_spec mgr (w_now w) id (store_view st))
    (opendbsc_manager_close (Some mgr) id (Some r0) st).
Proof.
  intros Hw Hm Hst Hok. unfold close_spec, opendbsc_manager_close.
  destruct (nonempty id) as [id'|].
  2:{ exists st. split_and!; try done. by run_by ltac:(by apply message_response_run). }
  destruct (lookup_live (w_now w) id' (store_view st)) as [s|] eqn:Hs.
  2:{ eapply missing_refines; [done..| |done|done]. intros st' Hget.
      run_by ltac:(by apply need_store_run). by run_by ltac:(apply Hget). }
  destruct (found st id' w s Hw Hst Hok Hs)
    as (st1 & c & Hget & Hi & Hr & Hv & Hin & Hid & Hsto & Hc).
  destruct (store_delete st1 id' w Hw Hi) as (rc & st' & Hdel & Hi' & Hr' & Hv' & Hrc).
  rewrite Hrc in Hdel by (by rewrite Hv, Hin).
  exists st'. rewrite Hv', Hv. split_and!; [|done|by auto|done|by apply sessions_ok_delete].
  run_by ltac:(by apply need_store_run). run_by ltac:(apply Hget). cbn [Z.eqb negb].
  run_by ltac:(reflexivity).
  erewrite (bind_run (copy_string (s_user_id s)) _ w (s_user_id s) w).
  2:{ unfold copy_string. destruct (s_user_id s); [|done]. by apply strdup_run, quiet_no_oom. }
  assert (negb (bool_decide (s_user_id s = None)) && bool_decide (s_user_id s = None) = false) as ->.
  { by destruct (bool_decide (s_user_id s = None)). }
  run_by ltac:(by apply closing_body_run). rewrite Hid.
  run_by ltac:(by apply cookie_run). cbv zeta.
  run_by ltac:(apply Hdel). cbn [Z.eqb negb]. by run_by ltac:(apply emit_event_run).
Qed.

(** Drawing an identifier neither allocates nor reads the wall clock. *)
Lemma new_id_world b rc out w w1 :
  opendbsc_session_new_id (Some b) w = Ret (rc, out) w1 →
  w_alloc w1 = w_alloc w ∧ w_now w1 = w_now w ∧ w_ticks w1 = w_ticks w ∧
  w_events w1 = w_events w.
Proof.
  unfold opendbsc_session_new_id. case_decide; [by intros [= <- <- <-]|].
  rewrite bind_unfold. unfold clock_gettime.
  destruct (w_realtime w) as [|[[sec nsec]|] rt]; try (by intros [= <- <- <-]).
  rewrite bind_unfold. unfold getentropy. cbn [w_entropy].
  destruct (w_entropy w) as [|[bs|] en]; cbn [fmap option_fmap option_map];
    try (by intros [= <- <- <-]).
  destruct (uuidv7_generate _ _) as [status u]. destruct (status <? 0); [by intros [= <- <- <-]|].
  rewrite bind_unfold. unfold sprintf. case_decide; [|done]. by intros [= <- <- <-].
Qed.

(** The session a login creates. *)
Definition login_session (mgr : OpenDBSC_Manager) (now : Z) (c id user_id : string)
    : OpenDBSC_Session :=
  ttl_applied mgr now
    (Session (Some id) (Some user_id) OPENDBSC_SESSION_STATE_ACTIVE None None (Some c) 0 false now).

Definition login_response (mgr : OpenDBSC_Manager) (c id : string) : OpenDBSC_ManagerResponse :=
  ManagerResponse 200 (Some (cookie_text mgr id (cfg_cookie_ttl_seconds mgr)))
    (Some (registration_text ["ES256"; "RS256"] (Some "/dbsc/register") (Some c)
             (cfg_authorization mgr) None None None))
    None None.

Definition login_event (id user_id : string) : event :=
  Event "LOGIN" (Some user_id) (Some id) (Some "login successful").

Lemma login_session_ok mgr now c id u :
  clock_ok mgr now → storable (login_session mgr now c id u) ∧
  s_id (login_session mgr now c id u) = Some id ∧
  s_challenge (login_session mgr now c id u) = Some c.
Proof.
  intros [? ?]. unfold login_session, ttl_applied.
  destruct (0 <? cfg_session_ttl_seconds mgr) eqn:E; (split; [|done]); split; try done; cbn;
    unfold time_ok; [apply Z.ltb_lt in E; lia| |lia].
  apply Z.ltb_lt in E. rewrite bool_decide_true by lia. lia.
Qed.

Lemma registration_serialize_run algs path ch auth w :
  quiet w →
  opendbsc_registration_serialize (Some (Some <$> algs)) (length algs) path ch auth None None None w
    = Ret (Some (registration_text algs path ch auth None None None)) w.
Proof.
  intros Hw. apply computes_run; [|done]. intros w' Q HS HN.
  apply wp_registration_serialize; [by intros; apply HS|by intros; apply HN; auto].
Qed.

(** A login, by what the store answers. *)
Lemma initiate_run mgr u id out r0 st w w1 rc st' :
  quiet w → manager_ready mgr → clock_ok mgr (w_now w) →
  opendbsc_session_new_id (Some (CBuf 37 None)) w = Ret (0, Some (CBuf 37 (Some id))) w1 →
  let s := login_session mgr (w_now w) (challenge_of w1) id u in
  st_create st (Some s) (drawn w1) = Ret (rc, st') (drawn w1) →
  opendbsc_manager_initiate (Some mgr) (Some u) out (Some r0) st w
    = if rc =? 0
      then Ret (0, (λ _, s) <$> out, Some (login_response mgr (challenge_of w1) id), st')
               (told mgr (login_event id u) (drawn w1))
      else Ret (-1, out, Some response_default, st') (drawn w1).
Proof.
  intros Hw Hm Hclk Hid s Hcreate.
  destruct (new_id_world _ _ _ _ _ Hid) as (Ha & Hn & Ht & _).
  assert (quiet w1) as Hw1 by (destruct Hw; split; congruence).
  assert (no_oom w1) as Ho1 by by apply quiet_no_oom.
  assert (quiet (drawn w1)) as Hd by done. assert (no_oom (drawn w1)) as Hod by done.
  destruct (login_session_ok mgr (w_now w) (challenge_of w1) id u Hclk) as (_ & Hsid & Hsc).
  fold s in Hsid, Hsc.
  unfold opendbsc_manager_initiate. run_by ltac:(apply Hid). cbn [Z.eqb negb].
  do 2 run_by ltac:(reflexivity).
  run_by ltac:(by eapply ignore_run, session_set_id_run).
  run_by ltac:(by eapply ignore_run, session_set_user_id_run).
  run_by ltac:(reflexivity). run_by ltac:(by apply generate_challenge_run).
  run_by ltac:(by eapply ignore_run, session_set_challenge_run).
  run_by ltac:(by apply time_run). run_by ltac:(reflexivity).
  run_by ltac:(by apply ttl_run). run_by ltac:(by apply need_store_run).
  change (w_now (drawn w1)) with (w_now w1). rewrite Hn.
  match goal with |- context [st_create st (Some ?x)] => change x with s end.
  run_by ltac:(apply Hcreate). destruct (rc =? 0); cbn [negb]; [|done]. rewrite Hsid, Hsc.
  run_by ltac:(by apply cookie_run).
  run_by ltac:(by apply (registration_serialize_run ["ES256"; "RS256"])).
  destruct out as [o|].
  - erewrite (bind_run _ _ _ (Some s) (drawn w1)).
    2:{ by erewrite bind_run by by apply session_copy_run. }
    by run_by ltac:(apply emit_event_run).
  - run_by ltac:(reflexivity). by run_by ltac:(apply emit_event_run).
Qed.

Lemma initiate_refines_room n mgr u id out r0 st w w1 :
  quiet w → manager_ready mgr → clock_ok mgr (w_now w) → store_inv st → store_room (S n) st →
  sessions_ok (store_view st) →
  opendbsc_session_new_id (Some (CBuf 37 None)) w = Ret (0, Some (CBuf 37 (Some id))) w1 →
  store_view st !! id = None →
  let s := login_session mgr (w_now w) (challenge_of w1) id u in
  ∃ st', opendbsc_manager_initiate (Some mgr) (Some u) out (Some r0) st w
      = Ret (0, (λ _, s) <$> out, Some (login_response mgr (challenge_of w1) id), st')
          (told mgr (login_event id u) (drawn w1)) ∧
    store_inv st' ∧ store_room n st' ∧ store_view st' = <[id := s]> (store_view st) ∧
    sessions_ok (store_view st').
Proof.
  intros Hw Hm Hclk Hst Hroom Hok Hid Hfresh s.
  destruct (new_id_world _ _ _ _ _ Hid) as (Ha & _ & Ht & _).
  assert (quiet (drawn w1)) as Hd by (destruct Hw; split; cbn; congruence).
  destruct (login_session_ok mgr (w_now w) (challenge_of w1) id u Hclk) as (Hsto & Hsid & Hsc).
  fold s in Hsto, Hsid, Hsc.
  destruct (store_create n st s id (drawn w1)) as (rc & st' & Hcreate & Hi & Hroom' & Hv); [done..|].
  destruct Hv as [[-> Hv]|(_ & _ & [x Hx])]; [|congruence].
  exists st'. rewrite Hv. split_and!; [|done..|apply sessions_ok_insert; [done|done|by rewrite Hsc]].
  by apply (initiate_run mgr u id out r0 st w w1 0 st').
Qed.

Lemma initiate_refines n mgr u id out r0 st w w1 :
  quiet w → manager_ready mgr → clock_ok mgr (w_now w) → store_inv st → store_room (S n) st →
  sessions_ok (store_view st) →
  opendbsc_session_new_id (Some (CBuf 37 None)) w = Ret (0, Some (CBuf 37 (Some id))) w1 →
  store_view st !! id = None →
  let s := login_session mgr (w_now w) (challenge_of w1) id u in
  ∃ st', opendbsc_manager_initiate (Some mgr) (Some u) out (Some r0) st w
      = Ret (0, (λ _, s) <$> out, Some (login_response mgr (challenge_of w1) id), st')
          (told mgr (login_event id u) (drawn w1)) ∧
    store_inv st' ∧ store_view st' = <[id := s]> (store_view st) ∧ sessions_ok (store_view st').
Proof.
  intros Hw Hm Hclk Hst Hroom Hok Hid Hfresh s.
  destruct (initiate_refines_room n mgr u id out r0 st w w1) as (st' & ? & ? & _ & ? & ?); [done..|].
  by exists st'.
Qed.

End refinement.
