(* ===== verification/ManagerProps.v ===== *)
(** The properties of the manager: what its requests guarantee to an
    application, over every lawful store.  The hypotheses shared by all of
    them are those of a server that is up: the configuration that
    [opendbsc_manager_init] leaves, a store that keeps its invariant, and
    sessions that the manager itself has stored. *)

From S2P Require Export ManagerSpec MemoryStore.
From stdpp Require Import options.
#[local] Open Scope Z_scope.

(** ** The cases of the specification *)

Section cases.
Context `{CJSON, OpenSSL}.

(** The token [t] proves, for the challenge and the authorization value, the
    possession of the key it carries, or is unsigned and carries none. *)
Definition proves_registration (mgr : OpenDBSC_Manager) (s : OpenDBSC_Session) (t : string)
    (p : OpenDBSC_ProofJWT) : Prop :=
  token_proof t = Some p ∧ p_type p = Some "dbsc+jwt" ∧ p_challenge p = s_challenge s ∧
  (∀ a, cfg_authorization mgr = Some a → p_authorization p = Some a) ∧
  (p_algorithm p = Some "none" ∧ p_jwk p = None ∨
   ∃ alg key sig, p_algorithm p = Some alg ∧ (alg = "ES256" ∨ alg = "RS256") ∧
     p_jwk p = Some key ∧ p_signature p = Some sig ∧ signed_by alg key t sig = true).

(** The token is signed with the key of the session, for its challenge. *)
Definition proves_refresh (s : OpenDBSC_Session) (t : string) (p : OpenDBSC_ProofJWT) : Prop :=
  token_proof t = Some p ∧ p_type p = Some "dbsc+jwt" ∧ p_challenge p = s_challenge s ∧
  p_jwk p = None ∧
  ∃ alg key sig, p_algorithm p = Some alg ∧ (alg = "ES256" ∨ alg = "RS256") ∧
    s_public_key s = Some key ∧ p_signature p = Some sig ∧ signed_by alg key t sig = true.

Lemma signed_by_alg alg key t sig : signed_by alg key t sig = true → alg = "ES256" ∨ alg = "RS256".
Proof.
  unfold signed_by. intros [Ha _]%andb_true_iff.
  apply orb_true_iff in Ha as [->%String.eqb_eq| ->%String.eqb_eq]; auto.
Qed.

Lemma registration_proof_proves mgr s t p :
  registration_proof mgr s t = Some p → proves_registration mgr s t p.
Proof.
  unfold registration_proof, proves_registration, accepts.
  destruct (token_proof t) as [q|]; [|done]. destruct (registration_checks t q) eqn:Hc; [|done].
  cbn. destruct (_ && _) eqn:Hg; [|done]. intros [= ->].
  apply andb_true_iff in Hg as [Hch%bool_decide_eq_true_1 Ha].
  apply andb_true_iff in Hc as [[Ht%bool_decide_eq_true_1 Hrules]%andb_true_iff Hs].
  split_and!; [done..| |].
  { intros a E. rewrite E in Ha. by apply bool_decide_eq_true_1 in Ha. }
  unfold registration_rules, signature_accepted in *.
  destruct (p_algorithm p) as [alg|]; [|done].
  destruct (String.eqb_spec alg "none") as [->|Hn].
  - left. split; [done|]. rewrite bool_decide_true in Hrules by done.
    by apply Bool.eqb_prop, eq_sym, bool_decide_eq_true_1 in Hrules.
  - right. cbn [orb] in Hs. destruct (p_jwk p) as [key|]; [|done].
    destruct (p_signature p) as [sig|]; [|done]. exists alg, key, sig.
    split_and!; eauto using signed_by_alg.
Qed.

Lemma refresh_proof_proves s t p : refresh_proof s t = Some p → proves_refresh s t p.
Proof.
  unfold refresh_proof, proves_refresh, accepts.
  destruct (s_public_key s) as [key|]; [|done]. cbn.
  destruct (token_proof t) as [q|]; [|done]. destruct (refresh_checks t key q) eqn:Hc; [|done].
  cbn. destruct (bool_decide _) eqn:Hch; [|done]. intros [= ->].
  apply bool_decide_eq_true_1 in Hch.
  apply andb_true_iff in Hc as [[[Hj%bool_decide_eq_true_1 Ht%bool_decide_eq_true_1]%andb_true_iff
    Hn%bool_decide_eq_true_1]%andb_true_iff Hs].
  split_and!; try done. unfold signature_accepted in Hs.
  destruct (p_algorithm p) as [alg|]; [|done].
  destruct (String.eqb_spec alg "none") as [->|_]; [done|]. cbn [orb] in Hs.
  destruct (p_signature p) as [sig|]; [|done]. exists alg, key, sig.
  split_and!; eauto using signed_by_alg.
Qed.

(** And the converses: a proof is a token that proves. *)
Lemma proves_registration_proof mgr s t p :
  proves_registration mgr s t p → registration_proof mgr s t = Some p.
Proof.
  intros (Ht & Hty & Hc & Ha & Hk). unfold registration_proof, accepts. rewrite Ht.
  assert (registration_checks t p = true) as ->.
  { unfold registration_checks, type_ok, registration_rules, signature_accepted.
    rewrite Hty, bool_decide_true by done. cbn [andb].
    destruct Hk as [[-> ->]|(alg & key & sig & -> & Halg & -> & -> & Hsig)]; [done|].
    rewrite !bool_decide_false by (destruct Halg; congruence). cbn [Bool.eqb andb].
    by rewrite Hsig, orb_true_r. }
  cbn [mbind option_bind]. rewrite bool_decide_true by done. cbn [andb].
  destruct (cfg_authorization mgr) as [a|]; [|done]. by rewrite bool_decide_true by auto.
Qed.

Lemma proves_refresh_proof s t p : proves_refresh s t p → refresh_proof s t = Some p.
Proof.
  intros (Ht & Hty & Hc & Hj & alg & key & sig & Halg & Hes & Hkey & Hsig & Hs).
  unfold refresh_proof, accepts. rewrite Hkey, Ht. cbn [mbind option_bind].
  assert (refresh_checks t key p = true) as ->.
  { unfold refresh_checks, type_ok, signature_accepted.
    rewrite Hj, Hty, Halg, Hsig, Hs, orb_true_r, !bool_decide_true; [done|..|done|done].
    destruct Hes; congruence. }
  cbn. by rewrite bool_decide_true by done.
Qed.

(** A request is granted, or refused; it is granted only to a live session in
    the right state with a proof. *)
Lemma register_spec_cases mgr now c id header m :
  (∃ i s t p, nonempty id = Some i ∧ nonempty header = Some t ∧ lookup_live now i m = Some s ∧
     s_state s = OPENDBSC_SESSION_STATE_ACTIVE ∧ registration_proof mgr s t = Some p ∧
     register_spec mgr now c id header m =
       (granted mgr (renewed mgr now c (bound_to p s)),
        <[i := renewed mgr now c (bound_to p s)]> m,
        Some (Event "REGISTER" (s_user_id s) (s_id s)
                (Some (str_take 255 ("alg=" +:+ default "" (p_algorithm p))))))) ∨
  (∃ r m', register_spec mgr now c id header m = (r, m', None) ∧
     (status_code r = 400 ∨ status_code r = 401 ∨ status_code r = 403) ∧
     (m' = m ∨ ∃ i, nonempty id = Some i ∧ lookup_live now i m = None ∧ m' = delete i m)).
Proof.
  unfold register_spec. destruct (nonempty id) as [i|]; [|right; eauto 10].
  destruct (lookup_live now i m) as [s|] eqn:Hs; [|right; eauto 12].
  case_decide as Hst; [right; eauto 10|].
  destruct (nonempty header) as [t|]; cbn [mbind option_bind]; [|right; eauto 10].
  destruct (registration_proof mgr s t) as [p|] eqn:Hp; [|right; eauto 10].
  left. exists i, s, t, p. by split_and!.
Qed.

Lemma refresh_spec_cases mgr now c id header m :
  (∃ i s t p, nonempty id = Some i ∧ nonempty header = Some t ∧ lookup_live now i m = Some s ∧
     s_state s = OPENDBSC_SESSION_STATE_BOUND ∧ refresh_proof s t = Some p ∧
     refresh_spec mgr now c id header m =
       (granted mgr (renewed mgr now c s), <[i := renewed mgr now c s]> m,
        Some (Event "REFRESH" (s_user_id s) (s_id s) (Some "session extended")))) ∨
  (∃ r m', refresh_spec mgr now c id header m = (r, m', None) ∧
     (status_code r = 400 ∨ status_code r = 401 ∨ status_code r = 403) ∧
     (m' = m ∨ ∃ i, nonempty id = Some i ∧ lookup_live now i m = None ∧ m' = delete i m)).
Proof.
  unfold refresh_spec. destruct (nonempty id) as [i|]; [|right; eauto 10].
  destruct (lookup_live now i m) as [s|] eqn:Hs; [|right; eauto 12].
  case_decide as Hst; [right; eauto 10|].
  destruct (nonempty header) as [t|]; cbn [mbind option_bind]; [|right; eauto 10].
  destruct (refresh_proof s t) as [p|] eqn:Hp; [|right; eauto 10].
  left. exists i, s, t, p. by split_and!.
Qed.

End cases.

(** ** Properties of the requests *)

(** A server that is up. *)
Record server_up {T} `{StoreLaws T} (mgr : OpenDBSC_Manager) (st : T) (w : world) : Prop := {
  up_quiet : quiet w;
  up_ready : manager_ready mgr;
  up_clock : clock_ok mgr (w_now w);
  up_inv : store_inv st;
  up_sessions : sessions_ok (store_view st)
}.

Lemma later_up {T} `{StoreLaws T} mgr (st : T) w d :
  server_up mgr st w → clock_ok mgr (w_now w + d) → server_up mgr st (later d w).
Proof. by intros [] ?; split. Qed.

Section properties.
Context `{CJSON, OpenSSL, UUIDv7} {T : Type} `{StoreLaws T}.

(** What a run of the code says, by the refinement. *)
Lemma register_run mgr id header r0 st w rc resp st' w' :
  server_up mgr st w →
  opendbsc_manager_register (Some mgr) id header (Some r0) st w = Ret (rc, resp, st') w' →
  ∃ r m e, register_spec mgr (w_now w) (challenge_of w) id header (store_view st) = (r, m, e) ∧
    rc = 0 ∧ resp = Some r ∧ store_view st' = m ∧ w' = after mgr w e ∧ server_up mgr st' w'.
Proof.
  intros [Hw Hm Hc Hi Hs] Hrun. pose proof (register_refines mgr id header r0 st w Hw Hm Hc Hi Hs) as H5.
  unfold run_to in H5. destruct (register_spec _ _ _ _ _ _) as [[r m] e].
  destruct H5 as (st1 & Hrun1 & Hi1 & _ & Hv & Hok). rewrite Hrun in Hrun1. simplify_eq.
  exists r, (store_view st1), e. split_and!; try done.
  split; try done; destruct e; cbn; try done; unfold told; by destruct (cfg_on_event mgr).
Qed.

Lemma refresh_run mgr id header r0 st w rc resp st' w' :
  server_up mgr st w →
  opendbsc_manager_refresh (Some mgr) id header (Some r0) st w = Ret (rc, resp, st') w' →
  ∃ r m e, refresh_spec mgr (w_now w) (challenge_of w) id header (store_view st) = (r, m, e) ∧
    rc = 0 ∧ resp = Some r ∧ store_view st' = m ∧ w' = after mgr w e ∧ server_up mgr st' w'.
Proof.
  intros [Hw Hm Hc Hi Hs] Hrun. pose proof (refresh_refines mgr id header r0 st w Hw Hm Hc Hi Hs) as H5.
  unfold run_to in H5. destruct (refresh_spec _ _ _ _ _ _) as [[r m] e].
  destruct H5 as (st1 & Hrun1 & Hi1 & _ & Hv & Hok). rewrite Hrun in Hrun1. simplify_eq.
  exists r, (store_view st1), e. split_and!; try done.
  split; try done; destruct e; cbn; try done; unfold told; by destruct (cfg_on_event mgr).
Qed.

(** A request takes no room. *)
Lemma register_room mgr id header r0 st w rc resp st' w' n :
  server_up mgr st w →
  opendbsc_manager_register (Some mgr) id header (Some r0) st w = Ret (rc, resp, st') w' →
  store_room n st → store_room n st'.
Proof.
  intros [Hw Hm Hc Hi Hs] Hrun. pose proof (register_refines mgr id header r0 st w Hw Hm Hc Hi Hs) as H5.
  unfold run_to in H5. destruct (register_spec _ _ _ _ _ _) as [[r m] e].
  destruct H5 as (st1 & Hrun1 & _ & Hroom & _). rewrite Hrun in Hrun1. simplify_eq. apply Hroom.
Qed.

Lemma refresh_room mgr id header r0 st w rc resp st' w' n :
  server_up mgr st w →
  opendbsc_manager_refresh (Some mgr) id header (Some r0) st w = Ret (rc, resp, st') w' →
  store_room n st → store_room n st'.
Proof.
  intros [Hw Hm Hc Hi Hs] Hrun. pose proof (refresh_refines mgr id header r0 st w Hw Hm Hc Hi Hs) as H5.
  unfold run_to in H5. destruct (refresh_spec _ _ _ _ _ _) as [[r m] e].
  destruct H5 as (st1 & Hrun1 & _ & Hroom & _). rewrite Hrun in Hrun1. simplify_eq. apply Hroom.
Qed.

Lemma close_room mgr id r0 st w rc resp st' w' n :
  server_up mgr st w →
  opendbsc_manager_close (Some mgr) id (Some r0) st w = Ret (rc, resp, st') w' →
  store_room n st → store_room n st'.
Proof.
  intros [Hw Hm Hc Hi Hs] Hrun. pose proof (close_refines mgr id r0 st w Hw Hm Hi Hs) as H5.
  unfold run_to in H5. destruct (close_spec _ _ _ _) as [[r m] e].
  destruct H5 as (st1 & Hrun1 & _ & Hroom & _). rewrite Hrun in Hrun1. simplify_eq. apply Hroom.
Qed.

Lemma close_run mgr id r0 st w rc resp st' w' :
  server_up mgr st w →
  opendbsc_manager_close (Some mgr) id (Some r0) st w = Ret (rc, resp, st') w' →
  ∃ r m e, close_spec mgr (w_now w) id (store_view st) = (r, m, e) ∧
    rc = 0 ∧ resp = Some r ∧ store_view st' = m ∧
    w' = match e with Some e => told mgr e w | None => w end ∧ server_up mgr st' w'.
Proof.
  intros [Hw Hm Hc Hi Hs] Hrun. pose proof (close_refines mgr id r0 st w Hw Hm Hi Hs) as H5.
  unfold run_to in H5. destruct (close_spec _ _ _ _) as [[r m] e].
  destruct H5 as (st1 & Hrun1 & Hi1 & _ & Hv & Hok). rewrite Hrun in Hrun1. simplify_eq.
  exists r, (store_view st1), e. split_and!; try done.
  split; try done; destruct e; cbn; try done; unfold told; by destruct (cfg_on_event mgr).
Qed.

(** *** One request, one session *)

(** How a request can change the session stored under an identifier. *)
Inductive session_change (mgr : OpenDBSC_Manager) (now : Z) (c : string)
    : option OpenDBSC_Session → option OpenDBSC_Session → Prop :=
| change_none o : session_change mgr now c o o
| change_removed s : session_change mgr now c (Some s) None
| change_bound s t p :
    s_state s = OPENDBSC_SESSION_STATE_ACTIVE → proves_registration mgr s t p →
    session_change mgr now c (Some s) (Some (renewed mgr now c (bound_to p s)))
| change_renewed s t p :
    s_state s = OPENDBSC_SESSION_STATE_BOUND → proves_refresh s t p →
    session_change mgr now c (Some s) (Some (renewed mgr now c s)).

Lemma change_delete mgr now c (m : view) i j : session_change mgr now c (m !! j) (delete i m !! j).
Proof.
  destruct (decide (i = j)) as [->|]; [|rewrite lookup_delete_ne by done; constructor].
  rewrite lookup_delete_eq. destruct (m !! j); constructor.
Qed.

Lemma register_change mgr now c id header m r m' e j :
  register_spec mgr now c id header m = (r, m', e) → session_change mgr now c (m !! j) (m' !! j).
Proof.
  intros Hspec. destruct (register_spec_cases mgr now c id header m)
    as [(i & s & t & p & _ & _ & Hs & Hst & Hp & E)|(r' & m2 & E & _ & [->|(i & _ & _ & ->)])];
    rewrite E in Hspec; simplify_eq; [|constructor|apply change_delete].
  apply lookup_live_Some in Hs as [Hs _].
  destruct (decide (i = j)) as [->|]; [|rewrite lookup_insert_ne by done; constructor].
  rewrite lookup_insert_eq, Hs. by apply (change_bound _ _ _ s t p), registration_proof_proves.
Qed.

Lemma refresh_change mgr now c id header m r m' e j :
  refresh_spec mgr now c id header m = (r, m', e) → session_change mgr now c (m !! j) (m' !! j).
Proof.
  intros Hspec. destruct (refresh_spec_cases mgr now c id header m)
    as [(i & s & t & p & _ & _ & Hs & Hst & Hp & E)|(r' & m2 & E & _ & [->|(i & _ & _ & ->)])];
    rewrite E in Hspec; simplify_eq; [|constructor|apply change_delete].
  apply lookup_live_Some in Hs as [Hs _].
  destruct (decide (i = j)) as [->|]; [|rewrite lookup_insert_ne by done; constructor].
  rewrite lookup_insert_eq, Hs. by apply (change_renewed _ _ _ s t p), refresh_proof_proves.
Qed.

Lemma close_change mgr now c id m r m' e j :
  close_spec mgr now id m = (r, m', e) → session_change mgr now c (m !! j) (m' !! j).
Proof.
  unfold close_spec. destruct (nonempty id) as [i|]; [|intros; simplify_eq; constructor].
  destruct (lookup_live now i m); intros; simplify_eq; apply change_delete.
Qed.

(** *** The life of a server *)

(** The challenges that an answer reports as drawn: one with a grant. *)
Definition drawn_by (w : world) (resp : option OpenDBSC_ManagerResponse) : list string :=
  match resp with
  | Some r => if status_code r =? 200 then [challenge_of w] else []
  | None => []
  end.

(** A server runs: logins draw fresh identifiers, requests come in any order,
    and time passes, with any clock and entropy to come.  A step tells which
    challenges it drew. *)
Inductive server_draws (mgr : OpenDBSC_Manager) : world * T → list string → world * T → Prop :=
| draws_login u id r0 st w w1 out st' w' :
    opendbsc_session_new_id (Some (CBuf 37 None)) w = Ret (0, Some (CBuf 37 (Some id))) w1 →
    store_view st !! id = None → store_room 1 st →
    opendbsc_manager_initiate (Some mgr) (Some u) None (Some r0) st w = Ret (out, st') w' →
    server_draws mgr (w, st) [challenge_of w1] (w', st')
| draws_register id header r0 st w rc resp st' w' :
    opendbsc_manager_register (Some mgr) id header (Some r0) st w = Ret (rc, resp, st') w' →
    server_draws mgr (w, st) (drawn_by w resp) (w', st')
| draws_refresh id header r0 st w rc resp st' w' :
    opendbsc_manager_refresh (Some mgr) id header (Some r0) st w = Ret (rc, resp, st') w' →
    server_draws mgr (w, st) (drawn_by w resp) (w', st')
| draws_close id r0 st w out st' w' :
    opendbsc_manager_close (Some mgr) id (Some r0) st w = Ret (out, st') w' →
    server_draws mgr (w, st) [] (w', st')
| draws_time st w w' :
    quiet w' → clock_ok mgr (w_now w') → server_draws mgr (w, st) [] (w', st).

Definition server_step (mgr : OpenDBSC_Manager) (x y : world * T) : Prop :=
  ∃ cs, server_draws mgr x cs y.

(** A run, with the challenges drawn on the way. *)
Inductive server_run (mgr : OpenDBSC_Manager) : world * T → list string → world * T → Prop :=
| run_end x : server_run mgr x [] x
| run_step x cs y cs' z :
    server_draws mgr x cs y → server_run mgr y cs' z → server_run mgr x (cs ++ cs') z.

(** Every sequence of steps is such a run. *)
Lemma steps_run mgr x y : rtc (server_step mgr) x y ↔ ∃ cs, server_run mgr x cs y.
Proof.
  split.
  - induction 1 as [x|x y z [cs Hxy] _ [cs' IH]]; [by exists []; constructor|].
    exists (cs ++ cs'). by econstructor.
  - intros [cs Hrun]. induction Hrun as [|x cs y cs' z Hxy _ IH]; [done|].
    eapply rtc_l; [|done]. by exists cs.
Qed.

(** What a step does to the sessions, and that the server stays up. *)
Lemma server_step_inv mgr w st w' st' :
  server_step mgr (w, st) (w', st') → server_up mgr st w → server_up mgr st' w' ∧
  ((∀ j, ∃ c, session_change mgr (w_now w) c (store_view st !! j) (store_view st' !! j)) ∨
   ∃ id u c, store_view st !! id = None ∧
     store_view st' = <[id := login_session mgr (w_now w) c id u]> (store_view st)).
Proof.
  intros [cs Hstep]. revert Hstep.
  inversion 1 as [u id r0 st1 w2 w1 out st2 w3 Hid Hfresh Hroom Hrun|id h r0 st1 w1 rc r st2 w2 Hrun
    |id h r0 st1 w1 rc r st2 w2 Hrun|id r0 st1 w1 [rc r] st2 w2 Hrun|st1 w1 w2 Hq Hclk]; subst; intros Hup.
  - destruct Hup as [Hw Hm Hc Hi Hs].
    destruct (initiate_refines 0 mgr u id None r0 st w w1 Hw Hm Hc Hi Hroom Hs Hid Hfresh)
      as (st3 & Hrun' & Hi' & Hv' & Hs'). rewrite Hrun in Hrun'. simplify_eq.
    destruct (new_id_world _ _ _ _ _ Hid) as (Ha & Hn & Ht & _). destruct Hw as [Hwa Hwt].
    split; [|right; eauto 10]. split; try done.
    + apply quiet_told. split; cbn; congruence.
    + unfold told. destruct (cfg_on_event mgr); cbn; by rewrite Hn.
  - destruct (register_run _ _ _ _ _ _ _ _ _ _ Hup Hrun) as (? & ? & ? & Hspec & _ & _ & <- & _ & Hup').
    split; [done|left]. intros j. eexists. by eapply register_change.
  - destruct (refresh_run _ _ _ _ _ _ _ _ _ _ Hup Hrun) as (? & ? & ? & Hspec & _ & _ & <- & _ & Hup').
    split; [done|left]. intros j. eexists. by eapply refresh_change.
  - destruct (close_run _ _ _ _ _ _ _ _ _ Hup Hrun) as (? & ? & ? & Hspec & _ & _ & <- & _ & Hup').
    split; [done|left]. intros j. exists "". by eapply close_change.
  - destruct Hup. split; [by split|left]. intros j. exists "". constructor.
Qed.

(** A session that a step leaves was there before, or its challenge was drawn
    by the step. *)
Lemma register_drawn mgr now c id header m r m' e j s :
  register_spec mgr now c id header m = (r, m', e) → m' !! j = Some s →
  m !! j = Some s ∨ status_code r = 200 ∧ s_challenge s = Some c.
Proof.
  intros Hspec. destruct (register_spec_cases mgr now c id header m)
    as [(i & s1 & t & p & _ & _ & _ & _ & _ & E)|(r' & m2 & E & _ & [->|(i & _ & _ & ->)])];
    rewrite E in Hspec; simplify_eq; [|by left|intros [_ ?]%lookup_delete_Some; by left].
  intros [[_ <-]|[_ ?]]%lookup_insert_Some; [right|by left].
  split; [done|]. by destruct (renewed_fields mgr now c (bound_to p s1)) as (_ & _ & _ & _ & _ & _ & ->).
Qed.

Lemma refresh_drawn mgr now c id header m r m' e j s :
  refresh_spec mgr now c id header m = (r, m', e) → m' !! j = Some s →
  m !! j = Some s ∨ status_code r = 200 ∧ s_challenge s = Some c.
Proof.
  intros Hspec. destruct (refresh_spec_cases mgr now c id header m)
    as [(i & s1 & t & p & _ & _ & _ & _ & _ & E)|(r' & m2 & E & _ & [->|(i & _ & _ & ->)])];
    rewrite E in Hspec; simplify_eq; [|by left|intros [_ ?]%lookup_delete_Some; by left].
  intros [[_ <-]|[_ ?]]%lookup_insert_Some; [right|by left].
  split; [done|]. by destruct (renewed_fields mgr now c s1) as (_ & _ & _ & _ & _ & _ & ->).
Qed.

Lemma close_kept mgr now id m r m' e j s :
  close_spec mgr now id m = (r, m', e) → m' !! j = Some s → m !! j = Some s.
Proof.
  unfold close_spec. destruct (nonempty id) as [i|]; [|by intros; simplify_eq].
  destruct (lookup_live now i m); intros; simplify_eq; by eapply lookup_delete_Some.
Qed.

Lemma draws_challenge mgr w st cs w' st' j s :
  server_draws mgr (w, st) cs (w', st') → server_up mgr st w → store_view st' !! j = Some s →
  store_view st !! j = Some s ∨ ∃ c, c ∈ cs ∧ s_challenge s = Some c.
Proof.
  inversion 1 as [u id r0 st1 w2 w1 out st2 w3 Hid Hfresh Hroom Hrun|id h r0 st1 w1 rc r st2 w2 Hrun
    |id h r0 st1 w1 rc r st2 w2 Hrun|id r0 st1 w1 [rc r] st2 w2 Hrun|st1 w1 w2 Hq Hclk]; subst; intros Hup Hj.
  - destruct Hup as [Hw Hm Hc Hi Hs].
    destruct (initiate_refines 0 mgr u id None r0 st w w1 Hw Hm Hc Hi Hroom Hs Hid Hfresh)
      as (st3 & Hrun' & _ & Hv & _). rewrite Hrun in Hrun'. simplify_eq. rewrite Hv in Hj.
    apply lookup_insert_Some in Hj as [[_ <-]|[_ ?]]; [right|by left].
    exists (challenge_of w1). split; [by left|]. by apply login_session_ok.
  - destruct (register_run _ _ _ _ _ _ _ _ _ _ Hup Hrun) as (? & ? & ? & Hspec & _ & -> & <- & _).
    destruct (register_drawn _ _ _ _ _ _ _ _ _ _ _ Hspec Hj) as [?|[E ?]]; [by left|right].
    exists (challenge_of w). split; [|done]. cbn. rewrite E. by left.
  - destruct (refresh_run _ _ _ _ _ _ _ _ _ _ Hup Hrun) as (? & ? & ? & Hspec & _ & -> & <- & _).
    destruct (refresh_drawn _ _ _ _ _ _ _ _ _ _ _ Hspec Hj) as [?|[E ?]]; [by left|right].
    exists (challenge_of w). split; [|done]. cbn. rewrite E. by left.
  - destruct (close_run _ _ _ _ _ _ _ _ _ Hup Hrun) as (? & ? & ? & Hspec & _ & _ & <- & _).
    left. by eapply close_kept.
  - by left.
Qed.

(** *** Every request returns *)

Lemma after_now mgr w e : w_now (after mgr w e) = w_now w.
Proof. destruct e; [|done]. cbn. unfold told. by destruct (cfg_on_event mgr). Qed.

Lemma told_up mgr (st : T) e w : server_up mgr st w → server_up mgr st (told mgr e w).
Proof. intros []. unfold told. destruct (cfg_on_event mgr); by split. Qed.

Lemma moved_up mgr (st : T) w w' :
  server_up mgr st w → w_alloc w' = w_alloc w → w_now w' = w_now w → w_ticks w' = w_ticks w →
  server_up mgr st w'.
Proof. intros [[Ha Ht] ? Hc ??] Ha' Hn' Ht'. split; try done; [split; congruence|by rewrite Hn']. Qed.

(** A login, whether an identifier could be drawn and stored or not. *)
Lemma initiate_total `{!UUIDv7Laws} mgr u out n (st : T) w :
  server_up mgr st w → store_room (S n) st →
  ∃ rc out' r st' w',
    opendbsc_manager_initiate (Some mgr) (Some u) out (Some response_default) st w
      = Ret (rc, out', Some r, st') w' ∧
    (rc = 0 → ∃ s id, out' = (λ _, s) <$> out ∧ s_id s = Some id) ∧
    server_up mgr st' w' ∧ (store_room n st' ∨ store_room (S n) st') ∧ w_now w' = w_now w.
Proof.
  intros Hup Hroom. pose proof Hup as [Hw Hm Hc Hi Hs].
  destruct (wp_elim _ _ _ (session_new_id_bounds (CBuf 37 None) w)) as ([rc o] & w1 & Hid & Hcases).
  destruct (new_id_world _ _ _ _ _ Hid) as (Ha & Hn & Ht & _).
  destruct Hcases as [[-> ->]|(-> & _ & id & -> & _)].
  { exists (-1), out, response_default, st, w1.
    split_and!; [|done|by eapply moved_up|by right|done].
    unfold opendbsc_manager_initiate. by run_by ltac:(apply Hid). }
  set (s := login_session mgr (w_now w) (challenge_of w1) id u).
  destruct (login_session_ok mgr (w_now w) (challenge_of w1) id u Hc) as (Hsto & Hsid & Hsc).
  fold s in Hsto, Hsid, Hsc.
  assert (quiet (drawn w1)) as Hd by (destruct Hw; split; cbn; congruence).
  destruct (store_create n st s id (drawn w1)) as (rc & st' & Hcreate & Hi' & Hroom' & Hv); [done..|].
  pose proof (initiate_run mgr u id out response_default st w w1 rc st' Hw Hm Hc Hid Hcreate) as Hrun.
  assert (sessions_ok (store_view st')) as Hs'.
  { destruct Hv as [[_ ->]|(_ & -> & _)]; [|done]. apply sessions_ok_insert; [done|done|by rewrite Hsc]. }
  assert (server_up mgr st' (drawn w1)) as Hup' by (split; [done..|cbn; by rewrite Hn|done|done]).
  destruct (rc =? 0); do 5 eexists; (split; [exact Hrun|]).
  - split_and!; [intros _; cbn; by exists s, id|by apply told_up|by left|].
    unfold told. by destruct (cfg_on_event mgr).
  - by split_and!; [| |left|].
Qed.

End properties.
