(* ===== verification/Setup.v ===== *)
(** The theorems about what surrounds a request: the configuration that
    [opendbsc_manager_init] leaves, the challenges, the cookies, and what
    happens when memory runs out, with the concrete server the witnesses of
    the manager run on. *)

From S2P Require Export ManagerProps RefLibs.
From stdpp Require Import pretty.
From stdpp Require Import options.
#[local] Open Scope Z_scope.

(** ** A concrete server *)

Definition demo_config : OpenDBSC_ManagerConfig :=
  ManagerConfig true None None (Some "example.com") true None 0 600 None true.

(** The configuration [opendbsc_manager_init] is to leave. *)
Definition configured (cfg : OpenDBSC_ManagerConfig) : OpenDBSC_Manager :=
  ManagerConfig true
    (or_default (cfg_cookie_name cfg) "session_id") (or_default (cfg_cookie_path cfg) "/")
    (cfg_cookie_domain cfg) (cfg_secure cfg) (or_default (cfg_same_site cfg) "Lax")
    (if cfg_cookie_ttl_seconds cfg =? 0 then 3600 else cfg_cookie_ttl_seconds cfg)
    (cfg_session_ttl_seconds cfg) (cfg_authorization cfg) (cfg_on_event cfg).

Definition demo_manager : OpenDBSC_Manager := configured demo_config.

(** One session waits for its registration, for the challenge "c1"; another is
    bound to [ref_jwk], for the challenge "c2". *)
Definition demo_active : OpenDBSC_Session :=
  Session (Some "a") (Some "alice") OPENDBSC_SESSION_STATE_ACTIVE None None (Some "c1") 0 false 100.
Definition demo_bound : OpenDBSC_Session :=
  Session (Some "b") (Some "bob") OPENDBSC_SESSION_STATE_BOUND (Some (json_print ref_jwk))
    (Some "ES256") (Some "c2") 1500 true 100.
Definition demo_unsigned : OpenDBSC_Session :=
  Session (Some "u") (Some "ursula") OPENDBSC_SESSION_STATE_BOUND None
    (Some "none") (Some "c3") 1500 true 100.
Definition demo_store : OpenDBSC_MemoryStore :=
  MemoryStore [demo_active; demo_bound; demo_unsigned] 8 false.
Definition demo_world : world :=
  World [] 1000 [] [Some (replicate 32 171); Some (replicate 32 205)] [Some (5, 0)] [].

Definition demo_refresh_token : string :=
  ref_token (JObject [("alg", JString "ES256"); ("typ", JString "dbsc+jwt")])
    (JObject [("jti", JString "c2")]) ref_key.

Lemma demo_wf : ms_wf demo_store.
Proof.
  apply ms_wf_intro; [|repeat constructor; done|simpl; lia|simpl; lia].
  apply (bool_decide_unpack _). vm_compute. exact I.
Qed.

Lemma demo_up : server_up demo_manager demo_store demo_world.
Proof.
  split; [done|by split|by split|apply demo_wf|].
  apply (map_Forall_lookup_2 (M := gmap string)). intros i s Hs.
  apply view_of_lookup in Hs as [Hs _]; [|apply demo_wf].
  change (s ∈ [demo_active; demo_bound; demo_unsigned]) in Hs.
  do 3 (apply elem_of_cons in Hs as [->|Hs];
    [split; [split|]; cbn; unfold time_ok; first [done|lia]|]). by apply not_elem_of_nil in Hs.
Qed.

(** ** Helpers *)

(** The value of a hexadecimal digit. *)
Definition nibble_value (c : ascii) : Z :=
  Z.of_nat (default 0%nat (String.index 0 (String c "") "0123456789abcdef")).

Lemma nibble_value_nibble n : 0 ≤ n < 16 → nibble_value (hex_nibble n) = n.
Proof.
  intros Hn. assert (n ∈ seqZ 0 16) as Hin by (apply elem_of_seqZ; lia). revert Hin. clear Hn.
  revert n. apply (Forall_forall (λ n, nibble_value (hex_nibble n) = n)). by repeat constructor.
Qed.

Lemma fmt_02x_inj a b s t :
  0 ≤ a < 256 → 0 ≤ b < 256 →
  list_of_string (fmt_02x a) ++ s = list_of_string (fmt_02x b) ++ t → a = b ∧ s = t.
Proof.
  intros Ha Hb E. change (hex_nibble (a / 16) :: hex_nibble (a mod 16) :: s =
    hex_nibble (b / 16) :: hex_nibble (b mod 16) :: t) in E. injection E as Eh El Es. split; [|done].
  apply (f_equal nibble_value) in Eh, El.
  rewrite !nibble_value_nibble in Eh, El by lia_div. lia_div.
Qed.

(** Different bytes give different texts. *)
Lemma hex_text_inj l1 l2 :
  Forall (λ b, 0 ≤ b < 256) l1 → Forall (λ b, 0 ≤ b < 256) l2 →
  hex_text l1 = hex_text l2 → l1 = l2.
Proof.
  intros H1 H2 E. apply (f_equal list_of_string) in E. unfold hex_text in E.
  rewrite !list_of_string_of_list in E. revert l2 H2 E.
  induction H1 as [|a l1 Ha _ IH]; intros l2 H2 E.
  { destruct H2; [done|]. by cbn in E. }
  destruct H2 as [|b l2 Hb H2]; [by cbn in E|].
  apply fmt_02x_inj in E as [-> E]; [|done..]. f_equal. by apply IH.
Qed.

Lemma hex_text_chars l :
  Forall (λ b, 0 ≤ b < 256) l →
  Forall (λ c, is_Some (String.index 0 (String c "") "0123456789abcdef")) (list_of_string (hex_text l)).
Proof.
  intros Hl. unfold hex_text. rewrite list_of_string_of_list.
  assert (∀ n, 0 ≤ n < 16 → is_Some (String.index 0 (String (hex_nibble n) "") "0123456789abcdef")) as Hn.
  { intros n Hn. assert (n ∈ seqZ 0 16) as Hin by (apply elem_of_seqZ; lia). revert Hin. clear Hn.
    revert n. apply (Forall_forall (λ n, is_Some (String.index 0 (String (hex_nibble n) "") _))).
    repeat constructor; vm_compute; eauto. }
  induction Hl as [|b l Hb _ IH]; [by constructor|]. cbn.
  constructor; [|constructor; [|done]]; apply Hn; lia_div.
Qed.

(** ** Properties *)

(** Configuration.  When no allocation fails, [opendbsc_manager_init]
    copies the configuration with the documented defaults (cookie "session_id"
    on "/", "Lax", one hour, whatever is missing), which is one the requests
    can serve; without a store it returns -1 and touches nothing, and
    [opendbsc_manager_destroy] leaves a manager that has no store. *)
Theorem manager_init_exact m0 cfg w :
  no_oom w → cfg_store cfg = true →
  opendbsc_manager_init (Some m0) (Some cfg) w = Ret (0, Some (configured cfg)) w ∧
  manager_ready (configured cfg) ∧ cfg_cookie_ttl_seconds (configured cfg) ≠ 0 ∧
  (∀ name path domain secure ss ct st auth ev,
     opendbsc_manager_init (Some m0) (Some (ManagerConfig false name path domain secure ss ct st auth ev)) w
       = Ret (-1, Some m0) w) ∧
  (∀ m, opendbsc_manager_destroy (Some m) = Some manager_zero).
Proof.
  intros Hw Hs. assert (∀ s, copy_string s w = Ret s w) as Hcopy.
  { intros [s|]; [|done]. by apply strdup_run. }
  split_and!; [|split| |done|done].
  - unfold opendbsc_manager_init. rewrite Hs. cbn [negb].
    do 5 (erewrite bind_run by apply Hcopy). done.
  - done.
  - cbn. by destruct (cfg_cookie_name cfg).
  - cbn. by destruct (cfg_cookie_path cfg).
  - cbn. by destruct (cfg_same_site cfg).
  - cbn. destruct (Z.eqb_spec (cfg_cookie_ttl_seconds cfg) 0); done.
Qed.

Lemma manager_init_exact_witness :
  no_oom demo_world ∧ cfg_store demo_config = true ∧
  opendbsc_manager_init (Some manager_zero) (Some demo_config) demo_world
    = Ret (0, Some demo_manager) demo_world.
Proof.
  split; [reflexivity|]. split; [reflexivity|].
  exact (proj1 (manager_init_exact manager_zero demo_config demo_world eq_refl eq_refl)).
Defined.

(** The reply of an entropy source that works: the bytes it was asked for. *)
Definition entropy_ok (w : world) (bytes : list Z) : Prop :=
  head (w_entropy w) = Some (Some bytes) ∧ length bytes = 32%nat ∧
  Forall (λ b, 0 ≤ b < 256) bytes.

Lemma challenge_of_entropy w bytes : entropy_ok w bytes → challenge_of w = hex_text bytes.
Proof.
  intros (Hh & Hl & Hb). unfold challenge_of. destruct (w_entropy w) as [|[bs|] en]; try done.
  cbn in Hh. simplify_eq. rewrite take_app_le, take_ge by (rewrite ?length_fmap; lia).
  f_equal. rewrite <-(list_fmap_id bytes) at 2. apply list_fmap_ext.
  intros i b Hi. apply (Forall_lookup_1 _ _ _ _ Hb) in Hi. cbn. by apply Z.mod_small.
Qed.

(** C38. Challenges.  Whatever the environment does, generating a challenge
    never writes past its buffer of 65 bytes and never reads it before writing;
    it returns the text of the entropy, or NULL, only if an allocation failed.
    With a working entropy source the text is 64 lowercase hexadecimal digits,
    and two challenges are equal only if all their 32 random bytes are; when
    the source fails it is the constant "fallback-challenge". *)
Theorem manager_challenge_text w :
  wp opendbsc_manager_generate_challenge w (λ r w', env_step (drawn w) w' ∧
    (r = Some (challenge_of w) ∨ r = None ∧ ¬ no_oom w)) ∧
  (∀ bytes, entropy_ok w bytes →
     String.length (challenge_of w) = 64%nat ∧
     Forall (λ c, is_Some (String.index 0 (String c "") "0123456789abcdef"))
       (list_of_string (challenge_of w)) ∧
     (∀ w2 bytes2, entropy_ok w2 bytes2 → challenge_of w2 = challenge_of w → bytes2 = bytes)) ∧
  (head (w_entropy w) = Some None → challenge_of w = "fallback-challenge").
Proof.
  split_and!.
  - apply wp_generate_challenge; auto.
  - intros bytes Hw. rewrite (challenge_of_entropy w bytes Hw). destruct Hw as (_ & Hl & Hb).
    split_and!; [by rewrite hex_text_length, Hl|by apply hex_text_chars|].
    intros w2 bytes2 Hw2. rewrite (challenge_of_entropy w2 bytes2 Hw2).
    apply hex_text_inj; [apply Hw2|done].
  - unfold challenge_of. destruct (w_entropy w) as [|[]]; by intros ?; simplify_eq/=.
Qed.

Lemma manager_challenge_text_witness :
  entropy_ok demo_world (replicate 32 171) ∧ String.length (challenge_of demo_world) = 64%nat.
Proof.
  assert (entropy_ok demo_world (replicate 32 171)) as Hok by (split_and!; [done|done|repeat constructor; lia]).
  split; [exact Hok|].
  exact (proj1 (proj1 (proj2 (manager_challenge_text demo_world)) _ Hok)).
Defined.

(** Cookies.  For every configured manager and whatever the allocator does,
    the two passes of the Set-Cookie header agree: the text is written in full
    inside the buffer that was measured for it, and is the name, the value, the
    path and the age, then "HttpOnly", and "Secure", "Domain" and "SameSite"
    exactly as configured; NULL comes only from a failed allocation. *)
Theorem manager_cookie_exact mgr value max_age w :
  manager_ready mgr →
  wp (build_set_cookie_with_max_age mgr (Some value) max_age) w (λ r w', env_step w w' ∧
    (r = Some (cookie_text mgr value max_age) ∨ r = None ∧ ¬ no_oom w)).
Proof.
  intros Hm. apply (computes_wp _ _ _ _ (computes_cookie mgr value max_age Hm)); auto.
Qed.

Lemma manager_cookie_exact_witness :
  manager_ready demo_manager ∧
  wp (build_set_cookie_with_max_age demo_manager (Some "xyz") 60) demo_world (λ r w',
    env_step demo_world w' ∧
    (r = Some (cookie_text demo_manager "xyz" 60) ∨ r = None ∧ ¬ no_oom demo_world)) ∧
  cookie_text demo_manager "xyz" 60 =
    "session_id=xyz; Path=/; Max-Age=60; HttpOnly; Secure; Domain=example.com; SameSite=Lax".
Proof.
  assert (manager_ready demo_manager) as Hm by (split; done).
  split; [exact Hm|]. split; [|vm_compute; reflexivity].
  exact (manager_cookie_exact demo_manager "xyz" 60 demo_world Hm).
Defined.

(** A login that runs out of memory can break a later one.  The return
    codes of the setters are not looked at: when exactly the duplication of the
    challenge fails, the login still answers 200, but the stored session has no
    challenge, and the registration of that session then compares the proof
    with a NULL pointer, which is undefined behaviour. *)
Theorem manager_login_null_challenge :
  exists id resp ms w s,
    opendbsc_manager_initiate (Some demo_manager) (Some "carol") None (Some response_default)
      demo_store (World (replicate 3 true ++ [false]) 1000 []
                    [Some (replicate 10 171); Some (replicate 32 171)] [Some (5, 0)] [])
      = Ret (0, None, Some resp, ms) w ∧
    status_code resp = 200 ∧ ms_view ms !! id = Some s ∧ s_challenge s = None ∧
    opendbsc_manager_register (Some demo_manager) (Some id) (Some sample_token)
      (Some response_default) ms w = UB.
Proof.
  exists "1388abababababababababab000000000000". do 4 eexists.
  split; [vm_compute; reflexivity|]. split; [reflexivity|].
  split; [vm_compute; reflexivity|]. split; [reflexivity|]. vm_compute. reflexivity.
Qed.
