(* ===== verification/Requests.v ===== *)
(** The theorems about single requests to the manager: what each one answers
    and does to the sessions, over every lawful store, and what it takes to be
    granted.  Their witnesses run on the in-memory store with the small
    libraries of [RefLibs]. *)

From S2P Require Export Setup.
From stdpp Require Import pretty.
From stdpp Require Import options.
#[local] Open Scope Z_scope.

Section requests.
Context `{CJSON, OpenSSL, UUIDv7} {T : Type} `{StoreLaws T}.

(** ** Helpers *)

Lemma register_total mgr id header r0 st w :
  server_up mgr st w →
  ∃ r st' w', opendbsc_manager_register (Some mgr) id header (Some r0) st w = Ret (0, Some r, st') w'.
Proof.
  intros [Hw Hm Hc Hi Hs]. pose proof (register_refines mgr id header r0 st w Hw Hm Hc Hi Hs) as H5.
  unfold run_to in H5. destruct (register_spec _ _ _ _ _ _) as [[r m] e].
  destruct H5 as (st1 & Hrun & _). eauto.
Qed.

Lemma refresh_total mgr id header r0 st w :
  server_up mgr st w →
  ∃ r st' w', opendbsc_manager_refresh (Some mgr) id header (Some r0) st w = Ret (0, Some r, st') w'.
Proof.
  intros [Hw Hm Hc Hi Hs]. pose proof (refresh_refines mgr id header r0 st w Hw Hm Hc Hi Hs) as H5.
  unfold run_to in H5. destruct (refresh_spec _ _ _ _ _ _) as [[r m] e].
  destruct H5 as (st1 & Hrun & _). eauto.
Qed.

Lemma close_total mgr id r0 st w :
  server_up mgr st w →
  ∃ r st' w', opendbsc_manager_close (Some mgr) id (Some r0) st w = Ret (0, Some r, st') w'.
Proof.
  intros [Hw Hm Hc Hi Hs]. pose proof (close_refines mgr id r0 st w Hw Hm Hi Hs) as H5.
  unfold run_to in H5. destruct (close_spec _ _ _ _) as [[r m] e].
  destruct H5 as (st1 & Hrun & _). eauto.
Qed.

(** A session and a token with which a request is to be granted. *)
Record register_grantable mgr (st : T) (w : world) (id header : cstr) (i t : string)
    (s : OpenDBSC_Session) (p : OpenDBSC_ProofJWT) : Prop := {
  rg_id : id = Some i; rg_id_nonempty : i ≠ "";
  rg_header : header = Some t; rg_header_nonempty : t ≠ "";
  rg_stored : store_view st !! i = Some s;
  rg_live : expired (w_now w) s = false;
  rg_state : s_state s = OPENDBSC_SESSION_STATE_ACTIVE;
  rg_proof : proves_registration mgr s t p
}.

Record refresh_grantable (st : T) (w : world) (id header : cstr) (i t : string)
    (s : OpenDBSC_Session) (p : OpenDBSC_ProofJWT) : Prop := {
  fg_id : id = Some i; fg_id_nonempty : i ≠ "";
  fg_header : header = Some t; fg_header_nonempty : t ≠ "";
  fg_stored : store_view st !! i = Some s;
  fg_live : expired (w_now w) s = false;
  fg_state : s_state s = OPENDBSC_SESSION_STATE_BOUND;
  fg_proof : proves_refresh s t p
}.

Lemma nonempty_eq s : s ≠ "" → nonempty (Some s) = Some s.
Proof. by destruct s. Qed.

Lemma grantable_register mgr st w id header i t s p :
  register_grantable mgr st w id header i t s p →
  ∃ m e, register_spec mgr (w_now w) (challenge_of w) id header (store_view st)
    = (granted mgr (renewed mgr (w_now w) (challenge_of w) (bound_to p s)), m, e).
Proof.
  intros [-> Hi -> Ht Hs Hl Hst Hp]. unfold register_spec. rewrite !nonempty_eq by done.
  rewrite (proj2 (lookup_live_Some _ _ _ _) (conj Hs Hl)).
  rewrite decide_False by (rewrite Hst; auto). cbn [mbind option_bind].
  rewrite (proves_registration_proof _ _ _ _ Hp). eauto.
Qed.

Lemma grantable_refresh mgr st w id header i t s p :
  refresh_grantable st w id header i t s p →
  ∃ m e, refresh_spec mgr (w_now w) (challenge_of w) id header (store_view st)
    = (granted mgr (renewed mgr (w_now w) (challenge_of w) s), m, e).
Proof.
  intros [-> Hi -> Ht Hs Hl Hst Hp]. unfold refresh_spec. rewrite !nonempty_eq by done.
  rewrite (proj2 (lookup_live_Some _ _ _ _) (conj Hs Hl)).
  rewrite decide_False by (rewrite Hst; auto). cbn [mbind option_bind].
  rewrite (proves_refresh_proof _ _ _ Hp). eauto.
Qed.

(** A request that is granted, read off its run. *)
Lemma register_granted mgr id header r0 st w rc r st' w' :
  server_up mgr st w →
  opendbsc_manager_register (Some mgr) id header (Some r0) st w = Ret (rc, Some r, st') w' →
  status_code r = 200 →
  ∃ i t s p, register_grantable mgr st w id header i t s p ∧
    let s' := renewed mgr (w_now w) (challenge_of w) (bound_to p s) in
    r = granted mgr s' ∧ store_view st' = <[i := s']> (store_view st).
Proof.
  intros Hup Hrun H200. destruct (register_run _ _ _ _ _ _ _ _ _ _ Hup Hrun)
    as (r1 & m & e & Hspec & _ & [= <-] & Hv & _).
  destruct (register_spec_cases mgr (w_now w) (challenge_of w) id header (store_view st))
    as [(i & s & t & p & [-> ?]%nonempty_Some & [-> ?]%nonempty_Some &
         [Hs Hlive]%lookup_live_Some & Hst & Hp%registration_proof_proves & E)
       |(r' & m' & E & Hcode & _)]; rewrite E in Hspec; simplify_eq; [|lia].
  exists i, t, s, p. split; [by split|by split_and!].
Qed.

Lemma refresh_granted mgr id header r0 st w rc r st' w' :
  server_up mgr st w →
  opendbsc_manager_refresh (Some mgr) id header (Some r0) st w = Ret (rc, Some r, st') w' →
  status_code r = 200 →
  ∃ i t s p, refresh_grantable st w id header i t s p ∧
    let s' := renewed mgr (w_now w) (challenge_of w) s in
    r = granted mgr s' ∧ store_view st' = <[i := s']> (store_view st).
Proof.
  intros Hup Hrun H200. destruct (refresh_run _ _ _ _ _ _ _ _ _ _ Hup Hrun)
    as (r1 & m & e & Hspec & _ & [= <-] & Hv & _).
  destruct (refresh_spec_cases mgr (w_now w) (challenge_of w) id header (store_view st))
    as [(i & s & t & p & [-> ?]%nonempty_Some & [-> ?]%nonempty_Some &
         [Hs Hlive]%lookup_live_Some & Hst & Hp%refresh_proof_proves & E)
       |(r' & m' & E & Hcode & _)]; rewrite E in Hspec; simplify_eq; [|lia].
  exists i, t, s, p. split; [by split|by split_and!].
Qed.

(** Whatever a request ends in, it ends well. *)
Lemma total_wp (m : C (Z * option OpenDBSC_ManagerResponse * T)) w
    (Q : OpenDBSC_ManagerResponse → T → world → Prop) :
  (∃ r st' w', m w = Ret (0, Some r, st') w') →
  (∀ r st' w', m w = Ret (0, Some r, st') w' → Q r st' w') →
  wp m w (λ '(rc, resp, st') w', rc = 0 ∧ ∃ r, resp = Some r ∧ Q r st' w').
Proof. intros (r & st' & w' & Hrun) HQ. eapply wp_run; [done|]. cbn. eauto. Qed.

(** Requests for a session that is not there. *)
Lemma gone_requests mgr i header r0 st w :
  server_up mgr st w → i ≠ "" → lookup_live (w_now w) i (store_view st) = None →
  (∃ st2, opendbsc_manager_register (Some mgr) (Some i) header (Some r0) st w
     = Ret (0, Some (message 401 "invalid session"), st2) w) ∧
  (∃ st2, opendbsc_manager_refresh (Some mgr) (Some i) header (Some r0) st w
     = Ret (0, Some (message 401 "invalid session"), st2) w) ∧
  (∃ st2, opendbsc_manager_close (Some mgr) (Some i) (Some r0) st w
     = Ret (0, Some (message 401 "invalid session"), st2) w).
Proof.
  intros Hup Hi Hgone. split_and!.
  - destruct (register_total mgr (Some i) header r0 st w Hup) as (r & st2 & w' & Hrun).
    destruct (register_run _ _ _ _ _ _ _ _ _ _ Hup Hrun) as (r1 & m & e & Hspec & _ & [= <-] & _ & -> & _).
    unfold register_spec in Hspec. rewrite nonempty_eq, Hgone in Hspec by done. simplify_eq. eauto.
  - destruct (refresh_total mgr (Some i) header r0 st w Hup) as (r & st2 & w' & Hrun).
    destruct (refresh_run _ _ _ _ _ _ _ _ _ _ Hup Hrun) as (r1 & m & e & Hspec & _ & [= <-] & _ & -> & _).
    unfold refresh_spec in Hspec. rewrite nonempty_eq, Hgone in Hspec by done. simplify_eq. eauto.
  - destruct (close_total mgr (Some i) r0 st w Hup) as (r & st2 & w' & Hrun).
    destruct (close_run _ _ _ _ _ _ _ _ _ Hup Hrun) as (r1 & m & e & Hspec & _ & [= <-] & _ & -> & _).
    unfold close_spec in Hspec. rewrite nonempty_eq, Hgone in Hspec by done. simplify_eq. eauto.
Qed.

(** Loading a session. *)
Lemma get_session_run mgr i st w :
  server_up mgr st w →
  ∃ st', server_up mgr st' w ∧ (∀ n, store_room n st → store_room n st') ∧
    match lookup_live (w_now w) i (store_view st) with
    | Some s =>
        opendbsc_manager_get_session (Some mgr) (Some i) (Some None) st w
          = Ret (0, Some (Some s), st') w ∧ store_view st' = store_view st
    | None =>
        opendbsc_manager_get_session (Some mgr) (Some i) (Some None) st w
          = Ret (-1, Some None, st') w ∧ store_view st' = delete i (store_view st)
    end.
Proof.
  intros [Hw Hm Hc Hi Hs]. destruct (store_get st i w Hw Hi) as (st' & Hi' & Hroom & Hget).
  exists st'. unfold opendbsc_manager_get_session. erewrite bind_run by by apply need_store_run.
  destruct (lookup_live _ _ _) as [s|] eqn:Hl; destruct Hget as [-> Hv];
    (split; [split; try done; rewrite Hv; first [done|by apply sessions_ok_delete]|done]).
Qed.

(** ** Properties *)

(** C1. The requests implement their specification.  Over any lawful store, on
    a server that is up, register, refresh and close return 0 without
    undefined behaviour, answer the response of the abstract manager, leave the
    store representing exactly its map of sessions, report exactly its event
    to the application, draw from the entropy only when a proof was accepted,
    and leave the store able to serve the next request. *)
Theorem manager_requests_refine_spec mgr id header r0 st w :
  server_up mgr st w →
  run_to (after mgr w) w st
    (register_spec mgr (w_now w) (challenge_of w) id header (store_view st))
    (opendbsc_manager_register (Some mgr) id header (Some r0) st) ∧
  run_to (after mgr w) w st
    (refresh_spec mgr (w_now w) (challenge_of w) id header (store_view st))
    (opendbsc_manager_refresh (Some mgr) id header (Some r0) st) ∧
  run_to (λ e, match e with Some e => told mgr e w | None => w end) w st
    (close_spec mgr (w_now w) id (store_view st))
    (opendbsc_manager_close (Some mgr) id (Some r0) st).
Proof.
  intros []. split_and!; [by apply register_refines|by apply refresh_refines|by apply close_refines].
Qed.

(** C25. Login.  On a server that is up, with a store that has room and an
    identifier drawn that is not in use, [opendbsc_manager_initiate] answers
    200 with the cookie and the registration header of the documented form,
    stores an unbound session of that user with the challenge of the header,
    the clock as its creation time and its term by the configuration, copies
    it to the caller if asked, reports the login, and leaves every other
    session alone. *)
Theorem manager_login_creates_session mgr u id out r0 st w w1 :
  server_up mgr st w → store_room 1 st →
  opendbsc_session_new_id (Some (CBuf 37 None)) w = Ret (0, Some (CBuf 37 (Some id))) w1 →
  store_view st !! id = None →
  let s := login_session mgr (w_now w) (challenge_of w1) id u in
  ∃ st', opendbsc_manager_initiate (Some mgr) (Some u) out (Some r0) st w
      = Ret (0, (λ _, s) <$> out, Some (login_response mgr (challenge_of w1) id), st')
          (told mgr (login_event id u) (drawn w1)) ∧
    store_inv st' ∧ store_view st' = <[id := s]> (store_view st) ∧ sessions_ok (store_view st').
Proof. intros [] ???. by apply (initiate_refines 0). Qed.

(** C2. Registration binds only a proven key.  A registration answers 200
    exactly for a live session that is not bound yet and a token that proves
    it: of type "dbsc+jwt", for the session's current challenge and the
    configured authorization value, signed under the very key it carries (or
    unsigned without a key).  The stored session is then the same session
    bound to that key, with a new challenge and term, and every other session
    is as it was. *)
Theorem registration_binds_only_proven_key mgr id header r0 st w :
  server_up mgr st w →
  wp (opendbsc_manager_register (Some mgr) id header (Some r0) st) w (λ '(rc, resp, st') _,
    rc = 0 ∧ ∃ r, resp = Some r ∧
    (status_code r = 200 →
      ∃ i t s p, register_grantable mgr st w id header i t s p ∧
        store_view st' =
          <[i := renewed mgr (w_now w) (challenge_of w) (bound_to p s)]> (store_view st)) ∧
    (∀ i t s p, register_grantable mgr st w id header i t s p → status_code r = 200)).
Proof.
  intros Hup. apply (total_wp _ w (λ r st' _, (status_code r = 200 → _) ∧ _)); [by apply register_total|].
  intros r st' w' Hrun. split.
  - intros H200. destruct (register_granted _ _ _ _ _ _ _ _ _ _ Hup Hrun H200)
      as (i & t & s & p & ? & _ & ?). by exists i, t, s, p.
  - intros i t s p Hg.
    destruct (register_run _ _ _ _ _ _ _ _ _ _ Hup Hrun) as (r1 & m & e & Hspec & _ & [= <-] & _).
    destruct (grantable_register mgr st w id header i t s p Hg) as (m' & e' & E).
    rewrite E in Hspec. by simplify_eq.
Qed.

(** C3. Refresh needs the bound key.  A refresh answers 200 exactly for a live
    bound session and a token of type "dbsc+jwt" without a key of its own that
    is signed, with ES256 or RS256, under the key the session is bound to, for
    its current challenge.  The stored session then only has a new challenge
    and a new term: its key, user and identifier stay, and so does every other
    session. *)
Theorem refresh_needs_bound_key mgr id header r0 st w :
  server_up mgr st w →
  wp (opendbsc_manager_refresh (Some mgr) id header (Some r0) st) w (λ '(rc, resp, st') _,
    rc = 0 ∧ ∃ r, resp = Some r ∧
    (status_code r = 200 →
      ∃ i t s p s', refresh_grantable st w id header i t s p ∧
        store_view st' = <[i := s']> (store_view st) ∧
        s' = renewed mgr (w_now w) (challenge_of w) s ∧
        s_public_key s' = s_public_key s ∧ s_user_id s' = s_user_id s ∧ s_id s' = s_id s) ∧
    (∀ i t s p, refresh_grantable st w id header i t s p → status_code r = 200)).
Proof.
  intros Hup. apply (total_wp _ w (λ r st' _, (status_code r = 200 → _) ∧ _)); [by apply refresh_total|].
  intros r st' w' Hrun. split.
  - intros H200. destruct (refresh_granted _ _ _ _ _ _ _ _ _ _ Hup Hrun H200)
      as (i & t & s & p & ? & _ & ?).
    destruct (renewed_fields mgr (w_now w) (challenge_of w) s) as (? & _ & ? & _ & ? & _).
    exists i, t, s, p, (renewed mgr (w_now w) (challenge_of w) s). by split_and!.
  - intros i t s p Hg.
    destruct (refresh_run _ _ _ _ _ _ _ _ _ _ Hup Hrun) as (r1 & m & e & Hspec & _ & [= <-] & _).
    destruct (grantable_refresh mgr st w id header i t s p Hg) as (m' & e' & E).
    rewrite E in Hspec. by simplify_eq.
Qed.

(** What a refusal leaves: the sessions, except an expired one that was asked
    for, and the environment. *)
Definition refusal (id : cstr) (st : T) (w : world) (r : OpenDBSC_ManagerResponse) (st' : T)
    (w' : world) : Prop :=
  (status_code r = 400 ∨ status_code r = 401 ∨ status_code r = 403) ∧ w' = w ∧
  set_cookie r = None ∧
  (store_view st' = store_view st ∨
   ∃ i, id = Some i ∧ lookup_live (w_now w) i (store_view st) = None ∧
     store_view st' = delete i (store_view st)).

(** C23. Refused requests change nothing.  A register, refresh or close that
    does not answer 200 answers 400, 401 or 403 and no cookie, draws no
    challenge, reports no event and leaves every session as it was; at most
    the expired session that it asked for is dropped. *)
Theorem refused_requests_change_nothing mgr id header r0 st w :
  server_up mgr st w →
  wp (opendbsc_manager_register (Some mgr) id header (Some r0) st) w (λ '(rc, resp, st') w',
    rc = 0 ∧ ∃ r, resp = Some r ∧ (status_code r ≠ 200 → refusal id st w r st' w')) ∧
  wp (opendbsc_manager_refresh (Some mgr) id header (Some r0) st) w (λ '(rc, resp, st') w',
    rc = 0 ∧ ∃ r, resp = Some r ∧ (status_code r ≠ 200 → refusal id st w r st' w')) ∧
  wp (opendbsc_manager_close (Some mgr) id (Some r0) st) w (λ '(rc, resp, st') w',
    rc = 0 ∧ ∃ r, resp = Some r ∧ (status_code r ≠ 200 → refusal id st w r st' w')).
Proof.
  intros Hup. assert (∀ i, nonempty id = Some i → id = Some i) as Hne by (by intros i [-> _]%nonempty_Some).
  split_and!;
    (apply (total_wp _ w (λ r st' w', status_code r ≠ 200 → refusal id st w r st' w'));
      [first [by apply register_total|by apply refresh_total|by apply close_total]|];
     intros r st' w' Hrun Hcode).
  - destruct (register_run _ _ _ _ _ _ _ _ _ _ Hup Hrun) as (r1 & m & e & Hspec & _ & [= <-] & Hv & -> & _).
    unfold register_spec in Hspec. unfold refusal. clear Hrun.
    repeat case_match; simplify_eq; cbn; naive_solver.
  - destruct (refresh_run _ _ _ _ _ _ _ _ _ _ Hup Hrun) as (r1 & m & e & Hspec & _ & [= <-] & Hv & -> & _).
    unfold refresh_spec in Hspec. unfold refusal. clear Hrun.
    repeat case_match; simplify_eq; cbn; naive_solver.
  - destruct (close_run _ _ _ _ _ _ _ _ _ Hup Hrun) as (r1 & m & e & Hspec & _ & [= <-] & Hv & -> & _).
    unfold close_spec in Hspec. unfold refusal. clear Hrun.
    repeat case_match; simplify_eq; cbn; naive_solver.
Qed.

(** Unsigned sessions are never refreshed.  Registration accepts an
    unsigned proof without a key; the session so bound has none, and every
    refresh of it, with any token, is answered by a challenge and changes
    nothing. *)
Theorem unsigned_session_never_refreshed mgr i header r0 st w s :
  server_up mgr st w → i ≠ "" → lookup_live (w_now w) i (store_view st) = Some s →
  s_state s = OPENDBSC_SESSION_STATE_BOUND → s_public_key s = None →
  wp (opendbsc_manager_refresh (Some mgr) (Some i) header (Some r0) st) w (λ '(rc, resp, st') w',
    rc = 0 ∧ resp = Some (challenged s) ∧ status_code (challenged s) = 403 ∧
    store_view st' = store_view st ∧ w' = w).
Proof.
  intros Hup Hi Hs Hst Hk.
  destruct (refresh_total mgr (Some i) header r0 st w Hup) as (r & st' & w' & Hrun).
  eapply wp_run; [done|]. cbn.
  destruct (refresh_run _ _ _ _ _ _ _ _ _ _ Hup Hrun) as (r1 & m & e & Hspec & _ & [= <-] & Hv & -> & _).
  unfold refresh_spec in Hspec. rewrite nonempty_eq, Hs, decide_False in Hspec by (rewrite ?Hst; auto).
  assert ((t ← nonempty header; refresh_proof s t) = None) as E.
  { destruct (nonempty header); [|done]. cbn. unfold refresh_proof. by rewrite Hk. }
  rewrite E in Hspec. by simplify_eq.
Qed.

(** C24. Closing ends the session.  Closing a live session answers 200 with a
    cookie that expires at once and the document that tells the browser not to
    continue, reports the user and the session to the application, and removes
    that session and no other; afterwards, at any time, it cannot be loaded,
    registered, refreshed or closed: such requests are answered 401. *)
Theorem close_ends_session mgr i r0 st w s :
  server_up mgr st w → i ≠ "" → lookup_live (w_now w) i (store_view st) = Some s →
  wp (opendbsc_manager_close (Some mgr) (Some i) (Some r0) st) w (λ '(rc, resp, st') w',
    rc = 0 ∧
    resp = Some (ManagerResponse 200 (Some (cookie_text mgr i 0)) None None
                   (Some (cJSON_Print (instruction_document closing_instruction)))) ∧
    w' = told mgr (Event "CLOSE" (s_user_id s) (Some i) (Some "session closed")) w ∧
    store_view st' = delete i (store_view st) ∧
    (∀ w2 header, server_up mgr st' w2 →
      (∃ st2, opendbsc_manager_get_session (Some mgr) (Some i) (Some None) st' w2
         = Ret (-1, Some None, st2) w2) ∧
      (∃ st2, opendbsc_manager_register (Some mgr) (Some i) header (Some r0) st' w2
         = Ret (0, Some (message 401 "invalid session"), st2) w2) ∧
      (∃ st2, opendbsc_manager_refresh (Some mgr) (Some i) header (Some r0) st' w2
         = Ret (0, Some (message 401 "invalid session"), st2) w2) ∧
      (∃ st2, opendbsc_manager_close (Some mgr) (Some i) (Some r0) st' w2
         = Ret (0, Some (message 401 "invalid session"), st2) w2))).
Proof.
  intros Hup Hi Hs. destruct (close_total mgr (Some i) r0 st w Hup) as (r & st' & w' & Hrun).
  eapply wp_run; [done|]. cbn.
  destruct (close_run _ _ _ _ _ _ _ _ _ Hup Hrun) as (r1 & m & e & Hspec & _ & [= <-] & Hv & -> & _).
  unfold close_spec in Hspec. rewrite nonempty_eq, Hs in Hspec by done.
  assert (store_view st' = delete i (store_view st)) as Hgone' by congruence. simplify_eq.
  split_and!; try done. intros w2 header Hup2.
  assert (lookup_live (w_now w2) i (store_view st') = None) as Hgone.
  { apply lookup_live_None. intros s'. by rewrite Hgone', lookup_delete_eq. }
  split; [|by apply (gone_requests mgr i header r0)].
  destruct (get_session_run mgr i st' w2 Hup2) as (st2 & _ & _ & Hget). rewrite Hgone in Hget.
  destruct Hget. eauto.
Qed.


End requests.

(** ** Witnesses *)

Lemma manager_requests_refine_spec_witness :
  server_up demo_manager demo_store demo_world ∧
  status_code (fst (fst (register_spec demo_manager 1000 (challenge_of demo_world) (Some "a")
                           (Some sample_token) (ms_view demo_store)))) = 200 ∧
  run_to (after demo_manager demo_world) demo_world demo_store
    (register_spec demo_manager (w_now demo_world) (challenge_of demo_world) (Some "a")
       (Some sample_token) (store_view demo_store))
    (opendbsc_manager_register (Some demo_manager) (Some "a") (Some sample_token)
       (Some response_default) demo_store).
Proof.
  split; [exact demo_up|]. split; [vm_compute; reflexivity|].
  exact (proj1 (manager_requests_refine_spec demo_manager (Some "a") (Some sample_token)
                  response_default demo_store demo_world demo_up)).
Defined.

Definition demo_id : string := "1388abababababababababab000000000000".

Lemma manager_login_creates_session_witness :
  server_up demo_manager demo_store demo_world ∧
  ∃ w1 st', opendbsc_session_new_id (Some (CBuf 37 None)) demo_world = Ret (0, Some (CBuf 37 (Some demo_id))) w1 ∧
    opendbsc_manager_initiate (Some demo_manager) (Some "carol") None (Some response_default)
      demo_store demo_world
      = Ret (0, None, Some (login_response demo_manager (challenge_of w1) demo_id), st')
          (told demo_manager (login_event demo_id "carol") (drawn w1)).
Proof.
  split; [exact demo_up|]. eexists.
  destruct (manager_login_creates_session demo_manager "carol" demo_id None response_default
    demo_store demo_world (World [] 1000 [] [Some (replicate 32 205)] [] []) demo_up)
    as (st' & Hrun & _); [vm_compute; reflexivity..|].
  exists st'. split; [|exact Hrun]. vm_compute. reflexivity.
Defined.

Lemma registration_binds_only_proven_key_witness :
  server_up demo_manager demo_store demo_world ∧
  wp (opendbsc_manager_register (Some demo_manager) (Some "a") (Some sample_token)
    (Some response_default) demo_store) demo_world (λ '(rc, resp, _) _,
      rc = 0 ∧ ∃ r, resp = Some r ∧ (status_code r = 200 →
        ∃ i t s p, register_grantable demo_manager demo_store demo_world (Some "a")
                     (Some sample_token) i t s p)) ∧
  wp (opendbsc_manager_register (Some demo_manager) (Some "a") (Some sample_token)
    (Some response_default) demo_store) demo_world
    (λ '(_, resp, _) _, status_code <$> resp = Some 200).
Proof.
  split; [exact demo_up|]. split; [|vm_compute; reflexivity].
  refine (wp_mono _ _ _ _ (registration_binds_only_proven_key demo_manager (Some "a") (Some sample_token)
    response_default demo_store demo_world demo_up) _). intros [[rc resp] st'] w' (-> & r & -> & Hr & _).
  split; [reflexivity|]. exists r. split; [reflexivity|]. intros H200.
  destruct (Hr H200) as (i & t & s & p & Hg & _). exists i, t, s, p. exact Hg.
Defined.

Lemma refresh_needs_bound_key_witness :
  server_up demo_manager demo_store demo_world ∧
  wp (opendbsc_manager_refresh (Some demo_manager) (Some "b") (Some demo_refresh_token)
    (Some response_default) demo_store) demo_world (λ '(rc, resp, _) _,
      rc = 0 ∧ ∃ r, resp = Some r ∧ (status_code r = 200 →
        ∃ i t s p, refresh_grantable demo_store demo_world (Some "b")
                     (Some demo_refresh_token) i t s p)) ∧
  wp (opendbsc_manager_refresh (Some demo_manager) (Some "b") (Some demo_refresh_token)
    (Some response_default) demo_store) demo_world
    (λ '(_, resp, _) _, status_code <$> resp = Some 200).
Proof.
  split; [exact demo_up|]. split; [|vm_compute; reflexivity].
  refine (wp_mono _ _ _ _ (refresh_needs_bound_key demo_manager (Some "b") (Some demo_refresh_token)
    response_default demo_store demo_world demo_up) _). intros [[rc resp] st'] w' (-> & r & -> & Hr & _).
  split; [reflexivity|]. exists r. split; [reflexivity|]. intros H200.
  destruct (Hr H200) as (i & t & s & p & s' & Hg & _). exists i, t, s, p. exact Hg.
Defined.

Lemma refused_requests_change_nothing_witness :
  server_up demo_manager demo_store demo_world ∧
  wp (opendbsc_manager_refresh (Some demo_manager) (Some "b") (Some sample_token)
    (Some response_default) demo_store) demo_world (λ '(rc, resp, st') w', rc = 0 ∧
      ∃ r, resp = Some r ∧
        (status_code r ≠ 200 → refusal (Some "b") demo_store demo_world r st' w')) ∧
  wp (opendbsc_manager_refresh (Some demo_manager) (Some "b") (Some sample_token)
    (Some response_default) demo_store) demo_world
    (λ '(_, resp, _) _, status_code <$> resp = Some 403).
Proof.
  split; [exact demo_up|]. split; [|vm_compute; reflexivity].
  exact (proj1 (proj2 (refused_requests_change_nothing demo_manager (Some "b") (Some sample_token)
    response_default demo_store demo_world demo_up))).
Defined.

Lemma unsigned_session_never_refreshed_witness :
  server_up demo_manager demo_store demo_world ∧ s_public_key demo_unsigned = None ∧
  wp (opendbsc_manager_refresh (Some demo_manager) (Some "u") (Some sample_token)
    (Some response_default) demo_store) demo_world (λ '(rc, resp, st') w',
    rc = 0 ∧ resp = Some (challenged demo_unsigned) ∧ status_code (challenged demo_unsigned) = 403 ∧
    store_view st' = store_view demo_store ∧ w' = demo_world).
Proof.
  split; [exact demo_up|]. split; [reflexivity|].
  apply (unsigned_session_never_refreshed demo_manager "u" (Some sample_token) response_default
    demo_store demo_world demo_unsigned demo_up); [done|vm_compute; reflexivity|reflexivity..].
Defined.

Lemma close_ends_session_witness :
  server_up demo_manager demo_store demo_world ∧
  wp (opendbsc_manager_close (Some demo_manager) (Some "b") (Some response_default) demo_store)
    demo_world (λ '(rc, resp, st') _, rc = 0 ∧ store_view st' = delete "b" (store_view demo_store)).
Proof.
  split; [exact demo_up|].
  assert (lookup_live (w_now demo_world) "b" (store_view demo_store) = Some demo_bound) as Hb
    by (vm_compute; reflexivity).
  refine (wp_mono _ _ _ _ (close_ends_session demo_manager "b" response_default demo_store demo_world demo_bound
    demo_up ltac:(done) Hb) _). intros [[rc resp] st'] w' (-> & _ & _ & -> & _). split; reflexivity.
Defined.
