(* ===== verification/Lifecycle.v ===== *)
(** The theorems about the life of a server: what holds of every session
    however logins, registrations, refreshes, closings and time interleave,
    and how long a session lives. *)

From S2P Require Export Requests.
From stdpp Require Import options.
#[local] Open Scope Z_scope.

Section lifecycle.
Context `{CJSON, OpenSSL, UUIDv7} {T : Type} `{StoreLaws T}.
Implicit Types (mgr : OpenDBSC_Manager) (x y : world * T).

(** ** Where bound keys come from *)

(** On the way from [x] to [y] the server granted the registration of the
    session [id], stored then as a live session without a key, to a token that
    proves it; the token carried the key and the algorithm of [s]. *)
Definition registered_on mgr x y (id : string) (s : OpenDBSC_Session) : Prop :=
  ∃ w1 st1 w2 st2 t r0 r s0 p,
    rtc (server_step mgr) x (w1, st1) ∧
    opendbsc_manager_register (Some mgr) (Some id) (Some t) (Some r0) st1 w1
      = Ret (0, Some r, st2) w2 ∧ status_code r = 200 ∧
    rtc (server_step mgr) (w2, st2) y ∧
    lookup_live (w_now w1) id (store_view st1) = Some s0 ∧
    s_state s0 = OPENDBSC_SESSION_STATE_ACTIVE ∧ proves_registration mgr s0 t p ∧
    s_public_key s = p_jwk p ∧ s_algorithm s = p_algorithm p ∧
    s_id s = s_id s0 ∧ s_user_id s = s_user_id s0 ∧ s_created_at s = s_created_at s0.

(** A session is new, without a key; or it is bound, by a registration of the
    run. *)
Definition proven_session mgr x y (id : string) (s : OpenDBSC_Session) : Prop :=
  s_state s = OPENDBSC_SESSION_STATE_ACTIVE ∧ s_public_key s = None ∧ s_algorithm s = None ∨
  s_state s = OPENDBSC_SESSION_STATE_BOUND ∧ registered_on mgr x y id s.

(** What a refresh leaves as it is. *)
Definition same_identity (s s' : OpenDBSC_Session) : Prop :=
  s_state s' = s_state s ∧ s_public_key s' = s_public_key s ∧ s_algorithm s' = s_algorithm s ∧
  s_id s' = s_id s ∧ s_user_id s' = s_user_id s ∧ s_created_at s' = s_created_at s.

Lemma renewed_identity mgr now c s : same_identity s (renewed mgr now c s).
Proof.
  unfold same_identity.
  by destruct (renewed_fields mgr now c s) as (-> & -> & -> & -> & -> & -> & _).
Qed.

Lemma registered_extend mgr x y z id s s' :
  registered_on mgr x y id s → server_step mgr y z → same_identity s s' →
  registered_on mgr x z id s'.
Proof.
  intros (w1 & st1 & w2 & st2 & t & r0 & r & s0 & p & H5 & H6 & H7 & H8 & H9) Hyz
    (_ & E1 & E2 & E3 & E4 & E5).
  exists w1, st1, w2, st2, t, r0, r, s0, p. rewrite E1, E2, E3, E4, E5.
  split_and!; try apply H9; try done. by eapply rtc_r.
Qed.

Lemma proven_extend mgr x y z id s s' :
  proven_session mgr x y id s → server_step mgr y z → same_identity s s' →
  proven_session mgr x z id s'.
Proof.
  intros [(?&?&?)|[? Hreg]] Hyz Hs'; pose proof Hs' as (Hst & Hk & Ha & _).
  - left. split_and!; congruence.
  - right. split; [congruence|]. by eapply registered_extend.
Qed.

Lemma login_proven mgr x y now c id u : proven_session mgr x y id (login_session mgr now c id u).
Proof. left. unfold login_session, ttl_applied. by destruct (0 <? cfg_session_ttl_seconds mgr). Qed.

(** Where a step takes the sessions from that it leaves. *)
Lemma step_proven mgr x0 w st w' st' :
  rtc (server_step mgr) x0 (w, st) → server_step mgr (w, st) (w', st') → server_up mgr st w →
  (∀ id s, store_view st !! id = Some s → proven_session mgr x0 (w, st) id s) →
  ∀ id s, store_view st' !! id = Some s → proven_session mgr x0 (w', st') id s.
Proof.
  intros Hrun Hstep Hup Hall id s Hs. assert (∀ s1, store_view st !! id = Some s1 →
    same_identity s1 s → proven_session mgr x0 (w', st') id s) as Hkeep.
  { intros s1 H5 H6. by eapply proven_extend, H6; [apply Hall|]. }
  pose proof Hstep as [cs H5].
  inversion H5 as [u i r0 st1 w2 w1 out st2 w3 Hid Hfresh Hroom Hr|i h r0 st1 w1 rc r st2 w2 Hr
    |i h r0 st1 w1 rc r st2 w2 Hr|i r0 st1 w1 [rc r] st2 w2 Hr|st1 w1 w2 Hq Hclk]; subst; clear H5.
  - destruct Hup as [Hw Hm Hc Hi Hsok].
    destruct (initiate_refines 0 mgr u i None r0 st w w1 Hw Hm Hc Hi Hroom Hsok Hid Hfresh)
      as (st3 & Hrun' & _ & Hv & _). rewrite Hr in Hrun'. simplify_eq. rewrite Hv in Hs.
    apply lookup_insert_Some in Hs as [[-> <-]|[_ Hs]]; [apply login_proven|by apply (Hkeep s)].
  - destruct (register_run _ _ _ _ _ _ _ _ _ _ Hup Hr) as (r1 & ? & ? & Hspec & -> & -> & <- & _).
    destruct (register_drawn _ _ _ _ _ _ _ _ _ _ _ Hspec Hs) as [?|[H200 _]]; [by apply (Hkeep s)|].
    destruct (register_granted _ _ _ _ _ _ _ _ _ _ Hup Hr H200)
      as (i1 & t & s0 & p & [-> _ -> _ Hs0 Hl Hst Hpr] & _ & Hv).
    rewrite Hv in Hs. apply lookup_insert_Some in Hs as [[-> <-]|[_ Hs]]; [|by apply (Hkeep s)].
    right. destruct (renewed_identity mgr (w_now w) (challenge_of w) (bound_to p s0))
      as (-> & ? & ? & ? & ? & ?). split; [done|].
    exists w, st, w', st', t, r0, r1, s0, p. split_and!; try done.
    by apply lookup_live_Some.
  - destruct (refresh_run _ _ _ _ _ _ _ _ _ _ Hup Hr) as (r1 & ? & ? & Hspec & -> & -> & <- & _).
    destruct (refresh_drawn _ _ _ _ _ _ _ _ _ _ _ Hspec Hs) as [?|[H200 _]]; [by apply (Hkeep s)|].
    destruct (refresh_granted _ _ _ _ _ _ _ _ _ _ Hup Hr H200)
      as (i1 & t & s0 & p & [-> _ -> _ Hs0 _ _ _] & _ & Hv).
    rewrite Hv in Hs. apply lookup_insert_Some in Hs as [[-> <-]|[_ Hs]]; [|by apply (Hkeep s)].
    apply (Hkeep s0); [done|]. apply renewed_identity.
  - destruct (close_run _ _ _ _ _ _ _ _ _ Hup Hr) as (? & ? & ? & Hspec & _ & _ & <- & _).
    apply (Hkeep s); [by eapply close_kept|done].
  - by apply (Hkeep s).
Qed.

Lemma run_proven mgr x y :
  rtc (server_step mgr) x y → server_up mgr x.2 x.1 → store_view x.2 = ∅ →
  server_up mgr y.2 y.1 ∧
  ∀ id s, store_view y.2 !! id = Some s → proven_session mgr x y id s.
Proof.
  intros Hrun Hup He. revert y Hrun. apply rtc_ind_r.
  { split; [done|]. rewrite He. intros id s. by rewrite lookup_empty. }
  intros [w st] [w' st'] Hxy Hyz [Hup' IH].
  split; [by eapply server_step_inv|]. by apply (step_proven mgr x w st).
Qed.

(** The sessions at the end of a run: those of its start, or with a challenge
    drawn on the way. *)
Lemma run_challenge mgr x cs y j s :
  server_run mgr x cs y → server_up mgr x.2 x.1 → store_view y.2 !! j = Some s →
  server_up mgr y.2 y.1 ∧ (store_view x.2 !! j = Some s ∨ ∃ c, c ∈ cs ∧ s_challenge s = Some c).
Proof.
  induction 1 as [x|[w st] cs [w1 st1] cs' z Hxy Hyz IH]; cbn in *; intros Hup Hs; [auto|].
  destruct (server_step_inv mgr w st w1 st1) as [Hup1 _]; [by exists cs|done|].
  destruct (IH Hup1 Hs) as [Hup2 [Hs1|(c & Hc & E)]]; (split; [done|]);
    [|right; exists c; split; [apply elem_of_app; by right|done]].
  destruct (draws_challenge _ _ _ _ _ _ _ _ Hxy Hup Hs1) as [?|(c & Hc & E)]; [by left|right].
  exists c. split; [apply elem_of_app; by left|done].
Qed.

Lemma run_up mgr x cs y : server_run mgr x cs y → server_up mgr x.2 x.1 → server_up mgr y.2 y.1.
Proof.
  induction 1 as [|[w st] cs [w1 st1] cs' z Hxy _ IH]; [done|]. cbn in *. intros Hup.
  apply IH. eapply server_step_inv; [|done]. by exists cs.
Qed.

(** A run, as long as a session stays in the store. *)
Definition step_keeping mgr (id : string) x y : Prop :=
  server_step mgr x y ∧ is_Some (store_view y.2 !! id).

Definition same_binding (s s' : OpenDBSC_Session) : Prop :=
  s_state s' = OPENDBSC_SESSION_STATE_BOUND ∧ s_public_key s' = s_public_key s ∧
  s_algorithm s' = s_algorithm s ∧ s_user_id s' = s_user_id s ∧ s_id s' = s_id s ∧
  s_created_at s' = s_created_at s.

Lemma same_binding_trans s1 s2 s3 : same_binding s1 s2 → same_binding s2 s3 → same_binding s1 s3.
Proof.
  intros (_ & ? & ? & ? & ? & ?) (? & ? & ? & ? & ? & ?). unfold same_binding. split_and!; congruence.
Qed.

Lemma change_binding mgr now c s s' :
  session_change mgr now c (Some s) (Some s') → s_state s = OPENDBSC_SESSION_STATE_BOUND →
  same_binding s s'.
Proof.
  inversion 1; subst; intros Hst; [done|congruence|]. unfold same_binding.
  destruct (renewed_fields mgr now c s) as (-> & -> & -> & -> & -> & -> & _). by split_and!.
Qed.

Lemma step_keeping_binding mgr id x y s :
  step_keeping mgr id x y → server_up mgr x.2 x.1 →
  store_view x.2 !! id = Some s → s_state s = OPENDBSC_SESSION_STATE_BOUND →
  server_up mgr y.2 y.1 ∧ ∃ s', store_view y.2 !! id = Some s' ∧ same_binding s s'.
Proof.
  destruct x as [w st], y as [w' st']. cbn. intros [Hstep [s' Hs']] Hup Hs Hst.
  cbn in Hs'.
  destruct (server_step_inv mgr w st w' st' Hstep Hup) as [Hup' [Hch|(i & u & c & Hi & Hv)]];
    (split; [done|]); exists s'; (split; [done|]).
  - destruct (Hch id) as [c Hc]. rewrite Hs, Hs' in Hc. by eapply change_binding.
  - rewrite Hv, lookup_insert_ne, Hs in Hs' by congruence. by simplify_eq.
Qed.

(** ** Terms *)

Lemma renewed_expired mgr now c s t :
  clock_ok mgr now →
  expired t (renewed mgr now c s) =
    (0 <? cfg_session_ttl_seconds mgr) && (now + cfg_session_ttl_seconds mgr <? t).
Proof.
  intros [Hn _]. unfold renewed, ttl_applied, expired.
  destruct (Z.ltb_spec 0 (cfg_session_ttl_seconds mgr)); cbn; [|done].
  by rewrite bool_decide_true by lia.
Qed.

Lemma login_expired mgr now c id u t :
  clock_ok mgr now →
  expired t (login_session mgr now c id u) =
    (0 <? cfg_session_ttl_seconds mgr) && (now + cfg_session_ttl_seconds mgr <? t).
Proof.
  intros [Hn _]. unfold login_session, ttl_applied, expired.
  destruct (Z.ltb_spec 0 (cfg_session_ttl_seconds mgr)); cbn; [|done].
  by rewrite bool_decide_true by lia.
Qed.

Lemma live_insert now i s (m : view) :
  lookup_live now i (<[i := s]> m) = Some s ↔ expired now s = false.
Proof. rewrite lookup_live_Some, lookup_insert_eq. by split; [intros []|]. Qed.

(** ** Spent challenges *)

(** What a grant to a token leaves: the token carried the challenge stored
    before, and the session has the challenge drawn. *)
Lemma granted_challenge mgr i t r0 st w r st' w' s :
  server_up mgr st w → store_view st !! i = Some s →
  opendbsc_manager_register (Some mgr) (Some i) (Some t) (Some r0) st w = Ret (0, Some r, st') w' ∨
  opendbsc_manager_refresh (Some mgr) (Some i) (Some t) (Some r0) st w = Ret (0, Some r, st') w' →
  status_code r = 200 →
  ∃ p s', token_proof t = Some p ∧ p_challenge p = s_challenge s ∧
    store_view st' !! i = Some s' ∧ s_challenge s' = Some (challenge_of w) ∧ server_up mgr st' w'.
Proof.
  intros Hup Hs Hrun H200. destruct Hrun as [Hrun|Hrun].
  - destruct (register_granted _ _ _ _ _ _ _ _ _ _ Hup Hrun H200) as (i1 & t1 & s1 & p & [[= <-] _ [= <-] _ Hs1 _ _ Hpr] & _ & Hv).
    destruct (register_run _ _ _ _ _ _ _ _ _ _ Hup Hrun) as (? & ? & ? & _ & _ & _ & _ & _ & Hup').
    simplify_eq. exists p. eexists. rewrite Hv, lookup_insert_eq.
    destruct Hpr as (? & _ & ? & _). split_and!; [done..| |done]. by apply renewed_fields.
  - destruct (refresh_granted _ _ _ _ _ _ _ _ _ _ Hup Hrun H200) as (i1 & t1 & s1 & p & [[= <-] _ [= <-] _ Hs1 _ _ Hpr] & _ & Hv).
    destruct (refresh_run _ _ _ _ _ _ _ _ _ _ Hup Hrun) as (? & ? & ? & _ & _ & _ & _ & _ & Hup').
    simplify_eq. exists p. eexists. rewrite Hv, lookup_insert_eq.
    destruct Hpr as (? & _ & ? & _). split_and!; [done..| |done]. by apply renewed_fields.
Qed.

(** A token with another challenge than the stored one is refused. *)
Lemma register_refused_other mgr i t r0 st w p :
  server_up mgr st w → token_proof t = Some p →
  (∀ s, store_view st !! i = Some s → s_challenge s ≠ p_challenge p) →
  wp (opendbsc_manager_register (Some mgr) (Some i) (Some t) (Some r0) st) w
    (λ '(_, resp, _) _, status_code <$> resp ≠ Some 200).
Proof.
  intros Hup Hp Hne.
  destruct (register_total mgr (Some i) (Some t) r0 st w Hup) as (r2 & st2 & w2 & Hrun).
  eapply wp_run; [done|]. cbn. intros [= H200].
  destruct (register_granted _ _ _ _ _ _ _ _ _ _ Hup Hrun H200) as (i1 & t1 & s1 & p1 & [[= <-] _ [= <-] _ Hs1 _ _ Hpr] & _ & _).
  destruct Hpr as (? & _ & ? & _). simplify_eq. by eapply Hne.
Qed.

Lemma refresh_refused_other mgr i t r0 st w p :
  server_up mgr st w → token_proof t = Some p →
  (∀ s, store_view st !! i = Some s → s_challenge s ≠ p_challenge p) →
  wp (opendbsc_manager_refresh (Some mgr) (Some i) (Some t) (Some r0) st) w
    (λ '(_, resp, _) _, status_code <$> resp ≠ Some 200).
Proof.
  intros Hup Hp Hne.
  destruct (refresh_total mgr (Some i) (Some t) r0 st w Hup) as (r2 & st2 & w2 & Hrun).
  eapply wp_run; [done|]. cbn. intros [= H200].
  destruct (refresh_granted _ _ _ _ _ _ _ _ _ _ Hup Hrun H200) as (i1 & t1 & s1 & p1 & [[= <-] _ [= <-] _ Hs1 _ _ Hpr] & _ & _).
  destruct Hpr as (? & _ & ? & _). simplify_eq. by eapply Hne.
Qed.

(** ** Properties *)

(** C16. Every bound key was proven.  From an empty store, after any run of
    logins, registrations, refreshes, closings and passing time in any order,
    the server is still up, every session is stored under its own identifier,
    and each is either unbound and without a key, or bound to exactly the key
    and the algorithm of a token that proved its registration: in that very
    run the server granted a registration of this session, stored then as a
    live session without a key, to a token with the challenge of the stored
    session. *)
Theorem server_bound_keys_proven mgr w0 st0 w st :
  rtc (server_step mgr) (w0, st0) (w, st) → server_up mgr st0 w0 → store_view st0 = ∅ →
  server_up mgr st w ∧
  ∀ id s, store_view st !! id = Some s →
    s_id s = Some id ∧ proven_session mgr (w0, st0) (w, st) id s.
Proof.
  intros Hrun Hup He. destruct (run_proven mgr _ _ Hrun Hup He) as [Hup' Hall].
  split; [done|]. intros id s Hs. split; [|by apply Hall].
  by apply (store_view_id st); [apply Hup'|].
Qed.

(** C17. A bound key never changes.  Once a session is bound, then as long as it
    stays in the store, whatever requests come in whatever order and however
    time passes, its key, its algorithm, its user, its identifier and its
    creation time stay what they are, and it stays bound. *)
Theorem bound_key_never_changes mgr id x y s :
  rtc (step_keeping mgr id) x y → server_up mgr x.2 x.1 →
  store_view x.2 !! id = Some s → s_state s = OPENDBSC_SESSION_STATE_BOUND →
  ∃ s', store_view y.2 !! id = Some s' ∧ same_binding s s'.
Proof.
  intros Hrun. revert s. induction Hrun as [x|x y z Hxy _ IH]; intros s Hup Hs Hst.
  { by exists s. }
  destruct (step_keeping_binding mgr id x y s Hxy Hup Hs Hst) as (Hup' & s1 & Hs1 & Hb1).
  destruct (IH s1 Hup' Hs1) as (s2 & Hs2 & Hb2); [apply Hb1|].
  exists s2. split; [done|]. by eapply same_binding_trans.
Qed.

(** C4. An accepted proof cannot be replayed, as long as its challenge is not
    drawn again.  When a registration or a refresh has been granted for a
    token, then after any further run of logins, registrations, refreshes,
    closings and passing time, in any order, the same token is refused for the
    same identifier, for a registration and for a refresh, unless the challenge
    that the token carries is among those drawn by the grant or since.  (When
    the entropy source fails, every challenge drawn is the same: see
    [replay_when_entropy_fails].) *)
Theorem accepted_proof_not_replayable mgr i t r0 st w r st' w' s cs st2 w2 :
  server_up mgr st w → store_view st !! i = Some s →
  opendbsc_manager_register (Some mgr) (Some i) (Some t) (Some r0) st w = Ret (0, Some r, st') w' ∨
  opendbsc_manager_refresh (Some mgr) (Some i) (Some t) (Some r0) st w = Ret (0, Some r, st') w' →
  status_code r = 200 →
  server_run mgr (w', st') cs (w2, st2) →
  (∀ c, c ∈ challenge_of w :: cs → s_challenge s ≠ Some c) →
  wp (opendbsc_manager_register (Some mgr) (Some i) (Some t) (Some r0) st2) w2
    (λ '(_, resp, _) _, status_code <$> resp ≠ Some 200) ∧
  wp (opendbsc_manager_refresh (Some mgr) (Some i) (Some t) (Some r0) st2) w2
    (λ '(_, resp, _) _, status_code <$> resp ≠ Some 200).
Proof.
  intros Hup Hs Hgrant H200 Hrun Hfresh.
  destruct (granted_challenge _ _ _ _ _ _ _ _ _ _ Hup Hs Hgrant H200)
    as (p & s' & Hp & Hc & Hs' & Hc' & Hup').
  pose proof (run_up _ _ _ _ Hrun Hup') as Hup2.
  assert (∀ s2, store_view st2 !! i = Some s2 → s_challenge s2 ≠ p_challenge p) as Hne.
  { intros s2 Hs2 E. rewrite Hc in E.
    destruct (run_challenge _ _ _ _ _ _ Hrun Hup' Hs2) as [_ [Hs3|(c & Hin & Hc2)]].
    - cbn in Hs3. simplify_eq. apply (Hfresh (challenge_of w)); [by left|]. congruence.
    - apply (Hfresh c); [by right|]. congruence. }
  split; [by eapply register_refused_other|by eapply refresh_refused_other].
Qed.

(** C30. The term of a session.  A granted registration or refresh at time [now]
    leaves its session live exactly until [now] plus the configured seconds
    (for ever when they are not positive), in the store and for every request,
    whatever its term was before; the same holds of the session a login
    creates. *)
Theorem granted_session_term mgr id header r0 st w r st' w' :
  server_up mgr st w →
  opendbsc_manager_register (Some mgr) id header (Some r0) st w = Ret (0, Some r, st') w' ∨
  opendbsc_manager_refresh (Some mgr) id header (Some r0) st w = Ret (0, Some r, st') w' →
  status_code r = 200 →
  ∃ i s, id = Some i ∧ store_view st' !! i = Some s ∧
    (∀ later, lookup_live later i (store_view st') = Some s ↔
       cfg_session_ttl_seconds mgr ≤ 0 ∨ later ≤ w_now w + cfg_session_ttl_seconds mgr) ∧
    (∀ c u later, lookup_live later i (<[i := login_session mgr (w_now w) c i u]> (store_view st))
         = Some (login_session mgr (w_now w) c i u) ↔
       cfg_session_ttl_seconds mgr ≤ 0 ∨ later ≤ w_now w + cfg_session_ttl_seconds mgr).
Proof.
  intros Hup Hrun H200. pose proof (up_clock _ _ _ Hup) as Hclk.
  assert (∀ later, (0 <? cfg_session_ttl_seconds mgr) &&
    (w_now w + cfg_session_ttl_seconds mgr <? later) = false ↔
    cfg_session_ttl_seconds mgr ≤ 0 ∨ later ≤ w_now w + cfg_session_ttl_seconds mgr) as Hb.
  { intros later. rewrite andb_false_iff, !Z.ltb_ge. lia. }
  destruct Hrun as [Hrun|Hrun];
    [destruct (register_granted _ _ _ _ _ _ _ _ _ _ Hup Hrun H200) as (i & t & s & p & [] & _ & Hv)
    |destruct (refresh_granted _ _ _ _ _ _ _ _ _ _ Hup Hrun H200) as (i & t & s & p & [] & _ & Hv)];
    exists i; eexists; rewrite Hv, lookup_insert_eq; (split_and!; [done..| |]);
    intros; rewrite live_insert, <-Hb; by rewrite ?renewed_expired, ?login_expired.
Qed.

End lifecycle.

(** ** Witnesses *)

(** The server and its store after a refresh of the session "b". *)
Definition demo_refreshed : OpenDBSC_Session :=
  renewed demo_manager 1000 (challenge_of demo_world) demo_bound.
Definition demo_store2 : OpenDBSC_MemoryStore :=
  MemoryStore [demo_active; demo_refreshed; demo_unsigned] 8 false.
Definition demo_world2 : world :=
  World [] 1000 [] [Some (replicate 32 205)] [Some (5, 0)]
    [(1000, Event "REFRESH" (Some "bob") (Some "b") (Some "session extended"))].
Definition demo_granted : OpenDBSC_ManagerResponse := granted demo_manager demo_refreshed.

Lemma demo_refresh_run :
  opendbsc_manager_refresh (Some demo_manager) (Some "b") (Some demo_refresh_token)
    (Some response_default) demo_store demo_world
    = Ret (0, Some demo_granted, demo_store2) demo_world2.
Proof. vm_compute. reflexivity. Qed.

(** A login to an empty server and the registration of its session. *)
Definition empty_store : OpenDBSC_MemoryStore := MemoryStore [] 0 false.

Lemma empty_up : server_up demo_manager empty_store demo_world.
Proof. split; [done|by split|by split|apply new_store_wf|]. apply map_Forall_empty. Qed.

Definition demo_login_challenge : string := hex_text (replicate 32 205).
Definition demo_login_token : string :=
  ref_token sample_header (JObject [("jti", JString demo_login_challenge)]) ref_key.

Lemma demo_history :
  exists w st, rtc (server_step demo_manager) (demo_world, empty_store) (w, st) ∧
    s_state <$> ms_view st !! demo_id = Some OPENDBSC_SESSION_STATE_BOUND.
Proof.
  do 2 eexists. split.
  - eapply rtc_l; [eexists|].
    { eapply (draws_login demo_manager "carol" demo_id response_default empty_store demo_world);
        vm_compute; reflexivity. }
    eapply rtc_once. eexists.
    eapply (draws_register demo_manager (Some demo_id) (Some demo_login_token) response_default).
    vm_compute. reflexivity.
  - vm_compute. reflexivity.
Qed.

Lemma server_bound_keys_proven_witness :
  exists w st s, rtc (server_step demo_manager) (demo_world, empty_store) (w, st) ∧
    server_up demo_manager empty_store demo_world ∧ store_view empty_store = ∅ ∧
    ms_view st !! demo_id = Some s ∧ s_state s = OPENDBSC_SESSION_STATE_BOUND ∧
    proven_session demo_manager (demo_world, empty_store) (w, st) demo_id s.
Proof.
  destruct demo_history as (w & st & Hrun & Hs).
  destruct (ms_view st !! demo_id) as [s|] eqn:E; [|done]. cbn in Hs.
  exists w, st, s. split; [exact Hrun|]. split; [exact empty_up|]. split; [reflexivity|].
  split; [exact E|]. split; [congruence|].
  exact (proj2 (proj2 (server_bound_keys_proven demo_manager demo_world empty_store w st
                  Hrun empty_up eq_refl) demo_id s E)).
Defined.

Lemma bound_key_never_changes_witness :
  rtc (step_keeping demo_manager "b") (demo_world, demo_store) (demo_world2, demo_store2) ∧
  s_state demo_bound = OPENDBSC_SESSION_STATE_BOUND ∧
  ∃ s', store_view demo_store2 !! "b" = Some s' ∧ same_binding demo_bound s'.
Proof.
  assert (rtc (step_keeping demo_manager "b") (demo_world, demo_store) (demo_world2, demo_store2)) as Hrun.
  { apply rtc_once. split; [|exists demo_refreshed; vm_compute; reflexivity].
    eexists. exact (draws_refresh _ _ _ _ _ _ _ _ _ _ demo_refresh_run). }
  split; [exact Hrun|]. split; [reflexivity|].
  refine (bound_key_never_changes demo_manager "b" _ _ demo_bound Hrun demo_up _ _);
    [vm_compute; reflexivity|reflexivity].
Defined.

(** Half a minute later the client refreshes again, with a token for the new
    challenge. *)
Definition demo_token2 : string :=
  ref_token (JObject [("alg", JString "ES256"); ("typ", JString "dbsc+jwt")])
    (JObject [("jti", JString (challenge_of demo_world))]) ref_key.
Definition demo_refreshed2 : OpenDBSC_Session :=
  renewed demo_manager 1030 (challenge_of demo_world2) demo_refreshed.
Definition demo_store3 : OpenDBSC_MemoryStore :=
  MemoryStore [demo_active; demo_refreshed2; demo_unsigned] 8 false.
Definition demo_world3 : world :=
  World [] 1030 [] [] [Some (5, 0)]
    [(1000, Event "REFRESH" (Some "bob") (Some "b") (Some "session extended"));
     (1030, Event "REFRESH" (Some "bob") (Some "b") (Some "session extended"))].

Lemma demo_run : server_run demo_manager (demo_world2, demo_store2) [challenge_of demo_world2]
  (demo_world3, demo_store3).
Proof.
  apply (run_step _ _ [] (later 30 demo_world2, demo_store2)); [by apply draws_time; split|].
  apply (run_step _ _ [challenge_of (later 30 demo_world2)] (demo_world3, demo_store3) []);
    [|constructor].
  apply (draws_refresh _ (Some "b") (Some demo_token2) response_default _ _ 0
    (Some (granted demo_manager demo_refreshed2))).
  vm_compute. reflexivity.
Qed.

Lemma accepted_proof_not_replayable_witness :
  status_code demo_granted = 200 ∧
  server_run demo_manager (demo_world2, demo_store2) [challenge_of demo_world2]
    (demo_world3, demo_store3) ∧
  wp (opendbsc_manager_refresh (Some demo_manager) (Some "b") (Some demo_refresh_token)
      (Some response_default) demo_store3) demo_world3
    (λ '(_, resp, _) _, status_code <$> resp ≠ Some 200).
Proof.
  split; [reflexivity|]. split; [exact demo_run|].
  refine (proj2 (accepted_proof_not_replayable demo_manager "b" demo_refresh_token response_default
    demo_store demo_world demo_granted demo_store2 demo_world2 demo_bound _ demo_store3 demo_world3
    demo_up _ (or_intror demo_refresh_run) _ demo_run _));
    [vm_compute; reflexivity|reflexivity|].
  intros c Hc. repeat (apply elem_of_cons in Hc as [->|Hc]; [vm_compute; congruence|]).
  by apply elem_of_nil in Hc.
Defined.

(** The condition on the challenges is needed: when the entropy source fails,
    the manager issues the constant "fallback-challenge" (manager.c line 70),
    and an accepted token is accepted again. *)
Definition dark_world : world := World [] 1000 [] [] [] [].
Definition dark_session : OpenDBSC_Session := with_challenge (Some "fallback-challenge") demo_bound.
Definition dark_token : string :=
  ref_token (JObject [("alg", JString "ES256"); ("typ", JString "dbsc+jwt")])
    (JObject [("jti", JString "fallback-challenge")]) ref_key.

Lemma replay_when_entropy_fails :
  ∃ r st w r' st' w',
    opendbsc_manager_refresh (Some demo_manager) (Some "b") (Some dark_token)
      (Some response_default) (MemoryStore [dark_session] 8 false) dark_world
      = Ret (0, Some r, st) w ∧ status_code r = 200 ∧
    opendbsc_manager_refresh (Some demo_manager) (Some "b") (Some dark_token)
      (Some response_default) st w = Ret (0, Some r', st') w' ∧ status_code r' = 200.
Proof.
  eexists _, _, _, _, _, _. split; [vm_compute; reflexivity|]. split; [reflexivity|].
  split; [vm_compute; reflexivity|reflexivity].
Qed.

Lemma granted_session_term_witness :
  status_code demo_granted = 200 ∧
  ∃ i s, Some "b" = Some i ∧ store_view demo_store2 !! i = Some s ∧
    (∀ later, lookup_live later i (store_view demo_store2) = Some s ↔
       cfg_session_ttl_seconds demo_manager ≤ 0 ∨
       later ≤ w_now demo_world + cfg_session_ttl_seconds demo_manager).
Proof.
  split; [reflexivity|].
  destruct (granted_session_term demo_manager (Some "b") (Some demo_refresh_token) response_default
    demo_store demo_world demo_granted demo_store2 demo_world2 demo_up (or_intror demo_refresh_run) eq_refl)
    as (i & s & Hi & Hs & Hlive & _).
  exists i, s. split; [exact Hi|]. split; [exact Hs|exact Hlive].
Defined.
