(* ===== verification/ManagerThreads.v ===== *)
(** The manager in several threads.  [opendbsc_manager_*] as programs that
    share one session store: every call of the store is one step (the in-memory
    store serves its callers one after the other, [MemoryLinear]), the rest of
    a request runs in between on data of its own thread.  Run alone they are
    the definitions of [Manager].  The theorems are about every interleaving of
    requests on an in-memory store, in any environment; the last section shows
    what the manager, which holds no lock from [get] to [update], does not
    promise. *)

From S2P Require Export Lifecycle MemoryThreads.
From stdpp Require Import options.
#[local] Open Scope Z_scope.

(** ** The requests as programs *)

Section programs.
Context `{CJSON, OpenSSL, UUIDv7} {T : Type} `{Store T}.

Abbreviation reply := (Z * option OpenDBSC_ManagerResponse)%type.

Definition t_store_get (id : string) : prog T (Z * option OpenDBSC_Session) :=
  act (λ st, call_get st id).
Definition t_store_create (session : OpenDBSC_Session) : prog T Z :=
  act (λ st, st_create st (Some session)).
Definition t_store_update (session : OpenDBSC_Session) : prog T Z :=
  act (λ st, st_update st (Some session)).
Definition t_store_delete (id : string) : prog T Z := act (λ st, st_delete st (Some id)).

Definition t_message (resp : OpenDBSC_ManagerResponse) (status : Z) (text : string)
    : prog T reply :=
  r ← local (message_response resp status text); mret (0, Some r).

Definition t_challenge (resp : OpenDBSC_ManagerResponse) (session : OpenDBSC_Session)
    : prog T reply :=
  r ← local (set_challenge_response resp (s_challenge session) (s_id session) 403);
  mret (0, Some r).

(** [proof.challenge == NULL || strcmp(proof.challenge, session->challenge) != 0] *)
Definition challenge_matches (proof : OpenDBSC_ProofJWT) (session : OpenDBSC_Session) : C bool :=
  match p_challenge proof with
  | None => mret false
  | Some c => d ← need_str (s_challenge session); mret (String.eqb c d)
  end.

Definition t_initiate (mgr : option OpenDBSC_Manager) (user_id : cstr)
    (out_session : option OpenDBSC_Session) (resp : option OpenDBSC_ManagerResponse)
    : prog T (Z * option OpenDBSC_Session * option OpenDBSC_ManagerResponse) :=
  match mgr, user_id, resp with
  | Some mgr, Some user_id, Some _ =>
      let resp := response_default in
      '(rc, id) ← local (opendbsc_session_new_id (Some (CBuf 37 None)));
      if negb (rc =? 0) then mret (-1, out_session, Some resp) else
      id ← local (deref id);
      id ← local (buf_cstr id);
      let session := session_default in
      session ← local (ignore (λ s, opendbsc_session_set_id s (Some id)) session);
      session ← local (ignore (λ s, opendbsc_session_set_user_id s (Some user_id)) session);
      session ← local (deref (opendbsc_session_set_state (Some session)
                                OPENDBSC_SESSION_STATE_ACTIVE));
      challenge ← local opendbsc_manager_generate_challenge;
      match challenge with
      | None => mret (-1, out_session, Some resp)
      | Some challenge =>
          session ← local (ignore (λ s, opendbsc_session_set_challenge s (Some challenge)) session);
          now ← local time_NULL;
          session ← local (deref (opendbsc_session_set_created_at (Some session) now));
          session ← local (apply_session_ttl session (cfg_session_ttl_seconds mgr));
          local (need_store mgr);;
          rc ← t_store_create session;
          if negb (rc =? 0) then mret (-1, out_session, Some resp) else
          cookie ← local (build_set_cookie mgr (s_id session));
          header ← local (opendbsc_registration_serialize (Some [Some "ES256"; Some "RS256"]) 2
                            (Some "/dbsc/register") (s_challenge session) (cfg_authorization mgr)
                            None None None);
          out_session ← local (match out_session with
                               | None => mret None
                               | Some out =>
                                   '(_, out) ← opendbsc_session_copy (Some out) (Some session);
                                   mret out
                               end);
          local (emit_event mgr "LOGIN" (Some user_id) (s_id session) (Some "login successful"));;
          mret (0, out_session, Some (ManagerResponse 200 cookie header None None))
      end
  | _, _, _ => mret (-1, out_session, resp)
  end.

Definition t_get_session (mgr : option OpenDBSC_Manager) (cookie_session_id : cstr)
    (out : option (option OpenDBSC_Session)) : prog T (Z * option (option OpenDBSC_Session)) :=
  match mgr, cookie_session_id, out with
  | Some mgr, Some _, Some _ =>
      local (need_store mgr);; act (λ st, st_get st cookie_session_id out)
  | _, _, _ => mret (-1, out)
  end.

Definition t_register (mgr : option OpenDBSC_Manager)
    (cookie_session_id session_response_header : cstr)
    (resp : option OpenDBSC_ManagerResponse) : prog T reply :=
  match mgr, resp with
  | Some mgr, Some _ =>
      let resp := response_default in
      match nonempty cookie_session_id with
      | None => t_message resp 401 "missing session cookie"
      | Some cookie_session_id =>
          local (need_store mgr);;
          '(rc, session) ← t_store_get cookie_session_id;
          if negb (rc =? 0) then t_message resp 401 "invalid session" else
          session ← local (deref session);
          if negb (bool_decide (s_state session = OPENDBSC_SESSION_STATE_ACTIVE)) then
            t_message resp 400 "session is not in active state for registration" else
          match nonempty session_response_header with
          | None => t_challenge resp session
          | Some header =>
              '(rc, proof) ← local (on_local (opendbsc_jwt_decode_and_verify (Some header))
                                      proof_default);
              if negb (rc =? 0) then t_challenge resp session else
              challenge_ok ← local (challenge_matches proof session);
              if negb challenge_ok then t_challenge resp session else
              let authorization_ok :=
                match cfg_authorization mgr with
                | None => true
                | Some a => bool_decide (p_authorization proof = Some a)
                end in
              if negb authorization_ok then t_challenge resp session else
              session ← local (deref (opendbsc_session_set_state (Some session)
                                        OPENDBSC_SESSION_STATE_BOUND));
              session ← local (ignore (λ s, opendbsc_session_set_public_key s (p_jwk proof)) session);
              session ← local (ignore (λ s, opendbsc_session_set_algorithm s (p_algorithm proof))
                                 session);
              new_challenge ← local opendbsc_manager_generate_challenge;
              match new_challenge with
              | None => mret (-1, Some resp)
              | Some _ =>
                  session ← local (ignore (λ s, opendbsc_session_set_challenge s new_challenge)
                                     session);
                  session ← local (apply_session_ttl session (cfg_session_ttl_seconds mgr));
                  rc ← t_store_update session;
                  if negb (rc =? 0) then mret (-1, Some resp) else
                  alg ← local (need_str (p_algorithm proof));
                  local (emit_event mgr "REGISTER" (s_user_id session) (s_id session)
                           (Some (str_take 255 ("alg=" +:+ alg))));;
                  cookie ← local (build_set_cookie mgr (s_id session));
                  header ← local (opendbsc_challenge_serialize (s_challenge session) (s_id session));
                  b ← local (build_instruction_body mgr session true);
                  mret (0, Some (ManagerResponse 200 cookie None header b))
              end
          end
      end
  | _, _ => mret (-1, resp)
  end.

Definition t_refresh (mgr : option OpenDBSC_Manager) (session_id session_response_header : cstr)
    (resp : option OpenDBSC_ManagerResponse) : prog T reply :=
  match mgr, resp with
  | Some mgr, Some _ =>
      let resp := response_default in
      match nonempty session_id with
      | None => t_message resp 400 "missing session identification"
      | Some session_id =>
          local (need_store mgr);;
          '(rc, session) ← t_store_get session_id;
          if negb (rc =? 0) then t_message resp 401 "invalid session" else
          session ← local (deref session);
          if negb (bool_decide (s_state session = OPENDBSC_SESSION_STATE_BOUND)) then
            t_message resp 400 "session is not bound" else
          match nonempty session_response_header with
          | None => t_challenge resp session
          | Some header =>
              '(rc, proof) ← local (match s_public_key session with
                                    | None => mret (-1, proof_default)
                                    | Some key =>
                                        on_local (opendbsc_jwt_verify_with_jwk (Some header)
                                                    (Some key)) proof_default
                                    end);
              if negb (rc =? 0) then t_challenge resp session else
              challenge_ok ← local (challenge_matches proof session);
              if negb challenge_ok then t_challenge resp session else
              new_challenge ← local opendbsc_manager_generate_challenge;
              match new_challenge with
              | None => mret (-1, Some resp)
              | Some _ =>
                  session ← local (ignore (λ s, opendbsc_session_set_challenge s new_challenge)
                                     session);
                  session ← local (apply_session_ttl session (cfg_session_ttl_seconds mgr));
                  rc ← t_store_update session;
                  if negb (rc =? 0) then mret (-1, Some resp) else
                  local (emit_event mgr "REFRESH" (s_user_id session) (s_id session)
                           (Some "session extended"));;
                  cookie ← local (build_set_cookie mgr (s_id session));
                  header ← local (opendbsc_challenge_serialize (s_challenge session) (s_id session));
                  b ← local (build_instruction_body mgr session true);
                  mret (0, Some (ManagerResponse 200 cookie None header b))
              end
          end
      end
  | _, _ => mret (-1, resp)
  end.

Definition t_close (mgr : option OpenDBSC_Manager) (session_id : cstr)
    (resp : option OpenDBSC_ManagerResponse) : prog T reply :=
  match mgr, resp with
  | Some mgr, Some _ =>
      let resp := response_default in
      match nonempty session_id with
      | None => t_message resp 400 "missing session identification"
      | Some session_id =>
          local (need_store mgr);;
          '(rc, session) ← t_store_get session_id;
          if negb (rc =? 0) then t_message resp 401 "invalid session" else
          session ← local (deref session);
          user_id ← local (copy_string (s_user_id session));
          if negb (bool_decide (s_user_id session = None)) && bool_decide (user_id = None)
          then mret (-1, Some resp) else
          b ← local (build_instruction_body mgr session false);
          match b with
          | None => mret (-1, Some resp)
          | Some _ =>
              cookie ← local (build_set_cookie_with_max_age mgr (s_id session) 0);
              let resp := ManagerResponse 200 cookie None None b in
              rc ← t_store_delete session_id;
              if negb (rc =? 0) then mret (-1, Some resp) else
              local (emit_event mgr "CLOSE" user_id (Some session_id) (Some "session closed"));;
              mret (0, Some resp)
          end
      end
  | _, _ => mret (-1, resp)
  end.

(** A request, and its answer. *)
Inductive manager_call :=
| MInitiate (user_id : cstr)
| MGetSession (id : cstr)
| MRegister (id header : cstr)
| MRefresh (id header : cstr)
| MClose (id : cstr).

Inductive manager_reply :=
| MAnswer (rc : Z) (resp : option OpenDBSC_ManagerResponse)
| MSession (rc : Z) (session : option (option OpenDBSC_Session)).

Definition manager_code (mgr : OpenDBSC_Manager) (call : manager_call) : prog T manager_reply :=
  match call with
  | MInitiate user_id =>
      '(rc, _, resp) ← t_initiate (Some mgr) user_id None (Some response_default);
      mret (MAnswer rc resp)
  | MGetSession id =>
      '(rc, session) ← t_get_session (Some mgr) id (Some None); mret (MSession rc session)
  | MRegister id header =>
      '(rc, resp) ← t_register (Some mgr) id header (Some response_default); mret (MAnswer rc resp)
  | MRefresh id header =>
      '(rc, resp) ← t_refresh (Some mgr) id header (Some response_default); mret (MAnswer rc resp)
  | MClose id =>
      '(rc, resp) ← t_close (Some mgr) id (Some response_default); mret (MAnswer rc resp)
  end.

(** The call made alone. *)
Definition manager_serve (mgr : OpenDBSC_Manager) (call : manager_call) (st : T)
    : C (manager_reply * T) :=
  match call with
  | MInitiate user_id =>
      '(rc, _, resp, st) ← opendbsc_manager_initiate (Some mgr) user_id None
                             (Some response_default) st;
      mret (MAnswer rc resp, st)
  | MGetSession id =>
      '(rc, session, st) ← opendbsc_manager_get_session (Some mgr) id (Some None) st;
      mret (MSession rc session, st)
  | MRegister id header =>
      '(rc, resp, st) ← opendbsc_manager_register (Some mgr) id header (Some response_default) st;
      mret (MAnswer rc resp, st)
  | MRefresh id header =>
      '(rc, resp, st) ← opendbsc_manager_refresh (Some mgr) id header (Some response_default) st;
      mret (MAnswer rc resp, st)
  | MClose id =>
      '(rc, resp, st) ← opendbsc_manager_close (Some mgr) id (Some response_default) st;
      mret (MAnswer rc resp, st)
  end.

(** *** Run alone, the programs are the requests *)

Context `{Locked T}.

Ltac run_step :=
  match goal with
  | |- ?a = ?a => reflexivity
  | |- context [run (_ ≫= _) _ _] => rewrite run_bind
  | |- context [run (act _) _ _] => rewrite run_act
  | |- context [run (local _) _ _] => rewrite run_local
  | |- context [run (mret ?r) ?st] => change (run (mret r) st) with (mret (r, st) : C _)
  | |- context [(?m ≫= ?f) ?w] => rewrite (bind_unfold m f w)
  | |- context [mret ?r ?w] => rewrite (ret_unfold r w)
  | |- context [match ?m ?w with Ret _ _ => _ | UB => _ | Hang => _ end] =>
      lazymatch goal with E : m w = _ |- _ => rewrite E | _ => destruct (m w) as [? ?| |] eqn:? end
  | |- context [match ?x with pair _ _ => _ end] => destruct x
  | |- context [if ?b then _ else _] =>
      lazymatch goal with E : b = _ |- _ => rewrite E | _ => destruct b eqn:? end
  | |- context [match ?o with Some _ => _ | None => _ end] =>
      lazymatch goal with E : o = _ |- _ => rewrite E | _ => destruct o eqn:? end
  end.
Ltac run_alone :=
  unfold t_message, t_challenge, t_store_get, t_store_create, t_store_update, t_store_delete,
    challenge_matches; repeat (run_step; try reflexivity).

Lemma t_close_run mgr id resp st w :
  run (t_close mgr id resp) st w = opendbsc_manager_close mgr id resp st w.
Proof. unfold t_close, opendbsc_manager_close. run_alone. Qed.

Lemma t_get_session_run mgr id out st w :
  run (t_get_session mgr id out) st w = opendbsc_manager_get_session mgr id out st w.
Proof. unfold t_get_session, opendbsc_manager_get_session. run_alone. Qed.

Lemma t_initiate_run mgr user out resp st w :
  run (t_initiate mgr user out resp) st w = opendbsc_manager_initiate mgr user out resp st w.
Proof. unfold t_initiate, opendbsc_manager_initiate. run_alone. Qed.

Lemma t_register_run mgr id header resp st w :
  run (t_register mgr id header resp) st w = opendbsc_manager_register mgr id header resp st w.
Proof. unfold t_register, opendbsc_manager_register. run_alone. Qed.

Lemma t_refresh_run mgr id header resp st w :
  run (t_refresh mgr id header resp) st w = opendbsc_manager_refresh mgr id header resp st w.
Proof. unfold t_refresh, opendbsc_manager_refresh. run_alone. Qed.

(** A request of a thread that nobody interrupts is the request of [Manager]. *)
Lemma manager_code_run mgr call st w :
  run (manager_code mgr call) st w = manager_serve mgr call st w.
Proof.
  unfold manager_code, manager_serve.
  destruct call; rewrite run_bind;
    (rewrite (bind_unfold (run _ _)), (bind_unfold (_ st)));
    rewrite ?t_initiate_run, ?t_get_session_run, ?t_register_run, ?t_refresh_run, ?t_close_run;
    by case_match; repeat case_match.
Qed.

End programs.

(** ** What the setters leave alone *)

Definition same_owner (s s' : OpenDBSC_Session) : Prop :=
  s_id s' = s_id s ∧ s_user_id s' = s_user_id s ∧ s_created_at s' = s_created_at s.
Definition same_identity (s s' : OpenDBSC_Session) : Prop :=
  same_owner s s' ∧ s_public_key s' = s_public_key s.

#[export] Instance same_owner_preorder : PreOrder same_owner.
Proof. split; [done|]. intros s1 s2 s3 (? & ? & ?) (? & ? & ?). split_and!; congruence. Qed.

#[export] Instance same_identity_preorder : PreOrder same_identity.
Proof. split; [done|]. intros s1 s2 s3 [? ?] [? ?]. split; [by etrans|congruence]. Qed.

Lemma post_set_string field value : post (set_string field value) (λ r, r.2 = value ∨ r.2 = field).
Proof. apply post_wp. intros w. apply wp_set_string; auto. Qed.

Lemma post_ignore {A} (f : option A → C (Z * option A)) (a : A) (Q : A → Prop) :
  post (f (Some a)) (λ r, ∀ a', r.2 = Some a' → Q a') → post (ignore f a) Q.
Proof.
  intros Hf. unfold ignore, on_local.
  apply (post_bind _ _ (λ r, Q r.2)); [|intros [rc a'] HQ; by apply post_ret].
  eapply post_bind; [exact Hf|]. intros [rc o] Ho.
  apply (post_bind _ _ Q); [apply post_deref; eauto|]. intros a' Ha'. by apply post_ret.
Qed.

Ltac post_setter :=
  apply post_ignore; eapply post_bind; [apply post_set_string|];
  intros [rc f] Hf; cbn in Hf; apply post_ret; intros s' [= <-]; try done.

Lemma post_set_id v s :
  post (ignore (λ s, opendbsc_session_set_id s v) s) (λ s', s_public_key s' = s_public_key s).
Proof. post_setter. Qed.

Lemma post_set_user_id v s :
  post (ignore (λ s, opendbsc_session_set_user_id s v) s)
    (λ s', s_public_key s' = s_public_key s).
Proof. post_setter. Qed.

Lemma post_set_algorithm v s :
  post (ignore (λ s, opendbsc_session_set_algorithm s v) s) (same_identity s).
Proof. post_setter. Qed.

Lemma post_set_challenge v s :
  post (ignore (λ s, opendbsc_session_set_challenge s v) s) (same_identity s).
Proof. post_setter. Qed.

Lemma post_set_public_key v s :
  post (ignore (λ s, opendbsc_session_set_public_key s v) s)
    (λ s', same_owner s s' ∧ (s_public_key s' = v ∨ s_public_key s' = s_public_key s)).
Proof. post_setter. Qed.

Lemma post_session_ttl s ttl : post (apply_session_ttl s ttl) (same_identity s).
Proof.
  unfold apply_session_ttl. destruct (0 <? ttl); [|by apply post_ret].
  eapply post_bind; [apply post_any|]. intros now _. by apply post_ret.
Qed.

(** ** What a request keeps

    [I] holds of the store, [J] of every session that is read from it, [R]
    between the store before and after a call, and [G] is known at every
    moment.  A request keeps [I] and guarantees [R] when the calls of the store
    do and [J] survives what the request does to its session. *)

(** What the token [t] says of the key it was accepted with. *)
Definition proves_key `{CJSON, OpenSSL} (t key : string) : Prop :=
  ∃ r alg sig, token_proof t = Some r ∧ p_jwk r = Some key ∧ p_algorithm r = Some alg ∧
    p_signature r = Some sig ∧ (alg = "ES256" ∨ alg = "RS256") ∧ signed_by alg key t sig = true.

Lemma checks_prove_key `{CJSON, OpenSSL} t p r w key :
  token_proof t = Some r → proof_copy w p r → registration_checks t p = true →
  p_jwk p = Some key → proves_key t key.
Proof.
  intros Hr (Ea & _ & Hna & _ & _ & Hj & _ & Hs) Hc Hk.
  apply andb_true_iff in Hc as [[_ Hrules]%andb_true_iff Hsig].
  unfold registration_rules, signature_accepted in *.
  destruct (p_algorithm p) as [alg|]; [|done]. rewrite Hk in *.
  rewrite (bool_decide_false (Some key = None)) in Hrules by done.
  destruct (String.eqb_spec alg "none") as [->|Hn]; [by rewrite bool_decide_true in Hrules|].
  cbn [orb] in Hsig. destruct (p_signature p) as [sig|]; [|done].
  exists r, alg, sig. destruct Hj as [<-|[[=] _]], Hs as [<-|[[=] _]]. split_and!; try done.
  unfold signed_by in Hsig. apply andb_true_iff in Hsig as [Ha _].
  apply orb_true_iff in Ha as [->%String.eqb_eq| ->%String.eqb_eq]; auto.
Qed.

Lemma post_registration_proof `{CJSON, OpenSSL} t :
  post (on_local (opendbsc_jwt_decode_and_verify (Some t)) proof_default)
    (λ r, r.1 = 0 → ∀ key, p_jwk r.2 = Some key → proves_key t key).
Proof.
  unfold on_local. apply (post_bind _ _ (λ r, ∀ p, r.2 = Some p → r.1 = 0 →
    ∀ key, p_jwk p = Some key → proves_key t key)).
  - apply post_wp. intros w. apply wp_jwt_decode_and_verify; cbn; [|by intros].
    intros p r w' _ Hr Hp Hc p' [= <-] _ key. by eapply checks_prove_key.
  - intros [rc o] Ho. eapply post_bind; [apply (post_deref _ (λ p, o = Some p)); done|].
    intros p Hp. apply post_ret. cbn in *. eauto.
Qed.

Section keeping.
Context `{CJSON, OpenSSL, UUIDv7} {T : Type} `{Store T, Locked T}.
Context (G I : T → Prop) (R : T → T → Prop) `{!PreOrder R} (J : OpenDBSC_Session → Prop).

Hypothesis get_keeps : ∀ id st w rc out st' w',
  I st → st_get st (Some id) (Some None) w = Ret (rc, out, st') w' →
  (I st' ∧ R st st') ∧ ∀ s, out = Some (Some s) → J s ∧ s_id s = Some id.
Hypothesis update_keeps : ∀ s st w rc st' w',
  I st → J s → st_update st (Some s) w = Ret (rc, st') w' → I st' ∧ R st st'.
Hypothesis delete_keeps : ∀ id st w rc st' w',
  I st → st_delete st (Some id) w = Ret (rc, st') w' → I st' ∧ R st st'.
Hypothesis J_same : ∀ s s', same_identity s s' → J s → J s'.
#[local] Set Default Proof Using "Type*".

Lemma keeps_get id (f : _ → prog T (Z * option OpenDBSC_ManagerResponse)) Q :
  (∀ rc s, (∀ s', s = Some s' → J s' ∧ s_id s' = Some id) → keeps G I R (f (rc, s)) Q) →
  keeps G I R (t_store_get id ≫= f) Q.
Proof.
  intros Hf. apply (keeps_bind G I R _ _ (λ r, ∀ s', r.2 = Some s' → J s' ∧ s_id s' = Some id));
    [|intros [rc s]; apply Hf].
  intros st w [rc s] st' w' _ HI. unfold call_get. rewrite bind_unfold.
  destruct (st_get st (Some id) (Some None) w) as [[[rc1 out] st1] w1| |] eqn:Hget; [|done..].
  destruct (get_keeps _ _ _ _ _ _ _ HI Hget) as [HI1 Hout].
  destruct out as [s1|]; [|done]. intros [= <- <- <- <-]. split; [done|]. cbn.
  intros s' ->. by apply Hout.
Qed.

Lemma keeps_update s (f : Z → prog T (Z * option OpenDBSC_ManagerResponse)) Q :
  J s → (∀ rc, keeps G I R (f rc) Q) → keeps G I R (t_store_update s ≫= f) Q.
Proof.
  intros HJ Hf. apply (keeps_bind G I R _ _ (λ _, True)); [|by intros].
  intros st w rc st' w' _ HI Hu. split; [|done]. by eapply update_keeps.
Qed.

Lemma keeps_delete id (f : Z → prog T (Z * option OpenDBSC_ManagerResponse)) Q :
  (∀ rc, keeps G I R (f rc) Q) → keeps G I R (t_store_delete id ≫= f) Q.
Proof.
  intros Hf. apply (keeps_bind G I R _ _ (λ _, True)); [|by intros].
  intros st w rc st' w' _ HI Hu. split; [|done]. by eapply delete_keeps.
Qed.

(** A step on the thread's own data, with what is known of its result. *)
Lemma keeps_local_bind {A X} (m : C A) (f : A → prog T X) (P : A → Prop) Q :
  post m P → (∀ a, P a → keeps G I R (f a) Q) → keeps G I R (local m ≫= f) Q.
Proof. intros Hm Hf. eapply (keeps_bind G I R); [by apply (keeps_local G I R)|exact Hf]. Qed.

Lemma keeps_local_any {A X} (m : C A) (f : A → prog T X) Q :
  (∀ a, keeps G I R (f a) Q) → keeps G I R (local m ≫= f) Q.
Proof. intros Hf. by apply (keeps_local_bind m f (λ _, True)). Qed.

Ltac keeps_on := apply keeps_local_any; intros ?.
(** A setter that leaves alone what [J] is about. *)
Lemma keeps_setter {X} (m : C OpenDBSC_Session) (f : OpenDBSC_Session → prog T X) s Q :
  J s → post m (same_identity s) → (∀ s', J s' → keeps G I R (f s') Q) →
  keeps G I R (local m ≫= f) Q.
Proof.
  intros Hs Hm Hf. eapply keeps_local_bind; [exact Hm|]. intros s' Hs'. by eapply Hf, J_same.
Qed.

Ltac keeps_rest :=
  unfold t_message, t_challenge;
  repeat first
    [ done | progress (cbv beta zeta) | keeps_on
    | match goal with |- keeps _ _ _ (if ?b then _ else _) _ => destruct b end
    | match goal with |- keeps _ _ _ (match ?o with Some _ => _ | None => _ end) _ => destruct o end ].

Lemma keeps_refresh mgr id header resp : keeps G I R (t_refresh mgr id header resp) (λ _, True).
Proof.
  unfold t_refresh. destruct mgr as [mgr|]; [|done]. destruct resp as [resp|]; [|done].
  destruct (nonempty id) as [i|]; [|by keeps_rest]. keeps_on.
  apply keeps_get. intros rc o Ho. destruct (negb _); [by keeps_rest|].
  eapply keeps_local_bind; [by apply post_deref; exact Ho|]. intros s [Hs _].
  destruct (negb _); [by keeps_rest|]. destruct (nonempty header) as [t|]; [|by keeps_rest].
  keeps_on. destruct a0 as [rc1 proof]. destruct (negb _); [by keeps_rest|].
  keeps_on. destruct (negb _); [by keeps_rest|].
  apply keeps_local_any. intros [c|]; [|done].
  eapply keeps_setter; [exact Hs|apply post_set_challenge|]. intros s1 Hs1.
  eapply keeps_setter; [exact Hs1|apply post_session_ttl|]. intros s2 Hs2.
  apply keeps_update; [done|intros rc2; by keeps_rest].
Qed.

Lemma keeps_close mgr id resp : keeps G I R (t_close mgr id resp) (λ _, True).
Proof.
  unfold t_close. destruct mgr as [mgr|]; [|done]. destruct resp as [resp|]; [|done].
  destruct (nonempty id) as [i|]; [|by keeps_rest]. keeps_on.
  apply keeps_get. intros rc o _. destruct (negb _); [by keeps_rest|].
  do 2 keeps_on. destruct (negb _ && _); [done|].
  apply keeps_local_any. intros [b|]; [|done]. keeps_on.
  apply keeps_delete. intros rc2. by keeps_rest.
Qed.

Lemma keeps_get_session mgr id :
  keeps G I R (t_get_session mgr id (Some None)) (λ _, True).
Proof.
  unfold t_get_session. destruct mgr as [mgr|]; [|done]. destruct id as [i|]; [|done].
  keeps_on. intros st w [rc o] st' w' _ HI Hget. split; [|done]. by eapply get_keeps.
Qed.

(** A registration may give its session the key of the token it was sent. *)
Lemma keeps_register mgr id header resp :
  (∀ i t s s', id = Some i → header = Some t → J s → s_id s = Some i → same_owner s s' →
     (∀ key, s_public_key s' = Some key → s_public_key s = Some key ∨ proves_key t key) → J s') →
  keeps G I R (t_register mgr id header resp) (λ _, True).
Proof.
  intros HJ. unfold t_register. destruct mgr as [mgr|]; [|done]. destruct resp as [resp|]; [|done].
  destruct (nonempty id) as [i|] eqn:Hi; [|by keeps_rest]. keeps_on.
  apply keeps_get. intros rc o Ho. destruct (negb _); [by keeps_rest|].
  eapply keeps_local_bind; [by apply post_deref; exact Ho|]. intros s [Hs Hid].
  destruct (negb _); [by keeps_rest|].
  destruct (nonempty header) as [t|] eqn:Ht; [|by keeps_rest].
  eapply keeps_local_bind; [apply post_registration_proof|]. intros [rc1 proof] Hp. cbn in Hp.
  destruct (Z.eqb_spec rc1 0) as [->|]; cbn [negb]; [|by keeps_rest].
  keeps_on. destruct (negb _); [by keeps_rest|]. destruct (negb _); [by keeps_rest|].
  eapply (keeps_local_bind _ _ (same_identity s)); [by apply post_deref; intros ? [= <-]|].
  intros s1 [Ho1 Hk1]. eapply keeps_local_bind; [apply post_set_public_key|]. intros s2 [Ho2 Hk2].
  assert (J s2) as Hs2.
  { eapply (HJ i t s); [by destruct id as [[]|]|by destruct header as [[]|]|done|done|by etrans|].
    intros key Hk. destruct Hk2 as [E|E]; [right; apply Hp; congruence|left; congruence]. }
  eapply keeps_setter; [exact Hs2|apply post_set_algorithm|]. intros s3 Hs3.
  apply keeps_local_any. intros [c|]; [|done].
  eapply keeps_setter; [exact Hs3|apply post_set_challenge|]. intros s4 Hs4.
  eapply keeps_setter; [exact Hs4|apply post_session_ttl|]. intros s5 Hs5.
  apply keeps_update; [done|intros rc2; by keeps_rest].
Qed.

(** A login stores a session without a key. *)
Lemma keeps_initiate mgr user out resp :
  (∀ s st w rc st' w', G st → I st → s_public_key s = None →
     st_create st (Some s) w = Ret (rc, st') w' → I st' ∧ R st st') →
  keeps G I R (t_initiate mgr user out resp) (λ _, True).
Proof.
  intros Hcreate. unfold t_initiate. destruct mgr as [mgr|]; [|done].
  destruct user as [user|]; [|done]. destruct resp as [resp|]; [|done].
  apply keeps_local_any. intros [rc id]. destruct (negb _); [done|]. do 2 keeps_on.
  eapply keeps_local_bind; [apply post_set_id|]. intros s1 Hs1.
  eapply keeps_local_bind; [apply post_set_user_id|]. intros s2 Hs2.
  eapply (keeps_local_bind _ _ (same_identity s2)); [by apply post_deref; intros ? [= <-]|].
  intros s3 [_ Hs3]. apply keeps_local_any. intros [c|]; [|done].
  eapply keeps_local_bind; [apply post_set_challenge|]. intros s4 [_ Hs4]. keeps_on.
  eapply (keeps_local_bind _ _ (λ s', s_public_key s' = s_public_key s4));
    [by apply post_deref; intros ? [= <-]|].
  intros s5 Hs5. eapply keeps_local_bind; [apply post_session_ttl|]. intros s6 [_ Hs6]. keeps_on.
  apply (keeps_bind G I R _ _ (λ _, True)); [|intros rc6 _; by keeps_rest].
  intros st w rc6 st' w' HG HI Hc. split; [|done]. eapply Hcreate; [done|done| |done].
  etrans; [exact Hs6|]. rewrite Hs5, Hs4, Hs3, Hs2. exact Hs1.
Qed.

Lemma manager_code_keeps mgr (calls : list (list manager_call)) :
  ((∃ user, MInitiate user ∈ concat calls) → ∀ s st w rc st' w',
     G st → I st → s_public_key s = None → st_create st (Some s) w = Ret (rc, st') w' →
     I st' ∧ R st st') →
  (∀ i t s s', MRegister (Some i) (Some t) ∈ concat calls → J s → s_id s = Some i →
     same_owner s s' →
     (∀ key, s_public_key s' = Some key → s_public_key s = Some key ∨ proves_key t key) → J s') →
  ∀ call, call ∈ concat calls → keeps G I R (manager_code mgr call) (λ _, True).
Proof.
  intros Hcreate HJ [user|id|id header|id header|id] Hin; cbn [manager_code].
  - eapply (keeps_bind G I R); [apply keeps_initiate; eauto|]. by intros [[]].
  - eapply (keeps_bind G I R); [apply keeps_get_session|]. by intros [].
  - eapply (keeps_bind G I R); [apply keeps_register|by intros []].
    intros i t s s' -> ->. by apply HJ.
  - eapply (keeps_bind G I R); [apply keeps_refresh|]. by intros [].
  - eapply (keeps_bind G I R); [apply keeps_close|]. by intros [].
Qed.

End keeping.

(** ** Threads over one in-memory store *)

Section memory.
Context `{CJSON, OpenSSL, UUIDv7}.
Implicit Types (ms : OpenDBSC_MemoryStore) (calls : list (list manager_call)).

(** There is room for one more session. *)
Definition has_room ms : Prop := Z.of_nat (ms_count ms) + 1 < 2 ^ 31.

Lemma memory_get_result ms id w rc out ms' w' :
  ms_wf ms → st_get ms (Some id) (Some None) w = Ret (rc, out, ms') w' →
  ms_wf ms' ∧ ms_view ms' ⊆ ms_view ms ∧
  ∀ s, out = Some (Some s) → ms_view ms !! id = Some s ∧ s_id s = Some id.
Proof.
  intros Hwf Hget. pose proof (wp_result _ _ _ _ _ (wp_memory_get ms id None w Hwf) Hget)
    as (_ & Hwf' & _ & now & _ & Hr).
  destruct Hr as [(_ & (s & -> & Hs) & ->)|(_ & -> & Hv)].
  - apply lookup_live_Some in Hs as [Hs _]. split_and!; [done..|]. intros s' [= <-].
    split; [done|]. by apply (store_view_id ms id s).
  - split_and!; [done| |done]. destruct Hv as [[_ ->]|[_ ->]]; [apply delete_subseteq|done].
Qed.

(** A session without an identifier is neither created nor updated. *)
Lemma memory_create_result ms s w rc ms' w' :
  ms_wf ms → has_room ms → st_create ms (Some s) w = Ret (rc, ms') w' →
  ms_wf ms' ∧ ∀ j s', ms_view ms' !! j = Some s' →
    s' = s ∧ s_id s = Some j ∨ ms_view ms !! j = Some s'.
Proof.
  intros Hwf Hroom Hc. destruct (s_id s) as [id|] eqn:Hid.
  - pose proof (wp_result _ _ _ _ _ (wp_memory_create ms s id w Hwf Hroom Hid) Hc)
      as (_ & Hwf' & _ & [[_ ->]|(_ & -> & _)]); (split; [done|]); intros j s' Hj.
    + apply lookup_insert_Some in Hj as [[<- <-]|[_ ?]]; eauto.
    + apply lookup_delete_Some in Hj as [_ ?]. eauto.
  - cbn in Hc. unfold opendbsc_memory_store_create_impl in Hc. rewrite Hid in Hc.
    injection Hc as _ <- _. eauto.
Qed.

Lemma memory_update_result ms s w rc ms' w' :
  ms_wf ms → st_update ms (Some s) w = Ret (rc, ms') w' →
  ms_wf ms' ∧ ∀ j s', ms_view ms' !! j = Some s' →
    s' = s ∧ s_id s = Some j ∧ is_Some (ms_view ms !! j) ∨ ms_view ms !! j = Some s'.
Proof.
  intros Hwf Hc. destruct (s_id s) as [id|] eqn:Hid.
  - pose proof (wp_result _ _ _ _ _ (wp_memory_update ms s id w Hwf Hid) Hc)
      as (_ & Hwf' & _ & [(_ & Hs & ->)|(_ & -> & _)]); (split; [done|]); intros j s' Hj.
    + apply lookup_insert_Some in Hj as [[<- <-]|[_ ?]]; eauto.
    + apply lookup_delete_Some in Hj as [_ ?]. eauto.
  - cbn in Hc. unfold opendbsc_memory_store_update_impl in Hc. rewrite Hid in Hc.
    injection Hc as _ <- _. eauto.
Qed.

Lemma memory_delete_result ms id w rc ms' w' :
  ms_wf ms → st_delete ms (Some id) w = Ret (rc, ms') w' →
  ms_wf ms' ∧ ms_view ms' ⊆ ms_view ms.
Proof.
  intros Hwf Hd. destruct (memory_delete_run ms id w Hwf) as (ms1 & Hrun & Hwf1 & _ & Hv).
  cbn in Hd. rewrite Hrun in Hd. injection Hd as _ <- _. rewrite Hv.
  split; [done|apply delete_subseteq].
Qed.

(** What every stored session satisfies. *)
Definition all_stored (P : string → OpenDBSC_Session → Prop) ms : Prop :=
  ms_wf ms ∧ ∀ j s, ms_view ms !! j = Some s → P j s.

(** [ms'] holds sessions of [ms], or [s] in the place of one. *)
Definition at_most_updated ms ms' (s : OpenDBSC_Session) : Prop :=
  ∀ j s', ms_view ms' !! j = Some s' →
    s' = s ∧ s_id s = Some j ∧ is_Some (ms_view ms !! j) ∨ ms_view ms !! j = Some s'.

Lemma all_stored_subseteq P ms ms' :
  all_stored P ms → ms_wf ms' → ms_view ms' ⊆ ms_view ms → all_stored P ms'.
Proof. intros [_ HP] Hwf Hsub. split; [done|]. intros j s Hj. by eapply HP, lookup_weaken. Qed.

Lemma requests_keep G R `{!PreOrder R} mgr calls (P : string → OpenDBSC_Session → Prop) :
  (∀ ms ms', ms_view ms' ⊆ ms_view ms → R ms ms') →
  (∀ ms ms' s, all_stored P ms → (∀ i, s_id s = Some i → P i s) → at_most_updated ms ms' s →
     R ms ms') →
  ((∃ user, MInitiate user ∈ concat calls) →
     (∀ ms, G ms → has_room ms) ∧ (∀ i s, s_public_key s = None → P i s) ∧ ∀ ms ms', R ms ms') →
  (∀ i s s', same_identity s s' → P i s → P i s') →
  (∀ i t s s', MRegister (Some i) (Some t) ∈ concat calls → P i s → same_owner s s' →
     (∀ key, s_public_key s' = Some key → s_public_key s = Some key ∨ proves_key t key) → P i s') →
  ∀ call, call ∈ concat calls → keeps G (all_stored P) R (manager_code mgr call) (λ _, True).
Proof.
  intros HRsub HRupd Hnew Hsame Hreg.
  apply (manager_code_keeps _ _ _ (λ s, ∀ i, s_id s = Some i → P i s)).
  - intros id ms w rc out ms' w' HI Hget.
    destruct (memory_get_result _ _ _ _ _ _ _ (proj1 HI) Hget) as (Hwf' & Hsub & Hout).
    split; [split; [by eapply all_stored_subseteq|by apply HRsub]|].
    intros s Hs. destruct (Hout s Hs) as [Hs' Hid]. split; [|done].
    intros i Hi. assert (i = id) as -> by congruence. by apply HI.
  - intros s ms w rc ms' w' HI HJ Hu.
    destruct (memory_update_result _ _ _ _ _ _ (proj1 HI) Hu) as [Hwf' Hv].
    split; [|by eapply HRupd]. split; [done|].
    intros j s' Hj. destruct (Hv j s' Hj) as [(-> & Hid & _)|Hj']; [by apply HJ|by apply HI].
  - intros id ms w rc ms' w' HI Hd.
    destruct (memory_delete_result _ _ _ _ _ _ (proj1 HI) Hd) as [Hwf' Hsub].
    split; [by eapply all_stored_subseteq|by apply HRsub].
  - intros s s' Hs HJ i Hi. apply (Hsame i s); [done|]. apply HJ.
    destruct Hs as [[? _] _]. congruence.
  - intros Hlog s ms w rc ms' w' Hg HI Hk Hc. destruct (Hnew Hlog) as (Hroom & HP & HR).
    destruct (memory_create_result _ _ _ _ _ _ (proj1 HI) (Hroom _ Hg) Hc) as [Hwf' Hv].
    split; [|done]. split; [done|].
    intros j s' Hj. destruct (Hv j s' Hj) as [(-> & Hid)|Hj']; [by apply HP|by apply HI].
  - intros i t s s' Hin HJ Hid Ho Hk j Hj.
    assert (j = i) as -> by (destruct Ho as (? & _); congruence). eapply Hreg; eauto.
Qed.

(** Every session of [ms'] was in [ms], under the same owner. *)
Definition sessions_end ms ms' : Prop :=
  ∀ id s', ms_view ms' !! id = Some s' → ∃ s, ms_view ms !! id = Some s ∧ same_owner s s'.

#[local] Instance sessions_end_preorder : PreOrder sessions_end.
Proof.
  split; [by intros ms id s Hs; exists s|]. intros ms1 ms2 ms3 H12 H23 id s3 H3.
  destruct (H23 _ _ H3) as (s2 & H2 & ?). destruct (H12 _ _ H2) as (s1 & ? & ?).
  exists s1. split; [done|by etrans].
Qed.

(** ** Properties *)

(** C18. Keys under concurrency.  Any number of threads make any requests of one
    manager over one in-memory store, interleaved call of the store by call of
    the store, in any environment, as long as the array has room.  At every
    moment the array is well formed, and a session that has a key had it at
    the start, or one of the threads presented a token in a registration of
    that very session that carries the key and is signed under it. *)
Theorem interleaved_keys_proven mgr calls ms w c :
  ms_wf ms →
  rtc (cstep_within has_room (manager_code mgr)) (start calls ms w) c →
  ms_wf (c_obj c) ∧
  ∀ id s key, ms_view (c_obj c) !! id = Some s → s_public_key s = Some key →
    (∃ s0, ms_view ms !! id = Some s0 ∧ s_public_key s0 = Some key) ∨
    ∃ token, MRegister (Some id) (Some token) ∈ concat calls ∧ proves_key token key.
Proof.
  intros Hwf Hrun.
  set (P id s := ∀ key, s_public_key s = Some key →
    (∃ s0, ms_view ms !! id = Some s0 ∧ s_public_key s0 = Some key) ∨
    ∃ token, MRegister (Some id) (Some token) ∈ concat calls ∧ proves_key token key).
  assert (PreOrder (λ _ _ : OpenDBSC_MemoryStore, True)) by by split.
  destruct (interleavings_keep has_room (all_stored P) (λ _ _, True) (manager_code mgr)
    calls ms w c c) as [[Hwf' HP] _]; [|split; [done|]; intros id s; left; eauto|done|done|].
  - apply requests_keep; try done; unfold P.
    + intros _. split_and!; [done| |done]. congruence.
    + intros i s s' [_ Hk]. by rewrite Hk.
    + intros i t s s' Hin HP _ Hk key Hkey. destruct (Hk key Hkey) as [?|?]; [eauto|right; eauto].
  - split; [done|]. intros id s key Hs. by apply (HP id).
Qed.

(** C19. Sessions end for good, and keep their owner.  While the threads only
    register, refresh, close and look up sessions, a session that is gone from
    the store does not come back, not even when a request that had read it
    before goes on to write it; and the sessions that stay keep their
    identifier, their user and the time of their creation. *)
Theorem interleaved_sessions_only_end mgr calls ms w c c' :
  ms_wf ms → (∀ user, MInitiate user ∉ concat calls) →
  rtc (cstep (manager_code mgr)) (start calls ms w) c → rtc (cstep (manager_code mgr)) c c' →
  sessions_end (c_obj c) (c_obj c').
Proof.
  intros Hwf Hno Hrun Hmore.
  set (P id s := ∃ s0, ms_view ms !! id = Some s0 ∧ same_owner s0 s).
  assert (∀ x y, rtc (cstep (manager_code mgr)) x y →
    rtc (cstep_within (λ _, True) (manager_code mgr)) x y) as Hsub.
  { intros x y. apply rtc_subrel. by split. }
  refine (proj2 (interleavings_keep (λ _, True) (all_stored P) sessions_end (manager_code mgr)
    calls ms w c c'
_ _ (Hsub _ _ Hrun) (Hsub _ _ Hmore))); [|split; [done|]; intros id s; by exists s].
  apply requests_keep; [apply _|unfold P..].
  - intros ms1 ms2 Hv id s Hs. exists s. split; [by eapply lookup_weaken|done].
  - intros ms1 ms2 s [_ Hall] HJ Hv id s' Hs'.
    destruct (Hv id s' Hs') as [(-> & Hid & s1 & Hs1)|]; [|by exists s'].
    exists s1. split; [done|]. destruct (Hall _ _ Hs1) as (s0 & Hs0 & (? & ? & ?)).
    destruct (HJ id Hid) as (s0' & Hs0' & (? & ? & ?)). simplify_eq. split_and!; congruence.
  - intros [user Hu]. by destruct (Hno user).
  - intros i s s' [Ho _] (s0 & ? & ?). exists s0. split; [done|by etrans].
  - intros i t s s' _ (s0 & ? & ?) Ho _. exists s0. split; [done|by etrans].
Qed.

End memory.

(** ** Witnesses *)

(** The first thread reads its session, then the second one does; each goes on
    to its end, in the order given. *)
Definition race_turns (first second : nat) : list nat :=
  replicate 3 0%nat ++ replicate 3 1%nat ++ replicate 60 first ++ replicate 60 second.

Definition race (calls : list (list manager_call)) (first second : nat) : config :=
  schedule (manager_code demo_manager) (race_turns first second) (start calls demo_store demo_world).

Definition replies (c : @config OpenDBSC_MemoryStore manager_call manager_reply)
    : list (list Z) :=
  (λ th, (λ r, match r with
               | MAnswer 0 (Some resp) => status_code resp
               | MAnswer rc _ | MSession rc _ => rc
               end) <$> th_done th) <$> c_threads c.

(** A token is worth two refreshes when two threads race with it.  The manager
    compares the challenge of the session it has read, and the store it writes
    to does not: both requests are granted, where of two requests made one after
    the other the second one is refused. *)
Lemma racing_refreshes_both_granted :
  let b := MRefresh (Some "b") (Some demo_refresh_token) in
  rtc (cstep (manager_code demo_manager)) (start [[b]; [b]] demo_store demo_world)
    (race [[b]; [b]] 0 1) ∧
  replies (race [[b]; [b]] 0 1) = [[200]; [200]] ∧
  replies (schedule (manager_code demo_manager) (replicate 60 0%nat ++ replicate 60 1%nat)
             (start [[b]; [b]] demo_store demo_world)) = [[200]; [403]].
Proof. split; [apply schedule_steps|]. split; vm_compute; reflexivity. Qed.

Definition register_calls : list (list manager_call) :=
  [[MRegister (Some "a") (Some sample_token)];
   [MRefresh (Some "b") (Some demo_refresh_token); MInitiate (Some "carol")]].

Lemma interleaved_keys_proven_witness :
  ∃ s key, ms_wf demo_store ∧
    rtc (cstep_within has_room (manager_code demo_manager))
      (start register_calls demo_store demo_world) (race register_calls 1 0) ∧
    ms_view (c_obj (race register_calls 1 0)) !! "a" = Some s ∧ s_public_key s = Some key ∧
    proves_key sample_token key.
Proof.
  assert (ms_wf demo_store) as Hwf by apply demo_up.
  assert (rtc (cstep_within has_room (manager_code demo_manager))
    (start register_calls demo_store demo_world) (race register_calls 1 0)) as Hrun.
  { apply (schedule_within has_room _ (λ ms, Z.of_nat (ms_count ms) + 1 <? 2 ^ 31));
      [intros ms; apply Z.ltb_lt|vm_compute; reflexivity]. }
  destruct (ms_view (c_obj (race register_calls 1 0)) !! "a") as [s|] eqn:Hs;
    [|exfalso; revert Hs; vm_compute; congruence].
  destruct (s_public_key s) as [key|] eqn:Hk.
  2:{ exfalso. assert (ms_view (c_obj (race register_calls 1 0)) !! "a" ≫= s_public_key = None)
        as E by (by rewrite Hs). revert E. vm_compute. congruence. }
  exists s, key. do 4 (split; [done|]).
  destruct (interleaved_keys_proven demo_manager register_calls demo_store demo_world _ Hwf Hrun)
    as [_ Hall].
  destruct (Hall "a" s key Hs Hk) as [(s0 & Hs0 & Hk0)|(token & Hin & Hp)].
  - exfalso. assert (ms_view demo_store !! "a" ≫= s_public_key = Some key) as E by (by rewrite Hs0).
    revert E. vm_compute. congruence.
  - cbn in Hin. apply elem_of_cons in Hin as [[= ->]|Hin]; [done|].
    exfalso. by repeat apply elem_of_cons in Hin as [[=]|Hin]; apply elem_of_nil in Hin.
Defined.

Definition close_calls : list (list manager_call) :=
  [[MRefresh (Some "b") (Some demo_refresh_token)]; [MClose (Some "b")]].

(** The refresh has read the session when it is closed: it finds nothing to
    write, answers with an internal error, and the session stays closed. *)
Lemma interleaved_sessions_only_end_witness :
  ms_wf demo_store ∧ (∀ user, MInitiate user ∉ concat close_calls) ∧
  replies (race close_calls 1 0) = [[-1]; [200]] ∧
  ms_view (c_obj (race close_calls 1 0)) !! "b" = None ∧
  sessions_end demo_store (c_obj (race close_calls 1 0)).
Proof.
  assert (ms_wf demo_store) as Hwf by apply demo_up.
  assert (∀ user, MInitiate user ∉ concat close_calls) as Hno.
  { intros user Hin. cbn in Hin. by repeat apply elem_of_cons in Hin as [[=]|Hin]; apply elem_of_nil in Hin. }
  split; [done|]. split; [done|]. split; [vm_compute; reflexivity|].
  split; [vm_compute; reflexivity|].
  exact (interleaved_sessions_only_end demo_manager close_calls demo_store demo_world
           (start close_calls demo_store demo_world) _ Hwf Hno (rtc_refl _ _) (schedule_steps _ _ _)).
Defined.
