(* ===== verification/ManagerHeap.v ===== *)
(** [src/manager/manager.c] over the heap of [Heap.v] and the in-memory store of
    [MemoryHeap.v]: the strings of the manager, of the responses and of the
    proofs, the session that a request fetches, and every [free] and
    [free_sessions] of the file.  The functions are those of [Manager.v] with
    pointers for strings, for a manager and a response that are not NULL.  The
    serializers, the generator of challenges and the verification of tokens
    read live strings and give back strings that the caller owns;
    [ManagerOwnership.v] and [RequestOwnership.v] show what becomes of all the
    blocks. *)

From S2P Require Export MemoryOwnership InstructionHeap Manager.
From stdpp Require Import options.
#[local] Open Scope Z_scope.

(** ** Data *)

Record manager_of (S : Type) := ManagerOf {
  hm_store : bool;
  hm_cookie_name : option S;
  hm_cookie_path : option S;
  hm_cookie_domain : option S;
  hm_secure : bool;
  hm_same_site : option S;
  hm_cookie_ttl_seconds : Z;
  hm_session_ttl_seconds : Z;
  hm_authorization : option S;
  hm_on_event : bool
}.
Arguments ManagerOf {_} _ _ _ _ _ _ _ _ _ _.
Arguments hm_store {_} _.
Arguments hm_cookie_name {_} _.
Arguments hm_cookie_path {_} _.
Arguments hm_cookie_domain {_} _.
Arguments hm_secure {_} _.
Arguments hm_same_site {_} _.
Arguments hm_cookie_ttl_seconds {_} _.
Arguments hm_session_ttl_seconds {_} _.
Arguments hm_authorization {_} _.
Arguments hm_on_event {_} _.

Record response_of (S : Type) := ResponseOf {
  hp_status_code : Z;
  hp_set_cookie : option S;
  hp_registration_header : option S;
  hp_challenge_header : option S;
  hp_body : option S
}.
Arguments ResponseOf {_} _ _ _ _ _.
Arguments hp_status_code {_} _.
Arguments hp_set_cookie {_} _.
Arguments hp_registration_header {_} _.
Arguments hp_challenge_header {_} _.
Arguments hp_body {_} _.

Record proof_of (S : Type) := ProofOf {
  hj_algorithm : option S;
  hj_type : option S;
  hj_jwk : option S;
  hj_challenge : option S;
  hj_authorization : option S;
  hj_signature : option S
}.
Arguments ProofOf {_} _ _ _ _ _ _.
Arguments hj_algorithm {_} _.
Arguments hj_type {_} _.
Arguments hj_jwk {_} _.
Arguments hj_challenge {_} _.
Arguments hj_authorization {_} _.
Arguments hj_signature {_} _.

Definition h_response_default {S} : response_of S := ResponseOf 0 None None None None.
Definition h_proof_default {S} : proof_of S := ProofOf None None None None None None.

(** ** Helpers *)

(** [opendbsc_manager_response_free]. *)
Definition h_response_free (resp : response_of ptr) : HC (response_of ptr) :=
  h_free (hp_set_cookie resp);;
  h_free (hp_registration_header resp);;
  h_free (hp_challenge_header resp);;
  h_free (hp_body resp);;
  mret h_response_default.

(** [opendbsc_proof_jwt_free]. *)
Definition h_proof_free (p : proof_of ptr) : HC (proof_of ptr) :=
  h_free (hj_algorithm p);;
  h_free (hj_type p);;
  h_free (hj_jwk p);;
  h_free (hj_challenge p);;
  h_free (hj_authorization p);;
  h_free (hj_signature p);;
  mret h_proof_default.

(** The configuration as the code reads it. *)
Definition h_read_manager (mgr : manager_of ptr) : HC OpenDBSC_Manager :=
  cookie_name ← h_read (hm_cookie_name mgr);
  cookie_path ← h_read (hm_cookie_path mgr);
  cookie_domain ← h_read (hm_cookie_domain mgr);
  same_site ← h_read (hm_same_site mgr);
  authorization ← h_read (hm_authorization mgr);
  mret (ManagerConfig (hm_store mgr) cookie_name cookie_path cookie_domain (hm_secure mgr)
          same_site (hm_cookie_ttl_seconds mgr) (hm_session_ttl_seconds mgr) authorization
          (hm_on_event mgr)).

(** [copy_string], and the copy of a default, which is a literal. *)
Definition h_copy_string (s : option ptr) : HC (option ptr) :=
  match s with None => mret None | Some p => s ← h_str p; h_strdup s end.
Definition h_copy_or (s : option ptr) (d : string) : HC (option ptr) :=
  match s with None => h_strdup d | Some p => h_copy_string (Some p) end.

Definition h_manager_init (cfg : manager_of ptr) : HC (Z * option (manager_of ptr)) :=
  if negb (hm_store cfg) then mret (-1, None) else
  cookie_name ← h_copy_or (hm_cookie_name cfg) OPENDBSC_DEFAULT_COOKIE_NAME;
  cookie_path ← h_copy_or (hm_cookie_path cfg) OPENDBSC_DEFAULT_COOKIE_PATH;
  cookie_domain ← h_copy_string (hm_cookie_domain cfg);
  same_site ← h_copy_or (hm_same_site cfg) OPENDBSC_DEFAULT_SAME_SITE;
  authorization ← h_copy_string (hm_authorization cfg);
  let cookie_ttl_seconds :=
    if hm_cookie_ttl_seconds cfg =? 0 then OPENDBSC_DEFAULT_COOKIE_TTL
    else hm_cookie_ttl_seconds cfg in
  mret (0, Some (ManagerOf (hm_store cfg) cookie_name cookie_path cookie_domain (hm_secure cfg)
                   same_site cookie_ttl_seconds (hm_session_ttl_seconds cfg) authorization
                   (hm_on_event cfg))).

Definition h_manager_destroy (mgr : manager_of ptr) : HC unit :=
  h_free (hm_cookie_name mgr);;
  h_free (hm_cookie_path mgr);;
  h_free (hm_cookie_domain mgr);;
  h_free (hm_same_site mgr);;
  h_free (hm_authorization mgr).

(** [p == NULL || p[0] == '\0' ? NULL : p]. *)
Definition h_nonempty (p : option ptr) : HC (option ptr) :=
  s ← h_read p; mret (match nonempty s with Some _ => p | None => None end).

(** [resp->status_code = status; resp->body = strdup(text);] *)
Definition h_message_response (resp : response_of ptr) (status : Z) (text : string)
    : HC (response_of ptr) :=
  b ← h_strdup (dquoted text);
  mret (ResponseOf status (hp_set_cookie resp) (hp_registration_header resp)
          (hp_challenge_header resp) b).

Definition h_challenge_serialize (challenge session_id : option ptr) : HC (option ptr) :=
  c ← h_read challenge;
  i ← h_read session_id;
  text ← lift (opendbsc_challenge_serialize c i);
  h_own text.

Definition h_set_challenge_response (resp : response_of ptr) (challenge session_id : option ptr)
    (status : Z) : HC (response_of ptr) :=
  header ← h_challenge_serialize challenge session_id;
  b ← h_strdup (dquoted "Secure-Session-Challenge issued");
  mret (ResponseOf status (hp_set_cookie resp) (hp_registration_header resp) header b).

Definition h_build_set_cookie_with_max_age (mgr : manager_of ptr) (value : option ptr)
    (max_age : Z) : HC (option ptr) :=
  m ← h_read_manager mgr;
  v ← h_read value;
  cookie ← lift (build_set_cookie_with_max_age m v max_age);
  h_own cookie.

Definition h_build_set_cookie (mgr : manager_of ptr) (value : option ptr) : HC (option ptr) :=
  h_build_set_cookie_with_max_age mgr value (hm_cookie_ttl_seconds mgr).

Definition h_generate_challenge : HC (option ptr) :=
  c ← lift opendbsc_manager_generate_challenge; h_own c.

Definition h_apply_session_ttl (session : h_session) (ttl_seconds : Z) : HC h_session :=
  if 0 <? ttl_seconds then
    now ← lift time_NULL;
    mret (h_with_expires (now + ttl_seconds) (bool_decide (now + ttl_seconds ≠ 0)) session)
  else mret (h_with_expires 0 false session).

Definition h_emit_event (mgr : manager_of ptr) (type : string) (user session_id : option ptr)
    (detail : string) : HC unit :=
  m ← h_read_manager mgr;
  u ← h_read user;
  i ← h_read session_id;
  lift (emit_event m type u i (Some detail)).

Definition h_registration_serialize (challenge authorization : option ptr) : HC (option ptr) :=
  c ← h_read challenge;
  a ← h_read authorization;
  text ← lift (opendbsc_registration_serialize (Some [Some "ES256"; Some "RS256"]) 2
                 (Some "/dbsc/register") c a None None None);
  h_own text.

(** [set_string] of a string that is not on the heap, a literal or an array of
    the caller, and the setters that are called with one. *)
Definition h_set_literal (field : option ptr) (s : string) : HC (Z * option ptr) :=
  copy ← h_strdup s;
  match copy with
  | None => mret (-1, field)
  | Some _ => h_free field;; mret (0, copy)
  end.
Definition h_session_set_id_literal (session : h_session) (s : string)
    : HC (Z * option h_session) :=
  '(rc, f) ← h_set_literal (h_id session) s; mret (rc, Some (h_with_id f session)).
Definition h_instruction_set_refresh_url_literal (i : instruction_of ptr) (s : string)
    : HC (Z * instruction_of ptr) :=
  '(rc, f) ← h_set_literal (hi_refresh_url i) s; mret (rc, hi_with_refresh_url f i).
Definition h_credential_set_type_literal (c : credential_of ptr) (s : string)
    : HC (Z * credential_of ptr) :=
  '(rc, f) ← h_set_literal (hc_type c) s; mret (rc, CredentialOf f (hc_name c) (hc_attributes c)).

(** A setter of a session whose return code is ignored. *)
Definition h_ignore (m : HC (Z * option h_session)) : HC h_session :=
  '(_, s) ← m; h_deref s.

(** [malloc] and [sprintf] of the attributes of the credential. *)
Definition cookie_attributes (mgr : OpenDBSC_Manager) : C cstr :=
  path ← need_str (cfg_cookie_path mgr);
  same_site ← need_str (cfg_same_site mgr);
  let text := "Path=" +:+ path +:+ "; Secure; HttpOnly; SameSite=" +:+ same_site in
  attrs ← malloc_buf (String.length text + 1);
  match attrs with
  | None => mret None
  | Some attrs => attrs ← sprintf attrs text; a ← buf_cstr attrs; mret (Some a)
  end.

(** A proof whose strings are owned. *)
Definition h_own_proof (p : OpenDBSC_ProofJWT) : HC (proof_of ptr) :=
  algorithm ← h_own (p_algorithm p);
  type ← h_own (p_type p);
  jwk ← h_own (p_jwk p);
  challenge ← h_own (p_challenge p);
  authorization ← h_own (p_authorization p);
  signature ← h_own (p_signature p);
  mret (ProofOf algorithm type jwk challenge authorization signature).

(** A request of a program. *)
Inductive request_of (S : Type) :=
| HLogin (user_id : option S) (out : bool)
| HSession (cookie : option S)
| HRegister (cookie header : option S)
| HRefresh (session_id header : option S)
| HClose (session_id : option S).
Arguments HLogin {_} _ _.
Arguments HSession {_} _.
Arguments HRegister {_} _ _.
Arguments HRefresh {_} _ _.
Arguments HClose {_} _.

Section manager.
Context `{CJSON, OpenSSL, UUIDv7}.

Definition h_build_instruction_body (mgr : manager_of ptr) (session : h_session)
    (continue_session : bool) : HC (option ptr) :=
  let inst := h_instruction_default in
  if negb continue_session then
    let inst := h_instruction_set_continue inst false in
    body ← h_instruction_to_string inst;
    h_instruction_free inst;;
    mret body
  else
    let inst := h_instruction_set_continue inst true in
    '(_, inst) ← h_instruction_set_session_identifier inst (h_id session);
    '(_, inst) ← h_instruction_set_refresh_url_literal inst "/dbsc/refresh";
    let inst := hi_with_scope (h_scope_set_include_site (hi_scope inst) 0) inst in
    let cred := h_credential_default in
    '(_, cred) ← h_credential_set_type_literal cred "cookie";
    '(_, cred) ← h_credential_set_name cred (hm_cookie_name mgr);
    m ← h_read_manager mgr;
    text ← lift (cookie_attributes m);
    attrs ← h_own text;
    cred ← (match attrs with
            | None => mret cred
            | Some _ =>
                '(_, cred) ← h_credential_set_attributes cred attrs;
                h_free attrs;;
                mret cred
            end);
    '(_, inst) ← h_instruction_add_credential inst (Some cred);
    h_credential_free cred;;
    body ← h_instruction_to_string inst;
    h_instruction_free inst;;
    mret body.

(** The decoded proof is the caller's whatever the verdict.  [jwt.c] itself runs
    on values: what it allocates and frees before it returns (the decoded parts,
    the trees, the key, the digest context) is not on the heap. *)
Definition h_jwt_decode_and_verify (token : option ptr) : HC (Z * proof_of ptr) :=
  t ← h_read token;
  '(rc, p) ← lift (on_local (opendbsc_jwt_decode_and_verify t) proof_default);
  p ← h_own_proof p;
  mret (rc, p).

Definition h_jwt_verify_with_jwk (token jwk_json : option ptr) : HC (Z * proof_of ptr) :=
  t ← h_read token;
  k ← h_read jwk_json;
  '(rc, p) ← lift (on_local (opendbsc_jwt_verify_with_jwk t k) proof_default);
  p ← h_own_proof p;
  mret (rc, p).

Definition h_challenge_matches (proof : proof_of ptr) (session : h_session) : HC bool :=
  match hj_challenge proof with
  | None => mret false
  | Some c => c ← h_str c; d ← h_read (h_challenge session);
              lift (d ← need_str d; mret (String.eqb c d))
  end.

(** The negation of [mgr->cfg.authorization != NULL && (proof.authorization ==
    NULL || strcmp(...) != 0)]. *)
Definition h_authorization_ok (mgr : manager_of ptr) (proof : proof_of ptr) : HC bool :=
  match hm_authorization mgr with
  | None => mret true
  | Some a => h_str_is (hj_authorization proof) a
  end.

(** ** Requests *)

(** [mgr->cfg.store->...] *)
Definition h_need_store (mgr : manager_of ptr) : HC unit :=
  if hm_store mgr then mret tt else h_ub.

(** [session->...] on what [get] answered. *)
Definition h_session_at (b : option h_block) : HC (ptr * h_session) :=
  match b with Some (p, [s]) => h_live (Some p);; mret (p, s) | _ => h_ub end.

(** [free_sessions(impl, session, 1)] when the struct at [p] holds [s]. *)
Definition h_free_session (p : ptr) (s : h_session) : HC unit :=
  h_free_sessions_impl (Some (p, [s])) 1.

Definition h_initiate (mgr : manager_of ptr) (user_id : option ptr)
    (out_session : option h_session) (ms : h_store)
    : HC (Z * option h_session * response_of ptr * h_store) :=
  let resp := h_response_default in
  match user_id with
  | None => mret (-1, out_session, resp, ms)
  | Some _ =>
      '(rc, id) ← lift (opendbsc_session_new_id (Some (CBuf 37 None)));
      if negb (rc =? 0) then mret (-1, out_session, resp, ms) else
      text ← lift (id ← deref id; buf_cstr id);
      let session := h_default in
      session ← h_ignore (h_session_set_id_literal session text);
      session ← h_ignore (h_session_set_user_id (Some session) user_id);
      let session := h_with_state OPENDBSC_SESSION_STATE_ACTIVE session in
      challenge ← h_generate_challenge;
      match challenge with
      | None => h_session_free (Some session);; mret (-1, out_session, resp, ms)
      | Some _ =>
          session ← h_ignore (h_session_set_challenge (Some session) challenge);
          h_free challenge;;
          now ← lift time_NULL;
          let session := h_with_created_at now session in
          session ← h_apply_session_ttl session (hm_session_ttl_seconds mgr);
          h_need_store mgr;;
          '(rc, ms) ← h_create_impl ms (Some session);
          if negb (rc =? 0) then
            h_session_free (Some session);; mret (-1, out_session, resp, ms)
          else
          cookie ← h_build_set_cookie mgr (h_id session);
          header ← h_registration_serialize (h_challenge session) (hm_authorization mgr);
          out_session ← (match out_session with
                         | None => mret None
                         | Some out =>
                             '(_, out) ← h_session_copy (Some out) (Some session);
                             mret out
                         end);
          h_emit_event mgr "LOGIN" user_id (h_id session) "login successful";;
          h_session_free (Some session);;
          mret (0, out_session, ResponseOf 200 cookie header None None, ms)
      end
  end.

Definition h_get_session (mgr : manager_of ptr) (cookie_session_id : option ptr) (out : bool)
    (ms : h_store) : HC (Z * option h_block * h_store) :=
  match cookie_session_id, out with
  | Some _, true => h_need_store mgr;; h_get_impl ms cookie_session_id true
  | _, _ => mret (-1, None, ms)
  end.

(** [set_challenge_response], then [opendbsc_proof_jwt_free] where the code
    has it, [free_sessions] and [return 0]. *)
Definition h_refuse (p : ptr) (s : h_session) (proof : option (proof_of ptr)) (ms : h_store)
    : HC (Z * response_of ptr * h_store) :=
  resp ← h_set_challenge_response h_response_default (h_challenge s) (h_id s) 403;
  (match proof with None => mret tt | Some proof => h_proof_free proof;; mret tt end);;
  h_free_session p s;;
  mret (0, resp, ms).

Definition h_register (mgr : manager_of ptr) (cookie_session_id session_response_header : option ptr)
    (ms : h_store) : HC (Z * response_of ptr * h_store) :=
  let resp := h_response_default in
  cookie_session_id ← h_nonempty cookie_session_id;
  match cookie_session_id with
  | None => r ← h_message_response resp 401 "missing session cookie"; mret (0, r, ms)
  | Some _ =>
      h_need_store mgr;;
      '(rc, session, ms) ← h_get_impl ms cookie_session_id true;
      if negb (rc =? 0) then
        r ← h_message_response resp 401 "invalid session"; mret (0, r, ms)
      else
      '(p, s) ← h_session_at session;
      if negb (bool_decide (h_state s = OPENDBSC_SESSION_STATE_ACTIVE)) then
        h_free_session p s;;
        r ← h_message_response resp 400 "session is not in active state for registration";
        mret (0, r, ms)
      else
      header ← h_nonempty session_response_header;
      match header with
      | None => h_refuse p s None ms
      | Some _ =>
          '(rc, proof) ← h_jwt_decode_and_verify header;
          if negb (rc =? 0) then h_refuse p s None ms else
          challenge_ok ← h_challenge_matches proof s;
          if negb challenge_ok then h_refuse p s (Some proof) ms else
          authorization_ok ← h_authorization_ok mgr proof;
          if negb authorization_ok then h_refuse p s (Some proof) ms else
          let s := h_with_state OPENDBSC_SESSION_STATE_BOUND s in
          s ← h_ignore (h_session_set_public_key (Some s) (hj_jwk proof));
          s ← h_ignore (h_session_set_algorithm (Some s) (hj_algorithm proof));
          new_challenge ← h_generate_challenge;
          match new_challenge with
          | None => h_proof_free proof;; h_free_session p s;; mret (-1, resp, ms)
          | Some _ =>
              s ← h_ignore (h_session_set_challenge (Some s) new_challenge);
              h_free new_challenge;;
              s ← h_apply_session_ttl s (hm_session_ttl_seconds mgr);
              '(rc, ms) ← h_update_impl ms (Some s);
              if negb (rc =? 0) then
                h_proof_free proof;; h_free_session p s;; mret (-1, resp, ms)
              else
              (alg ← h_read (hj_algorithm proof);
               alg ← lift (need_str alg);
               h_emit_event mgr "REGISTER" (h_user_id s) (h_id s)
                 (str_take 255 ("alg=" +:+ alg)));;
              cookie ← h_build_set_cookie mgr (h_id s);
              header ← h_challenge_serialize (h_challenge s) (h_id s);
              body ← h_build_instruction_body mgr s true;
              h_proof_free proof;;
              h_free_session p s;;
              mret (0, ResponseOf 200 cookie None header body, ms)
          end
      end
  end.

(** The proof is not freed when the challenge or the update fails. *)
Definition h_refresh (mgr : manager_of ptr) (session_id session_response_header : option ptr)
    (ms : h_store) : HC (Z * response_of ptr * h_store) :=
  let resp := h_response_default in
  session_id ← h_nonempty session_id;
  match session_id with
  | None => r ← h_message_response resp 400 "missing session identification"; mret (0, r, ms)
  | Some _ =>
      h_need_store mgr;;
      '(rc, session, ms) ← h_get_impl ms session_id true;
      if negb (rc =? 0) then
        r ← h_message_response resp 401 "invalid session"; mret (0, r, ms)
      else
      '(p, s) ← h_session_at session;
      if negb (bool_decide (h_state s = OPENDBSC_SESSION_STATE_BOUND)) then
        h_free_session p s;;
        r ← h_message_response resp 400 "session is not bound"; mret (0, r, ms)
      else
      header ← h_nonempty session_response_header;
      match header with
      | None => h_refuse p s None ms
      | Some _ =>
          '(rc, proof) ← (match h_public_key s with
                          | None => mret (-1, h_proof_default)
                          | Some _ => h_jwt_verify_with_jwk header (h_public_key s)
                          end);
          if negb (rc =? 0) then h_refuse p s None ms else
          challenge_ok ← h_challenge_matches proof s;
          if negb challenge_ok then h_refuse p s (Some proof) ms else
          new_challenge ← h_generate_challenge;
          match new_challenge with
          | None => h_free_session p s;; mret (-1, resp, ms)
          | Some _ =>
              s ← h_ignore (h_session_set_challenge (Some s) new_challenge);
              h_free new_challenge;;
              s ← h_apply_session_ttl s (hm_session_ttl_seconds mgr);
              '(rc, ms) ← h_update_impl ms (Some s);
              if negb (rc =? 0) then h_free_session p s;; mret (-1, resp, ms) else
              h_emit_event mgr "REFRESH" (h_user_id s) (h_id s) "session extended";;
              cookie ← h_build_set_cookie mgr (h_id s);
              header ← h_challenge_serialize (h_challenge s) (h_id s);
              body ← h_build_instruction_body mgr s true;
              h_proof_free proof;;
              h_free_session p s;;
              mret (0, ResponseOf 200 cookie None header body, ms)
          end
      end
  end.

(** When the deletion fails the cookie and the body stay in the response. *)
Definition h_close (mgr : manager_of ptr) (session_id : option ptr) (ms : h_store)
    : HC (Z * response_of ptr * h_store) :=
  let resp := h_response_default in
  session_id ← h_nonempty session_id;
  match session_id with
  | None => r ← h_message_response resp 400 "missing session identification"; mret (0, r, ms)
  | Some _ =>
      h_need_store mgr;;
      '(rc, session, ms) ← h_get_impl ms session_id true;
      if negb (rc =? 0) then
        r ← h_message_response resp 401 "invalid session"; mret (0, r, ms)
      else
      '(p, s) ← h_session_at session;
      user_id ← h_copy_string (h_user_id s);
      if negb (bool_decide (h_user_id s = None)) && bool_decide (user_id = None) then
        h_free_session p s;; mret (-1, resp, ms)
      else
      body ← h_build_instruction_body mgr s false;
      match body with
      | None => h_free user_id;; h_free_session p s;; mret (-1, resp, ms)
      | Some _ =>
          cookie ← h_build_set_cookie_with_max_age mgr (h_id s) 0;
          let resp := ResponseOf 200 cookie None None body in
          '(rc, ms) ← h_delete_impl ms session_id;
          if negb (rc =? 0) then
            h_free user_id;; h_free_session p s;; mret (-1, resp, ms)
          else
          h_emit_event mgr "CLOSE" user_id session_id "session closed";;
          h_free user_id;;
          h_free_session p s;;
          mret (0, resp, ms)
      end
  end.

(** ** Programs

    A program that sets up a store and a manager, makes requests, gives back
    what each answered, as the HTTP server does, and tears both down. *)

(** What the caller sees: the code, the session and the response. *)
Definition answer : Type := Z * option OpenDBSC_Session * OpenDBSC_ManagerResponse.

Definition h_read_response (r : response_of ptr) : HC OpenDBSC_ManagerResponse :=
  cookie ← h_read (hp_set_cookie r);
  registration ← h_read (hp_registration_header r);
  challenge ← h_read (hp_challenge_header r);
  body ← h_read (hp_body r);
  mret (ManagerResponse (hp_status_code r) cookie registration challenge body).

Definition h_read_session (s : h_session) : HC OpenDBSC_Session :=
  id ← h_read (h_id s);
  user_id ← h_read (h_user_id s);
  public_key ← h_read (h_public_key s);
  algorithm ← h_read (h_algorithm s);
  challenge ← h_read (h_challenge s);
  mret (Session id user_id (h_state s) public_key algorithm challenge (h_expires_at s)
          (h_has_expires s) (h_created_at s)).

(** The response is sent and freed. *)
Definition h_deliver (r : Z * response_of ptr * h_store) : HC (answer * h_store) :=
  let '(rc, resp, ms) := r in
  v ← h_read_response resp;
  h_response_free resp;;
  mret (rc, None, v, ms).

Definition h_serve (mgr : manager_of ptr) (req : request_of ptr) (ms : h_store)
    : HC (answer * h_store) :=
  match req with
  | HLogin user_id out =>
      '(rc, out, resp, ms) ← h_initiate mgr user_id (if out : bool then Some h_default else None) ms;
      v ← h_read_response resp;
      h_response_free resp;;
      match out with
      | None => mret (rc, None, v, ms)
      | Some s => s' ← h_read_session s; h_session_free (Some s);; mret (rc, Some s', v, ms)
      end
  | HSession cookie =>
      '(rc, b, ms) ← h_get_session mgr cookie true ms;
      match b with
      | None => mret (rc, None, response_default, ms)
      | Some _ =>
          '(p, s) ← h_session_at b;
          s' ← h_read_session s;
          h_free_session p s;;
          mret (rc, Some s', response_default, ms)
      end
  | HRegister cookie header => r ← h_register mgr cookie header ms; h_deliver r
  | HRefresh session_id header => r ← h_refresh mgr session_id header ms; h_deliver r
  | HClose session_id => r ← h_close mgr session_id ms; h_deliver r
  end.

Fixpoint h_serve_all (mgr : manager_of ptr) (reqs : list (request_of ptr)) (ms : h_store)
    : HC (list answer * h_store) :=
  match reqs with
  | [] => mret ([], ms)
  | req :: reqs =>
      '(a, ms) ← h_serve mgr req ms;
      '(l, ms) ← h_serve_all mgr reqs ms;
      mret (a :: l, ms)
  end.

Definition h_manager_program (cfg : manager_of ptr) (reqs : list (request_of ptr))
    : HC (option (list answer)) :=
  ms ← h_store_create;
  match ms with
  | None => mret None
  | Some ms =>
      '(rc, mgr) ← h_manager_init cfg;
      match mgr with
      | None => h_destroy_impl (Some ms);; mret None
      | Some mgr =>
          '(l, ms) ← h_serve_all mgr reqs ms;
          h_manager_destroy mgr;;
          h_destroy_impl (Some ms);;
          mret (Some l)
      end
  end.

(** The same program on values. *)
Definition serve (mgr : OpenDBSC_Manager) (req : request_of (ptr * string))
    (ms : OpenDBSC_MemoryStore) : C (answer * OpenDBSC_MemoryStore) :=
  let answered (r : Z * option OpenDBSC_ManagerResponse * OpenDBSC_MemoryStore)
      : C (answer * OpenDBSC_MemoryStore) :=
    let '(rc, resp, ms) := r in resp ← deref resp; mret (rc, None, resp, ms) in
  match req with
  | HLogin user_id out =>
      '(rc, out, resp, ms) ← opendbsc_manager_initiate (Some mgr) (snd <$> user_id)
          (if out : bool then Some session_default else None) (Some response_default) ms;
      resp ← deref resp;
      mret (rc, out, resp, ms)
  | HSession cookie =>
      '(rc, s, ms) ← opendbsc_manager_get_session (Some mgr) (snd <$> cookie) (Some None) ms;
      s ← deref s;
      mret (rc, s, response_default, ms)
  | HRegister cookie header =>
      opendbsc_manager_register (Some mgr) (snd <$> cookie) (snd <$> header)
        (Some response_default) ms ≫= answered
  | HRefresh session_id header =>
      opendbsc_manager_refresh (Some mgr) (snd <$> session_id) (snd <$> header)
        (Some response_default) ms ≫= answered
  | HClose session_id =>
      opendbsc_manager_close (Some mgr) (snd <$> session_id) (Some response_default) ms ≫= answered
  end.

Fixpoint serve_all (mgr : OpenDBSC_Manager) (reqs : list (request_of (ptr * string)))
    (ms : OpenDBSC_MemoryStore) : C (list answer * OpenDBSC_MemoryStore) :=
  match reqs with
  | [] => mret ([], ms)
  | req :: reqs =>
      '(a, ms) ← serve mgr req ms;
      '(l, ms) ← serve_all mgr reqs ms;
      mret (a :: l, ms)
  end.

Definition manager_program (cfg : OpenDBSC_Manager) (reqs : list (request_of (ptr * string)))
    : C (option (list answer)) :=
  ms ← opendbsc_memory_store_create;
  match ms with
  | None => mret None
  | Some ms =>
      '(rc, mgr) ← opendbsc_manager_init (Some manager_zero) (Some cfg);
      if negb (rc =? 0) then opendbsc_memory_store_destroy_impl (Some ms);; mret None else
      mgr ← deref mgr;
      '(l, ms) ← serve_all mgr reqs ms;
      opendbsc_memory_store_destroy_impl (Some ms);;
      mret (Some l)
  end.

End manager.
