(* ===== verification/ManagerOwnership.v ===== *)
(** The blocks of the manager's structs, and the steps that the requests of
    [ManagerHeap.v] are made of: what they free, read and own, that they answer
    what the steps of [Manager.v] answer, and which blocks they take and leave.
    The end of a request, [finished], leaves the store, the strings of the
    response, and the proof of a request that was refused; [RequestOwnership.v]
    puts the steps together. *)

From S2P Require Export ManagerHeap.
From S2P Require Import ManagerSpec.
From stdpp Require Import options.
#[local] Open Scope Z_scope.

(** ** The blocks of the structs *)

Abbreviation omanager := (manager_of ostr).
Abbreviation oresponse := (response_of ostr).
Abbreviation oproof := (proof_of ostr).

Definition manager_ptrs (m : omanager) : manager_of ptr :=
  ManagerOf (hm_store m) (fst <$> hm_cookie_name m) (fst <$> hm_cookie_path m)
    (fst <$> hm_cookie_domain m) (hm_secure m) (fst <$> hm_same_site m)
    (hm_cookie_ttl_seconds m) (hm_session_ttl_seconds m) (fst <$> hm_authorization m)
    (hm_on_event m).
Definition manager_vals (m : omanager) : OpenDBSC_Manager :=
  ManagerConfig (hm_store m) (snd <$> hm_cookie_name m) (snd <$> hm_cookie_path m)
    (snd <$> hm_cookie_domain m) (hm_secure m) (snd <$> hm_same_site m)
    (hm_cookie_ttl_seconds m) (hm_session_ttl_seconds m) (snd <$> hm_authorization m)
    (hm_on_event m).
Definition manager_cells (m : omanager) : cells :=
  str_cells (hm_cookie_name m) ++ str_cells (hm_cookie_path m) ++
  str_cells (hm_cookie_domain m) ++ str_cells (hm_same_site m) ++
  str_cells (hm_authorization m).

Definition response_ptrs (r : oresponse) : response_of ptr :=
  ResponseOf (hp_status_code r) (fst <$> hp_set_cookie r) (fst <$> hp_registration_header r)
    (fst <$> hp_challenge_header r) (fst <$> hp_body r).
Definition response_vals (r : oresponse) : OpenDBSC_ManagerResponse :=
  ManagerResponse (hp_status_code r) (snd <$> hp_set_cookie r) (snd <$> hp_registration_header r)
    (snd <$> hp_challenge_header r) (snd <$> hp_body r).
Definition response_cells (r : oresponse) : cells :=
  str_cells (hp_set_cookie r) ++ str_cells (hp_registration_header r) ++
  str_cells (hp_challenge_header r) ++ str_cells (hp_body r).

Definition proof_ptrs (p : oproof) : proof_of ptr :=
  ProofOf (fst <$> hj_algorithm p) (fst <$> hj_type p) (fst <$> hj_jwk p)
    (fst <$> hj_challenge p) (fst <$> hj_authorization p) (fst <$> hj_signature p).
Definition proof_vals (p : oproof) : OpenDBSC_ProofJWT :=
  ProofJWT (snd <$> hj_algorithm p) (snd <$> hj_type p) (snd <$> hj_jwk p)
    (snd <$> hj_challenge p) (snd <$> hj_authorization p) (snd <$> hj_signature p).
Definition proof_cells (p : oproof) : cells :=
  str_cells (hj_algorithm p) ++ str_cells (hj_type p) ++ str_cells (hj_jwk p) ++
  str_cells (hj_challenge p) ++ str_cells (hj_authorization p) ++ str_cells (hj_signature p).

(** ** Freeing *)

(** [m] frees the blocks [cs], each once, and returns [a]. *)
Definition gives_back {A} (m : HC A) (a : A) (cs : cells) : Prop :=
  ∀ h F, holds h (cs ++ F) → ∃ h', holds h' F ∧ heap_run m h a h'.

Lemma gives_back_last {A} f (a : A) :
  gives_back (h_free (fst <$> f);; mret a) a (str_cells f).
Proof.
  intros h F Hh. destruct (free_str_run _ _ _ Hh) as (h1 & H1 & R1). exists h1.
  split; [done|]. by eapply heap_run_bind.
Qed.

Lemma gives_back_str {A} f (m : HC A) a cs :
  gives_back m a cs → gives_back (h_free (fst <$> f);; m) a (str_cells f ++ cs).
Proof.
  intros Hm h F Hh. rewrite <-(assoc_L (++)) in Hh.
  destruct (free_str_run _ _ _ Hh) as (h1 & H1 & R1). destruct (Hm _ _ H1) as (h2 & H2 & R2).
  exists h2. split; [done|]. by eapply heap_run_bind.
Qed.

Lemma gives_back_free f : gives_back (h_free (fst <$> f)) tt (str_cells f).
Proof. intros h F Hh. by apply free_str_run. Qed.

#[local] Ltac free_fields := repeat first [apply gives_back_str | apply gives_back_last | apply gives_back_free].

Lemma gives_back_response r :
  gives_back (h_response_free (response_ptrs r)) h_response_default (response_cells r).
Proof. free_fields. Qed.

Lemma gives_back_proof p :
  gives_back (h_proof_free (proof_ptrs p)) h_proof_default (proof_cells p).
Proof. free_fields. Qed.

Lemma gives_back_manager m :
  gives_back (h_manager_destroy (manager_ptrs m)) tt (manager_cells m).
Proof. free_fields. Qed.

Lemma gives_back_session_struct s :
  gives_back (h_session_free (Some (ptrs s))) (Some h_default) (owned s).
Proof. intros h F. apply session_free_run. Qed.

Lemma gives_back_instruction i :
  instruction_ok i →
  gives_back (h_instruction_free (instruction_map fst i)) h_instruction_default
    (instruction_cells i).
Proof. intros Hi h F. by apply instruction_free_run. Qed.

Lemma gives_back_credential c :
  gives_back (h_credential_free (credential_map fst c)) h_credential_default (credential_cells c).
Proof. intros h F. apply credential_free_run. Qed.

Lemma gives_back_session p s :
  gives_back (h_free_session p (ptrs s)) tt (block_cells (p, [s])).
Proof. intros h F. apply (free_block_run h (p, [s])). Qed.

Lemma cells_r (A B L : cells) : A ⊆ L → A ⊆ B ++ L.
Proof. intros HA x Hx. apply elem_of_app. right. by apply HA. Qed.
Lemma cells_l (A B L : cells) : A ⊆ B → A ⊆ B ++ L.
Proof. intros HA x Hx. apply elem_of_app. left. by apply HA. Qed.

(** A step that frees [cs], wherever they are among the blocks. *)
Lemma hsim_free {A B X} calm F (m : HC A) a cs (fh : A → HC B) (v : C X) h L R :
  gives_back m a cs → holds h L → L ≡ₚ cs ++ F →
  (∀ h', holds h' F → hsim calm (fh a) v h' R) → hsim calm (m ≫= fh) v h R.
Proof.
  intros Hm Hh HL Hf. rewrite HL in Hh. destruct (Hm _ _ Hh) as (h1 & H1 & R1).
  eapply hsim_heap; [exact R1|]. by apply Hf.
Qed.

(** ** Functions that keep the allocator *)

Lemma oom_kept_alloc {A} (a : A) : oom_kept (alloc a).
Proof. unfold alloc. eauto with oom. Qed.

Lemma oom_kept_deref {A} (p : option A) : oom_kept (deref p).
Proof. destruct p; [apply oom_kept_ret|apply oom_kept_ub]. Qed.

Lemma oom_kept_computes {A} (m : C (option A)) r : wp_computes m r → oom_kept m.
Proof. intros Hm. apply oom_kept_wp. intros w. by apply Hm. Qed.

Lemma oom_kept_sprintf b s : oom_kept (sprintf b s).
Proof. unfold sprintf. case_decide; eauto with oom. Qed.

Lemma oom_kept_buf_cstr b : oom_kept (buf_cstr b).
Proof. apply oom_kept_deref. Qed.

#[export] Hint Resolve oom_kept_alloc oom_kept_deref oom_kept_sprintf oom_kept_buf_cstr : oom.

Ltac solve_oom :=
  repeat first [progress eauto with oom | apply oom_kept_bind; [|intros] | case_match].

Lemma oom_kept_cookie mgr v n : oom_kept (build_set_cookie_with_max_age mgr v n).
Proof. unfold build_set_cookie_with_max_age, malloc_buf. solve_oom. Qed.

Lemma oom_kept_attributes mgr : oom_kept (cookie_attributes mgr).
Proof. unfold cookie_attributes, malloc_buf. solve_oom. Qed.

Lemma oom_kept_emit mgr t u i d : oom_kept (emit_event mgr t u i d).
Proof. unfold emit_event. solve_oom. Qed.

Lemma oom_kept_serialize c i : oom_kept (opendbsc_challenge_serialize c i).
Proof.
  destruct c as [c|]; [|cbn; solve_oom].
  apply oom_kept_wp. intros w. by apply wp_challenge_serialize.
Qed.

Lemma oom_kept_registration c a :
  oom_kept (opendbsc_registration_serialize (Some [Some "ES256"; Some "RS256"]) 2
    (Some "/dbsc/register") c a None None None).
Proof.
  apply oom_kept_wp. intros w.
  by apply (wp_registration_serialize ["ES256"; "RS256"]).
Qed.

Lemma oom_kept_challenge : oom_kept opendbsc_manager_generate_challenge.
Proof.
  intros w a w' E Hw.
  assert (wp opendbsc_manager_generate_challenge w (λ _ w', no_oom w')) as Hg.
  { assert (no_oom (drawn w)) as Hd by done.
    by apply wp_generate_challenge; intros w1 Hst; [|intros ?]; eapply step_no_oom. }
  unfold wp in Hg. by rewrite E in Hg.
Qed.

Lemma oom_kept_decode `{CJSON, OpenSSL} t p :
  oom_kept (on_local (opendbsc_jwt_decode_and_verify t) p).
Proof.
  destruct t as [t|]; [|cbn; solve_oom]. apply oom_kept_wp. intros w.
  apply wp_bind, wp_jwt_decode_and_verify; intros; by apply wp_bind, wp_deref, wp_ret.
Qed.

Lemma oom_kept_verify `{CJSON, OpenSSL} t k p :
  oom_kept (on_local (opendbsc_jwt_verify_with_jwk t k) p).
Proof.
  destruct t as [t|], k as [k|]; [|cbn; solve_oom..]. apply oom_kept_wp. intros w.
  apply wp_bind, wp_jwt_verify_with_jwk; intros; by apply wp_bind, wp_deref, wp_ret.
Qed.

#[export] Hint Resolve oom_kept_cookie oom_kept_attributes oom_kept_emit oom_kept_serialize
  oom_kept_registration oom_kept_challenge oom_kept_decode oom_kept_verify : oom.

(** ** Reading and owning *)

Section sims.
Context `{HJ : CJSON, HO : OpenSSL, HU : UUIDv7} {calm : Prop}.

Lemma read_manager_run m h L :
  holds h L → manager_cells m ⊆ L →
  heap_run (h_read_manager (manager_ptrs m)) h (manager_vals m) h.
Proof.
  intros Hh Hin. unfold manager_cells in Hin.
  by repeat (eapply heap_run_bind; [eapply read_run; [exact Hh|set_solver]|]).
Qed.

Lemma hsim_read {B X} f h L (fh : cstr → HC B) (v : C X) R :
  holds h L → str_cells f ⊆ L → hsim calm (fh (snd <$> f)) v h R →
  hsim calm (h_read (fst <$> f) ≫= fh) v h R.
Proof. intros Hh Hf Hs. eapply hsim_heap; [by eapply read_run|exact Hs]. Qed.

Lemma hsim_read_manager {B X} m h L (fh : OpenDBSC_Manager → HC B) (v : C X) R :
  holds h L → manager_cells m ⊆ L → hsim calm (fh (manager_vals m)) v h R →
  hsim calm (h_read_manager (manager_ptrs m) ≫= fh) v h R.
Proof. intros Hh Hm Hs. eapply hsim_heap; [by eapply read_manager_run|exact Hs]. Qed.

Lemma nonempty_run f h L :
  holds h L → str_cells f ⊆ L →
  heap_run (h_nonempty (fst <$> f)) h
    (match nonempty (snd <$> f) with Some _ => fst <$> f | None => None end) h.
Proof. intros Hh Hf. eapply heap_run_bind; [by eapply read_run|apply heap_run_ret]. Qed.

Lemma hsim_serialize c i h F :
  holds h F → str_cells c ⊆ F → str_cells i ⊆ F →
  hsim calm (h_challenge_serialize (fst <$> c) (fst <$> i))
    (opendbsc_challenge_serialize (snd <$> c) (snd <$> i)) h (string_left F).
Proof.
  intros Hh Hc Hi. do 2 (eapply hsim_read; [done..|]). apply hsim_own; [eauto with oom|done].
Qed.

Lemma hsim_registration c a h F :
  holds h F → str_cells c ⊆ F → str_cells a ⊆ F →
  hsim calm (h_registration_serialize (fst <$> c) (fst <$> a))
    (opendbsc_registration_serialize (Some [Some "ES256"; Some "RS256"]) 2
       (Some "/dbsc/register") (snd <$> c) (snd <$> a) None None None) h (string_left F).
Proof.
  intros Hh Hc Ha. do 2 (eapply hsim_read; [done..|]). apply hsim_own; [eauto with oom|done].
Qed.

Lemma hsim_cookie m v n h F :
  holds h F → manager_cells m ⊆ F → str_cells v ⊆ F →
  hsim calm (h_build_set_cookie_with_max_age (manager_ptrs m) (fst <$> v) n)
    (build_set_cookie_with_max_age (manager_vals m) (snd <$> v) n) h (string_left F).
Proof.
  intros Hh Hm Hv. eapply hsim_read_manager; [done..|]. eapply hsim_read; [done..|].
  apply hsim_own; [eauto with oom|done].
Qed.

Lemma hsim_challenge h F :
  holds h F →
  hsim calm h_generate_challenge opendbsc_manager_generate_challenge h (string_left F).
Proof. intros Hh. apply hsim_own; [eauto with oom|done]. Qed.

Lemma hsim_emit m t u i d h F :
  holds h F → manager_cells m ⊆ F → str_cells u ⊆ F → str_cells i ⊆ F →
  hsim calm (h_emit_event (manager_ptrs m) t (fst <$> u) (fst <$> i) d)
    (emit_event (manager_vals m) t (snd <$> u) (snd <$> i) (Some d)) h
    (λ _ _ h', h' = h).
Proof.
  intros Hh Hm Hu Hi. eapply hsim_read_manager; [done..|]. do 2 (eapply hsim_read; [done..|]).
  apply hsim_lift; [eauto with oom|done].
Qed.

Lemma hsim_apply_ttl s n h :
  hsim calm (h_apply_session_ttl (ptrs s) n) (apply_session_ttl (vals s) n) h
    (λ r r' h', ∃ s', r = ptrs s' ∧ r' = vals s' ∧ owned s' = owned s ∧ h' = h).
Proof.
  unfold h_apply_session_ttl, apply_session_ttl.
  destruct (0 <? n); [|apply hsim_ret; by exists (h_with_expires 0 false s)].
  eapply (hsim_bind _ _ _ _ _ (λ t t' h', t = t' ∧ h' = h)); [by apply hsim_time|].
  intros t ? ? [<- ->]. apply hsim_ret.
  by exists (h_with_expires (t + n) (bool_decide (t + n ≠ 0)) s).
Qed.

(** A setter of a session whose return code is ignored. *)
Lemma hsim_ignore (mh : HC (Z * option h_session))
    (f : option OpenDBSC_Session → C (Z * option OpenDBSC_Session)) s h F :
  hsim calm mh (f (Some s)) h (session_left calm F) →
  hsim calm (h_ignore mh) (ignore f s) h
    (λ r r' h', ∃ s', r = ptrs s' ∧ r' = vals s' ∧ holds h' (owned s' ++ F)).
Proof.
  intros Hm. unfold h_ignore. apply (hsim_ext _ _ ('(_, a) ← f (Some s); deref a)).
  { intros w. unfold ignore, on_local. rewrite !bind_unfold.
    destruct (f (Some s) w) as [[rc [a|]] w'| |]; done. }
  eapply hsim_bind; [exact Hm|]. intros ? ? h1 (rc & s' & -> & -> & _ & H1).
  apply hsim_ret. by exists s'.
Qed.

Lemma hsim_own_next {A X} (v : cstr) h F (fh : option ptr → HC A) (m : C X) R :
  holds h F →
  (∀ f h', v = snd <$> f → holds h' (str_cells f ++ F) → hsim calm (fh (fst <$> f)) m h' R) →
  hsim calm (h_own v ≫= fh) m h R.
Proof.
  intros Hh Hk. destruct v as [s|]; [|by apply (Hk None)].
  eapply hsim_heap; [by intros w|].
  apply (Hk (Some (brk h, s))); [done|]. by apply holds_alloc.
Qed.

(** The strings of a decoded proof become the caller's. *)
Definition proof_left (F : cells) (r : Z * proof_of ptr) (r' : Z * OpenDBSC_ProofJWT)
    (h : heap) : Prop :=
  ∃ rc p, r = (rc, proof_ptrs p) ∧ r' = (rc, proof_vals p) ∧ holds h (proof_cells p ++ F).

Lemma hsim_own_proof (m : C (Z * OpenDBSC_ProofJWT)) h F :
  oom_kept m → holds h F →
  hsim calm ('(rc, p) ← lift m; p ← h_own_proof p; mret (rc, p)) m h (proof_left F).
Proof.
  intros Hm Hh. apply (hsim_ext _ _ (m ≫= mret)).
  { intros w. rewrite bind_unfold. by destruct (m w). }
  eapply (hsim_bind _ _ _ _ _ (λ a b h', a = b ∧ h' = h)); [by apply hsim_lift|].
  intros [rc p] ? ? [<- ->].
  apply (hsim_mono _ _ _ (proof_left F)); [|done].
  destruct p as [al ty jw ch au si]. unfold h_own_proof. cbn [p_algorithm p_type p_jwk p_challenge
    p_authorization p_signature].
  apply (hsim_ext _ _ (mret tt ≫= λ _, mret (rc, ProofJWT al ty jw ch au si))); [done|].
  eapply (hsim_bind _ _ _ _ _ (λ q _ h', ∃ o, q = proof_ptrs o ∧
    ProofJWT al ty jw ch au si = proof_vals o ∧ holds h' (proof_cells o ++ F))).
  - do 6 (eapply hsim_own_next; [eassumption|]; intros ? ? -> ?). apply hsim_ret.
    eexists (ProofOf _ _ _ _ _ _). split_and!; [reflexivity|reflexivity|].
    eapply holds_perm; [|eassumption]. unfold proof_cells. simpl. solve_Permutation.
  - intros ? ? h1 (o & -> & -> & H1). apply hsim_ret. by exists rc, o.
Qed.

(** *** The body of the response *)

(** A setter whose return code is ignored: [P] holds of the struct it leaves. *)
Lemma hsim_ignored {X Y V B B'} (g : X → Y) (val : X → V) (P : X → heap → Prop)
    (mh : HC (Z * Y)) (f : option V → C (Z * option V)) v h (fh : Y → HC B) (fv : V → C B') R :
  hsim calm mh (on_local f v) h
    (λ r r' h', ∃ rc x, r = (rc, g x) ∧ r' = (rc, val x) ∧ P x h') →
  (∀ x h', P x h' → hsim calm (fh (g x)) (fv (val x)) h' R) →
  hsim calm ('(_, y) ← mh; fh y) (ignore f v ≫= fv) h R.
Proof.
  intros Hm Hk. apply (hsim_ext _ _ ('(_, a) ← on_local f v; fv a)).
  { intros w. unfold ignore. rewrite !bind_unfold. by destruct (on_local f v w) as [[rc a] w'| |]. }
  eapply hsim_bind; [exact Hm|]. intros ? ? h1 (rc & x & -> & -> & Hx). by apply Hk.
Qed.

Lemma hsim_ignored_grown {X Y V B B'} (g : X → Y) (val : X → V) cs (ok : X → Prop) F
    (mh : HC (Z * Y)) (f : option V → C (Z * option V)) v h (fh : Y → HC B) (fv : V → C B') R :
  hsim calm mh (f (Some v)) h (grown g val cs ok F) →
  (∀ x h', ok x → holds h' (cs x ++ F) → hsim calm (fh (g x)) (fv (val x)) h' R) →
  hsim calm ('(_, y) ← mh; fh y) (ignore f v ≫= fv) h R.
Proof.
  intros Hm Hk. apply (hsim_ext _ _ ('(_, a) ← f (Some v); deref a ≫= fv)).
  { intros w. unfold ignore, on_local. rewrite !bind_unfold.
    by destruct (f (Some v) w) as [[rc [a|]] w'| |]. }
  eapply hsim_bind; [exact Hm|]. intros ? ? h1 (rc & x & -> & -> & Hx & H1).
  eapply hsim_value; [done|]. by apply Hk.
Qed.

Lemma hsim_ignored_struct {X Y V B B'} (g : X → Y) (val : X → V) cs F
    (mh : HC (Z * Y)) (f : option V → C (Z * option V)) v h (fh : Y → HC B) (fv : V → C B') R :
  hsim calm mh (on_local f v) h (struct_left calm g val cs F) →
  (∀ x h', holds h' (cs x ++ F) → hsim calm (fh (g x)) (fv (val x)) h' R) →
  hsim calm ('(_, y) ← mh; fh y) (ignore f v ≫= fv) h R.
Proof.
  intros Hm. apply (hsim_ignored _ _ (λ x h', holds h' (cs x ++ F))).
  eapply hsim_mono; [exact Hm|]. intros ? ? h1 (rc & x & -> & -> & _ & H1). by exists rc, x.
Qed.

Lemma hsim_set_literal f s h F :
  holds h (str_cells f ++ F) →
  hsim calm (h_set_literal (fst <$> f) s) (set_string (snd <$> f) (Some s)) h
    (λ r r' h', ∃ rc f', r = (rc, fst <$> f') ∧ r' = (rc, snd <$> f') ∧ (calm → rc = 0) ∧
       holds h' (str_cells f' ++ F)).
Proof.
  intros Hh. eapply (hsim_bind _ _ _ _ _ (λ p x h', ¬ calm ∧ p = None ∧ x = None ∧ h' = h ∨
    ∃ q, p = Some q ∧ x = Some s ∧ holds h' ((q, Str s) :: str_cells f ++ F))).
  { eapply hsim_alloc; [exact Hh| |intros ?; by left]. intros q h1 H1. right. by exists q. }
  intros ? ? h1 [(? & -> & -> & ->)|(q & -> & -> & H1)].
  - apply hsim_ret. by exists (-1), f.
  - destruct (gives_back_free f h1 ((q, Str s) :: F)) as (h2 & H2 & R2).
    { eapply holds_perm; [|exact H1]. solve_Permutation. }
    eapply hsim_heap; [exact R2|]. apply hsim_ret. by exists 0, (Some (q, s)).
Qed.

Lemma hsim_set_id_literal s text h F :
  holds h (owned s ++ F) →
  hsim calm (h_session_set_id_literal (ptrs s) text)
    (opendbsc_session_set_id (Some (vals s)) (Some text)) h (session_left calm F).
Proof.
  intros Hh. eapply hsim_bind.
  { apply (hsim_set_literal (h_id s) text h (owned (h_with_id None s) ++ F)).
    eapply holds_perm; [|exact Hh]. unfold owned. simpl. solve_Permutation. }
  intros ? ? h1 (rc & f & -> & -> & Hrc & H1). apply hsim_ret. exists rc, (h_with_id f s).
  split_and!; [done..|]. eapply holds_perm; [|exact H1]. unfold owned. simpl. solve_Permutation.
Qed.

Lemma hsim_set_refresh_url_literal i text h F :
  instruction_ok i → holds h (instruction_cells i ++ F) →
  hsim calm (h_instruction_set_refresh_url_literal (instruction_map fst i) text)
    (opendbsc_instruction_set_refresh_url (Some (instruction_vals i)) (Some text)) h
    (instruction_left F).
Proof.
  intros Hi Hh. cbn [opendbsc_instruction_set_refresh_url]. rewrite instruction_set_string_eq.
  eapply hsim_bind.
  { apply (hsim_set_literal (hi_refresh_url i) text h
      (instruction_cells (hi_with_refresh_url None i) ++ F)).
    eapply holds_perm; [|exact Hh]. unfold instruction_cells. simpl. solve_Permutation. }
  intros ? ? h1 (rc & f & -> & -> & _ & H1). apply hsim_ret. exists rc, (hi_with_refresh_url f i).
  split_and!; [done..|]. eapply holds_perm; [|exact H1].
  unfold instruction_cells. simpl. solve_Permutation.
Qed.

Lemma hsim_set_type_literal c text h F :
  holds h (credential_cells c ++ F) →
  hsim calm (h_credential_set_type_literal (credential_map fst c) text)
    (on_local (λ d, opendbsc_credential_set_type d (Some text)) (credential_vals c)) h
    (struct_left calm (credential_map fst) credential_vals credential_cells F).
Proof.
  intros Hh. apply (hsim_ext _ _ ('(rc, f) ← set_string (snd <$> hc_type c) (Some text);
    mret (rc, SessionCredential f (snd <$> hc_name c) (snd <$> hc_attributes c)))).
  { intros w. unfold on_local. cbn [opendbsc_credential_set_type]. rewrite instruction_set_string_eq.
    cbn [credential_vals c_type].
    rewrite !bind_unfold. by destruct (set_string _ _ w) as [[rc x] w'| |]. }
  eapply hsim_bind.
  { apply (hsim_set_literal (hc_type c) text h
      (credential_cells (CredentialOf None (hc_name c) (hc_attributes c)) ++ F)).
    eapply holds_perm; [|exact Hh]. unfold credential_cells. simpl. solve_Permutation. }
  intros ? ? h1 (rc & f & -> & -> & Hrc & H1). apply hsim_ret.
  exists rc, (CredentialOf f (hc_name c) (hc_attributes c)).
  split_and!; [done..|]. eapply holds_perm; [|exact H1]. unfold credential_cells. simpl.
  solve_Permutation.
Qed.

(** The attributes are formatted, then copied into the credential. *)
Lemma attributes_first {A} mgr cred (k : OpenDBSC_SessionCredential → C A) w :
  (path ← need_str (cfg_cookie_path mgr);
   same_site ← need_str (cfg_same_site mgr);
   let text := "Path=" +:+ path +:+ "; Secure; HttpOnly; SameSite=" +:+ same_site in
   attrs ← malloc_buf (String.length text + 1);
   cred ← (match attrs with
           | None => mret cred
           | Some attrs =>
               attrs ← sprintf attrs text;
               a ← buf_cstr attrs;
               ignore (λ c, opendbsc_credential_set_attributes c (Some a)) cred
           end);
   k cred) w
  = (text ← cookie_attributes mgr;
     cred ← (match text with
             | None => mret cred
             | Some a => ignore (λ c, opendbsc_credential_set_attributes c (Some a)) cred
             end);
     k cred) w.
Proof.
  unfold cookie_attributes. rewrite !bind_unfold.
  destruct (need_str (cfg_cookie_path mgr) w) as [path w1| |]; [|done..]. rewrite !bind_unfold.
  destruct (need_str (cfg_same_site mgr) w1) as [ss w2| |]; [|done..]. rewrite !bind_unfold.
  destruct (malloc_buf _ w2) as [[b|] w3| |]; [|done..]. rewrite !bind_unfold.
  destruct (sprintf _ _ w3) as [b1 w4| |]; [|done..]. rewrite !bind_unfold.
  by destruct (buf_cstr b1 w4) as [a w5| |].
Qed.

(** What [add_credential] was given is freed and the document printed. *)
Lemma hsim_print i h F :
  instruction_ok i → holds h (instruction_cells i ++ F) →
  hsim calm (body ← h_instruction_to_string (instruction_map fst i);
             h_instruction_free (instruction_map fst i);; mret body)
    (opendbsc_instruction_to_string (Some (instruction_vals i))) h (string_left F).
Proof.
  intros Hi Hh. apply (hsim_ext _ _ (opendbsc_instruction_to_string (Some (instruction_vals i)) ≫= mret)).
  { intros w. rewrite bind_unfold. by destruct (opendbsc_instruction_to_string _ w). }
  eapply hsim_bind; [by apply hsim_to_string|]. intros ? ? h1 (f & -> & -> & H1).
  eapply (hsim_free _ (str_cells f ++ F)); [by apply gives_back_instruction|exact H1|solve_Permutation|].
  intros h2 H2. apply hsim_ret. by exists f.
Qed.

(** The attributes are copied into the credential and freed; the credential is
    copied into the instruction and freed. *)
Lemma hsim_finish_body mgr c i h F :
  instruction_ok i → holds h (credential_cells c ++ instruction_cells i ++ F) →
  hsim calm
    (text ← lift (cookie_attributes mgr);
     attrs ← h_own text;
     cred ← (match attrs with
             | None => mret (credential_map fst c)
             | Some _ =>
                 '(_, cred) ← h_credential_set_attributes (credential_map fst c) attrs;
                 h_free attrs;;
                 mret cred
             end);
     '(_, inst) ← h_instruction_add_credential (instruction_map fst i) (Some cred);
     h_credential_free cred;;
     body ← h_instruction_to_string inst;
     h_instruction_free inst;;
     mret body)
    (text ← cookie_attributes mgr;
     cred ← (match text with
             | None => mret (credential_vals c)
             | Some a => ignore (λ c, opendbsc_credential_set_attributes c (Some a)) (credential_vals c)
             end);
     inst ← ignore (λ i, opendbsc_instruction_add_credential i (Some cred)) (instruction_vals i);
     opendbsc_instruction_to_string (Some inst)) h (string_left F).
Proof.
  intros Hi Hh.
  eapply (hsim_bind _ _ _ _ _ (λ a b h', a = b ∧ h' = h)); [apply hsim_lift; eauto with oom|].
  intros text ? ? [<- ->].
  eapply hsim_own_next; [exact Hh|]. clear h Hh. intros f h -> Hh.
  eapply (hsim_bind _ _ _ _ _ (λ r r' h', ∃ c, r = credential_map fst c ∧ r' = credential_vals c ∧
    holds h' (credential_cells c ++ instruction_cells i ++ F))).
  { destruct f as [[q a]|]; simpl; [|by apply hsim_ret; exists c].
    apply (hsim_ext _ _ (ignore (λ c, opendbsc_credential_set_attributes c (Some a))
      (credential_vals c) ≫= mret)).
    { intros w. rewrite bind_unfold. by destruct (ignore _ _ w). }
    eapply hsim_ignored_struct.
    { apply (hsim_credential_set_attributes _ c (Some (q, a)) h
        ((q, Str a) :: instruction_cells i ++ F)); [|set_solver].
      eapply holds_perm; [|exact Hh]. simpl. solve_Permutation. }
    clear c h Hh. intros c h Hh.
    eapply (hsim_free calm (credential_cells c ++ instruction_cells i ++ F));
      [by apply (gives_back_free (Some (q, a)))|exact Hh|simpl; solve_Permutation|].
    intros h1 H1. apply hsim_ret. by exists c. }
  clear c h Hh. intros ? ? h (c & -> & -> & Hh).
  eapply hsim_ignored_grown.
  { apply (hsim_add_credential _ i (Some c) h (credential_cells c ++ F)); [done| |set_solver].
    eapply holds_perm; [|exact Hh]. solve_Permutation. }
  clear i h Hi Hh. intros i h Hi Hh.
  eapply (hsim_free calm (instruction_cells i ++ F));
    [by apply gives_back_credential|exact Hh|solve_Permutation|].
  intros h1 H1. by apply hsim_print.
Qed.

(** One credential: the literals, the name, the formatted attributes. *)
Lemma hsim_body m s cont h F :
  holds h F → manager_cells m ⊆ F → str_cells (h_id s) ⊆ F →
  hsim calm (h_build_instruction_body (manager_ptrs m) (ptrs s) cont)
    (build_instruction_body (manager_vals m) (vals s) cont) h (string_left F).
Proof.
  intros Hh Hm Hs. destruct cont; cbn [h_build_instruction_body build_instruction_body negb].
  - assert (str_cells (hm_cookie_name m) ⊆ F) as Hname by (unfold manager_cells in Hm; set_solver).
    eapply hsim_value; [done|].
    eapply hsim_ignored_grown.
    { apply (hsim_set_session_identifier _ (h_instruction_set_continue h_instruction_default true)
        (h_id s) h F); [done|exact Hh|exact Hs]. }
    intros i h1 Hi H1.
    eapply hsim_ignored_grown; [by apply hsim_set_refresh_url_literal|].
    clear i h1 Hi H1. intros i h1 Hi H1. eapply hsim_value; [done|].
    set (i' := hi_with_scope (h_scope_set_include_site (hi_scope i) 0) i).
    assert (instruction_ok i') as Hi' by done.
    assert (holds h1 (credential_cells h_credential_default ++ instruction_cells i' ++ F)) as H1'
      by done.
    change (hi_with_scope _ (instruction_map fst i)) with (instruction_map fst i').
    match goal with |- context [with_scope ?s (instruction_vals i)] =>
      change (with_scope s (instruction_vals i)) with (instruction_vals i') end.
    clearbody i'. clear i Hi H1.
    eapply hsim_ignored_struct; [by apply (hsim_set_type_literal h_credential_default)|].
    clear h1 H1'. intros c h1 H1.
    eapply hsim_ignored_struct; [eapply hsim_credential_set_name; [exact H1|set_solver]|].
    clear c h1 H1. intros c h1 H1.
    eapply hsim_ext; [intros w; apply attributes_first|].
    eapply hsim_read_manager; [exact H1|by do 2 apply cells_r|]. apply hsim_finish_body; done.
  - eapply hsim_value; [done|].
    by apply (hsim_print (h_instruction_set_continue h_instruction_default false)).
Qed.

(** *** The steps of a request *)

Lemma hsim_copy f h F :
  holds h F → str_cells f ⊆ F →
  hsim calm (h_copy_string (fst <$> f)) (copy_string (snd <$> f)) h (string_left F).
Proof.
  intros Hh Hf. destruct f as [[q s]|]; [|by apply hsim_ret; exists None].
  eapply hsim_heap; [eapply str_run; [exact Hh|apply Hf; by left]|]. by apply hsim_strdup.
Qed.

Lemma hsim_need_store {B B'} m (mh : HC B) (v : C B') h R :
  hsim calm mh v h R →
  hsim calm (h_need_store (manager_ptrs m);; mh) (need_store (manager_vals m);; v) h R.
Proof.
  intros Hs. unfold h_need_store, need_store. simpl.
  destruct (hm_store m); [eapply hsim_heap; [apply heap_run_ret|]; by eapply hsim_value|].
  by apply (hsim_ext _ _ ub).
Qed.

Lemma hsim_matches pr s h L :
  holds h L → str_cells (hj_challenge pr) ⊆ L → str_cells (h_challenge s) ⊆ L →
  hsim calm (h_challenge_matches (proof_ptrs pr) (ptrs s))
    (match p_challenge (proof_vals pr) with
     | None => mret false
     | Some c => d ← need_str (s_challenge (vals s)); mret (String.eqb c d)
     end) h (λ a b h', a = b ∧ h' = h).
Proof.
  intros Hh Hp Hs. unfold h_challenge_matches. simpl.
  destruct (hj_challenge pr) as [[q c]|]; [|by apply hsim_ret]. simpl.
  eapply hsim_heap; [eapply str_run; [exact Hh|apply Hp; by left]|].
  eapply hsim_read; [exact Hh|done|]. apply hsim_lift; [eauto with oom|done].
Qed.

Lemma authorization_run m pr h L :
  holds h L → manager_cells m ⊆ L → proof_cells pr ⊆ L →
  heap_run (h_authorization_ok (manager_ptrs m) (proof_ptrs pr)) h
    (match cfg_authorization (manager_vals m) with
     | None => true
     | Some a => bool_decide (p_authorization (proof_vals pr) = Some a)
     end) h.
Proof.
  intros Hh Hm Hp. unfold h_authorization_ok, manager_cells, proof_cells in *. simpl.
  destruct (hm_authorization m) as [[q a]|]; [|apply heap_run_ret]. cbn.
  replace (bool_decide (snd <$> hj_authorization pr = Some a))
    with (str_is (snd <$> hj_authorization pr) a).
  - apply (str_is_run h L); [done|set_solver|]. apply Hm. simpl. set_solver.
  - destruct (hj_authorization pr) as [[r b]|]; cbn; [|by rewrite bool_decide_false].
    destruct (String.eqb_spec b a); [subst; by rewrite bool_decide_true|].
    rewrite bool_decide_false; [done|]. congruence.
Qed.

(** The request was refused: a failure, or a challenge instead of an answer. *)
Definition refused (rc : Z) (resp : OpenDBSC_ManagerResponse) : bool :=
  negb (rc =? 0) || (status_code resp =? 403).

(** The answer is that on values; beside [K] are left the store, the response
    and, if the request was refused, the strings of at most one proof. *)
Definition finished (K : cells) (r : Z * response_of ptr * h_store)
    (r' : Z * option OpenDBSC_ManagerResponse * OpenDBSC_MemoryStore) (h : heap) : Prop :=
  ∃ rc p o lp, r = (rc, response_ptrs p, sptrs o) ∧ r' = (rc, Some (response_vals p), svals o) ∧
    store_ok o ∧ (length lp ≤ if refused rc (response_vals p) then 1 else 0)%nat ∧
    holds h (store_cells o ++ response_cells p ++ (lp ≫= proof_cells) ++ K).

(** The same with the strings of a session that [get] could not copy. *)
Definition answered (F : cells) (r : Z * response_of ptr * h_store)
    (r' : Z * option OpenDBSC_ManagerResponse * OpenDBSC_MemoryStore) (h : heap) : Prop :=
  ∃ ls, (calm → ls = []) ∧ finished ((ls ≫= owned) ++ F) r r' h.

Lemma finished_intro K rc p o lp h :
  store_ok o → (length lp ≤ if refused rc (response_vals p) then 1 else 0)%nat →
  holds h (store_cells o ++ response_cells p ++ (lp ≫= proof_cells) ++ K) →
  finished K (rc, response_ptrs p, sptrs o) (rc, Some (response_vals p), svals o) h.
Proof. intros. by exists rc, p, o, lp. Qed.

Lemma hsim_message status text o h K :
  store_ok o → holds h (store_cells o ++ K) →
  hsim calm (r ← h_message_response h_response_default status text; mret (0, r, sptrs o))
    (r ← message_response response_default status text; mret (0, Some r, svals o)) h (finished K).
Proof.
  intros Ho Hh. eapply (hsim_bind _ _ _ _ _ (λ r r' h', ∃ f,
    r = response_ptrs (ResponseOf status None None None f) ∧
    r' = response_vals (ResponseOf status None None None f) ∧
    holds h' (str_cells f ++ store_cells o ++ K))).
  { eapply hsim_bind; [by apply hsim_strdup|]. intros ? ? h1 (f & -> & -> & H1).
    apply hsim_ret. by exists f. }
  intros ? ? h1 (f & -> & -> & H1). apply hsim_ret. apply (finished_intro _ _ _ _ []); [done| |].
  - simpl. lia.
  - eapply holds_perm; [|exact H1]. unfold response_cells. simpl. solve_Permutation.
Qed.

Lemma hsim_refuse p s pr lp o h K :
  store_ok o → (length lp ≤ 1)%nat →
  holds h (store_cells o ++ block_cells (p, [s]) ++ opt_cells proof_cells pr ++
           (lp ≫= proof_cells) ++ K) →
  hsim calm (h_refuse p (ptrs s) (proof_ptrs <$> pr) (sptrs o))
    (r ← set_challenge_response response_default (s_challenge (vals s)) (s_id (vals s)) 403;
     mret (0, Some r, svals o)) h (finished K).
Proof.
  intros Ho Hlp Hh. set (L := store_cells o ++ _) in Hh.
  assert (owned s ⊆ L) as Hs.
  { unfold L, block_cells. simpl. rewrite app_nil_r. set_solver. }
  eapply (hsim_bind _ _ _ _ _ (λ r r' h', ∃ f b,
    r = response_ptrs (ResponseOf 403 None None f b) ∧
    r' = response_vals (ResponseOf 403 None None f b) ∧
    holds h' (str_cells b ++ str_cells f ++ L))).
  { unfold owned in Hs.
    eapply hsim_bind; [apply (hsim_serialize (h_challenge s) (h_id s) h L); set_solver|].
    intros ? ? h1 (f & -> & -> & H1). eapply hsim_bind; [by apply hsim_strdup|].
    intros ? ? h2 (b & -> & -> & H2). apply hsim_ret. by exists f, b. }
  intros ? ? h1 (f & b & -> & -> & H1).
  eapply (hsim_free _ (str_cells b ++ str_cells f ++ store_cells o ++ block_cells (p, [s]) ++
    (lp ≫= proof_cells) ++ K)).
  { instantiate (1 := opt_cells proof_cells pr). instantiate (1 := tt).
    intros h2 G H2. destruct pr as [pr|]; [|by exists h2].
    destruct (gives_back_proof pr _ _ H2) as (h3 & H3 & R3). exists h3. split; [done|].
    by eapply heap_run_bind. }
  { exact H1. }
  { unfold L. solve_Permutation. }
  intros h2 H2.
  eapply (hsim_free _ (str_cells b ++ str_cells f ++ store_cells o ++ (lp ≫= proof_cells) ++ K));
    [apply (gives_back_session p s)|exact H2|solve_Permutation|].
  intros h3 H3. apply hsim_ret, (finished_intro _ _ _ _ lp); [done|done|].
  eapply holds_perm; [|exact H3]. unfold response_cells. simpl. solve_Permutation.
Qed.

(** A session that [get] handed out, among the blocks. *)
Definition has_session (p : ptr) (s : osession) (o : ostore) (K : cells) (h : heap) : Prop :=
  store_ok o ∧ holds h (store_cells o ++ block_cells (p, [s]) ++ K).

(** [get] and its error answer. *)
Lemma hsim_fetch f o h F (fh : ptr → h_session → h_store → HC (Z * response_of ptr * h_store))
    (fv : OpenDBSC_Session → OpenDBSC_MemoryStore →
          C (Z * option OpenDBSC_ManagerResponse * OpenDBSC_MemoryStore)) :
  store_ok o → holds h (store_cells o ++ F) → str_cells (Some f) ⊆ F →
  (∀ p s o ls h, has_session p s o ((ls ≫= owned) ++ F) h →
     hsim calm (fh p (ptrs s) (sptrs o)) (fv (vals s) (svals o)) h (finished ((ls ≫= owned) ++ F))) →
  hsim calm
    ('(rc, session, ms) ← h_get_impl (sptrs o) (Some (fst f)) true;
     if negb (rc =? 0) then
       r ← h_message_response h_response_default 401 "invalid session"; mret (0, r, ms)
     else
     '(p, s) ← h_session_at session;
     fh p s ms)
    ('(rc, session, st) ← call_get (svals o) (snd f);
     if negb (rc =? 0) then
       r ← message_response response_default 401 "invalid session"; mret (0, Some r, st)
     else
     session ← deref session;
     fv session st) h (answered F).
Proof.
  intros Ho Hh Hf Hk. eapply (hsim_bind _ _ _ _ _ (λ r r' h', ∃ rc b o ls,
    r = (rc, bptrs <$> b, sptrs o) ∧ r' = (rc, b ≫= answer_one, svals o) ∧
    (rc ≠ 0 → b = None) ∧ blocks_left calm F b 1 o ls h')).
  { apply (hsim_ext _ _ ((opendbsc_memory_store_get_impl (svals o) (snd <$> Some f) (Some None)) ≫=
      λ '(rc, out, st), session ← deref out; mret (rc, session, st))); [done|].
    intros w b w' Hc Hrun. rewrite bind_unfold in Hrun.
    destruct (opendbsc_memory_store_get_impl _ _ _ w) as [v w1| |] eqn:E; [|done..].
    destruct (hsim_get calm F o h (Some f) true Ho Hh Hf w v w1 Hc E)
      as (Hc1 & a & h1 & Ha & rc & bl & o1 & ls & -> & -> & Hrc & Hl).
    injection Hrun as <- <-. split; [done|]. eexists _, _. split; [exact Ha|].
    by exists rc, bl, o1, ls. }
  clear o h Ho Hh. intros ? ? h (rc & b & o & ls & -> & -> & Hrc & Hn & Hls & Ho & Hh).
  destruct (Z.eqb_spec rc 0) as [->|Hne]; simpl.
  - destruct b as [[p [|s [|]]]|]; [by specialize (Hn _ eq_refl)| |by specialize (Hn _ eq_refl)|
      by apply (hsim_ext _ _ ub)].
    eapply hsim_value; [done|].
    assert (has_session p s o ((ls ≫= owned) ++ F) h) as Hs by (split; [done|exact Hh]).
    eapply hsim_heap; [eapply heap_run_bind; [eapply live_run; [exact Hh|]|apply heap_run_ret]|].
    { apply elem_of_app. right. by left. }
    eapply hsim_mono; [by apply Hk|]. intros r r' h' Hr. by exists ls.
  - rewrite (Hrc Hne) in Hh. eapply hsim_mono; [by apply hsim_message|].
    intros r r' h' Hr. by exists ls.
Qed.

Lemma has_session_owner p s o K h :
  has_session p s o K h ↔
  store_ok o ∧ holds h (owned s ++ (p, Mem) :: store_cells o ++ K).
Proof.
  unfold has_session, block_cells. cbn. rewrite (right_id_L [] (++)).
  assert (store_cells o ++ ((p, Mem) :: owned s) ++ K ≡ₚ owned s ++ (p, Mem) :: store_cells o ++ K)
    as -> by solve_Permutation. done.
Qed.

Lemma has_session_in p s o K h :
  has_session p s o K h → ∃ L, holds h L ∧ owned s ⊆ L ∧ K ⊆ L.
Proof.
  intros [_ Hh]%has_session_owner. eexists. split; [exact Hh|]. set_solver.
Qed.

(** A setter on the session that was handed out. *)
Lemma hsim_session_set {A A'} mh f p s o K h (fh : h_session → HC A) (fv : OpenDBSC_Session → C A') R :
  has_session p s o K h →
  hsim calm mh (f (Some (vals s))) h (session_left calm ((p, Mem) :: store_cells o ++ K)) →
  (∀ s h, has_session p s o K h → hsim calm (fh (ptrs s)) (fv (vals s)) h R) →
  hsim calm (h_ignore mh ≫= fh) (ignore f (vals s) ≫= fv) h R.
Proof.
  intros [Ho Hh] Hm Hk. eapply hsim_bind; [by eapply hsim_ignore|].
  intros ? ? h1 (s1 & -> & -> & H1). apply Hk, has_session_owner. by split.
Qed.

Lemma hsim_update_session {A A'} p s o K h (fh : Z * h_store → HC A) (fv : Z * OpenDBSC_MemoryStore → C A') R :
  has_session p s o K h →
  (∀ rc o h, has_session p s o K h → hsim calm (fh (rc, sptrs o)) (fv (rc, svals o)) h R) →
  hsim calm (h_update_impl (sptrs o) (Some (ptrs s)) ≫= fh)
    (opendbsc_memory_store_update_impl (svals o) (Some (vals s)) ≫= fv) h R.
Proof.
  intros [Ho Hh] Hk. eapply hsim_bind.
  { apply (hsim_update calm _ o h (Some s) Ho Hh). unfold block_cells. cbn. set_solver. }
  intros ? ? h1 (rc & o1 & -> & -> & Ho1 & H1). apply Hk. by split.
Qed.

(** An owned string, then the rest. *)
Lemma hsim_string {A A'} (mh : HC (option ptr)) (m : C cstr) h F (fh : option ptr → HC A) (fv : cstr → C A') R :
  hsim calm mh m h (string_left F) →
  (∀ f h, holds h (str_cells f ++ F) → hsim calm (fh (fst <$> f)) (fv (snd <$> f)) h R) →
  hsim calm (mh ≫= fh) (m ≫= fv) h R.
Proof.
  intros Hm Hk. eapply hsim_bind; [exact Hm|]. intros ? ? h1 (f & -> & -> & H1). by apply Hk.
Qed.

(** The granted answer: its three strings, then the proof and the session are
    given back. *)
Lemma hsim_grant m pr p s o K h :
  manager_cells m ⊆ K → has_session p s o (proof_cells pr ++ K) h →
  hsim calm
    (cookie ← h_build_set_cookie (manager_ptrs m) (h_id (ptrs s));
     header ← h_challenge_serialize (h_challenge (ptrs s)) (h_id (ptrs s));
     body ← h_build_instruction_body (manager_ptrs m) (ptrs s) true;
     h_proof_free (proof_ptrs pr);;
     h_free_session p (ptrs s);;
     mret (0, ResponseOf 200 cookie None header body, sptrs o))
    (cookie ← build_set_cookie (manager_vals m) (s_id (vals s));
     header ← opendbsc_challenge_serialize (s_challenge (vals s)) (s_id (vals s));
     b ← build_instruction_body (manager_vals m) (vals s) true;
     mret (0, Some (ManagerResponse 200 cookie None header b), svals o)) h (finished K).
Proof.
  intros Hm [Ho Hh]. set (L := store_cells o ++ _) in Hh.
  assert (str_cells (h_id s) ⊆ L ∧ str_cells (h_challenge s) ⊆ L ∧ manager_cells m ⊆ L)
    as (Hid & Hc & Hm').
  { unfold L, block_cells, owned. cbn. rewrite (right_id_L [] (++)). set_solver. }
  eapply hsim_string; [by apply (hsim_cookie m (h_id s))|]. intros cookie h1 H1.
  eapply hsim_string;
    [by apply (hsim_serialize (h_challenge s) (h_id s) _ _ H1); apply cells_r|].
  intros header h2 H2.
  eapply hsim_string; [by apply (hsim_body m s true _ _ H2); do 2 apply cells_r|].
  intros body h3 H3.
  set (resp := ResponseOf 200 cookie None header body : oresponse).
  eapply (hsim_free _ (response_cells resp ++ store_cells o ++ block_cells (p, [s]) ++ K));
    [apply gives_back_proof|exact H3|unfold L, response_cells; simpl; solve_Permutation|].
  intros h4 H4.
  eapply (hsim_free _ (response_cells resp ++ store_cells o ++ K));
    [apply (gives_back_session p s)|exact H4|solve_Permutation|].
  intros h5 H5. apply hsim_ret, (finished_intro _ 0 resp o []); [done|simpl; lia|].
  eapply holds_perm; [|exact H5]. simpl. solve_Permutation.
Qed.

(** What register and refresh do with an accepted proof: a new challenge, a new
    term, the update, the event, the answer; [failh] is what they do when the
    challenge or the update fails. *)
Lemma hsim_renew m pr p s o K h (emith : h_session → HC unit) (emitv : OpenDBSC_Session → C unit)
    (failh : h_session → h_store → HC (Z * response_of ptr * h_store))
    (fv : OpenDBSC_Session → OpenDBSC_MemoryStore →
          C (Z * option OpenDBSC_ManagerResponse * OpenDBSC_MemoryStore)) :
  (∀ s st w, fv s st w =
     (emitv s;;
      cookie ← build_set_cookie (manager_vals m) (s_id s);
      header ← opendbsc_challenge_serialize (s_challenge s) (s_id s);
      b ← build_instruction_body (manager_vals m) s true;
      mret (0, Some (ManagerResponse 200 cookie None header b), st)) w) →
  manager_cells m ⊆ K → has_session p s o (proof_cells pr ++ K) h →
  (∀ s o h, has_session p s o (proof_cells pr ++ K) h →
     hsim calm (failh (ptrs s) (sptrs o)) (mret (-1, Some response_default, svals o)) h (finished K)) →
  (∀ s o h, has_session p s o (proof_cells pr ++ K) h →
     hsim calm (emith (ptrs s)) (emitv (vals s)) h (λ _ _ h', h' = h)) →
  hsim calm
    (new_challenge ← h_generate_challenge;
     match new_challenge with
     | None => failh (ptrs s) (sptrs o)
     | Some _ =>
         s ← h_ignore (h_session_set_challenge (Some (ptrs s)) new_challenge);
         h_free new_challenge;;
         s ← h_apply_session_ttl s (hm_session_ttl_seconds (manager_ptrs m));
         '(rc, ms) ← h_update_impl (sptrs o) (Some s);
         if negb (rc =? 0) then failh s ms else
         emith s;;
         cookie ← h_build_set_cookie (manager_ptrs m) (h_id s);
         header ← h_challenge_serialize (h_challenge s) (h_id s);
         body ← h_build_instruction_body (manager_ptrs m) s true;
         h_proof_free (proof_ptrs pr);;
         h_free_session p s;;
         mret (0, ResponseOf 200 cookie None header body, ms)
     end)
    (new_challenge ← opendbsc_manager_generate_challenge;
     match new_challenge with
     | None => mret (-1, Some response_default, svals o)
     | Some _ =>
         s ← ignore (λ s, opendbsc_session_set_challenge s new_challenge) (vals s);
         s ← apply_session_ttl s (cfg_session_ttl_seconds (manager_vals m));
         '(rc, st) ← opendbsc_memory_store_update_impl (svals o) (Some s);
         if negb (rc =? 0) then mret (-1, Some response_default, st) else fv s st
     end) h (finished K).
Proof.
  intros Hfv Hm Hs Hfail Hemit.
  pose proof Hs as [Ho Hh]. eapply hsim_string; [apply hsim_challenge, Hh|].
  clear h Hs Hh. intros f h Hh. destruct f as [[q c]|]; cbn [fmap option_fmap option_map]; [|by apply Hfail].
  assert (has_session p s o ((q, Str c) :: proof_cells pr ++ K) h) as Hs.
  { split; [done|]. eapply holds_perm; [|exact Hh]. simpl. solve_Permutation. }
  clear Ho Hh. eapply hsim_session_set; [exact Hs| |].
  { apply has_session_owner in Hs as [_ Hh].
    apply (hsim_set_challenge calm h s (Some (q, c)) _ Hh). set_solver. }
  clear s h Hs. intros s h Hs. pose proof Hs as [Ho Hh].
  eapply (hsim_free _ (store_cells o ++ block_cells (p, [s]) ++ proof_cells pr ++ K));
    [apply (gives_back_free (Some (q, c)))|exact Hh|simpl; solve_Permutation|].
  clear h Hs Hh. intros h Hh.
  assert (has_session p s o (proof_cells pr ++ K) h) as Hs by done. clear Ho Hh.
  eapply hsim_bind; [apply hsim_apply_ttl|].
  intros ? ? ? (s1 & -> & -> & Hs1 & ->).
  assert (has_session p s1 o (proof_cells pr ++ K) h) as Hs1'.
  { apply has_session_owner in Hs. apply has_session_owner. by rewrite Hs1. }
  clear s Hs Hs1. eapply hsim_update_session; [exact Hs1'|].
  clear h o Hs1'. intros rc o h Hs. destruct (negb (rc =? 0)); [by apply Hfail|].
  eapply hsim_ext; [intros w; apply Hfv|].
  eapply hsim_bind; [by apply (Hemit _ o)|]. intros _ _ ? ->. by apply hsim_grant.
Qed.

End sims.
#[global] Arguments answered : clear implicits.
