(* ===== verification/RequestOwnership.v ===== *)
(** What the requests of the manager, and programs that make them, do with
    their blocks: the simulations of the requests of [ManagerHeap.v] by those
    of [Manager.v], a whole program that sets a manager up and tears it down,
    and the theorem that it loses nothing but the proofs of requests it has
    refused, with the leak that this leaves room for. *)

From S2P Require Export ManagerOwnership.
From S2P Require Import ManagerSpec ManagerProps Setup Requests Lifecycle.
From stdpp Require Import options.
#[local] Open Scope Z_scope.

Section requests.
Context `{HJ : CJSON, HO : OpenSSL, HU : UUIDv7} {calm : Prop}.

(** ** The requests *)

Lemma hsim_wrong_state status text p s o h K :
  has_session p s o K h →
  hsim calm (h_free_session p (ptrs s);;
             r ← h_message_response h_response_default status text; mret (0, r, sptrs o))
    (r ← message_response response_default status text; mret (0, Some r, svals o)) h (finished K).
Proof.
  intros [Ho Hh]. eapply (hsim_free _ (store_cells o ++ K));
    [apply (gives_back_session p s)|exact Hh|solve_Permutation|].
  intros h1 H1. by apply hsim_message.
Qed.

(** A failure: the proofs [lp] are lost. *)
Lemma hsim_failed lp p s o h K :
  has_session p s o ((lp ≫= proof_cells) ++ K) h → (length lp ≤ 1)%nat →
  hsim calm (h_free_session p (ptrs s);; mret (-1, h_response_default, sptrs o))
    (mret (-1, Some response_default, svals o)) h (finished K).
Proof.
  intros [Ho Hh] Hlp. eapply (hsim_free _ (store_cells o ++ (lp ≫= proof_cells) ++ K));
    [apply (gives_back_session p s)|exact Hh|solve_Permutation|].
  intros h1 H1. by apply hsim_ret, (finished_intro _ (-1) h_response_default o lp).
Qed.

Lemma hsim_failed_freed pr p s o h K :
  has_session p s o (proof_cells pr ++ K) h →
  hsim calm (h_proof_free (proof_ptrs pr);; h_free_session p (ptrs s);;
             mret (-1, h_response_default, sptrs o))
    (mret (-1, Some response_default, svals o)) h (finished K).
Proof.
  intros [Ho Hh]. eapply (hsim_free _ (store_cells o ++ block_cells (p, [s]) ++ K));
    [apply gives_back_proof|exact Hh|solve_Permutation|].
  intros h1 H1. apply (hsim_failed []); [by split|simpl; lia].
Qed.

Lemma hsim_failed_leak pr p s o h K :
  has_session p s o (proof_cells pr ++ K) h →
  hsim calm (h_free_session p (ptrs s);; mret (-1, h_response_default, sptrs o))
    (mret (-1, Some response_default, svals o)) h (finished K).
Proof. intros Hs. apply (hsim_failed [pr]); [cbn; by rewrite (right_id_L [] (++))|done]. Qed.

(** A challenge is issued, the proof given back, lost or absent. *)
Lemma hsim_challenged p s pr lp o h K :
  has_session p s o (opt_cells proof_cells pr ++ (lp ≫= proof_cells) ++ K) h →
  (length lp ≤ 1)%nat →
  hsim calm (h_refuse p (ptrs s) (proof_ptrs <$> pr) (sptrs o))
    (r ← set_challenge_response response_default (s_challenge (vals s)) (s_id (vals s)) 403;
     mret (0, Some r, svals o)) h (finished K).
Proof. intros [Ho Hh] Hlp. by apply (hsim_refuse p s pr lp). Qed.

Lemma hsim_challenged_freed p s pr o h K :
  has_session p s o (proof_cells pr ++ K) h →
  hsim calm (h_refuse p (ptrs s) (Some (proof_ptrs pr)) (sptrs o))
    (r ← set_challenge_response response_default (s_challenge (vals s)) (s_id (vals s)) 403;
     mret (0, Some r, svals o)) h (finished K).
Proof. intros Hs. apply (hsim_challenged p s (Some pr) []); [done|simpl; lia]. Qed.

Lemma hsim_challenged_leak p s pr o h K :
  has_session p s o (proof_cells pr ++ K) h →
  hsim calm (h_refuse p (ptrs s) None (sptrs o))
    (r ← set_challenge_response response_default (s_challenge (vals s)) (s_id (vals s)) 403;
     mret (0, Some r, svals o)) h (finished K).
Proof.
  intros Hs. apply (hsim_challenged p s None [pr]); [cbn; by rewrite (right_id_L [] (++))|done].
Qed.

Lemma has_session_proof p s o pr K h :
  store_ok o → holds h (proof_cells pr ++ store_cells o ++ block_cells (p, [s]) ++ K) →
  has_session p s o (proof_cells pr ++ K) h.
Proof. intros Ho Hh. split; [done|]. eapply holds_perm; [|exact Hh]. solve_Permutation. Qed.

Lemma has_session_parts p s o pr K h :
  has_session p s o (proof_cells pr ++ K) h →
  ∃ L, holds h L ∧ proof_cells pr ⊆ L ∧ owned s ⊆ L ∧ K ⊆ L.
Proof.
  intros [_ Hh]%has_session_owner. eexists. split; [exact Hh|].
  split_and!; [|by apply cells_l|]; apply cells_r, (cells_r _ [_]), cells_r;
    [by apply cells_l|by apply cells_r].
Qed.

Lemma hsim_decode f h F :
  holds h F → str_cells f ⊆ F →
  hsim calm (h_jwt_decode_and_verify (fst <$> f))
    (on_local (opendbsc_jwt_decode_and_verify (snd <$> f)) proof_default) h (proof_left F).
Proof.
  intros Hh Hf. eapply hsim_read; [done..|]. apply hsim_own_proof; [eauto with oom|done].
Qed.

Lemma hsim_verify f k h F :
  holds h F → str_cells f ⊆ F → str_cells k ⊆ F →
  hsim calm (h_jwt_verify_with_jwk (fst <$> f) (fst <$> k))
    (on_local (opendbsc_jwt_verify_with_jwk (snd <$> f) (snd <$> k)) proof_default) h (proof_left F).
Proof.
  intros Hh Hf Hk. do 2 (eapply hsim_read; [done..|]). apply hsim_own_proof; [eauto with oom|done].
Qed.

(** The key of the proof is bound to the session. *)
Lemma hsim_bound {A A'} p s o pr K h (fh : h_session → HC A) (fv : OpenDBSC_Session → C A') R :
  has_session p s o (proof_cells pr ++ K) h →
  (∀ s h, has_session p s o (proof_cells pr ++ K) h →
     hsim calm (fh (ptrs s)) (fv (vals s)) h R) →
  hsim calm
    (s ← h_ignore (h_session_set_public_key (Some (h_with_state OPENDBSC_SESSION_STATE_BOUND (ptrs s)))
                     (hj_jwk (proof_ptrs pr)));
     s ← h_ignore (h_session_set_algorithm (Some s) (hj_algorithm (proof_ptrs pr)));
     fh s)
    (s ← deref (opendbsc_session_set_state (Some (vals s)) OPENDBSC_SESSION_STATE_BOUND);
     s ← ignore (λ s, opendbsc_session_set_public_key s (p_jwk (proof_vals pr))) s;
     s ← ignore (λ s, opendbsc_session_set_algorithm s (p_algorithm (proof_vals pr))) s;
     fv s) h R.
Proof.
  intros Hs Hk.
  eapply hsim_value; [done|].
  set (s1 := h_with_state OPENDBSC_SESSION_STATE_BOUND s).
  assert (has_session p s1 o (proof_cells pr ++ K) h) as Hs1 by exact Hs. clear Hs.
  eapply (hsim_session_set _ _ p s1); [exact Hs1| |].
  { apply (hsim_set_public_key calm h s1 (hj_jwk pr)); [by apply has_session_owner in Hs1 as [_ ?]|].
    unfold proof_cells. set_solver. }
  clear s s1 h Hs1. intros s h Hs.
  eapply (hsim_session_set _ _ p s); [exact Hs| |].
  { apply (hsim_set_algorithm calm h s (hj_algorithm pr)); [by apply has_session_owner in Hs as [_ ?]|].
    unfold proof_cells. set_solver. }
  clear s h Hs. intros s h Hs. by apply Hk.
Qed.

Lemma hsim_register_event m pr p s o K h :
  manager_cells m ⊆ K → has_session p s o (proof_cells pr ++ K) h →
  hsim calm
    (alg ← h_read (hj_algorithm (proof_ptrs pr));
     alg ← lift (need_str alg);
     h_emit_event (manager_ptrs m) "REGISTER" (h_user_id (ptrs s)) (h_id (ptrs s))
       (str_take 255 ("alg=" +:+ alg)))
    (alg ← need_str (p_algorithm (proof_vals pr));
     emit_event (manager_vals m) "REGISTER" (s_user_id (vals s)) (s_id (vals s))
       (Some (str_take 255 ("alg=" +:+ alg)))) h (λ _ _ h', h' = h).
Proof.
  intros HmK Hs. destruct (has_session_parts _ _ _ _ _ _ Hs) as (L & HL & Hpr & Hown & HKL).
  unfold proof_cells, owned in *.
  eapply hsim_read; [exact HL|set_solver|].
  eapply (hsim_bind _ _ _ _ _ (λ a b h', a = b ∧ h' = h)); [apply hsim_lift; eauto with oom|].
  intros alg ? ? [<- ->]. apply (hsim_emit m _ (h_user_id s) (h_id s) _ h L); set_solver.
Qed.

Lemma hsim_register m f g o h F :
  store_ok o → holds h (store_cells o ++ F) → manager_cells m ⊆ F → str_cells f ⊆ F →
  str_cells g ⊆ F →
  hsim calm (h_register (manager_ptrs m) (fst <$> f) (fst <$> g) (sptrs o))
    (opendbsc_manager_register (Some (manager_vals m)) (snd <$> f) (snd <$> g)
       (Some response_default) (svals o)) h (answered calm F).
Proof.
  intros Ho Hh Hm Hf Hg. unfold h_register, opendbsc_manager_register.
  eapply hsim_heap; [eapply nonempty_run; [exact Hh|by apply cells_r]|].
  destruct f as [[q [|c t]]|]; cbn [fmap option_fmap option_map nonempty];
    try (eapply hsim_mono; [by apply hsim_message|intros; by exists []]).
  apply hsim_need_store. apply (hsim_fetch (q, String c t)); [done..|].
  clear o h Ho Hh. intros p s o ls h Hs. set (K := (ls ≫= owned) ++ F) in *.
  assert (manager_cells m ⊆ K) as HmK by by apply cells_r.
  assert (str_cells g ⊆ K) as HgK by by apply cells_r.
  clearbody K. clear F Hm Hf Hg ls.
  change (s_state (vals s)) with (h_state (ptrs s)).
  destruct (negb (bool_decide (h_state (ptrs s) = OPENDBSC_SESSION_STATE_ACTIVE)));
    [by apply hsim_wrong_state|].
  eapply hsim_heap; [eapply nonempty_run; [apply Hs|by do 2 apply cells_r]|].
  destruct g as [[r [|d u]]|]; cbn [fmap option_fmap option_map nonempty];
    try (apply (hsim_challenged p s None []); [done|simpl; lia]).
  eapply hsim_bind; [apply (hsim_decode (Some (r, String d u)) _ _ (proj2 Hs)); by do 2 apply cells_r|].
  destruct Hs as [Ho _]. clear h. intros ? ? h (rc & pr & -> & -> & Hs).
  apply has_session_proof in Hs; [|done]. clear Ho.
  destruct (negb (rc =? 0)); [by eapply hsim_challenged_leak|].
  destruct (has_session_parts _ _ _ _ _ _ Hs) as (L & HL & Hpr & Hown & HKL).
  eapply hsim_bind; [apply (hsim_matches pr s h L HL)|].
  { unfold proof_cells in Hpr. set_solver. }
  { unfold owned in Hown. set_solver. }
  intros ok ? ? [<- ->]. destruct (negb ok); [by apply hsim_challenged_freed|].
  eapply hsim_heap; [apply (authorization_run m pr h L HL); [by etrans|done]|].
  destruct (negb _); [by apply hsim_challenged_freed|].
  clear L HL Hpr Hown HKL.
  eapply hsim_bound; [exact Hs|]. clear s h Hs. intros s h Hs.
  apply (hsim_renew m pr p s o K h
    (λ s, alg ← h_read (hj_algorithm (proof_ptrs pr));
          alg ← lift (need_str alg);
          h_emit_event (manager_ptrs m) "REGISTER" (h_user_id s) (h_id s)
            (str_take 255 ("alg=" +:+ alg)))
    (λ s, alg ← need_str (p_algorithm (proof_vals pr));
          emit_event (manager_vals m) "REGISTER" (s_user_id s) (s_id s)
            (Some (str_take 255 ("alg=" +:+ alg))))
    (λ s ms, h_proof_free (proof_ptrs pr);; h_free_session p s;;
             mret (-1, h_response_default, ms))).
  - intros s1 st w. rewrite !bind_unfold.
    by destruct (need_str (p_algorithm (proof_vals pr)) w) as [alg w'| |].
  - done.
  - done.
  - intros s1 o1 h1. apply hsim_failed_freed.
  - intros s1 o1 h1. by apply hsim_register_event.
Qed.

Lemma hsim_refresh m f g o h F :
  store_ok o → holds h (store_cells o ++ F) → manager_cells m ⊆ F → str_cells f ⊆ F →
  str_cells g ⊆ F →
  hsim calm (h_refresh (manager_ptrs m) (fst <$> f) (fst <$> g) (sptrs o))
    (opendbsc_manager_refresh (Some (manager_vals m)) (snd <$> f) (snd <$> g)
       (Some response_default) (svals o)) h (answered calm F).
Proof.
  intros Ho Hh Hm Hf Hg. unfold h_refresh, opendbsc_manager_refresh.
  eapply hsim_heap; [eapply nonempty_run; [exact Hh|by apply cells_r]|].
  destruct f as [[q [|c t]]|]; cbn [fmap option_fmap option_map nonempty];
    try (eapply hsim_mono; [by apply hsim_message|intros; by exists []]).
  apply hsim_need_store. apply (hsim_fetch (q, String c t)); [done..|].
  clear o h Ho Hh. intros p s o ls h Hs. set (K := (ls ≫= owned) ++ F) in *.
  assert (manager_cells m ⊆ K) as HmK by by apply cells_r.
  assert (str_cells g ⊆ K) as HgK by by apply cells_r.
  clearbody K. clear F Hm Hf Hg ls.
  change (s_state (vals s)) with (h_state (ptrs s)).
  destruct (negb (bool_decide (h_state (ptrs s) = OPENDBSC_SESSION_STATE_BOUND)));
    [by apply hsim_wrong_state|].
  eapply hsim_heap; [eapply nonempty_run; [apply Hs|by do 2 apply cells_r]|].
  destruct g as [[r [|d u]]|]; cbn [fmap option_fmap option_map nonempty];
    try (apply (hsim_challenged p s None []); [done|simpl; lia]).
  pose proof Hs as [Ho Hh].
  eapply (hsim_bind _ _ _ _ _ (proof_left (store_cells o ++ block_cells (p, [s]) ++ K))).
  { cbn [ptrs vals h_public_key s_public_key].
    destruct (h_public_key s) as [[k key]|] eqn:Hk;
      [|by apply hsim_ret; exists (-1), h_proof_default].
    apply (hsim_verify (Some (r, String d u)) (Some (k, key)) _ _ Hh); [by do 2 apply cells_r|].
    apply cells_r, cells_l. unfold block_cells, owned. cbn. rewrite Hk. set_solver. }
  clear h Hs Hh. intros ? ? h (rc & pr & -> & -> & Hs).
  apply has_session_proof in Hs; [|done]. clear Ho.
  destruct (negb (rc =? 0)); [by eapply hsim_challenged_leak|].
  destruct (has_session_parts _ _ _ _ _ _ Hs) as (L & HL & Hpr & Hown & HKL).
  eapply hsim_bind; [apply (hsim_matches pr s h L HL)|].
  { unfold proof_cells in Hpr. set_solver. }
  { unfold owned in Hown. set_solver. }
  intros ok ? ? [<- ->]. destruct (negb ok); [by apply hsim_challenged_freed|].
  clear L HL Hpr Hown HKL.
  apply (hsim_renew m pr p s o K h
    (λ s, h_emit_event (manager_ptrs m) "REFRESH" (h_user_id s) (h_id s) "session extended")
    (λ s, emit_event (manager_vals m) "REFRESH" (s_user_id s) (s_id s) (Some "session extended"))
    (λ s ms, h_free_session p s;; mret (-1, h_response_default, ms))); [done|done|done| |].
  - intros s1 o1 h1. apply hsim_failed_leak.
  - clear s h o Hs. intros s o h Hs.
    destruct (has_session_parts _ _ _ _ _ _ Hs) as (L & HL & _ & Hown & HKL).
    unfold owned in *. apply (hsim_emit m _ (h_user_id s) (h_id s) _ h L); set_solver.
Qed.

Lemma is_null_snd (f : option ostr) :
  bool_decide (fst <$> f = None) = bool_decide (snd <$> f = None).
Proof. by destruct f. Qed.

(** The end of a closing, with the strings [f] of the user. *)
Lemma hsim_close_end rc f resp p s o h K :
  has_session p s o (str_cells f ++ response_cells resp ++ K) h →
  hsim calm (h_free (fst <$> f);; h_free_session p (ptrs s);;
             mret (rc, response_ptrs resp, sptrs o))
    (mret (rc, Some (response_vals resp), svals o)) h (finished K).
Proof.
  intros [Ho Hh].
  eapply (hsim_free _ (store_cells o ++ block_cells (p, [s]) ++ response_cells resp ++ K));
    [apply gives_back_free|exact Hh|solve_Permutation|].
  intros h1 H1. eapply (hsim_free _ (store_cells o ++ response_cells resp ++ K));
    [apply (gives_back_session p s)|exact H1|solve_Permutation|].
  intros h2 H2. apply hsim_ret, (finished_intro _ rc resp o []); [done|simpl; lia|done].
Qed.

Lemma hsim_close m f o h F :
  store_ok o → holds h (store_cells o ++ F) → manager_cells m ⊆ F → str_cells f ⊆ F →
  hsim calm (h_close (manager_ptrs m) (fst <$> f) (sptrs o))
    (opendbsc_manager_close (Some (manager_vals m)) (snd <$> f) (Some response_default) (svals o))
    h (answered calm F).
Proof.
  intros Ho Hh Hm Hf. unfold h_close, opendbsc_manager_close.
  eapply hsim_heap; [eapply nonempty_run; [exact Hh|by apply cells_r]|].
  destruct f as [[q [|c t]]|]; cbn [fmap option_fmap option_map nonempty];
    try (eapply hsim_mono; [by apply hsim_message|intros; by exists []]).
  apply hsim_need_store. apply (hsim_fetch (q, String c t)); [done..|].
  clear o h Ho Hh. intros p s o ls h Hs. set (K := (ls ≫= owned) ++ F) in *.
  assert (manager_cells m ⊆ K) as HmK by by apply cells_r.
  assert (str_cells (Some (q, String c t)) ⊆ K) as HfK by by apply cells_r.
  clearbody K. clear F Hm Hf ls.
  eapply hsim_string; [apply (hsim_copy (h_user_id s) _ _ (proj2 Hs))|].
  { apply cells_r, cells_l. unfold block_cells, owned. cbn. set_solver. }
  destruct Hs as [Ho _]. clear h. intros u h Hh.
  assert (has_session p s o (str_cells u ++ K) h) as Hs.
  { split; [done|]. eapply holds_perm; [|exact Hh]. solve_Permutation. }
  clear Ho Hh. cbn [ptrs vals h_user_id s_user_id]. rewrite !is_null_snd.
  destruct (negb _ && _) eqn:Hu.
  { apply andb_true_iff in Hu as [_ Hu%bool_decide_eq_true_1]. destruct u; [done|].
    by apply (hsim_failed []); [|simpl; lia]. }
  clear Hu. pose proof Hs as [Ho Hh].
  eapply hsim_string; [apply (hsim_body m s false _ _ Hh); [by do 3 apply cells_r|]|].
  { apply cells_r, cells_l. unfold block_cells, owned. cbn. set_solver. }
  clear h Hs Hh. intros b h Hh.
  destruct b as [b|]; cbn [fmap option_fmap option_map].
  2:{ by apply (hsim_close_end _ u h_response_default). }
  eapply hsim_string; [apply (hsim_cookie m (h_id s) 0 _ _ Hh); [by do 4 apply cells_r|]|].
  { apply cells_r, cells_r, cells_l. unfold block_cells, owned. cbn. set_solver. }
  clear h Hh. intros cookie h Hh.
  set (resp := ResponseOf 200 cookie None None (Some b) : oresponse).
  eapply hsim_bind.
  { apply (hsim_delete calm (block_cells (p, [s]) ++ str_cells u ++ response_cells resp ++ K) o h
      (Some (q, String c t)) Ho).
    - eapply holds_perm; [|exact Hh]. unfold response_cells. simpl. solve_Permutation.
    - by do 3 apply cells_r. }
  clear o h Ho Hh. intros ? ? h (rc & o & -> & -> & Ho & Hh).
  assert (has_session p s o (str_cells u ++ response_cells resp ++ K) h) as Hs by by split.
  destruct (negb (rc =? 0)); [by apply (hsim_close_end _ u resp)|].
  eapply hsim_bind.
  { apply (hsim_emit m _ u (Some (q, String c t)) _ h _ Hh).
    - by do 4 apply cells_r.
    - by do 2 apply cells_r; apply cells_l.
    - by do 4 apply cells_r. }
  intros _ _ ? ->. by apply (hsim_close_end _ u resp).
Qed.

(** ** Logins *)

Definition initiated (F : cells) (r : Z * option h_session * response_of ptr * h_store)
    (r' : Z * option OpenDBSC_Session * option OpenDBSC_ManagerResponse * OpenDBSC_MemoryStore)
    (h : heap) : Prop :=
  ∃ rc out p o, r = (rc, ptrs <$> out, response_ptrs p, sptrs o) ∧
    r' = (rc, vals <$> out, Some (response_vals p), svals o) ∧ store_ok o ∧
    holds h (store_cells o ++ given out ++ response_cells p ++ F).

Lemma oom_kept_new_id b : oom_kept (opendbsc_session_new_id b).
Proof. unfold opendbsc_session_new_id. solve_oom. Qed.

(** The session of the caller's stack is given back. *)
Lemma hsim_initiated rc s out p o h F :
  store_ok o → holds h (owned s ++ store_cells o ++ given out ++ response_cells p ++ F) →
  hsim calm (h_session_free (Some (ptrs s));;
             mret (rc, ptrs <$> out, response_ptrs p, sptrs o))
    (mret (rc, vals <$> out, Some (response_vals p), svals o)) h (initiated F).
Proof.
  intros Ho Hh. eapply (hsim_free _ (store_cells o ++ given out ++ response_cells p ++ F));
    [apply gives_back_session_struct|exact Hh|done|].
  intros h1 H1. apply hsim_ret. by exists rc, out, p, o.
Qed.

(** A setter on the caller's session. *)
Lemma hsim_local_set {A A'} mh f s G h (fh : h_session → HC A) (fv : OpenDBSC_Session → C A') R :
  hsim calm mh (f (Some (vals s))) h (session_left calm G) →
  (∀ s h, holds h (owned s ++ G) → hsim calm (fh (ptrs s)) (fv (vals s)) h R) →
  hsim calm (h_ignore mh ≫= fh) (ignore f (vals s) ≫= fv) h R.
Proof.
  intros Hm Hk. eapply hsim_bind; [by eapply hsim_ignore|].
  intros ? ? h1 (s1 & -> & -> & H1). by apply Hk.
Qed.

(** The stored session is answered: cookie, header, copy, event. *)
Lemma hsim_login_answer m u s out o h F :
  store_ok o → holds h (owned s ++ store_cells o ++ given out ++ F) →
  manager_cells m ⊆ F → str_cells u ⊆ F →
  hsim calm
    (cookie ← h_build_set_cookie (manager_ptrs m) (h_id (ptrs s));
     header ← h_registration_serialize (h_challenge (ptrs s)) (hm_authorization (manager_ptrs m));
     out_session ← (match ptrs <$> out with
                    | None => mret None
                    | Some out =>
                        '(_, out) ← h_session_copy (Some out) (Some (ptrs s));
                        mret out
                    end);
     h_emit_event (manager_ptrs m) "LOGIN" (fst <$> u) (h_id (ptrs s)) "login successful";;
     h_session_free (Some (ptrs s));;
     mret (0, out_session, ResponseOf 200 cookie header None None, sptrs o))
    (cookie ← build_set_cookie (manager_vals m) (s_id (vals s));
     header ← opendbsc_registration_serialize (Some [Some "ES256"; Some "RS256"]) 2
                (Some "/dbsc/register") (s_challenge (vals s)) (cfg_authorization (manager_vals m))
                None None None;
     out_session ← (match vals <$> out with
                    | None => mret None
                    | Some out =>
                        '(_, out) ← opendbsc_session_copy (Some out) (Some (vals s));
                        mret out
                    end);
     emit_event (manager_vals m) "LOGIN" (snd <$> u) (s_id (vals s)) (Some "login successful");;
     mret (0, out_session, Some (ManagerResponse 200 cookie header None None), svals o)) h
    (initiated F).
Proof.
  intros Ho Hh Hm Hu. set (L := owned s ++ _) in Hh.
  assert (str_cells (h_id s) ⊆ L ∧ str_cells (h_challenge s) ⊆ L) as [Hid Hc].
  { split; apply cells_l; unfold owned; set_solver. }
  assert (manager_cells m ⊆ L ∧ str_cells u ⊆ L) as [Hm' Hu'] by (split; by do 3 apply cells_r).
  assert (str_cells (hm_authorization m) ⊆ L) as Ha
    by (etrans; [|exact Hm']; unfold manager_cells; set_solver).
  eapply hsim_string; [by apply (hsim_cookie m (h_id s))|]. intros cookie h1 H1.
  eapply hsim_string;
    [by apply (hsim_registration (h_challenge s) (hm_authorization m) _ _ H1); apply cells_r|].
  intros header h2 H2.
  set (resp := ResponseOf 200 cookie header None None : oresponse).
  eapply (hsim_bind _ _ _ _ _ (λ r r' h', ∃ out, r = ptrs <$> out ∧ r' = vals <$> out ∧
    holds h' (owned s ++ store_cells o ++ given out ++ response_cells resp ++ F))).
  { destruct out as [d|]; cbn [fmap option_fmap option_map given].
    - eapply hsim_bind.
      { apply (hsim_session_copy calm h2 d s
          (owned s ++ store_cells o ++ response_cells resp ++ F)); [|by apply cells_l].
        eapply holds_perm; [|exact H2]. unfold L, response_cells. simpl. solve_Permutation. }
      intros ? ? h3 (rc & d1 & -> & -> & _ & H3). apply hsim_ret. exists (Some d1).
      split_and!; [done|done|]. eapply holds_perm; [|exact H3]. simpl. solve_Permutation.
    - apply hsim_ret. exists None. split_and!; [done|done|].
      eapply holds_perm; [|exact H2]. unfold L, response_cells. simpl. solve_Permutation. }
  intros ? ? h3 (out1 & -> & -> & H3).
  eapply hsim_bind.
  { apply (hsim_emit m _ u (h_id s) _ h3 _ H3); [by do 4 apply cells_r..|].
    apply cells_l. unfold owned. set_solver. }
  intros _ _ ? ->. by apply (hsim_initiated 0 s out1 resp).
Qed.

(** The challenge, the clock and the term of a new session. *)
Lemma hsim_login_term {A A'} s p c n G h (fh : h_session → HC A) (fv : OpenDBSC_Session → C A') R :
  holds h (owned s ++ (p, Str c) :: G) →
  (∀ s h, holds h (owned s ++ G) → hsim calm (fh (ptrs s)) (fv (vals s)) h R) →
  hsim calm
    (session ← h_ignore (h_session_set_challenge (Some (ptrs s)) (Some p));
     h_free (Some p);;
     now ← lift time_NULL;
     let session := h_with_created_at now session in
     session ← h_apply_session_ttl session n;
     fh session)
    (session ← ignore (λ s, opendbsc_session_set_challenge s (Some c)) (vals s);
     now ← time_NULL;
     session ← deref (opendbsc_session_set_created_at (Some session) now);
     session ← apply_session_ttl session n;
     fv session) h R.
Proof.
  intros Hh Hk. eapply (hsim_local_set _ _ s ((p, Str c) :: G)).
  { apply (hsim_set_challenge calm h s (Some (p, c))); [done|set_solver]. }
  clear s h Hh. intros s h Hh.
  eapply (hsim_free _ (owned s ++ G));
    [apply (gives_back_free (Some (p, c)))|exact Hh|simpl; solve_Permutation|].
  clear h Hh. intros h Hh.
  eapply (hsim_bind _ _ _ _ _ (λ a b h', a = b ∧ h' = h)); [by apply hsim_time|].
  intros now ? ? [<- ->]. eapply hsim_value; [done|].
  eapply hsim_bind; [apply (hsim_apply_ttl (h_with_created_at now s))|].
  intros ? ? ? (s2 & -> & -> & Hs2 & ->). apply Hk. by rewrite Hs2.
Qed.

Lemma hsim_initiate m u out o h F :
  store_ok o → holds h (store_cells o ++ given out ++ F) → manager_cells m ⊆ F →
  str_cells u ⊆ F →
  hsim calm (h_initiate (manager_ptrs m) (fst <$> u) (ptrs <$> out) (sptrs o))
    (opendbsc_manager_initiate (Some (manager_vals m)) (snd <$> u) (vals <$> out)
       (Some response_default) (svals o)) h (initiated F).
Proof.
  intros Ho Hh Hm Hu. unfold h_initiate, opendbsc_manager_initiate.
  assert (∀ o h, store_ok o → holds h (store_cells o ++ given out ++ F) →
    initiated F (-1, ptrs <$> out, h_response_default, sptrs o)
      (-1, vals <$> out, Some response_default, svals o) h) as Hfail.
  { intros o1 h1 Ho1 H1. by exists (-1), out, h_response_default, o1. }
  destruct u as [[q u]|]; cbn [fmap option_fmap option_map].
  2:{ apply hsim_ret. exists (-1), out, h_response_default, o. by split_and!. }
  eapply (hsim_bind _ _ _ _ _ (λ a b h', a = b ∧ h' = h));
    [by apply hsim_lift; [apply oom_kept_new_id|]|].
  intros [rc id] ? ? [<- ->]. destruct (negb (rc =? 0)); [by apply hsim_ret, Hfail|].
  eapply (hsim_ext _ _ ((id ← deref id; buf_cstr id) ≫= _)).
  { intros w. rewrite !bind_unfold. by destruct (deref id w). }
  eapply (hsim_bind _ _ _ _ _ (λ a b h', a = b ∧ h' = h)); [apply hsim_lift; solve_oom|].
  intros text ? ? [<- ->].
  set (G := store_cells o ++ given out ++ F) in Hh.
  assert (str_cells (Some (q, u)) ⊆ G) as HuG by by do 2 apply cells_r.
  eapply (hsim_local_set _ _ h_default G); [apply (hsim_set_id_literal h_default), Hh|].
  clear h Hh. intros s h Hh.
  eapply (hsim_local_set _ _ s G); [by apply (hsim_set_user_id calm h s (Some (q, u)))|].
  clear s h Hh. intros s h Hh. eapply hsim_value; [done|].
  set (s1 := h_with_state OPENDBSC_SESSION_STATE_ACTIVE s).
  assert (holds h (owned s1 ++ G)) as Hh1 by done.
  change (h_with_state _ (ptrs s)) with (ptrs s1).
  eapply hsim_string; [by apply hsim_challenge|]. clear h Hh Hh1. intros c h Hh.
  destruct c as [[p c]|]; cbn [fmap option_fmap option_map].
  2:{ apply (hsim_initiated (-1) s1 out h_response_default); [done|].
      eapply holds_perm; [|exact Hh]. unfold G. simpl. solve_Permutation. }
  eapply (hsim_login_term s1 p c _ G).
  { eapply holds_perm; [|exact Hh]. simpl. solve_Permutation. }
  clear s s1 h Hh. intros s2 h Hh1.
  apply hsim_need_store.
  eapply hsim_bind.
  { apply (hsim_create calm (owned s2 ++ given out ++ F) o h (Some s2) Ho); [|by apply cells_l].
    eapply holds_perm; [|exact Hh1]. unfold G. solve_Permutation. }
  clear G HuG h Hh1. intros ? ? h (rc1 & o1 & -> & -> & Ho1 & Hh).
  destruct (negb (rc1 =? 0)).
  - apply (hsim_initiated (-1) s2 out h_response_default); [done|].
    eapply holds_perm; [|exact Hh]. simpl. solve_Permutation.
  - apply (hsim_login_answer m (Some (q, u))); [done| |done|done].
    eapply holds_perm; [|exact Hh]. solve_Permutation.
Qed.

Lemma hsim_manager_get m f out o h F :
  store_ok o → holds h (store_cells o ++ F) → str_cells f ⊆ F →
  hsim calm (h_get_session (manager_ptrs m) (fst <$> f) out (sptrs o))
    (opendbsc_manager_get_session (Some (manager_vals m)) (snd <$> f)
       (if out : bool then Some None else None) (svals o)) h (get_left calm F out).
Proof.
  intros Ho Hh Hf. unfold h_get_session, opendbsc_manager_get_session.
  destruct f as [f|], out; cbn [fmap option_fmap option_map];
    try (by apply (get_refused _ _ _ _ true)); try (by apply (get_refused _ _ _ _ false)).
  apply hsim_need_store. by apply (hsim_get calm F o h (Some f) true).
Qed.

End requests.

(** ** Programs *)

Definition request_ptrs (q : request_of ostr) : request_of ptr :=
  match q with
  | HLogin u out => HLogin (fst <$> u) out
  | HSession f => HSession (fst <$> f)
  | HRegister f g => HRegister (fst <$> f) (fst <$> g)
  | HRefresh f g => HRefresh (fst <$> f) (fst <$> g)
  | HClose f => HClose (fst <$> f)
  end.

Definition request_cells (q : request_of ostr) : cells :=
  match q with
  | HLogin f _ | HSession f | HClose f => str_cells f
  | HRegister f g | HRefresh f g => str_cells f ++ str_cells g
  end.

Definition refusal (a : answer) : bool := refused a.1.1 a.2.

(** After a request and the delivery of its answer. *)
Definition served (calm : Prop) (F : cells) (r : answer * h_store)
    (r' : answer * OpenDBSC_MemoryStore) (h : heap) : Prop :=
  ∃ a o ls lp, r = (a, sptrs o) ∧ r' = (a, svals o) ∧ store_ok o ∧ (calm → ls = []) ∧
    (length lp ≤ if refusal a then 1 else 0)%nat ∧
    holds h (store_cells o ++ (ls ≫= owned) ++ (lp ≫= proof_cells) ++ F).

Section programs.
Context `{HJ : CJSON, HO : OpenSSL, HU : UUIDv7} {calm : Prop}.

Lemma read_response_run r h L :
  holds h L → response_cells r ⊆ L →
  heap_run (h_read_response (response_ptrs r)) h (response_vals r) h.
Proof.
  intros Hh Hin. unfold response_cells in Hin.
  by repeat (eapply heap_run_bind; [eapply read_run; [exact Hh|set_solver]|]).
Qed.

Lemma read_session_run s h L :
  holds h L → owned s ⊆ L → heap_run (h_read_session (ptrs s)) h (vals s) h.
Proof.
  intros Hh Hin. unfold owned in Hin.
  by repeat (eapply heap_run_bind; [eapply read_run; [exact Hh|set_solver]|]).
Qed.

Lemma hsim_deliver mh m h F :
  hsim calm mh m h (answered calm F) →
  hsim calm (r ← mh; h_deliver r)
    ('(rc, resp, ms) ← m; resp ← deref resp; mret (rc, None, resp, ms)) h (served calm F).
Proof.
  intros Hm. eapply hsim_bind; [exact Hm|].
  intros ? ? h1 (ls & Hls & rc & p & o & lp & -> & -> & Ho & Hlp & H1).
  eapply hsim_value; [done|]. unfold h_deliver.
  eapply hsim_heap; [eapply read_response_run; [exact H1|by apply cells_r, cells_l]|].
  eapply (hsim_free _ (store_cells o ++ (ls ≫= owned) ++ (lp ≫= proof_cells) ++ F));
    [apply gives_back_response|exact H1|solve_Permutation|].
  intros h2 H2. apply hsim_ret. by exists (rc, None, response_vals p), o, ls, lp.
Qed.

Lemma hsim_serve m q o h F :
  store_ok o → holds h (store_cells o ++ F) → manager_cells m ⊆ F → request_cells q ⊆ F →
  hsim calm (h_serve (manager_ptrs m) (request_ptrs q) (sptrs o))
    (serve (manager_vals m) q (svals o)) h (served calm F).
Proof.
  intros Ho Hh Hm Hq. destruct q as [u out|f|f g|f g|f]; cbn [request_cells] in Hq;
    cbn [h_serve serve request_ptrs].
  - set (d := if out then Some h_default else None : option osession).
    replace (if out then Some h_default else None) with (ptrs <$> d) by (by destruct out).
    replace (if out then Some session_default else None) with (vals <$> d) by (by destruct out).
    eapply hsim_bind; [apply (hsim_initiate m u d o h F); [done|by unfold d; destruct out|done|done]|].
    clear o h d Ho Hh. intros ? ? h (rc & d & p & o & -> & -> & Ho & Hh).
    eapply hsim_value; [done|].
    eapply hsim_heap; [eapply read_response_run; [exact Hh|by apply cells_r, cells_r, cells_l]|].
    eapply (hsim_free _ (given d ++ store_cells o ++ F));
      [apply gives_back_response|exact Hh|solve_Permutation|].
    clear h Hh. intros h Hh. destruct d as [s|]; cbn [fmap option_fmap option_map given] in *.
    + eapply hsim_heap; [eapply read_session_run; [exact Hh|by apply cells_l]|].
      eapply (hsim_free _ (store_cells o ++ F)); [apply gives_back_session_struct|exact Hh|done|].
      intros h1 H1. apply hsim_ret. exists (rc, Some (vals s), response_vals p), o, [], [].
      split_and!; [done|done|done|done|simpl; lia|done].
    + apply hsim_ret. exists (rc, None, response_vals p), o, [], [].
      split_and!; [done|done|done|done|simpl; lia|done].
  - eapply hsim_bind; [by apply (hsim_manager_get m f true)|].
    clear o h Ho Hh. intros ? ? h (rc & b & o & ls & -> & -> & _ & Hn & Hls & Ho & Hh).
    eapply hsim_value; [done|].
    destruct b as [[p [|s [|]]]|]; [by specialize (Hn _ eq_refl)| |by specialize (Hn _ eq_refl)|].
    + assert (owned s ⊆ answer_cells (Some (p, [s]))) as Hs by (cbn; set_solver).
      eapply hsim_heap; [eapply heap_run_bind; [eapply live_run; [exact Hh|]|apply heap_run_ret]|].
      { apply elem_of_app. right. by left. }
      eapply hsim_heap; [eapply read_session_run; [exact Hh|by apply cells_r, cells_l]|].
      eapply (hsim_free _ (store_cells o ++ (ls ≫= owned) ++ F));
        [apply (gives_back_session p s)|exact Hh|cbn [answer_cells]; solve_Permutation|].
      intros h1 H1. apply hsim_ret. exists (rc, Some (vals s), response_default), o, ls, [].
      split_and!; [done|done|done|done|simpl; lia|done].
    + apply hsim_ret. exists (rc, None, response_default), o, ls, [].
      split_and!; [done|done|done|done|simpl; lia|done].
  - apply hsim_deliver, hsim_register; [done|done|done|set_solver..].
  - apply hsim_deliver, hsim_refresh; [done|done|done|set_solver..].
  - by apply hsim_deliver, hsim_close.
Qed.

Definition refusals (l : list answer) : nat := length (filter (λ a, refusal a = true) l).

Lemma hsim_serve_all m qs o h F :
  store_ok o → holds h (store_cells o ++ F) → manager_cells m ⊆ F →
  Forall (λ q, request_cells q ⊆ F) qs →
  hsim calm (h_serve_all (manager_ptrs m) (request_ptrs <$> qs) (sptrs o))
    (serve_all (manager_vals m) qs (svals o)) h (λ r r' h', ∃ l o ls lp,
      r = (l, sptrs o) ∧ r' = (l, svals o) ∧ store_ok o ∧ (calm → ls = []) ∧
      (length lp ≤ refusals l)%nat ∧
      holds h' (store_cells o ++ (ls ≫= owned) ++ (lp ≫= proof_cells) ++ F)).
Proof.
  intros Ho Hh Hm Hqs. revert o h F Ho Hh Hm Hqs.
  induction qs as [|q qs IH]; intros o h F Ho Hh Hm Hqs.
  { apply hsim_ret. by exists [], o, [], []. }
  apply Forall_cons in Hqs as [Hq Hqs].
  eapply hsim_bind; [by apply hsim_serve|]. clear o h Ho Hh.
  intros ? ? h (a & o & ls & lp & -> & -> & Ho & Hls & Hlp & Hh).
  eapply hsim_bind.
  { apply (IH o h ((ls ≫= owned) ++ (lp ≫= proof_cells) ++ F) Ho Hh).
    - by do 2 apply cells_r.
    - eapply Forall_impl; [exact Hqs|]. intros q' ?. by do 2 apply cells_r. }
  clear o h Ho Hh. intros ? ? h (l & o & ls' & lp' & -> & -> & Ho & Hls' & Hlp' & Hh).
  apply hsim_ret. exists (a :: l), o, (ls' ++ ls), (lp' ++ lp).
  split_and!; [done|done|done| | |].
  - intros Hc. by rewrite (Hls Hc), (Hls' Hc).
  - unfold refusals in *. rewrite length_app, filter_cons.
    case_decide as E; [rewrite E in Hlp|destruct (refusal a); [done|]]; cbn in *; lia.
  - eapply holds_perm; [|exact Hh]. rewrite !bind_app. solve_Permutation.
Qed.

Lemma hsim_copy_or f d h F :
  holds h F → str_cells f ⊆ F →
  hsim calm (h_copy_or (fst <$> f) d) (copy_string (or_default (snd <$> f) d)) h (string_left F).
Proof.
  intros Hh Hf. destruct f as [f|]; [by apply (hsim_copy (Some f))|by apply hsim_strdup].
Qed.

Lemma hsim_init cfg h F :
  holds h F → manager_cells cfg ⊆ F →
  hsim calm (h_manager_init (manager_ptrs cfg))
    (opendbsc_manager_init (Some manager_zero) (Some (manager_vals cfg))) h (λ r r' h',
      (r = (-1, None) ∧ r'.1 = -1 ∧ holds h' F) ∨
      ∃ m, r = (0, Some (manager_ptrs m)) ∧ r' = (0, Some (manager_vals m)) ∧
           holds h' (manager_cells m ++ F)).
Proof.
  intros Hh Hc. unfold h_manager_init, opendbsc_manager_init. cbn [hm_store manager_ptrs cfg_store manager_vals].
  destruct (negb (hm_store cfg)); [apply hsim_ret; by left|].
  unfold manager_cells in Hc.
  eapply hsim_string; [apply (hsim_copy_or (hm_cookie_name cfg) _ h F Hh); set_solver|].
  clear h Hh. intros f1 h Hh.
  eapply hsim_string; [apply (hsim_copy_or (hm_cookie_path cfg) _ h _ Hh); set_solver|].
  clear h Hh. intros f2 h Hh.
  eapply hsim_string; [apply (hsim_copy (hm_cookie_domain cfg) h _ Hh); set_solver|].
  clear h Hh. intros f3 h Hh.
  eapply hsim_string; [apply (hsim_copy_or (hm_same_site cfg) _ h _ Hh); set_solver|].
  clear h Hh. intros f4 h Hh.
  eapply hsim_string; [apply (hsim_copy (hm_authorization cfg) h _ Hh); set_solver|].
  clear h Hh. intros f5 h Hh. apply hsim_ret. right.
  exists (ManagerOf (hm_store cfg) f1 f2 f3 (hm_secure cfg) f4
    (if hm_cookie_ttl_seconds cfg =? 0 then OPENDBSC_DEFAULT_COOKIE_TTL else hm_cookie_ttl_seconds cfg)
    (hm_session_ttl_seconds cfg) f5 (hm_on_event cfg)).
  split_and!; [done|done|]. eapply holds_perm; [|exact Hh]. unfold manager_cells. simpl.
  solve_Permutation.
Qed.

Lemma hsim_manager_program cfg qs h F :
  holds h F → manager_cells cfg ⊆ F → Forall (λ q, request_cells q ⊆ F) qs →
  hsim calm (h_manager_program (manager_ptrs cfg) (request_ptrs <$> qs))
    (manager_program (manager_vals cfg) qs) h (λ r r' h', r = r' ∧ ∃ ls lp,
      (calm → ls = []) ∧ (length lp ≤ refusals (default [] r'))%nat ∧
      holds h' ((ls ≫= owned) ++ (lp ≫= proof_cells) ++ F)).
Proof.
  intros Hh Hc Hqs. unfold h_manager_program, manager_program.
  eapply hsim_bind; [by apply hsim_store_create|].
  clear h Hh. intros [ms|] [vs|] h Hms; try done.
  2:{ destruct Hms as [_ Hh]. apply hsim_ret. split; [done|]. exists [], []. by split_and!. }
  destruct Hms as (o & -> & -> & Ho & Hh).
  eapply hsim_bind; [apply (hsim_init cfg h _ Hh); by apply cells_r|].
  clear h Hh. intros ? [rc vm] h [(-> & Hrc & Hh)|(m & -> & [= -> ->] & Hh)].
  { cbn in Hrc. subst rc. cbn [Z.eqb negb].
    eapply hsim_bind; [by apply (hsim_destroy calm F)|]. intros ? ? h1 H1.
    apply hsim_ret. split; [done|]. exists [], []. by split_and!. }
  cbn [Z.eqb negb]. eapply hsim_value; [done|].
  eapply hsim_bind.
  { apply (hsim_serve_all m qs o h (manager_cells m ++ F) Ho).
    - eapply holds_perm; [|exact Hh]. solve_Permutation.
    - by apply cells_l.
    - eapply Forall_impl; [exact Hqs|]. intros q ?. by apply cells_r. }
  clear o h Ho Hh. intros ? ? h (l & o & ls & lp & -> & -> & Ho & Hls & Hlp & Hh).
  eapply (hsim_free _ (store_cells o ++ (ls ≫= owned) ++ (lp ≫= proof_cells) ++ F));
    [apply gives_back_manager|exact Hh|solve_Permutation|].
  clear h Hh. intros h Hh.
  eapply hsim_bind; [by apply (hsim_destroy calm ((ls ≫= owned) ++ (lp ≫= proof_cells) ++ F))|].
  intros ? ? h1 H1. apply hsim_ret. split; [done|]. by exists ls, lp.
Qed.

End programs.

(** *** On a quiet day every request returns *)

Section returning.
Context `{HJ : CJSON, HO : OpenSSL, HU : UUIDv7, !UUIDv7Laws}.
#[local] Set Default Proof Using "Type*".

Lemma up_not_hang mgr (ms : OpenDBSC_MemoryStore) w :
  server_up mgr ms w → lock ms w = Ret (with_mutex true ms) w.
Proof. intros [_ _ _ [_ _ _ _ Hfree] _]. unfold lock. by rewrite Hfree. Qed.

(** What a request computed by [run_to] does to a server that is up. *)
Lemma request_returns mgr (ms : OpenDBSC_MemoryStore) n env w o m :
  run_to env w ms o m → store_room (S n) ms →
  (∀ rc resp ms' w', m w = Ret (rc, resp, ms') w' → server_up mgr ms' w' ∧ w_now w' = w_now w) →
  ∃ a ms' w',
    ('(rc, resp, ms) ← m; resp ← deref resp; mret ((rc, None, resp, ms) : answer * _)) w
      = Ret (a, ms') w' ∧ server_up mgr ms' w' ∧ store_room n ms' ∧ w_now w' = w_now w.
Proof.
  unfold run_to. destruct o as [[resp v] e]. intros (ms' & Hrun & _ & Hroom & _) Hr Hup.
  destruct (Hup _ _ _ _ Hrun) as [Hup' Hn]. rewrite bind_unfold, Hrun.
  do 3 eexists. split; [reflexivity|]. split_and!; [done| |done].
  apply Hroom in Hr. cbn in *. lia.
Qed.

Lemma serve_returns mgr q (ms : OpenDBSC_MemoryStore) n w :
  server_up mgr ms w → store_room (S n) ms →
  ∃ a ms' w', serve mgr q ms w = Ret (a, ms') w' ∧ server_up mgr ms' w' ∧ store_room n ms' ∧
    w_now w' = w_now w.
Proof.
  intros Hup Hr. pose proof Hup as [Hw Hm Hc Hi Hs].
  assert (store_room n ms) as Hr' by (cbn in *; lia).
  destruct q as [[u|] out|[f|]|f g|f g|f]; cbn [serve fmap option_fmap option_map].
  - destruct (initiate_total mgr u.2 (if out then Some session_default else None) n ms w Hup Hr)
      as (rc & o & r & ms' & w' & Hrun & _ & Hup' & Hr'' & Hn).
    rewrite bind_unfold, Hrun. do 3 eexists. split; [reflexivity|].
    split_and!; [done|cbn in *; destruct Hr''; lia|done].
  - do 3 eexists. split; [reflexivity|]. by split_and!.
  - destruct (get_session_run mgr f.2 ms w Hup) as (ms' & Hup' & Hroom & Hrun).
    destruct (lookup_live _ _ _); destruct Hrun as [Hrun _]; rewrite bind_unfold, Hrun;
      (do 3 eexists; split; [reflexivity|split_and!; [done|by apply Hroom|done]]).
  - do 3 eexists. split; [reflexivity|]. by split_and!.
  - eapply request_returns; [by apply register_refines|done|].
    intros rc resp ms' w' Hrun.
    destruct (register_run _ _ _ _ _ _ _ _ _ _ Hup Hrun) as (? & ? & e & _ & _ & _ & _ & -> & ?).
    split; [done|apply after_now].
  - eapply request_returns; [by apply refresh_refines|done|].
    intros rc resp ms' w' Hrun.
    destruct (refresh_run _ _ _ _ _ _ _ _ _ _ Hup Hrun) as (? & ? & e & _ & _ & _ & _ & -> & ?).
    split; [done|apply after_now].
  - eapply request_returns; [by apply close_refines|done|].
    intros rc resp ms' w' Hrun.
    destruct (close_run _ _ _ _ _ _ _ _ _ Hup Hrun) as (? & ? & e & _ & _ & _ & _ & -> & ?).
    split; [done|]. unfold told. by destruct e; [destruct (cfg_on_event mgr)|].
Qed.

Lemma serve_all_returns mgr qs (ms : OpenDBSC_MemoryStore) w :
  server_up mgr ms w → store_room (length qs) ms →
  ∃ l ms' w', serve_all mgr qs ms w = Ret (l, ms') w' ∧ server_up mgr ms' w'.
Proof.
  revert ms w. induction qs as [|q qs IH]; intros ms w Hup Hr; [by exists [], ms, w|].
  destruct (serve_returns mgr q ms (length qs) w Hup Hr) as (a & ms1 & w1 & Hrun & Hup1 & Hr1 & _).
  destruct (IH _ _ Hup1 Hr1) as (l & ms2 & w2 & Hrun2 & Hup2).
  exists (a :: l), ms2, w2. split; [|done]. cbn. rewrite bind_unfold, Hrun, bind_unfold, Hrun2.
  done.
Qed.

Lemma manager_program_returns cfg qs w :
  quiet w → cfg_store cfg = true → clock_ok (configured cfg) (w_now w) →
  Z.of_nat (length qs) < 2 ^ 31 →
  ∃ l w', manager_program cfg qs w = Ret (Some l) w'.
Proof.
  intros Hw Hcfg Hclk Hlen. pose proof (quiet_no_oom _ Hw) as Ho.
  assert (server_up (configured cfg) (MemoryStore [] 0 false) w) as Hup.
  { split; [done|by destruct (manager_init_exact manager_zero cfg w Ho Hcfg) as (_ & ? & _)|done| |].
    - apply new_store_wf.
    - by apply (map_Forall_empty (M := gmap string)). }
  destruct (serve_all_returns (configured cfg) qs _ w Hup) as (l & ms & w' & Hrun & Hup'); [done|].
  exists l, w'. unfold manager_program.
  assert (opendbsc_memory_store_create w = Ret (Some (MemoryStore [] 0 false)) w) as Hcreate.
  { unfold opendbsc_memory_store_create. by do 3 (rewrite bind_unfold, malloc_run by done; cbn [negb]). }
  rewrite bind_unfold, Hcreate, bind_unfold.
  rewrite (proj1 (manager_init_exact manager_zero cfg w Ho Hcfg)). cbn [Z.eqb negb].
  rewrite bind_unfold. cbn [deref]. rewrite ret_unfold, bind_unfold, Hrun, bind_unfold.
  unfold opendbsc_memory_store_destroy_impl. by rewrite bind_unfold, (up_not_hang _ _ _ Hup').
Qed.

End returning.

(** ** Properties *)

(** C8. What a manager loses.  A program creates an in-memory store, sets up a
    manager with its configuration, makes any logins, look-ups, registrations,
    refreshes and closings, frees what each answered as the HTTP server does,
    and tears the manager and the store down; its own strings are in [F].
    Whatever the allocator does: whenever the program returns on values, it
    returns over the heap with the same answers, uses no block after it was
    freed and frees none twice, and beside [F] are left only strings of
    proofs, at most one proof for each request that failed or was answered
    403, and, if an allocation failed, of sessions that [get] could not copy.
    Without refusals and failed allocations the heap is what it was.  And in a
    quiet world the program returns. *)
Theorem manager_loses_only_refused_proofs `{CJSON, OpenSSL, UUIDv7, !UUIDv7Laws}
    (cfg : omanager) (reqs : list (request_of ostr)) (F : cells) (h : heap) (w : world) :
  holds h F → manager_cells cfg ⊆ F → Forall (λ q, request_cells q ⊆ F) reqs →
  (∀ r w', manager_program (manager_vals cfg) reqs w = Ret r w' →
     ∃ h' ls lp,
       h_manager_program (manager_ptrs cfg) (request_ptrs <$> reqs) h w = Ret (r, h') w' ∧
       holds h' ((ls ≫= owned) ++ (lp ≫= proof_cells) ++ F) ∧
       (length lp ≤ refusals (default [] r))%nat ∧
       (no_oom w → ls = [] ∧ (refusals (default [] r) = 0%nat → blocks h' = blocks h))) ∧
  (quiet w → hm_store cfg = true → clock_ok (configured (manager_vals cfg)) (w_now w) →
   Z.of_nat (length reqs) < 2 ^ 31 →
   ∃ l w', manager_program (manager_vals cfg) reqs w = Ret (Some l) w').
Proof.
  intros Hh Hc Hreqs. split; [|intros Hw Hs; by apply manager_program_returns].
  intros r w' Hrun.
  destruct (hsim_manager_program (calm := no_oom w) cfg reqs h F Hh Hc Hreqs w r w' id Hrun)
    as (_ & r' & h' & Hrun' & -> & ls & lp & Hls & Hlp & Hh').
  exists h', ls, lp. split_and!; [done|done|done|]. intros Ho. split; [by apply Hls|].
  intros Hz. rewrite (Hls Ho) in Hh'. destruct lp; [|cbn in Hlp; lia].
  by rewrite (holds_blocks _ _ Hh'), (holds_blocks _ _ Hh).
Qed.

(** ** Witnesses *)

(** A configuration and a day of one user: a login, a registration with a token
    that carries no key, one with a good token, and the closing. *)
Definition day_strings : cells :=
  [(1%positive, Str "alice"); (2%positive, Str demo_id); (3%positive, Str demo_refresh_token);
   (4%positive, Str demo_login_token); (5%positive, Str "example.com")].
Definition day_heap : heap := Heap (list_to_map day_strings) 6.
Definition day_config : omanager :=
  ManagerOf true None None (Some (5%positive, "example.com")) true None 0 600 None true.
Definition day_login : request_of ostr := HLogin (Some (1%positive, "alice")) true.
Definition day_refused : request_of ostr :=
  HRegister (Some (2%positive, demo_id)) (Some (3%positive, demo_refresh_token)).
Definition day_good : list (request_of ostr) :=
  [day_login; HRegister (Some (2%positive, demo_id)) (Some (4%positive, demo_login_token));
   HSession (Some (2%positive, demo_id)); HClose (Some (2%positive, demo_id))].

Definition statuses (r : option (list answer)) : list (Z * Z) :=
  (λ a, (a.1.1, status_code a.2)) <$> default [] r.

Lemma day_holds : holds day_heap day_strings.
Proof. split; [apply (bool_decide_unpack _); vm_compute; exact I|done|]. repeat constructor. Qed.

Lemma day_config_own : manager_cells day_config ⊆ day_strings.
Proof. intros x Hx. apply list_elem_of_singleton in Hx as ->. do 4 right. left. Qed.

Lemma day_good_own : Forall (λ q, request_cells q ⊆ day_strings) day_good.
Proof.
  unfold day_strings.
  repeat (apply Forall_cons; split; [intros x Hx; cbn [request_cells str_cells app day_login] in Hx;
    rewrite ?elem_of_cons, elem_of_nil in Hx; rewrite !elem_of_cons; naive_solver|]).
  constructor.
Qed.

Lemma manager_loses_only_refused_proofs_witness :
  holds day_heap day_strings ∧ manager_cells day_config ⊆ day_strings ∧
  Forall (λ q, request_cells q ⊆ day_strings) day_good ∧
  ∃ r h' w',
    h_manager_program (manager_ptrs day_config) (request_ptrs <$> day_good) day_heap demo_world
      = Ret (r, h') w' ∧
    statuses r = [(0, 200); (0, 200); (0, 0); (0, 200)] ∧ blocks h' = blocks day_heap.
Proof.
  split; [exact day_holds|]. split; [exact day_config_own|]. split; [exact day_good_own|].
  destruct (manager_loses_only_refused_proofs day_config day_good day_strings day_heap demo_world
              day_holds day_config_own day_good_own) as [Hheap Hret].
  destruct Hret as (l & w' & Hrun); [by split|reflexivity|by split|reflexivity|].
  destruct (Hheap _ _ Hrun) as (h' & ls & lp & Hh & _ & _ & Hno).
  assert ((match manager_program (manager_vals day_config) day_good demo_world with
           | Ret r _ => (statuses r, refusals (default [] r)) | _ => ([], 1%nat) end)
    = ([(0, 200); (0, 200); (0, 0); (0, 200)], 0%nat)) as E by (vm_compute; reflexivity).
  rewrite Hrun in E. injection E as Hst Hz.
  exists (Some l), h', w'. split; [exact Hh|]. split; [exact Hst|].
  apply Hno; [reflexivity|exact Hz].
Defined.

(** The leak.  The token of [day_refused] can be decoded, and is refused because
    it carries no key: register answers 403 without freeing the proof, and its
    algorithm, type, challenge and signature are lost. *)
Lemma refused_proof_leaks :
  ∃ r h' w',
    h_manager_program (manager_ptrs day_config) (request_ptrs <$> [day_login; day_refused])
      day_heap demo_world = Ret (r, h') w' ∧
    statuses r = [(0, 200); (0, 403)] ∧ size (blocks h') = (4 + size (blocks day_heap))%nat.
Proof.
  destruct (run_shows (h_manager_program (manager_ptrs day_config)
    (request_ptrs <$> [day_login; day_refused]) day_heap) demo_world
    (λ r, bool_decide (statuses r.1 = [(0, 200); (0, 403)]) &&
          bool_decide (size (blocks r.2) = (4 + size (blocks day_heap))%nat)))
    as ([r h'] & w' & Hrun & [H1%bool_decide_eq_true_1 H2%bool_decide_eq_true_1]%andb_true_iff);
    [vm_compute; reflexivity|].
  exists r, h', w'. exact (conj Hrun (conj H1 H2)).
Qed.

(** A refresh that fails loses its proof too: the token is accepted, and the
    140th allocation, of the strings of the update, fails. *)
Definition day_refresh_token : string :=
  ref_token (JObject [("alg", JString "ES256"); ("typ", JString "dbsc+jwt")])
    (JObject [("jti", JString "fallback-challenge")]) ref_key.
Definition day_bound : list (request_of ostr) :=
  [day_login; HRegister (Some (2%positive, demo_id)) (Some (4%positive, demo_login_token));
   HRefresh (Some (2%positive, demo_id)) (Some (6%positive, day_refresh_token))].
Definition bound_heap : heap :=
  Heap (list_to_map ((6%positive, Str day_refresh_token) :: day_strings)) 7.

Lemma failed_refresh_leaks :
  ∃ r h' w',
    h_manager_program (manager_ptrs day_config) (request_ptrs <$> day_bound) bound_heap
      (World (replicate 139 true ++ [false]) 1000 [] (w_entropy demo_world) (w_realtime demo_world) [])
      = Ret (r, h') w' ∧
    statuses r = [(0, 200); (0, 200); (-1, 0)] ∧
    size (blocks h') = (4 + size (blocks bound_heap))%nat.
Proof.
  destruct (run_shows (h_manager_program (manager_ptrs day_config) (request_ptrs <$> day_bound)
      bound_heap)
    (World (replicate 139 true ++ [false]) 1000 [] (w_entropy demo_world) (w_realtime demo_world) [])
    (λ r, bool_decide (statuses r.1 = [(0, 200); (0, 200); (-1, 0)]) &&
          bool_decide (size (blocks r.2) = (4 + size (blocks bound_heap))%nat)))
    as ([r h'] & w' & Hrun & [H1%bool_decide_eq_true_1 H2%bool_decide_eq_true_1]%andb_true_iff);
    [vm_compute; reflexivity|].
  exists r, h', w'. exact (conj Hrun (conj H1 H2)).
Qed.
