(* ===== verification/Liveness.v ===== *)
(** The life of a bound session as its client sees it: a client that answers
    every challenge within the term of the session keeps it for ever. *)

From S2P Require Export Lifecycle.
From stdpp Require Import options.
#[local] Open Scope Z_scope.

(** ** The client

    It reads the next challenge in the header of the last response (the text
    between its first two double quotes), waits, and asks for a refresh with
    the token it signs for that challenge. *)
Fixpoint until_quote (s : string) : string :=
  match s with
  | EmptyString => ""
  | String c s' => if Ascii.eqb c DQ then "" else String c (until_quote s')
  end.

Definition next_challenge (resp : OpenDBSC_ManagerResponse) : string :=
  until_quote (next (default "" (challenge_header resp))).

(** The challenges the next [n] grants draw. *)
Fixpoint issued (n : nat) (w : world) : list string :=
  match n with O => [] | S n' => challenge_of w :: issued n' (drawn w) end.

Section client.
Context `{CJSON, OpenSSL, UUIDv7} {T : Type} `{StoreLaws T}.
Implicit Types (mgr : OpenDBSC_Manager).

(** The status of each answer, one refresh after each pause. *)
Fixpoint keep_refreshing mgr (id : string) (sign : string → string) (c : string)
    (pauses : list Z) (st : T) : C (list Z * T) :=
  match pauses with
  | [] => mret ([], st)
  | d :: pauses' =>
      wait d;;
      '(_, resp, st) ← opendbsc_manager_refresh (Some mgr) (Some id) (Some (sign c))
                          (Some response_default) st;
      resp ← deref resp;
      '(codes, st) ← keep_refreshing mgr id sign (next_challenge resp) pauses' st;
      mret (status_code resp :: codes, st)
  end.

(** The token of [sign] for the challenge [c] proves the key of [s]. *)
Definition signs_for (s : OpenDBSC_Session) (sign : string → string) (c : string) : Prop :=
  sign c ≠ "" ∧ ∃ p, proves_refresh (with_challenge (Some c) s) (sign c) p.

Lemma until_quote_app s t :
  str_forall (λ c, negb (Ascii.eqb c DQ)) s = true → until_quote (s +:+ String DQ t) = s.
Proof.
  induction s as [|c s IH]; [done|]. rewrite str_app_cons. cbn [str_forall until_quote].
  destruct (Ascii.eqb c DQ); [done|]. cbn [negb andb]. intros Hs. f_equal. by apply IH.
Qed.

Lemma next_challenge_text c id :
  str_forall (λ c, negb (Ascii.eqb c DQ)) c = true →
  until_quote (next (challenge_text c id)) = c.
Proof.
  intros Hc. unfold challenge_text, dquoted. rewrite str_app_cons. cbn [next].
  rewrite str_app_assoc, str_app_cons. by apply until_quote_app.
Qed.

Lemma hex_nibble_unquoted n : negb (Ascii.eqb (hex_nibble n) DQ) = true.
Proof.
  unfold hex_nibble. generalize (Z.to_nat n) as k. intros k.
  do 16 (destruct k as [|k]; [done|]). by destruct k.
Qed.

Lemma hex_text_unquoted l : str_forall (λ c, negb (Ascii.eqb c DQ)) (hex_text l) = true.
Proof.
  induction l as [|b l IH]; [done|].
  change (hex_text (b :: l)) with (fmt_02x b +:+ hex_text l). unfold fmt_02x.
  rewrite !str_app_cons, str_app_nil_l. cbn [str_forall]. by rewrite !hex_nibble_unquoted, IH.
Qed.

Lemma challenge_of_unquoted w : str_forall (λ c, negb (Ascii.eqb c DQ)) (challenge_of w) = true.
Proof.
  unfold challenge_of. destruct (w_entropy w) as [|[bs|] l]; [done| |done]. apply hex_text_unquoted.
Qed.

Lemma issued_ext n w w' : w_entropy w = w_entropy w' → issued n w = issued n w'.
Proof.
  revert w w'. induction n as [|n IH]; intros w w' Hw; [done|]. cbn [issued].
  unfold challenge_of. rewrite Hw. f_equal. apply IH. unfold drawn. cbn. by rewrite Hw.
Qed.

Lemma signs_for_same_key s s' sign c :
  s_public_key s' = s_public_key s → signs_for s sign c → signs_for s' sign c.
Proof.
  intros Hk [Hne (p & Hp)]. split; [done|]. exists p. unfold proves_refresh in *. cbn in *.
  by rewrite Hk.
Qed.

Lemma signs_for_check s sign c :
  sign c ≠ "" → is_Some (refresh_proof (with_challenge (Some c) s) (sign c)) →
  signs_for s sign c.
Proof.
  intros Hne [p Hp]. split; [done|]. exists p. by apply refresh_proof_proves.
Qed.

(** One refresh within the term. *)
Lemma refresh_once mgr id sign c st w s :
  server_up mgr st w → id ≠ "" → store_view st !! id = Some s →
  s_state s = OPENDBSC_SESSION_STATE_BOUND → s_challenge s = Some c →
  expired (w_now w) s = false → signs_for s sign c →
  ∃ st' w', opendbsc_manager_refresh (Some mgr) (Some id) (Some (sign c)) (Some response_default) st w =
      Ret (0, Some (granted mgr (renewed mgr (w_now w) (challenge_of w) s)), st') w' ∧
    store_view st' !! id = Some (renewed mgr (w_now w) (challenge_of w) s) ∧
    server_up mgr st' w' ∧ w_now w' = w_now w ∧ w_entropy w' = w_entropy (drawn w).
Proof.
  intros Hup Hid Hs Hst Hc He [Hne (p & Hp)].
  destruct (refresh_total mgr (Some id) (Some (sign c)) response_default st w Hup) as (r & st' & w' & Hrun).
  destruct (refresh_run mgr _ _ _ _ _ _ _ _ _ Hup Hrun) as (r' & m & e & Hspec & _ & [= <-] & Hv & -> & Hup').
  assert (with_challenge (Some c) s = s) as Hsame by (destruct s; simpl in *; by subst).
  rewrite Hsame in Hp. apply proves_refresh_proof in Hp.
  assert (∀ t, t ≠ "" → nonempty (Some t) = Some t) as Hnon by (by intros []).
  assert (lookup_live (w_now w) id (store_view st) = Some s) as Hlive by (by apply lookup_live_Some).
  unfold refresh_spec in Hspec. rewrite (Hnon id Hid), (Hnon _ Hne), Hlive in Hspec.
  cbn [mbind option_bind] in Hspec. rewrite decide_False, Hp in Hspec by (by intros []).
  injection Hspec as <- <- <-. exists st'. eexists. split; [done|]. rewrite Hv, lookup_insert_eq.
  split_and!; [done|done|..]; cbn [after]; unfold told; by destruct (cfg_on_event mgr).
Qed.

(** The sum of the pauses. *)
Definition total (pauses : list Z) : Z := foldr Z.add 0 pauses.

Lemma total_nonneg pauses : Forall (λ d, 0 ≤ d) pauses → 0 ≤ total pauses.
Proof. induction 1 as [|d l Hd _ IH]; cbn; unfold total in *; lia. Qed.

Lemma keep_refreshing_run mgr id sign pauses : ∀ c st w s,
  server_up mgr st w → id ≠ "" → store_view st !! id = Some s →
  s_state s = OPENDBSC_SESSION_STATE_BOUND → s_challenge s = Some c →
  Forall (λ c, signs_for s sign c) (c :: issued (length pauses) w) →
  Forall (λ d, 0 ≤ d) pauses → clock_ok mgr (w_now w + total pauses) →
  expired (w_now w + hd 0 pauses) s = false →
  Forall (λ d, cfg_session_ttl_seconds mgr ≤ 0 ∨ d ≤ cfg_session_ttl_seconds mgr) (tail pauses) →
  ∃ st' w' s', keep_refreshing mgr id sign c pauses st w = Ret (replicate (length pauses) 200, st') w' ∧
    store_view st' !! id = Some s' ∧ same_binding s s' ∧
    expired (w_now w') s' = false ∧ w_now w' = w_now w + total pauses ∧ server_up mgr st' w'.
Proof.
  induction pauses as [|d pauses IH]; intros c st w s Hup Hid Hs Hst Hc Hsign Hpos Hclk He Hterm.
  { exists st, w, s. rewrite Z.add_0_r in He. cbn. rewrite Z.add_0_r. by split_and!. }
  apply Forall_cons in Hpos as [Hd Hpos]. apply Forall_cons in Hsign as [Hsc Hsign].
  pose proof (total_nonneg _ Hpos) as Hnn. change (total (d :: pauses)) with (d + total pauses) in *.
  cbn [hd tail length] in *.
  assert (clock_ok mgr (w_now w + d)) as Hclk1.
  { destruct Hclk, (up_clock _ _ _ Hup). split; lia. }
  pose proof (later_up _ _ _ d Hup Hclk1) as Hup1.
  destruct (refresh_once mgr id sign c st (later d w) s Hup1 Hid Hs Hst Hc He Hsc)
    as (st1 & w1 & Hrun & Hs1 & Hup2 & Hn1 & He1).
  change (w_now (later d w)) with (w_now w + d) in *.
  change (challenge_of (later d w)) with (challenge_of w) in *.
  set (s1 := renewed mgr (w_now w + d) (challenge_of w) s) in *.
  destruct (renewed_fields mgr (w_now w + d) (challenge_of w) s) as (Hf1 & Hf2 & Hf3 & Hf4 & Hf5 & Hf6 & Hf7).
  fold s1 in Hf1, Hf2, Hf3, Hf4, Hf5, Hf6, Hf7.
  assert (issued (length pauses) w1 = issued (length pauses) (drawn w)) as Hiss by (by apply issued_ext).
  destruct (IH (challenge_of w) st1 w1 s1) as (st2 & w2 & s2 & Hrun2 & Hs2 & Hb2 & He2 & Hn2 & Hup3);
    try done.
  - congruence.
  - rewrite Hiss. eapply Forall_impl; [exact Hsign|]. intros c' Hc'. by eapply signs_for_same_key.
  - rewrite Hn1. by replace (w_now w + d + total pauses) with (w_now w + (d + total pauses)) by lia.
  - unfold s1. rewrite renewed_expired, Hn1 by done. destruct pauses as [|d2 pauses]; cbn in *.
    + apply andb_false_iff. destruct (Z.ltb_spec 0 (cfg_session_ttl_seconds mgr)); [|by left].
      right. apply Z.ltb_ge. lia.
    + apply Forall_cons in Hterm as [Ht _]. apply andb_false_iff. rewrite !Z.ltb_ge. lia.
  - destruct pauses; [done|]. by apply Forall_cons in Hterm as [_ ?].
  - exists st2, w2, s2. split; [|split; [done|split; [|split; [done|split; [lia|done]]]]].
    + cbn [keep_refreshing]. run_by ltac:(reflexivity). run_by ltac:(exact Hrun). run_by ltac:(reflexivity).
      assert (next_challenge (granted mgr s1) = challenge_of w) as ->.
      { unfold next_challenge, granted. cbn [challenge_header]. rewrite Hf7.
        cbn.
        apply next_challenge_text, challenge_of_unquoted. }
      by run_by ltac:(exact Hrun2).
    + eapply same_binding_trans; [|exact Hb2]. by split_and!; try congruence.
Qed.

(** C15. A client that answers every challenge in time keeps its session for
    ever.  On a server that is up, for a bound session whose client signs the
    challenges it is given: however often it asks for a refresh, if it asks
    within the term of the session each time, every answer is 200, and after
    the last one the session is stored, still bound to the same key, and
    live. *)
Theorem bound_session_kept_alive mgr id sign pauses c st w s :
  server_up mgr st w → id ≠ "" → store_view st !! id = Some s →
  s_state s = OPENDBSC_SESSION_STATE_BOUND → s_challenge s = Some c →
  Forall (λ c, signs_for s sign c) (c :: issued (length pauses) w) →
  Forall (λ d, 0 ≤ d) pauses → clock_ok mgr (w_now w + total pauses) →
  expired (w_now w + hd 0 pauses) s = false →
  Forall (λ d, cfg_session_ttl_seconds mgr ≤ 0 ∨ d ≤ cfg_session_ttl_seconds mgr) (tail pauses) →
  ∃ st' w' s', keep_refreshing mgr id sign c pauses st w = Ret (replicate (length pauses) 200, st') w' ∧
    store_view st' !! id = Some s' ∧ same_binding s s' ∧
    expired (w_now w') s' = false ∧ w_now w' = w_now w + total pauses ∧ server_up mgr st' w'.
Proof. apply keep_refreshing_run. Qed.

End client.

(** The demo server: bob's client refreshes after ten seconds and then twice at
    the very end of the term of 600 seconds. *)
Definition demo_sign (c : string) : string :=
  ref_token (JObject [("alg", JString "ES256"); ("typ", JString "dbsc+jwt")])
    (JObject [("jti", JString c)]) ref_key.

Lemma bound_session_kept_alive_witness :
  let pauses := [10; 600; 600] in
  server_up demo_manager demo_store demo_world ∧
  Forall (λ c, signs_for demo_bound demo_sign c) ("c2" :: issued 3 demo_world) ∧
  ∃ st' w' s', keep_refreshing demo_manager "b" demo_sign "c2" pauses demo_store demo_world =
      Ret ([200; 200; 200], st') w' ∧
    store_view st' !! "b" = Some s' ∧ same_binding demo_bound s' ∧
    expired (w_now w') s' = false ∧ w_now w' = w_now demo_world + total pauses ∧
    server_up demo_manager st' w'.
Proof.
  assert (Forall (λ c, signs_for demo_bound demo_sign c) ("c2" :: issued 3 demo_world)) as Hs.
  { cbn [issued]. repeat (apply Forall_cons; split; [|try apply Forall_nil_2]);
      (apply signs_for_check; [done|vm_compute; by eexists]). }
  split; [exact demo_up|]. split; [exact Hs|].
  refine (bound_session_kept_alive demo_manager "b" demo_sign [10; 600; 600] "c2" demo_store demo_world
    demo_bound demo_up _ _ _ _ Hs _ _ _ _); try done.
  - repeat constructor; cbn; lia.
  - apply Forall_cons; split; [|apply Forall_cons; split; [|apply Forall_nil_2]]; right; cbn; lia.
Defined.
