(* ===== verification/Backends.v ===== *)
(** One manager over two backends: a run of a server over one store can be
    repeated over any other store that promises the same and has room for the
    logins, with the same answers; in particular the in-memory store can be
    exchanged for a new SQLite database. *)

From S2P Require Export Lifecycle SqliteProps.
From stdpp Require Import options.
#[local] Open Scope Z_scope.

(** ** Requests and answers as data *)

Inductive request :=
| Login (user_id : string)
| Register (id header : cstr)
| Refresh (id header : cstr)
| Close (id : cstr)
| Load (id : string)
| Elapse (w : world).

Inductive answer :=
| Answered (rc : Z) (resp : option OpenDBSC_ManagerResponse)
| Loaded (rc : Z) (session : option (option OpenDBSC_Session))
| NoAnswer.

Section server.
Context `{CJSON, OpenSSL, UUIDv7} {T : Type} `{StoreLaws T}.

(** A login finds room in the store and draws an identifier that is not
    taken. *)
Definition login_ready (st : T) (w : world) : Prop :=
  ∃ id w1, opendbsc_session_new_id (Some (CBuf 37 None)) w = Ret (0, Some (CBuf 37 (Some id))) w1 ∧
    store_view st !! id = None ∧ ∃ n, store_room (S n) st.

Inductive exchange (mgr : OpenDBSC_Manager) : world * T → request * answer → world * T → Prop :=
| ex_login u st w rc out resp st' w' :
    login_ready st w →
    opendbsc_manager_initiate (Some mgr) (Some u) None (Some response_default) st w
      = Ret (rc, out, resp, st') w' →
    exchange mgr (w, st) (Login u, Answered rc resp) (w', st')
| ex_register id header st w rc resp st' w' :
    opendbsc_manager_register (Some mgr) id header (Some response_default) st w
      = Ret (rc, resp, st') w' →
    exchange mgr (w, st) (Register id header, Answered rc resp) (w', st')
| ex_refresh id header st w rc resp st' w' :
    opendbsc_manager_refresh (Some mgr) id header (Some response_default) st w
      = Ret (rc, resp, st') w' →
    exchange mgr (w, st) (Refresh id header, Answered rc resp) (w', st')
| ex_close id st w rc resp st' w' :
    opendbsc_manager_close (Some mgr) id (Some response_default) st w = Ret (rc, resp, st') w' →
    exchange mgr (w, st) (Close id, Answered rc resp) (w', st')
| ex_load id st w rc s st' w' :
    opendbsc_manager_get_session (Some mgr) (Some id) (Some None) st w = Ret (rc, s, st') w' →
    exchange mgr (w, st) (Load id, Loaded rc s) (w', st')
| ex_elapse st w w' :
    quiet w' → clock_ok mgr (w_now w') → exchange mgr (w, st) (Elapse w', NoAnswer) (w', st).

(** How many sessions a conversation adds at most. *)
Definition is_login (q : request) : bool := match q with Login _ => true | _ => false end.
Fixpoint logins (qas : list (request * answer)) : nat :=
  match qas with
  | [] => 0
  | (q, _) :: qas' => (if is_login q then 1 else 0) + logins qas'
  end.

(** A conversation: one exchange after the other. *)
Inductive conversation (mgr : OpenDBSC_Manager)
    : world * T → list (request * answer) → world * T → Prop :=
| conv_nil x : conversation mgr x [] x
| conv_cons x qa y qas z :
    exchange mgr x qa y → conversation mgr y qas z → conversation mgr x (qa :: qas) z.

Lemma login_up mgr u st w rc out resp st' w' :
  server_up mgr st w → login_ready st w →
  opendbsc_manager_initiate (Some mgr) (Some u) None (Some response_default) st w
    = Ret (rc, out, resp, st') w' →
  ∃ id w1, opendbsc_session_new_id (Some (CBuf 37 None)) w = Ret (0, Some (CBuf 37 (Some id))) w1 ∧
    rc = 0 ∧ out = None ∧ resp = Some (login_response mgr (challenge_of w1) id) ∧
    w' = told mgr (login_event id u) (drawn w1) ∧ server_up mgr st' w' ∧
    store_view st' = <[id := login_session mgr (w_now w) (challenge_of w1) id u]> (store_view st).
Proof.
  intros [Hw Hm Hc Hi Hs] (id & w1 & Hid & Hfresh & n & Hroom) Hrun.
  destruct (initiate_refines n mgr u id None response_default st w w1 Hw Hm Hc Hi Hroom Hs Hid Hfresh)
    as (st2 & Hrun2 & Hi2 & Hv2 & Hs2).
  rewrite Hrun in Hrun2. injection Hrun2 as -> -> -> -> ->.
  destruct (new_id_world _ _ _ _ _ Hid) as (Ha & Hn & Ht & _). destruct Hw as [Hwa Hwt].
  exists id, w1. split_and!; try done. split; try done.
  - apply quiet_told. split; cbn; congruence.
  - unfold told. destruct (cfg_on_event mgr); cbn; by rewrite Hn.
Qed.

Lemma exchange_up mgr x qa y :
  exchange mgr x qa y → server_up mgr x.2 x.1 → server_up mgr y.2 y.1.
Proof.
  destruct 1 as [u st w rc out resp st' w' Hr Hrun|id h st w rc resp st' w' Hrun
    |id h st w rc resp st' w' Hrun|id st w rc resp st' w' Hrun|id st w rc s st' w' Hrun|st w w' Hq Hc];
    cbn; intros Hup.
  - by destruct (login_up mgr u st w rc out resp st' w' Hup Hr Hrun) as (? & ? & _ & _ & _ & _ & _ & ? & _).
  - by destruct (register_run _ _ _ _ _ _ _ _ _ _ Hup Hrun) as (? & ? & ? & _ & _ & _ & _ & _ & ?).
  - by destruct (refresh_run _ _ _ _ _ _ _ _ _ _ Hup Hrun) as (? & ? & ? & _ & _ & _ & _ & _ & ?).
  - by destruct (close_run _ _ _ _ _ _ _ _ _ Hup Hrun) as (? & ? & ? & _ & _ & _ & _ & _ & ?).
  - destruct (get_session_run mgr id st w Hup) as (st2 & Hup2 & _ & Hget).
    destruct (lookup_live _ _ _); destruct Hget as [Hget _]; rewrite Hrun in Hget; by simplify_eq.
  - by destruct Hup; split.
Qed.

End server.

(** ** Two stores *)

Section two_stores.
Context `{CJSON, OpenSSL, UUIDv7} {T1 T2 : Type} `{StoreLaws T1} `{StoreLaws T2}.

(** One exchange, repeated: a login takes room for one session. *)
Lemma exchange_simulated mgr w (st1 : T1) q a w' st1' (st2 : T2) n :
  store_room ((if is_login q then 1 else 0) + n)%nat st2 →
  exchange mgr (w, st1) (q, a) (w', st1') →
  server_up mgr st1 w → server_up mgr st2 w → store_view st2 = store_view st1 →
  ∃ st2', exchange mgr (w, st2) (q, a) (w', st2') ∧ store_view st2' = store_view st1' ∧
    store_room n st2'.
Proof.
  intros Hroom Hex Hup1 Hup2 Hv. inversion Hex as [u ? ? rc out resp ? ? Hr Hrun|id h ? ? rc resp ? ? Hrun
    |id h ? ? rc resp ? ? Hrun|id ? ? rc resp ? ? Hrun|id ? ? rc s ? ? Hrun|? ? ? Hq Hc]; subst;
    cbn [is_login Nat.add] in Hroom.
  - destruct (login_up mgr u st1 w rc out resp st1' w' Hup1 Hr Hrun)
      as (id & w1 & Hid & -> & -> & -> & -> & _ & Hv1).
    assert (store_view st2 !! id = None) as Hfresh.
    { rewrite Hv. destruct Hr as (id' & w1' & Hid' & ? & _). rewrite Hid in Hid'. by simplify_eq. }
    pose proof Hup2 as [Hw Hm Hc Hi Hs].
    destruct (initiate_refines_room n mgr u id None response_default st2 w w1 Hw Hm Hc Hi Hroom Hs
                Hid Hfresh) as (st2' & Hrun2 & _ & Hroom2 & Hv2 & _).
    exists st2'. split_and!; [|by rewrite Hv1, Hv2, Hv|done]. econstructor; [|exact Hrun2].
    exists id, w1. split_and!; [done|done|by exists n].
  - destruct (register_run _ _ _ _ _ _ _ _ _ _ Hup1 Hrun) as (r & m & e & Hspec & -> & -> & <- & -> & _).
    destruct (register_total mgr id h response_default st2 w Hup2) as (r2 & st2' & w2 & Hrun2).
    pose proof (register_room _ _ _ _ _ _ _ _ _ _ _ Hup2 Hrun2 Hroom).
    destruct (register_run _ _ _ _ _ _ _ _ _ _ Hup2 Hrun2) as (? & ? & ? & Hspec2 & _ & [= <-] & Hv2 & -> & _).
    rewrite Hv, Hspec in Hspec2. simplify_eq. exists st2'. split; [by econstructor|done].
  - destruct (refresh_run _ _ _ _ _ _ _ _ _ _ Hup1 Hrun) as (r & m & e & Hspec & -> & -> & <- & -> & _).
    destruct (refresh_total mgr id h response_default st2 w Hup2) as (r2 & st2' & w2 & Hrun2).
    pose proof (refresh_room _ _ _ _ _ _ _ _ _ _ _ Hup2 Hrun2 Hroom).
    destruct (refresh_run _ _ _ _ _ _ _ _ _ _ Hup2 Hrun2) as (? & ? & ? & Hspec2 & _ & [= <-] & Hv2 & -> & _).
    rewrite Hv, Hspec in Hspec2. simplify_eq. exists st2'. split; [by econstructor|done].
  - destruct (close_run _ _ _ _ _ _ _ _ _ Hup1 Hrun) as (r & m & e & Hspec & -> & -> & <- & -> & _).
    destruct (close_total mgr id response_default st2 w Hup2) as (r2 & st2' & w2 & Hrun2).
    pose proof (close_room _ _ _ _ _ _ _ _ _ _ Hup2 Hrun2 Hroom).
    destruct (close_run _ _ _ _ _ _ _ _ _ Hup2 Hrun2) as (? & ? & ? & Hspec2 & _ & [= <-] & Hv2 & -> & _).
    rewrite Hv, Hspec in Hspec2. simplify_eq. exists st2'. split; [by econstructor|done].
  - destruct (get_session_run mgr id st1 w Hup1) as (sa & _ & _ & Ha).
    destruct (get_session_run mgr id st2 w Hup2) as (st2' & _ & Hkeep & Hb). rewrite Hv in Hb.
    exists st2'. destruct (lookup_live _ _ _); destruct Ha as [Ha Hva], Hb as [Hb Hvb];
      rewrite Hrun in Ha; simplify_eq;
      (split_and!; [by econstructor|congruence|by apply Hkeep]).
  - exists st2. split; [by constructor|done].
Qed.

Lemma conversation_simulated mgr x qas y :
  conversation (T := T1) mgr x qas y → ∀ st2 : T2, store_room (logins qas) st2 →
  server_up mgr x.2 x.1 → server_up mgr st2 x.1 → store_view st2 = store_view x.2 →
  ∃ st2', conversation mgr (x.1, st2) qas (y.1, st2') ∧ store_view st2' = store_view y.2 ∧
    server_up mgr st2' y.1.
Proof.
  intros Hc. induction Hc as [x|[w st1] [q a] [w1 st1a] qas z Hex _ IH]; cbn [fst snd] in *;
    intros st2 Hroom Hup1 Hup2 Hv.
  { exists st2. split; [constructor|done]. }
  destruct (exchange_simulated mgr w st1 q a w1 st1a st2 (logins qas) Hroom Hex Hup1 Hup2 Hv)
    as (st2a & Hex2 & Hv2 & Hroom2).
  destruct (IH st2a) as (st2' & Hc2 & Hv' & Hup'); [done|by apply (exchange_up _ _ _ _ Hex)
    |by apply (exchange_up _ _ _ _ Hex2)|done|].
  exists st2'. split; [by econstructor|done].
Qed.

(** C10. Backends are interchangeable.  Whatever conversation of logins,
    registrations, refreshes, closings and loads a server has had over one
    lawful store, a server over any other lawful store that holds the same
    sessions, and has room for as many more as there were logins, can have it
    too, with the same answers word for word, the same events and the same
    randomness, and ends with the same sessions, still up. *)
Theorem backends_interchangeable mgr w (st1 : T1) qas w' st1' (st2 : T2) :
  conversation mgr (w, st1) qas (w', st1') → store_room (logins qas) st2 →
  server_up mgr st1 w → server_up mgr st2 w → store_view st2 = store_view st1 →
  ∃ st2', conversation mgr (w, st2) qas (w', st2') ∧ store_view st2' = store_view st1' ∧
    server_up mgr st2' w'.
Proof. intros Hc Hroom. by apply (conversation_simulated mgr (w, st1) qas (w', st1') Hc). Qed.

End two_stores.

(** ** A server over a new SQLite database *)

Section sqlite_server.
Context `{CJSON, OpenSSL, UUIDv7} `{SqliteLaws}.

(** [opendbsc_sqlite_store_create(NULL)] opens a database in memory. *)
Lemma sqlite_new_store_run w :
  no_oom w → ∃ ctx, opendbsc_sqlite_store_create None w = Ret (Some ctx) w ∧
    store_inv ctx ∧ store_view ctx = ∅.
Proof.
  intros Hw. destruct sqlite_open_memory as (db & db' & Ho & He & Hr & Ht).
  exists (SqliteCtx db'). split; [|split].
  - unfold opendbsc_sqlite_store_create, sqlite3_open, sqlite3_exec.
    change (default ":memory:" None) with ":memory:". cbv zeta.
    rewrite Ho. run_by ltac:(by apply alloc_run).
    step_by ltac:(run_by ltac:(by apply malloc_run); by rewrite He).
    step_by ltac:(by apply malloc_run). by step_by ltac:(by apply malloc_run).
  - split; [done|]. cbn. rewrite Ht. apply map_Forall_empty.
  - cbn. by rewrite Ht.
Qed.

End sqlite_server.

(** The login of carol and the registration of her session, over an empty
    in-memory store and over a new SQLite database. *)
Definition demo_conversation : list (request * answer) :=
  let s := login_session demo_manager 1000 demo_login_challenge demo_id "carol" in
  let p := default proof_default (registration_proof demo_manager s demo_login_token) in
  [(Login "carol", Answered 0 (Some (login_response demo_manager demo_login_challenge demo_id)));
   (Register (Some demo_id) (Some demo_login_token),
    Answered 0 (Some (granted demo_manager (renewed demo_manager 1000 "fallback-challenge" (bound_to p s)))))].

Lemma demo_conversation_memory :
  ∃ w st, conversation demo_manager (demo_world, empty_store) demo_conversation (w, st).
Proof.
  do 2 eexists. eapply conv_cons; [|eapply conv_cons; [|apply conv_nil]].
  - eapply (ex_login demo_manager "carol" empty_store demo_world).
    + do 2 eexists. split_and!; [vm_compute; reflexivity|vm_compute; reflexivity|exists 0%nat; cbn; lia].
    + vm_compute. reflexivity.
  - eapply (ex_register demo_manager (Some demo_id) (Some demo_login_token)). vm_compute. reflexivity.
Qed.

Lemma sqlite_up ctx :
  store_inv ctx → store_view ctx = ∅ → server_up demo_manager (ctx : opendbsc_sqlite_ctx) demo_world.
Proof. intros Hi Hv. split; [done|by split|by split|done|]. rewrite Hv. apply map_Forall_empty. Qed.

(** Both ways: the conversation over the in-memory store is repeated over a
    new database, and what was had over the database over a new in-memory
    store. *)
Lemma backends_interchangeable_witness :
  ∃ w st ctx, conversation demo_manager (demo_world, empty_store) demo_conversation (w, st) ∧
    opendbsc_sqlite_store_create None demo_world = Ret (Some ctx) demo_world ∧
    store_room (logins demo_conversation) empty_store ∧
    server_up demo_manager empty_store demo_world ∧ server_up demo_manager ctx demo_world ∧
    ∃ ctx', conversation demo_manager (demo_world, ctx) demo_conversation (w, ctx') ∧
      store_view ctx' = store_view st ∧ server_up demo_manager ctx' w ∧
    ∃ st', conversation demo_manager (demo_world, empty_store) demo_conversation (w, st') ∧
      store_view st' = store_view ctx' ∧ server_up demo_manager st' w.
Proof.
  destruct demo_conversation_memory as (w & st & Hc).
  destruct (sqlite_new_store_run demo_world eq_refl) as (ctx & Hrun & Hi & Hv).
  pose proof (sqlite_up ctx Hi Hv) as Hup.
  assert (store_room (logins demo_conversation) empty_store) as Hroom by (cbn; lia).
  assert (store_room (logins demo_conversation) ctx) as Hroom2 by exact I.
  exists w, st, ctx. split; [exact Hc|]. split; [exact Hrun|]. split; [exact Hroom|].
  split; [exact empty_up|]. split; [exact Hup|].
  destruct (backends_interchangeable demo_manager demo_world empty_store demo_conversation w st ctx
           Hc Hroom2 empty_up Hup Hv) as (ctx' & Hc' & Hv' & Hup').
  exists ctx'. split; [exact Hc'|]. split; [exact Hv'|]. split; [exact Hup'|].
  exact (backends_interchangeable demo_manager demo_world ctx demo_conversation w ctx' empty_store
           Hc' Hroom Hup empty_up (eq_sym Hv)).
Defined.
