(* ===== verification/HttpSpec.v ===== *)
(** What the HTTP binding promises: the cookie it reads, the reply it sends, and
    the request a message stands for; with the proof that the event handler
    answers each message as the abstract manager does. *)

From S2P Require Export Http Requests.
From stdpp Require Import pretty.
From stdpp Require Import options.
#[local] Open Scope Z_scope.

(** ** Cookies *)

(** The text before the first [c], and the text after it. *)
Fixpoint cut (c : ascii) (s : string) : option (string * string) :=
  match s with
  | EmptyString => None
  | String d s' =>
      if Ascii.eqb d c then Some ("", s') else '(a, b) ← cut c s'; Some (String d a, b)
  end.

(** The texts between the [c]s. *)
Fixpoint split_on (c : ascii) (s : string) : list string :=
  match s with
  | EmptyString => [""]
  | String d s' =>
      if Ascii.eqb d c then "" :: split_on c s'
      else match split_on c s' with a :: l => String d a :: l | [] => [String d ""] end
  end.

(** The value of the first pair of that name; a text that is not a pair ends
    the search. *)
Fixpoint first_cookie (segments : list string) (name : string) : option string :=
  match segments with
  | [] => None
  | s :: l =>
      '(k, v) ← cut "=" (skip_while is_blank s);
      if String.eqb k name then Some (until_nul v) else first_cookie l name
  end.

Definition cookie_value (header name : string) : option string :=
  first_cookie (split_on ";" header) name.

Definition is_not (c d : ascii) : bool := negb (Ascii.eqb d c).

Lemma cut_app c a b : str_forall (is_not c) a = true → cut c (a +:+ String c b) = Some (a, b).
Proof.
  induction a as [|d a IH]; rewrite ?str_app_nil_l, ?str_app_cons; cbn;
    [by rewrite Ascii.eqb_refl|].
  intros [Hd Ha]%andb_true_iff. unfold is_not in Hd. apply negb_true_iff in Hd.
  rewrite Hd. by rewrite IH.
Qed.

Lemma cut_none c a : str_forall (is_not c) a = true → cut c a = None.
Proof.
  induction a as [|d a IH]; cbn; [done|]. intros [Hd Ha]%andb_true_iff.
  unfold is_not in Hd. apply negb_true_iff in Hd. rewrite Hd. by rewrite IH.
Qed.

Lemma split_on_last c a : str_forall (is_not c) a = true → split_on c a = [a].
Proof.
  induction a as [|d a IH]; cbn; [done|]. intros [Hd Ha]%andb_true_iff.
  unfold is_not in Hd. apply negb_true_iff in Hd. by rewrite Hd, IH.
Qed.

Lemma split_on_app c a b :
  str_forall (is_not c) a = true → split_on c (a +:+ String c b) = a :: split_on c b.
Proof.
  induction a as [|d a IH]; rewrite ?str_app_nil_l, ?str_app_cons; cbn;
    [by rewrite Ascii.eqb_refl|].
  intros [Hd Ha]%andb_true_iff. unfold is_not in Hd. apply negb_true_iff in Hd.
  by rewrite Hd, IH.
Qed.

(** What a scan stops at: the end, or a character that it does not skip. *)
Definition stops (f : ascii → bool) (r : string) : Prop :=
  r = "" ∨ ∃ c r', r = String c r' ∧ f c = false.

Lemma skip_while_stops f s r : stops f r → skip_while f (s +:+ r) = skip_while f s +:+ r.
Proof.
  intros Hr. induction s as [|c s IH].
  - destruct Hr as [->|(c & r' & -> & Hc)]; [done|]. by apply skip_while_stop.
  - rewrite str_app_cons. cbn [skip_while]. by destruct (f c).
Qed.

Lemma str_forall_skip f g s : str_forall f s = true → str_forall f (skip_while g s) = true.
Proof.
  destruct (skip_while_split g s) as (a & Hs & _). rewrite Hs at 1.
  by rewrite str_forall_app, andb_true_iff; intros [].
Qed.

(** A text without the separator and what follows it. *)
Lemma segment_split sep p :
  ∃ a r, p = a +:+ r ∧ str_forall (is_not sep) a = true ∧
    skip_while (is_not sep) p = r ∧ (r = "" ∨ ∃ b, r = String sep b) ∧
    (split_on sep p = a :: match r with String _ b => split_on sep b | "" => [] end).
Proof.
  destruct (skip_while_split (is_not sep) p) as (a & Hp & Ha).
  exists a, (skip_while (is_not sep) p). split; [done|]. split; [done|]. split; [done|].
  destruct (skip_while_head (is_not sep) p) as [Hr|(c & b & Hr & Hc)]; rewrite Hr in Hp |- *.
  - split; [by left|]. rewrite Hp, str_app_nil_r. by apply split_on_last.
  - unfold is_not in Hc. apply negb_false_iff, Ascii.eqb_eq in Hc as ->.
    split; [eauto|]. rewrite Hp. by apply split_on_app.
Qed.

Lemma skip_both sep s :
  str_forall (is_not sep) s = true →
  skip_while (λ c, negb (Ascii.eqb c "=") && negb (Ascii.eqb c sep)) s = skip_while (is_not "=") s.
Proof.
  induction s as [|c s IH]; cbn; [done|]. intros [Hc Hs]%andb_true_iff.
  unfold is_not in *. rewrite Hc, andb_true_r. by destruct (Ascii.eqb c "="); [|apply IH].
Qed.

(** The comparison of a key of known length with a name. *)
Lemma key_matches k v name :
  Nat.eqb (String.length k) (String.length name) &&
    strncmp_eq (k +:+ v) name (String.length name) = String.eqb k name.
Proof.
  unfold strncmp_eq. rewrite str_take_all.
  destruct (Nat.eqb_spec (String.length k) (String.length name)) as [El|El].
  - rewrite <-El, str_take_app. done.
  - symmetry. apply String.eqb_neq. congruence.
Qed.

Lemma wp_cookie_loop name fuel : ∀ p w (Q : cstr → world → Prop),
  (String.length p < fuel)%nat →
  (∀ w', env_step w w' → Q (cookie_value p name) w') →
  (∀ w', env_step w w' → ¬ no_oom w → Q None w') →
  wp (cookie_loop fuel p name) w Q.
Proof.
  induction fuel as [|fuel IH]; intros p w Q Hfuel HS HN; [lia|]. cbn [cookie_loop].
  case_decide as Hp; [subst p; by apply wp_ret, HS|].
  destruct (segment_split ";" p) as (a & r & Hpa & Ha & _ & Hr & Hsplit).
  assert (stops is_blank r) as Hr1 by (destruct Hr as [->|[b ->]]; [by left|right; eauto]).
  unfold cookie_value in HS. rewrite Hsplit in HS. cbn [first_cookie] in HS.
  rewrite Hpa, skip_while_stops by done. set (t := skip_while is_blank a) in *.
  assert (str_forall (is_not ";") t = true) as Ht by by apply str_forall_skip.
  case_decide as Htr.
  { apply wp_ret. destruct t; [|done]. by apply HS. }
  rewrite skip_while_stops, (skip_both ";");
    [|done|destruct Hr as [->|[b ->]]; [by left|right; exists ";"%char, b; done]].
  destruct (skip_while_split (is_not "=") t) as (k & Hk & Hkk).
  destruct (skip_while_head (is_not "=") t) as [E|(c & v & E & Hc)]; rewrite E in Hk |- *.
  { rewrite str_app_nil_r in Hk. subst k. rewrite (cut_none "=" t Hkk) in HS. cbn in HS.
    rewrite str_app_nil_l. destruct Hr as [->|[b ->]]; by apply wp_ret, HS. }
  unfold is_not in Hc. apply negb_false_iff, Ascii.eqb_eq in Hc as ->.
  rewrite Hk, (cut_app "=" k v Hkk) in HS. cbn [mbind option_bind] in HS.
  rewrite bool_decide_false by done. cbn [orb cur negb]. rewrite str_app_cons. cbn [cur next].
  assert (str_forall (is_not ";") v = true) as Hv.
  { rewrite Hk, str_forall_app in Ht. apply andb_true_iff in Ht as [_ Ht]. by apply andb_true_iff in Ht as [_ Ht]. }
  change (λ c, negb (Ascii.eqb c ";")) with (is_not ";").
  rewrite (skip_while_stops (is_not ";") v r), (skip_while_all _ _ Hv), str_app_nil_l
    by (destruct Hr as [->|[b ->]]; [by left|right; eauto]).
  assert (pdiff (String "=" (v +:+ r)) (t +:+ r) = String.length k) as ->.
  { rewrite Hk, str_app_assoc, str_app_cons. apply pdiff_app. }
  assert (Nat.eqb (String.length k) (String.length name) &&
    strncmp_eq (t +:+ r) name (String.length name) = String.eqb k name) as ->
    by (rewrite Hk, str_app_assoc; apply key_matches).
  destruct (String.eqb k name).
  - apply wp_bind, wp_memcpy_str; [unfold pdiff; lia| |].
    + intros w' ?. apply wp_ret. rewrite str_take_pdiff. by apply HS.
    + intros w' ??. by apply wp_ret, HN.
  - rewrite Hpa, str_length_app in Hfuel.
    destruct Hr as [->|[b ->]]; cbn [cur next bool_decide].
    + rewrite bool_decide_true by done. cbn [negb andb].
      destruct fuel; [destruct a; cbn in Hfuel; [by rewrite Hpa in Hp|lia]|]. by apply wp_ret, HS.
    + rewrite bool_decide_false by done. cbn [negb andb]. apply IH; [|done|done]. cbn in Hfuel |- *. lia.
Qed.

(** ** Quotes *)

Definition stripped (s : string) : string :=
  if bool_decide (2 ≤ String.length s)%nat && Ascii.eqb (cur s) DQ && Ascii.eqb (last_char s) DQ
  then str_take (String.length s - 2) (next s) else s.

Lemma last_char_app s c : last_char (s +:+ String c "") = c.
Proof.
  unfold last_char. rewrite str_length_app. cbn [String.length]. rewrite Nat.add_sub.
  induction s as [|d s IH]; [done|]. rewrite str_app_cons. exact IH.
Qed.

Lemma stripped_dquoted t : stripped (dquoted t) = t.
Proof.
  unfold stripped. assert (last_char (dquoted t) = DQ) as ->.
  { unfold dquoted. by rewrite <-str_app_cons, last_char_app. }
  rewrite dquoted_length, bool_decide_true by lia. cbn [dquoted cur next andb].
  rewrite !Ascii.eqb_refl, Nat.add_sub. cbn [andb]. apply str_take_app.
Qed.

Lemma stripped_other s : (∀ t, s ≠ dquoted t) → stripped s = s.
Proof.
  intros Hs. unfold stripped. case_bool_decide as Hl; [|done].
  destruct (Ascii.eqb_spec (cur s) DQ) as [Hc|]; [|done].
  destruct (Ascii.eqb_spec (last_char s) DQ) as [Hlast|]; [|done]. cbn [andb].
  destruct s as [|c s]; [done|]. cbn in Hc. subst c.
  destruct (str_last s) as (u & c & ->); [by destruct s; cbn in Hl; [lia|]|].
  rewrite <-str_app_cons, last_char_app in Hlast. subst c. by destruct (Hs u).
Qed.

Lemma wp_strip_quotes s w (Q : cstr → world → Prop) :
  (∀ w', env_step w w' → Q (Some (stripped s)) w') →
  (∀ w', env_step w w' → ¬ no_oom w → Q None w') →
  wp (strip_quotes (Some s)) w Q.
Proof.
  intros HS HN. unfold strip_quotes, stripped in *.
  destruct (_ && _) eqn:E; [|by apply wp_alloc].
  apply wp_memcpy_str; [|done|done].
  apply andb_true_iff in E as [[El%bool_decide_eq_true_1 _]%andb_true_iff _].
  destruct s; cbn in *; lia.
Qed.

(** ** The reply *)

Definition header_line (name : string) (value : cstr) : string :=
  match value with Some v => name +:+ v +:+ CRLF | None => "" end.

Definition reply_of (resp : OpenDBSC_ManagerResponse) : mg_output :=
  mg_http_reply (status_code resp)
    (header_line "Set-Cookie: " (set_cookie resp) +:+
     header_line "Secure-Session-Registration: " (registration_header resp) +:+
     header_line "Secure-Session-Challenge: " (challenge_header resp) +:+ content_type_json)
    (default "" (body resp)).

(** A header is written in full inside the buffer, which it may make grow. *)
Lemma wp_add_header n h name value w (Q : option cbuf → world → Prop) :
  (String.length name + 3 ≤ 64)%nat → (String.length h < n)%nat →
  (∀ m w', env_step w w' → (String.length (h +:+ header_line name value) < m)%nat →
     Q (Some (CBuf m (Some (h +:+ header_line name value)))) w') →
  (∀ w', env_step w w' → ¬ no_oom w → Q None w') →
  wp (add_header (CBuf n (Some h)) name value) w Q.
Proof.
  intros Hname Hn HS HN. unfold add_header, header_line in *.
  destruct value as [v|]; [|rewrite str_app_nil_r in HS; by apply wp_ret, HS].
  apply wp_bind, wp_deref, wp_bind. cbn [b_size b_text].
  assert (∀ m w', env_step w w' → (String.length h + String.length v + 64 ≤ m)%nat →
    wp (headers ← strcat (CBuf m (Some h)) name; headers ← strcat headers v;
        headers ← strcat headers CRLF; mret (Some headers)) w' Q) as Hwrite.
  { intros m w' Hw Hm. rewrite !str_length_app in HS. cbn [String.length CRLF] in HS.
    do 3 (apply wp_bind, wp_sprintf; cbn [b_size b_text from_option id];
      [rewrite ?str_length_app; cbn [String.length CRLF]; lia|]).
    apply wp_ret. rewrite !str_app_assoc. apply HS; [done|lia]. }
  case_decide as Hsize; [|by apply wp_ret, Hwrite; [|lia]].
  apply wp_bind, wp_malloc. intros [] w' Hw Hb; apply wp_ret; cbn match;
    [apply Hwrite; [done|lia]|apply wp_ret, HN; auto].
Qed.

Lemma wp_send_response resp w (Q : mg_output → world → Prop) :
  (∀ w', env_step w w' → Q (reply_of resp) w') →
  (∀ w', env_step w w' → ¬ no_oom w → Q internal_error w') →
  wp (send_response resp) w Q.
Proof.
  intros HS HN. unfold send_response, reply_of in *.
  apply wp_bind, wp_alloc; intros w1 Hw1; [|intros ?; by apply wp_ret, HN].
  apply wp_bind, wp_sprintf; [cbn; lia|]. cbn [b_text b_size from_option id].
  change ("" +:+ "") with "".
  assert (∀ w', env_step w1 w' → ¬ no_oom w1 → Q internal_error w') as Hfail.
  { intros w' ? Ho. apply HN; [by etrans|by eapply step_oom]. }
  apply wp_bind, wp_add_header; [cbn; lia|cbn; lia| |by intros; apply wp_ret, Hfail].
  intros m2 w2 Hw2 Hm2. rewrite str_app_nil_l in *.
  apply wp_bind, wp_add_header; [cbn; lia|done| |].
  2:{ intros w' ? Ho. apply wp_ret, Hfail; [by etrans|by eapply step_oom]. }
  intros m3 w3 Hw3 Hm3. apply wp_bind, wp_add_header; [cbn; lia|done| |].
  2:{ intros w' ? Ho. apply wp_ret, Hfail; [by do 2 (etrans; [eassumption|])|].
      eapply step_oom; [exact Hw2|]. by eapply step_oom. }
  intros m4 w4 Hw4 Hm4. apply wp_bind, wp_deref, wp_bind, wp_alloc; intros w5 Hw5.
  2:{ intros Ho. apply wp_ret, Hfail; [by do 3 (etrans; [eassumption|])|].
      eapply step_oom; [exact Hw2|]. eapply step_oom; [exact Hw3|]. by eapply step_oom. }
  do 2 (apply wp_bind, wp_sprintf; cbn [b_size b_text from_option id];
    [rewrite ?str_length_app; cbn [String.length]; lia|]).
  apply wp_bind, wp_deref, wp_ret. rewrite str_app_nil_l, !str_app_assoc.
  apply HS. by do 4 (etrans; [eassumption|]).
Qed.

(** ** Requests *)

(** A header as a C string; an empty one counts as missing. *)
Definition header_text (h : option string) : cstr :=
  match h with None | Some EmptyString => None | Some s => Some (until_nul s) end.

Definition reported (mgr : OpenDBSC_Manager) (es : list OpenDBSC_SkippedEntry) (w : world) : world :=
  foldl (λ w e, told mgr (Event "SESSION_SKIPPED" None (se_session_id e) (se_reason e)) w) w es.

Definition unauthorized : OpenDBSC_ManagerResponse :=
  ManagerResponse 401 None None None (Some unauthorized_text).

Section spec.
Context `{CJSON, OpenSSL, UUIDv7, Mongoose} {T : Type} `{StoreLaws T}.
Implicit Types (mgr : OpenDBSC_Manager) (server : OpenDBSC_HTTPServer (T := T)).

Definition req_header (hm : mg_http_message) (name : string) : cstr :=
  stripped <$> header_text (mg_http_get_header hm name).

Definition req_cookie (hm : mg_http_message) mgr : cstr :=
  h ← mg_http_get_header hm "Cookie"; n ← cfg_cookie_name mgr; cookie_value h n.

Definition req_session_id (hm : mg_http_message) mgr : cstr :=
  match req_header hm "Sec-Secure-Session-Id" with Some i => Some i | None => req_cookie hm mgr end.

Definition me_spec (now : Z) (cookie : cstr) (m : view) : OpenDBSC_ManagerResponse * view :=
  match cookie with
  | None => (unauthorized, m)
  | Some i =>
      match lookup_live now i m with
      | None => (unauthorized, delete i m)
      | Some s =>
          (ManagerResponse 200 None None None
             (Some (str_take 511 (me_text (default "" (s_user_id s)) now))), m)
      end
  end.

(** The entries the request's Secure-Session-Skipped header is parsed to. *)
Definition skipped_of (hm : mg_http_message) (w : world) (es : list OpenDBSC_SkippedEntry) : Prop :=
  Forall valid_entry es ∧
  match header_text (mg_http_get_header hm "Secure-Session-Skipped") with
  | None => es = []
  | Some v =>
      opendbsc_parse_session_skipped (Some v) (Some []) (Some 0%nat) w
        = Ret (0, Some es, Some (length es)) w ∨
      opendbsc_parse_session_skipped (Some v) (Some []) (Some 0%nat) w
        = Ret (-1, Some [], Some 0%nat) w ∧ es = []
  end.

(** What the server sends, the sessions afterwards, and the event. *)
Definition http_spec server (now : Z) (c : string) (hm : mg_http_message) (m : view)
    : list mg_output * view * option event :=
  let mgr := hs_manager server in
  let proof := req_header hm "Secure-Session-Response" in
  match header_text (Some (hm_method hm)), header_text (Some (hm_uri hm)) with
  | Some method, Some uri =>
      if String.eqb method "POST" && String.eqb uri "/dbsc/register" then
        let '(r, m', e) := register_spec mgr now c (req_cookie hm mgr) proof m in ([reply_of r], m', e)
      else if String.eqb method "POST" && String.eqb uri "/dbsc/refresh" then
        let '(r, m', e) := refresh_spec mgr now c (req_session_id hm mgr) proof m in
        ([reply_of r], m', e)
      else if String.eqb method "GET" && String.eqb uri "/api/me" then
        let '(r, m') := me_spec now (req_cookie hm mgr) m in ([reply_of r], m', None)
      else match hs_static_root server with
           | Some root => ([mg_http_serve_dir root], m, None)
           | None => ([not_found], m, None)
           end
  | _, _ => ([internal_error], m, None)
  end.

(** *** Calls that only allocate *)

Lemma quiet_run {A} (m : C A) a w :
  wp m w (λ r w', r = a ∧ w' = w) → m w = Ret a w.
Proof. intros (r & w' & -> & -> & ->)%wp_elim. done. Qed.

Ltac quietly lem := intros Hw; apply quiet_run; apply lem;
  [intros w' Hst; split; [done|by apply step_quiet]
  |intros w' _ Ho; destruct Ho; by apply quiet_no_oom].

Lemma mg_str_dup_run h w : quiet w → mg_str_dup h w = Ret (header_text h) w.
Proof.
  intros Hw. destruct h as [[|c s]|]; [done| |done]. unfold mg_str_dup.
  erewrite bind_run by (apply memcpy_str_run; [by apply quiet_no_oom|done]).
  cbn [header_text]. by rewrite str_take_all.
Qed.

Lemma strip_quotes_run s w : quiet w → strip_quotes s w = Ret (stripped <$> s) w.
Proof. destruct s as [s|]; [|done]. quietly wp_strip_quotes. Qed.

Lemma send_response_run r w : quiet w → send_response r w = Ret (reply_of r) w.
Proof. quietly wp_send_response. Qed.

Lemma header_unquoted_run hm name w :
  quiet w → header_unquoted hm name w = Ret (req_header hm name) w.
Proof.
  intros Hw. unfold header_unquoted. erewrite bind_run by by apply mg_str_dup_run.
  by apply strip_quotes_run.
Qed.

Lemma wp_get_cookie hm name w (Q : cstr → world → Prop) :
  (∀ w', env_step w w' → Q (h ← mg_http_get_header hm "Cookie"; cookie_value h name) w') →
  (∀ w', env_step w w' → ¬ no_oom w → Q None w') →
  wp (opendbsc_http_get_cookie hm (Some name)) w Q.
Proof.
  intros HS HN. unfold opendbsc_http_get_cookie.
  destruct (mg_http_get_header hm "Cookie") as [h|]; [|by apply wp_ret, HS].
  apply wp_cookie_loop; [lia|done|done].
Qed.

Lemma get_cookie_run hm mgr w :
  quiet w → opendbsc_http_get_cookie hm (cfg_cookie_name mgr) w = Ret (req_cookie hm mgr) w.
Proof.
  unfold req_cookie. destruct (cfg_cookie_name mgr) as [n|].
  - quietly wp_get_cookie.
  - intros _. unfold opendbsc_http_get_cookie. by destruct (mg_http_get_header hm "Cookie").
Qed.

Lemma session_id_run hm mgr w :
  quiet w →
  (match req_header hm "Sec-Secure-Session-Id" with
   | None => opendbsc_http_get_cookie hm (cfg_cookie_name mgr)
   | Some _ => mret (req_header hm "Sec-Secure-Session-Id")
   end) w = Ret (req_session_id hm mgr) w.
Proof.
  intros Hw. unfold req_session_id. destruct (req_header hm _); [done|].
  by apply get_cookie_run.
Qed.

(** *** Reports *)

Lemma emit_skipped_run mgr es : ∀ w, emit_skipped mgr es w = Ret tt (reported mgr es w).
Proof.
  induction es as [|e es IH]; intros w; [done|]. cbn [emit_skipped reported foldl].
  erewrite bind_run by apply emit_event_run. apply IH.
Qed.

Lemma skipped_run server hm w :
  quiet w → ∃ es, skipped_of hm w es ∧
    handle_session_skipped server hm w = Ret tt (reported (hs_manager server) es w).
Proof.
  intros Hw. unfold skipped_of, handle_session_skipped.
  erewrite bind_run by by apply mg_str_dup_run.
  destruct (header_text _) as [v|]; [|by exists []].
  destruct (wp_elim _ _ _ (wp_parse_session_skipped v [] 0 w)) as (r & w' & Hrun & Hst & Hr).
  apply step_quiet in Hst as ->; [|done].
  destruct Hr as [->|(es & -> & Hes)]; rewrite (bind_run _ _ _ _ _ Hrun); cbn match beta.
  - exists []. split; [by auto|done].
  - exists es. split; [by auto|]. apply emit_skipped_run.
Qed.

(** Only the events have changed. *)
Lemma reported_same mgr es : ∀ w,
  w_alloc (reported mgr es w) = w_alloc w ∧ w_now (reported mgr es w) = w_now w ∧
  w_ticks (reported mgr es w) = w_ticks w ∧ w_entropy (reported mgr es w) = w_entropy w.
Proof.
  induction es as [|e es IH]; intros w; [done|]. cbn [reported foldl].
  destruct (IH (told mgr (Event "SESSION_SKIPPED" None (se_session_id e) (se_reason e)) w))
    as (Ha & Hn & Ht & He). fold (reported mgr es).
  unfold reported in *. rewrite Ha, Hn, Ht, He. unfold told. by destruct (cfg_on_event mgr).
Qed.

Lemma reported_up mgr es st w : server_up mgr st w → server_up mgr st (reported mgr es w).
Proof.
  intros [[Ha Ht] ? Hc ??]. destruct (reported_same mgr es w) as (Ha' & Hn' & Ht' & _).
  split; try done; [split; congruence|by rewrite Hn'].
Qed.

Lemma reported_challenge mgr es w : challenge_of (reported mgr es w) = challenge_of w.
Proof. unfold challenge_of. by destruct (reported_same mgr es w) as (_ & _ & _ & ->). Qed.

(** *** The endpoints *)

(** What a handler leaves: its output, the environment, and a server that is
    still up with the given sessions and with the room it had. *)
Definition serves server (st : T) (w' : world) (outs : list mg_output) (m : view)
    (r : res (list mg_output * OpenDBSC_HTTPServer * T)) : Prop :=
  ∃ st', r = Ret (outs, server, st') w' ∧ server_up (hs_manager server) st' w' ∧
    store_view st' = m ∧ ∀ n, store_room n st → store_room n st'.

Lemma serve_register_run server hm r0 st w :
  server_up (hs_manager server) st w →
  let '(r, m, e) := register_spec (hs_manager server) (w_now w) (challenge_of w)
                      (req_cookie hm (hs_manager server)) (req_header hm "Secure-Session-Response")
                      (store_view st) in
  serves server st (after (hs_manager server) w e) [reply_of r] m (serve_register server hm r0 st w).
Proof.
  intros Hup. pose proof (up_quiet _ _ _ Hup) as Hw.
  destruct (register_spec _ _ _ _ _ _) as [[r m] e] eqn:Hspec.
  destruct (register_total (hs_manager server) (req_cookie hm (hs_manager server))
    (req_header hm "Secure-Session-Response") r0 st w Hup) as (r1 & st' & w' & Hrun).
  destruct (register_run _ _ _ _ _ _ _ _ _ _ Hup Hrun) as (r2 & m2 & e2 & Hspec2 & _ & [= <-] & Hv & -> & Hup').
  rewrite Hspec in Hspec2. injection Hspec2 as <- <- <-.
  exists st'. split; [|split_and!; [done..|intros n; by eapply register_room]]. unfold serve_register.
  run_by ltac:(by apply get_cookie_run). run_by ltac:(by apply header_unquoted_run).
  run_by ltac:(apply Hrun). run_by ltac:(reflexivity).
  by run_by ltac:(apply send_response_run, (up_quiet _ _ _ Hup')).
Qed.

Lemma serve_refresh_run server hm r0 st w :
  server_up (hs_manager server) st w →
  let '(r, m, e) := refresh_spec (hs_manager server) (w_now w) (challenge_of w)
                      (req_session_id hm (hs_manager server))
                      (req_header hm "Secure-Session-Response") (store_view st) in
  serves server st (after (hs_manager server) w e) [reply_of r] m (serve_refresh server hm r0 st w).
Proof.
  intros Hup. pose proof (up_quiet _ _ _ Hup) as Hw.
  destruct (refresh_spec _ _ _ _ _ _) as [[r m] e] eqn:Hspec.
  destruct (refresh_total (hs_manager server) (req_session_id hm (hs_manager server))
    (req_header hm "Secure-Session-Response") r0 st w Hup) as (r1 & st' & w' & Hrun).
  destruct (refresh_run _ _ _ _ _ _ _ _ _ _ Hup Hrun) as (r2 & m2 & e2 & Hspec2 & _ & [= <-] & Hv & -> & Hup').
  rewrite Hspec in Hspec2. injection Hspec2 as <- <- <-.
  exists st'. split; [|split_and!; [done..|intros n; by eapply refresh_room]]. unfold serve_refresh.
  run_by ltac:(by apply header_unquoted_run).
  run_by ltac:(by apply (session_id_run hm (hs_manager server))).
  run_by ltac:(by apply header_unquoted_run).
  run_by ltac:(apply Hrun). run_by ltac:(reflexivity).
  by run_by ltac:(apply send_response_run, (up_quiet _ _ _ Hup')).
Qed.

Lemma serve_me_run server hm st w :
  server_up (hs_manager server) st w →
  let '(r, m) := me_spec (w_now w) (req_cookie hm (hs_manager server)) (store_view st) in
  serves server st w [reply_of r] m (serve_me server hm response_default st w).
Proof.
  intros Hup. pose proof (up_quiet _ _ _ Hup) as Hw. assert (no_oom w) as Ho by by apply quiet_no_oom.
  unfold me_spec, serves, serve_me. run_by ltac:(by apply get_cookie_run).
  assert (∀ st' : T, (resp ← (b ← strdup unauthorized_text; mret (with_answer 401 b response_default));
     out ← send_response resp; mret ([out], server, st')) w = Ret ([reply_of unauthorized], server, st') w) as Hun.
  { intros st'. run_by ltac:(by run_by ltac:(by apply strdup_run)).
    by run_by ltac:(by apply send_response_run). }
  destruct (req_cookie hm (hs_manager server)) as [i|].
  2:{ exists st. split; [|done]. run_by ltac:(reflexivity). apply Hun. }
  destruct (get_session_run (hs_manager server) i st w Hup) as (st' & Hup' & Hroom & Hget).
  destruct (lookup_live (w_now w) i (store_view st)) as [s|] eqn:Hl; destruct Hget as [Hget Hv].
  - exists st'. split; [|by split_and!]. run_by ltac:(run_by ltac:(apply Hget); reflexivity).
    apply lookup_live_Some in Hl as [Hl _]. destruct (up_sessions _ _ _ Hup _ _ Hl) as [[_ Hu _ _] _].
    destruct (s_user_id s) as [u|] eqn:Eu; [|done]. cbn [Z.eqb from_option id].
    run_by ltac:(run_by ltac:(reflexivity); rewrite Eu; run_by ltac:(reflexivity);
      run_by ltac:(by apply time_run); by run_by ltac:(by apply strdup_run)).
    by run_by ltac:(by apply send_response_run).
  - exists st'. split; [|by split_and!]. run_by ltac:(run_by ltac:(apply Hget); reflexivity). apply Hun.
Qed.

End spec.
