(* ===== verification/HttpProps.v ===== *)
(** The theorems about the HTTP binding, with a small message format for their
    witnesses. *)

From S2P Require Export HttpSpec Lifecycle.
From stdpp Require Import options.
#[local] Open Scope Z_scope.

Section handler.
Context `{CJSON, OpenSSL, UUIDv7, Mongoose} {T : Type} `{StoreLaws T}.
Implicit Types (mgr : OpenDBSC_Manager) (server : OpenDBSC_HTTPServer (T := T)).

Lemma endpoints_run server hm method uri st w :
  server_up (hs_manager server) st w →
  header_text (Some (hm_method hm)) = Some method → header_text (Some (hm_uri hm)) = Some uri →
  let '(outs, m, e) := http_spec server (w_now w) (challenge_of w) hm (store_view st) in
  serves server st (after (hs_manager server) w e) outs m
    (dbsc_endpoints server hm method uri response_default st w).
Proof.
  intros Hup Hm Hu. unfold http_spec, dbsc_endpoints. rewrite Hm, Hu.
  destruct (_ && _).
  { pose proof (serve_register_run server hm response_default st w Hup) as Hr.
    by destruct (register_spec _ _ _ _ _ _) as [[r m] e]. }
  destruct (_ && _).
  { pose proof (serve_refresh_run server hm response_default st w Hup) as Hr.
    by destruct (refresh_spec _ _ _ _ _ _) as [[r m] e]. }
  destruct (_ && _).
  { pose proof (serve_me_run server hm st w Hup) as Hr. by destruct (me_spec _ _ _) as [r m]. }
  destruct (hs_static_root server); exists st; by split_and!.
Qed.

(** The application's route does not handle the message: it returns a code
    other than 0, and leaves the manager, the response and the store alone. *)
Definition declined server (hm : mg_http_message) (st : T) : Prop :=
  match hs_route server with
  | None => True
  | Some route =>
      ∀ method uri w, header_text (Some (hm_method hm)) = Some method →
        header_text (Some (hm_uri hm)) = Some uri →
        server_up (hs_manager server) st w →
        ∃ rc, rc ≠ 0 ∧
          route method uri (header_text (Some (hm_body hm))) (String.length (hm_body hm))
            (hs_manager server) response_default st w
          = Ret (rc, hs_manager server, response_default, st) w
  end.

Lemma route_declined server hm st w method uri :
  declined server hm st → header_text (Some (hm_method hm)) = Some method →
  header_text (Some (hm_uri hm)) = Some uri → server_up (hs_manager server) st w →
  ∃ rc, rc ≠ 0 ∧
    (match hs_route server with
     | None => mret (-1, hs_manager server, response_default, st)
     | Some route => route method uri (header_text (Some (hm_body hm))) (String.length (hm_body hm))
                       (hs_manager server) response_default st
     end : C _) w = Ret (rc, hs_manager server, response_default, st) w.
Proof.
  unfold declined. destruct (hs_route server) as [route|]; [by auto|]. intros _ _ _ _. by exists (-1).
Qed.

Lemma handler_run server hm st w :
  server_up (hs_manager server) st w → declined server hm st →
  ∃ es, skipped_of hm w es ∧
    let w1 := reported (hs_manager server) es w in
    let '(outs, m, e) := http_spec server (w_now w) (challenge_of w) hm (store_view st) in
    ∃ st', dbsc_event_handler (Some server) (MG_EV_HTTP_MSG hm) st w
        = Ret (outs, Some server, st') (after (hs_manager server) w1 e) ∧
      server_up (hs_manager server) st' (after (hs_manager server) w1 e) ∧ store_view st' = m.
Proof.
  intros Hup Hroute. destruct (skipped_run server hm w (up_quiet _ _ _ Hup)) as (es & Hes & Hrun).
  exists es. split; [done|]. cbv zeta. set (w1 := reported _ es w) in *.
  assert (server_up (hs_manager server) st w1) as Hup1 by by apply reported_up.
  assert (w_now w1 = w_now w) as <- by apply reported_same.
  assert (challenge_of w1 = challenge_of w) as <- by apply reported_challenge.
  pose proof (up_quiet _ _ _ Hup1) as Hw1. clearbody w1.
  unfold dbsc_event_handler. rewrite (bind_run _ _ _ _ _ Hrun); cbv beta.
  do 3 (erewrite bind_run by by apply mg_str_dup_run; cbv beta zeta).
  pose proof (λ m u, endpoints_run server hm m u st w1 Hup1) as Hend.
  destruct (header_text (Some (hm_uri hm))) as [uri|] eqn:Hu,
    (header_text (Some (hm_method hm))) as [method|] eqn:Hm;
    try (unfold http_spec; rewrite Hm, ?Hu; exists st; by split_and!).
  specialize (Hend method uri eq_refl eq_refl).
  destruct (route_declined server hm st w1 method uri Hroute Hm Hu Hup1) as (rc & Hrc0 & Hrc).
  destruct (http_spec _ _ _ _ _) as [[outs m] e]. destruct Hend as (st' & Hend & Hup' & Hv & _).
  exists st'. split; [|done]. cbv zeta. erewrite bind_run by apply Hrc. cbv beta iota zeta.
  assert (with_manager (hs_manager server) server = server) as -> by by destruct server.
  rewrite (proj2 (Z.eqb_neq rc 0) Hrc0). cbv iota. by erewrite bind_run by apply Hend.
Qed.

(** ** Properties *)

(** C26. The HTTP server implements the abstract manager.  On a server that is
    up, the event handler answers every HTTP message that the application has no
    route for, or that its route declines, without undefined behaviour: it reports the entries of a
    Secure-Session-Skipped header, calls the request that the method and the
    path stand for with the cookie, the identifier and the proof of the
    headers, sends the reply of its response, leaves exactly the sessions and
    the event of the specification, and is up for the next message; every other
    message is answered by a file or by 404 and changes no session. *)
Theorem http_server_implements_manager server hm st w :
  server_up (hs_manager server) st w → declined server hm st →
  ∃ es, skipped_of hm w es ∧
    let w1 := reported (hs_manager server) es w in
    let '(outs, m, e) := http_spec server (w_now w) (challenge_of w) hm (store_view st) in
    ∃ st', dbsc_event_handler (Some server) (MG_EV_HTTP_MSG hm) st w
        = Ret (outs, Some server, st') (after (hs_manager server) w1 e) ∧
      server_up (hs_manager server) st' (after (hs_manager server) w1 e) ∧ store_view st' = m.
Proof. apply handler_run. Qed.

(** C31. The replies.  Whatever the allocator does, sending a response never
    writes past the header buffer, which starts with 256 bytes and grows, nor
    past the final one: the reply is the status, the headers that are present,
    in their order, the content type and the body; or, only if an allocation
    failed, the internal error 500. *)
Theorem http_reply_exact (resp : OpenDBSC_ManagerResponse) (w : world) :
  wp (send_response resp) w (λ r w', env_step w w' ∧
    (r = reply_of resp ∨ r = internal_error ∧ ¬ no_oom w)).
Proof. apply wp_send_response; auto. Qed.

(** Cookies and quotes of a request.  Whatever the allocator does, reading a
    cookie terminates inside the header and gives the value of the first pair
    of that name, where a text without "=" ends the search; taking the quotes
    off a header gives back what was quoted, and leaves any other text as it
    is; NULL otherwise comes only from a failed allocation. *)
Theorem http_request_texts_exact (hm : mg_http_message) (name s : string) (w : world) :
  wp (opendbsc_http_get_cookie hm (Some name)) w (λ r w', env_step w w' ∧
    (r = (h ← mg_http_get_header hm "Cookie"; cookie_value h name) ∨ r = None ∧ ¬ no_oom w)) ∧
  wp (strip_quotes (Some (dquoted s))) w (λ r w', env_step w w' ∧
    (r = Some s ∨ r = None ∧ ¬ no_oom w)) ∧
  wp (strip_quotes (Some s)) w (λ r w', env_step w w' ∧
    ((∀ t, s ≠ dquoted t) → r = Some s ∨ r = None ∧ ¬ no_oom w)).
Proof.
  split_and!.
  - apply wp_get_cookie; auto.
  - apply wp_strip_quotes; [rewrite stripped_dquoted|]; auto.
  - apply wp_strip_quotes; [intros w' ?; split; [done|]; intros ?; rewrite stripped_other by done|]; auto.
Qed.

(** An HTTP refresh needs the bound key.  When the answer to a message for
    the refresh path has status 200, then the session that the message names,
    by its identifier header or else by its cookie, is live and bound, and the
    text of its Secure-Session-Response header, without quotes, is a token
    signed under the key of that session for its challenge. *)
Theorem http_refresh_needs_bound_key server hm st w outs out' w' st' headers b :
  server_up (hs_manager server) st w → declined server hm st →
  hm_method hm = "POST" → hm_uri hm = "/dbsc/refresh" →
  dbsc_event_handler (Some server) (MG_EV_HTTP_MSG hm) st w = Ret (outs, out', st') w' →
  (mg_http_reply 200 headers b) ∈ outs →
  ∃ i t s p, req_session_id hm (hs_manager server) = Some i ∧
    req_header hm "Secure-Session-Response" = Some t ∧
    store_view st !! i = Some s ∧ expired (w_now w) s = false ∧
    s_state s = OPENDBSC_SESSION_STATE_BOUND ∧ proves_refresh s t p.
Proof.
  intros Hup Hroute Hmeth Huri Hrun Hin.
  destruct (handler_run server hm st w Hup Hroute) as (es & _ & Hrun').
  rewrite Hrun in Hrun'. unfold http_spec in Hrun'. rewrite Hmeth, Huri in Hrun'. cbn in Hrun'.
  destruct (refresh_spec_cases (hs_manager server) (w_now w) (challenge_of w)
    (req_session_id hm (hs_manager server)) (req_header hm "Secure-Session-Response") (store_view st))
    as [(i & s & t & p & [Hi _]%nonempty_Some & [Ht _]%nonempty_Some & [Hs Hl]%lookup_live_Some &
         Hst & Hp%refresh_proof_proves & E)|(r & m & E & Hcode & _)]; rewrite E in Hrun'.
  - by exists i, t, s, p.
  - destruct Hrun' as (st2 & Hrun2 & _). simplify_eq.
    apply list_elem_of_singleton in Hin. unfold reply_of in Hin. injection Hin as Hc _ _. lia.
Qed.

(** ** The event loop *)

(** There is room for [n] more sessions, or for more than that. *)
Definition roomy (n : nat) (st : T) : Prop := ∃ m, (n ≤ m)%nat ∧ store_room m st.

Lemma roomy_kept n st st' :
  roomy (S n) st → (∀ m, store_room m st → store_room m st') → roomy n st'.
Proof. intros (m & Hm & Hr) Hk. exists m. split; [lia|by apply Hk]. Qed.

(** What the application's route owes the server: it returns, it leaves the
    manager alone and its store lawful, it creates at most one session, and a
    message that it does not handle keeps an empty response and all the room. *)
Definition route_lawful server : Prop :=
  match hs_route server with
  | None => True
  | Some route =>
      ∀ method uri b len n st w, server_up (hs_manager server) st w → roomy (S n) st →
        ∃ rc r st' w', route method uri b len (hs_manager server) response_default st w
            = Ret (rc, hs_manager server, r, st') w' ∧
          server_up (hs_manager server) st' w' ∧ w_now w' = w_now w ∧
          if rc =? 0 then roomy n st' else r = response_default ∧ roomy (S n) st'
  end.

(** Every event leaves a server that is up. *)
Lemma event_survived server ev n st w :
  server_up (hs_manager server) st w → roomy (S n) st → route_lawful server →
  ∃ outs st' w', dbsc_event_handler (Some server) ev st w = Ret (outs, Some server, st') w' ∧
    server_up (hs_manager server) st' w' ∧ roomy n st' ∧ w_now w' = w_now w.
Proof.
  intros Hup Hroom Hroute. assert (roomy n st) as Hn by by eapply roomy_kept.
  destruct ev as [|hm|]; cbn [dbsc_event_handler].
  1,3: destruct (hs_tls_cert server), (hs_tls_key server); by do 3 eexists.
  destruct (skipped_run server hm w (up_quiet _ _ _ Hup)) as (es & _ & Hrun).
  run_by ltac:(apply Hrun). set (w1 := reported _ es w) in *.
  assert (server_up (hs_manager server) st w1) as Hup1 by by apply reported_up.
  assert (w_now w1 = w_now w) as <- by apply reported_same.
  pose proof (up_quiet _ _ _ Hup1) as Hw1. clearbody w1.
  do 3 run_by ltac:(by apply mg_str_dup_run).
  destruct (header_text (Some (hm_uri hm))) as [uri|] eqn:Hu,
    (header_text (Some (hm_method hm))) as [method|] eqn:Hm; try by do 3 eexists.
  cbv zeta.
  assert (∃ rc r st2 w2,
    (match hs_route server with
     | None => mret (-1, hs_manager server, response_default, st)
     | Some route => route method uri (header_text (Some (hm_body hm))) (String.length (hm_body hm))
                       (hs_manager server) response_default st
     end : C _) w1 = Ret (rc, hs_manager server, r, st2) w2 ∧
    server_up (hs_manager server) st2 w2 ∧ w_now w2 = w_now w1 ∧
    if rc =? 0 then roomy n st2 else r = response_default ∧ roomy (S n) st2)
    as (rc & r & st2 & w2 & Hrc & Hup2 & <- & Hr).
  { unfold route_lawful in Hroute. destruct (hs_route server) as [route|]; [by apply Hroute|].
    by exists (-1), response_default, st, w1. }
  run_by ltac:(apply Hrc). cbv zeta.
  assert (with_manager (hs_manager server) server = server) as -> by by destruct server.
  destruct (Z.eqb_spec rc 0) as [->|Hrc0].
  { run_by ltac:(apply send_response_run, (up_quiet _ _ _ Hup2)). by do 3 eexists. }
  destruct Hr as [-> Hroom2]. pose proof (endpoints_run server hm method uri st2 w2 Hup2 Hm Hu) as Hend.
  destruct (http_spec _ _ _ _ _) as [[outs m] e]. destruct Hend as (st' & Hend & Hup' & _ & Hk).
  run_by ltac:(apply Hend). do 3 eexists. split_and!; [done|done|by eapply roomy_kept|apply after_now].
Qed.

(** The seconds that pass and the events that are met during polls. *)
Definition waits (inputs : list mg_input) : list Z :=
  omap (λ i, match i with MG_WAIT d => Some d | _ => None end) inputs.
Definition events (inputs : list mg_input) : list mg_event :=
  omap (λ i, match i with MG_EVENT ev => Some ev | _ => None end) inputs.
Definition waited (inputs : list mg_input) : Z := foldr Z.add 0 (waits inputs).
Definition stopped (inputs : list mg_input) : bool :=
  existsb (λ i, match i with MG_STOP => true | _ => false end) inputs.

Lemma waited_nonneg inputs : Forall (λ d, 0 ≤ d) (waits inputs) → 0 ≤ waited inputs.
Proof. unfold waited. induction 1; cbn; lia. Qed.

Lemma waits_app a b : waits (a ++ b) = waits a ++ waits b.
Proof. apply omap_app. Qed.
Lemma events_app a b : events (a ++ b) = events a ++ events b.
Proof. apply omap_app. Qed.
Lemma waited_app a b : waited (a ++ b) = waited a + waited b.
Proof.
  unfold waited. rewrite waits_app. induction (waits a) as [|d l IH]; [done|]. cbn in *. lia.
Qed.

(** The server when a stop was asked for. *)
Definition stopping (b : bool) server : OpenDBSC_HTTPServer :=
  if b then with_running false server else server.

Lemma stopping_orb a b server : stopping b (stopping a server) = stopping (a || b) server.
Proof. by destruct a, b. Qed.

Lemma clock_between mgr now d e :
  clock_ok mgr now → clock_ok mgr (now + (d + e)) → 0 ≤ d → 0 ≤ e → clock_ok mgr (now + d).
Proof. intros [] [] ??. split; lia. Qed.

Lemma poll_run inputs : ∀ n server st w,
  server_up (hs_manager server) st w → roomy (length (events inputs) + n) st → route_lawful server →
  Forall (λ d, 0 ≤ d) (waits inputs) → clock_ok (hs_manager server) (w_now w + waited inputs) →
  ∃ outs st' w', mg_mgr_poll inputs server st w
      = Ret (outs, stopping (stopped inputs) server, st') w' ∧
    length outs = length (events inputs) ∧ server_up (hs_manager server) st' w' ∧ roomy n st' ∧
    w_now w' = w_now w + waited inputs.
Proof.
  induction inputs as [|[ev| |d] inputs IH]; intros n server st w Hup Hroom Hroute Hpos Hclk.
  - exists [], st, w. split_and!; [done..|]. cbn. lia.
  - destruct (event_survived server ev _ st w Hup Hroom Hroute)
      as (out & st1 & w1 & Hev & Hup1 & Hroom1 & Hn).
    destruct (IH n server st1 w1) as (outs & st2 & w2 & Hrun & Hlen & Hup2 & Hroom2 & Hn2);
      [done..|by rewrite Hn|].
    exists (out :: outs), st2, w2. split_and!; [|by f_equal/=|done|done|by rewrite Hn2, Hn].
    cbn [mg_mgr_poll]. run_by ltac:(apply Hev). run_by ltac:(reflexivity). by run_by ltac:(apply Hrun).
  - destruct (IH n (with_running false server) st w) as (outs & st2 & w2 & Hrun & ?); [done..|].
    exists outs, st2, w2. split; [|done]. cbn [mg_mgr_poll]. run_by ltac:(reflexivity). rewrite Hrun.
    by destruct (stopped inputs).
  - cbn in Hpos. inversion_clear Hpos as [|?? Hd Hrest]. pose proof (waited_nonneg _ Hrest) as Hw0.
    change (waited (MG_WAIT d :: inputs)) with (d + waited inputs) in *.
    assert (server_up (hs_manager server) st (later d w)) as Hup1.
    { eapply later_up, clock_between; [done|apply Hup|done..]. }
    destruct (IH n server st (later d w)) as (outs & st2 & w2 & Hrun & Hlen & Hup2 & Hroom2 & Hn);
      [done..| |].
    { cbn. by rewrite <-Z.add_assoc. }
    exists outs, st2, w2. split_and!; [|done|done|done|rewrite Hn; cbn; lia].
    cbn [mg_mgr_poll]. by run_by ltac:(reflexivity).
Qed.

Lemma loop_run polls : ∀ last rest server st w,
  let inputs := concat polls ++ last in
  server_up (hs_manager server) st w → roomy (length (events inputs)) st → route_lawful server →
  hs_running server = true → Forall (λ p, stopped p = false) polls → stopped last = true →
  Forall (λ d, 0 ≤ d) (waits inputs) → clock_ok (hs_manager server) (w_now w + waited inputs) →
  ∃ outs st' w', run_loop (polls ++ last :: rest) server st w
      = Ret (outs, with_running false server, st') w' ∧
    length outs = length (events inputs) ∧ server_up (hs_manager server) st' w' ∧
    w_now w' = w_now w + waited inputs.
Proof.
  induction polls as [|p polls IH]; intros last rest server st w inputs Hup Hroom Hroute Hrun Hns Hs Hpos Hclk;
    subst inputs; cbn [app concat run_loop] in *; rewrite Hrun; cbn [negb].
  - destruct (poll_run last 0 server st w) as (outs & st1 & w1 & Hp & ? & ? & _ & ?);
      [done|by rewrite Nat.add_0_r|done..|].
    exists outs, st1, w1. split_and!; [|done..]. run_by ltac:(apply Hp). rewrite Hs.
    erewrite (bind_run _ _ _ ([], stopping true server, st1) w1) by by destruct rest. cbv beta match.
    by rewrite app_nil_r.
  - inversion_clear Hns as [|?? Hp1 Hns'].
    rewrite <-app_assoc, waits_app, waited_app in *. rewrite events_app, length_app in Hroom.
    apply Forall_app in Hpos as [Hpos1 Hpos2].
    pose proof (waited_nonneg _ Hpos1). pose proof (waited_nonneg _ Hpos2).
    destruct (poll_run p _ server st w Hup Hroom Hroute Hpos1)
      as (outs & st1 & w1 & Hp & Hlen & Hup1 & Hroom1 & Hn1).
    { eapply clock_between; [apply Hup|done..]. }
    rewrite Hp1 in Hp. destruct (IH last rest server st1 w1)
      as (outs' & st2 & w2 & Hl & Hlen' & Hup2 & Hn2); [done..| |].
    { by rewrite Hn1, <-Z.add_assoc. }
    exists (outs ++ outs'), st2, w2. split_and!; [|by rewrite length_app, events_app, length_app, Hlen, Hlen'|done|lia].
    run_by ltac:(apply Hp). by run_by ltac:(apply Hl).
Qed.

Lemma loop_hangs polls : ∀ server st w,
  server_up (hs_manager server) st w → roomy (length (events (concat polls))) st →
  route_lawful server → hs_running server = true → Forall (λ p, stopped p = false) polls →
  Forall (λ d, 0 ≤ d) (waits (concat polls)) →
  clock_ok (hs_manager server) (w_now w + waited (concat polls)) →
  run_loop polls server st w = Hang.
Proof.
  induction polls as [|p polls IH]; intros server st w Hup Hroom Hroute Hrun Hns Hpos Hclk;
    cbn [concat run_loop] in *; rewrite Hrun; cbn [negb]; [done|].
  inversion_clear Hns as [|?? Hp1 Hns']. rewrite waits_app, waited_app in *.
  rewrite events_app, length_app in Hroom.
  apply Forall_app in Hpos as [Hpos1 Hpos2].
  pose proof (waited_nonneg _ Hpos1). pose proof (waited_nonneg _ Hpos2).
  destruct (poll_run p _ server st w Hup Hroom Hroute Hpos1)
    as (outs & st1 & w1 & Hp & Hlen & Hup1 & Hroom1 & Hn1).
  { eapply clock_between; [apply Hup|done..]. }
  rewrite Hp1 in Hp. run_by ltac:(apply Hp). rewrite bind_unfold.
  rewrite IH; [done..|]. by rewrite Hn1, <-Z.add_assoc.
Qed.

(** A server that is never asked to stop. *)
Lemma unstopped_hangs polls last server st w :
  let inputs := concat polls ++ last in
  server_up (hs_manager server) st w → roomy (length (events inputs)) st → route_lawful server →
  hs_running server = true → Forall (λ p, stopped p = false) polls → stopped last = false →
  Forall (λ d, 0 ≤ d) (waits inputs) → clock_ok (hs_manager server) (w_now w + waited inputs) →
  run_loop (polls ++ [last]) server st w = Hang.
Proof.
  intros inputs Hup Hroom Hroute Hrun Hns Hs Hpos Hclk.
  assert (concat (polls ++ [last]) = inputs) as Hc by by rewrite concat_app; cbn; rewrite app_nil_r.
  apply loop_hangs; rewrite ?Hc; try done. apply Forall_app. by rewrite Forall_singleton.
Qed.

(** The server runs until it is stopped.  On a server that is up, with any
    route that returns and keeps its store lawful, and with room for one session
    per event, [opendbsc_http_server_run]
    polls as long as no stop was asked for, answers every event of those polls,
    also those that follow the stop in its own poll, and nothing of the polls
    after it; it returns when the poll in which the stop was asked for returns,
    whatever was asked of the server before, and leaves a server that no
    longer runs and sessions that are still in order.  When no stop is ever
    asked for, it does not return. *)
Theorem http_server_runs_until_stopped server polls last rest st w :
  let inputs := concat polls ++ last in
  server_up (hs_manager server) st w → roomy (length (events inputs)) st → route_lawful server →
  hs_running server = true → Forall (λ p, stopped p = false) polls →
  Forall (λ d, 0 ≤ d) (waits inputs) → clock_ok (hs_manager server) (w_now w + waited inputs) →
  (stopped last = true →
   ∃ outs st' w', opendbsc_http_server_run (polls ++ last :: rest) (Some server) st w
       = Ret (outs, Some (with_running false server), st') w' ∧
     length outs = length (events inputs) ∧ server_up (hs_manager server) st' w' ∧
     w_now w' = w_now w + waited inputs) ∧
  (stopped last = false → opendbsc_http_server_run (polls ++ [last]) (Some server) st w = Hang).
Proof.
  intros inputs Hup Hroom Hroute Hrun Hns Hpos Hclk. split; intros Hs.
  - destruct (loop_run polls last rest server st w) as (outs & st' & w' & Hl & ?); [done..|].
    exists outs, st', w'. split; [|done]. unfold opendbsc_http_server_run. by run_by ltac:(apply Hl).
  - unfold opendbsc_http_server_run. rewrite bind_unfold. by rewrite unstopped_hangs.
Qed.

End handler.

(** ** Witnesses *)

(** Messages as they are written, with exact header names. *)
Record ref_message := RefMessage {
  rm_method : string;
  rm_uri : string;
  rm_body : string;
  rm_headers : list (string * string)
}.

#[export] Instance ref_Mongoose : Mongoose := {
  mg_http_message := ref_message;
  hm_method := rm_method;
  hm_uri := rm_uri;
  hm_body := rm_body;
  mg_http_get_header m k := snd <$> List.find (λ p, String.eqb p.1 k) (rm_headers m);
  mg_http_listen _ := true;
  mg_file_read _ := None
}.

Definition demo_server : OpenDBSC_HTTPServer (T := OpenDBSC_MemoryStore) :=
  HTTPServer demo_manager None None true None None.

(** The refresh of the session "b", with the proof in quotes. *)
Definition demo_message : ref_message :=
  RefMessage "POST" "/dbsc/refresh" ""
    [("Cookie", "theme=dark; session_id=b");
     ("Secure-Session-Response", dquoted demo_refresh_token)].

Lemma http_server_implements_manager_witness :
  server_up (hs_manager demo_server) demo_store demo_world ∧ declined demo_server (demo_message : mg_http_message) demo_store ∧
  (exists w' st', dbsc_event_handler (Some demo_server) (MG_EV_HTTP_MSG (demo_message : mg_http_message))
     demo_store demo_world = Ret ([reply_of demo_granted], Some demo_server, st') w') ∧
  ∃ es, skipped_of (demo_message : mg_http_message) demo_world es ∧
    let w1 := reported (hs_manager demo_server) es demo_world in
    let '(outs, m, e) := http_spec demo_server (w_now demo_world) (challenge_of demo_world)
                           (demo_message : mg_http_message) (store_view demo_store) in
    ∃ st', dbsc_event_handler (Some demo_server) (MG_EV_HTTP_MSG (demo_message : mg_http_message))
        demo_store demo_world = Ret (outs, Some demo_server, st') (after (hs_manager demo_server) w1 e) ∧
      server_up (hs_manager demo_server) st' (after (hs_manager demo_server) w1 e) ∧ store_view st' = m.
Proof.
  split; [exact demo_up|]. split; [exact I|].
  split; [do 2 eexists; vm_compute; reflexivity|].
  exact (http_server_implements_manager demo_server demo_message demo_store demo_world demo_up I).
Defined.

Lemma http_request_texts_exact_witness :
  (∀ t, "a-b" ≠ dquoted t) ∧
  wp (opendbsc_http_get_cookie (demo_message : mg_http_message) (Some "session_id")) demo_world
    (λ r _, r = Some "b") ∧
  wp (strip_quotes (Some "a-b")) demo_world (λ r w', env_step demo_world w' ∧
    ((∀ t, "a-b" ≠ dquoted t) → r = Some "a-b" ∨ r = None ∧ ¬ no_oom demo_world)).
Proof.
  split; [done|]. split; [vm_compute; reflexivity|].
  exact (proj2 (proj2 (http_request_texts_exact (demo_message : mg_http_message) "session_id" "a-b" demo_world))).
Defined.

Lemma demo_message_run :
  exists headers b w' st', dbsc_event_handler (Some demo_server)
    (MG_EV_HTTP_MSG (demo_message : mg_http_message)) demo_store demo_world
    = Ret ([mg_http_reply 200 headers b], Some demo_server, st') w'.
Proof. do 4 eexists. vm_compute. reflexivity. Qed.

Lemma http_refresh_needs_bound_key_witness :
  server_up (hs_manager demo_server) demo_store demo_world ∧
  ∃ i t s p, req_session_id (demo_message : mg_http_message) (hs_manager demo_server) = Some i ∧
    req_header (demo_message : mg_http_message) "Secure-Session-Response" = Some t ∧
    store_view demo_store !! i = Some s ∧ expired (w_now demo_world) s = false ∧
    s_state s = OPENDBSC_SESSION_STATE_BOUND ∧ proves_refresh s t p.
Proof.
  split; [exact demo_up|]. destruct demo_message_run as (headers & b & w' & st' & Hrun).
  refine (http_refresh_needs_bound_key demo_server demo_message demo_store demo_world _ _ w' st'
    headers b demo_up I eq_refl eq_refl Hrun _).
  by apply list_elem_of_singleton.
Defined.

(** The refresh, a pause, a signal and a last message, in two polls. *)
Lemma http_server_runs_until_stopped_witness :
  let polls := [[MG_EVENT (MG_EV_HTTP_MSG (demo_message : mg_http_message)); MG_WAIT 5]] in
  let last := [MG_STOP; MG_EVENT MG_EV_ACCEPT] in
  stopped last = true ∧
  ∃ outs st' w', opendbsc_http_server_run (polls ++ [last; last]) (Some demo_server) demo_store demo_world
      = Ret (outs, Some (with_running false demo_server), st') w' ∧
    length outs = 2%nat ∧ server_up (hs_manager demo_server) st' w' ∧ w_now w' = w_now demo_world + 5.
Proof.
  intros polls last. split; [reflexivity|].
  apply (http_server_runs_until_stopped demo_server polls last [last] demo_store demo_world);
    [exact demo_up|exists 2%nat; split; [reflexivity|vm_compute; reflexivity]|exact I|reflexivity|by repeat constructor| | |reflexivity].
  - by repeat constructor.
  - cbn. split; vm_compute; congruence.
Defined.

(** Internal errors are answered with status 0.  The event handler does not
    look at the return code of the manager: when the allocation of the next
    challenge fails, the refresh returns -1 and leaves an empty response, and
    the reply goes out with status 0 instead of 500. *)
Theorem http_internal_error_status_zero :
  let w := World (replicate 45 true ++ [false]) 1000 [] [Some (replicate 32 171)] [] [] in
  exists st' w',
    dbsc_event_handler (Some demo_server) (MG_EV_HTTP_MSG (demo_message : mg_http_message))
      demo_store w = Ret ([mg_http_reply 0 content_type_json ""], Some demo_server, st') w'.
Proof. do 2 eexists. vm_compute. reflexivity. Qed.
