(* ===== verification/ExampleServer.v ===== *)
(** [examples/server.c]: the example server of the repository.  Its log of
    events is a ring of 100 entries that [add_event], the manager's callback,
    fills; its route answers the login of two built-in users and shows the
    log; [main] puts a store, a manager and an HTTP server together.

    [add_event] is the only callback there is, so the calls of it so far are
    [w_events] of the world, and the static variables [event_log] and
    [event_count] are the function [event_state] of these calls.  What it
    prints to the terminal is not modelled. *)

From S2P Require Export Http MemoryStore SqliteStore OdbcStore RedisStore.
From S2P Require Import Rfc3339.
From stdpp Require Import pretty.
From stdpp Require Import options.
#[local] Open Scope Z_scope.

(** ** Users *)

Record User := mkUser { username : string; password : string }.
Definition users : list User := [mkUser "alice" "password123"; mkUser "bob" "hunter2"].

Fixpoint users_loop (us : list User) (name pass : string) : Z :=
  match us with
  | [] => 0
  | u :: us' => if String.eqb (username u) name && String.eqb (password u) pass then 1
                else users_loop us' name pass
  end.

Definition validate_login (username password : cstr) : Z :=
  match username, password with
  | Some username, Some password => users_loop users username password
  | _, _ => 0
  end.

(** ** The log of events *)

(** The arrays of an entry, as the C strings in them. *)
Record Event := LogEntry {
  e_time : string;
  e_type : string;
  e_user : string;
  e_session : string;
  e_detail : string
}.

Definition MAX_EVENTS : nat := 100.

Record EventState := mkEventState { event_log : list Event; event_count : nat }.

(** Static variables start as zeros. *)
Definition event_state_init : EventState :=
  mkEventState (replicate MAX_EVENTS (LogEntry "" "" "" "" "")) 0.

(** [localtime_r], in the time zone of the process; it fails only for years an
    [int] cannot hold. *)
Class LocalTime := localtime_r : Z → tm.

(** [strftime(buf, 16, "%H:%M:%S", &tm)] *)
Definition clock_text (t : tm) : string :=
  pad 2 (tm_hour t) +:+ ":" +:+ pad 2 (tm_min t) +:+ ":" +:+ pad 2 (tm_sec t).

(** [strncpy(a, s ? s : "", size - 1); a[size - 1] = 0;] *)
Definition array_copy (size : nat) (s : cstr) : string := str_take (size - 1) (default "" s).

Section log.
Context `{LocalTime}.

(** [now] is what [time(NULL)] returns. *)
Definition add_event (now : Z) (type : string) (user session_id detail : cstr) (st : EventState)
    : EventState :=
  let slot := (event_count st `mod` MAX_EVENTS)%nat in
  let e := LogEntry (clock_text (localtime_r now)) (array_copy 32 (Some type)) (array_copy 64 user)
             (array_copy 64 session_id) (array_copy 256 detail) in
  mkEventState (<[slot := e]> (event_log st))
    (if decide (event_count st < MAX_EVENTS)%nat then S (event_count st) else event_count st).

Definition add_call (st : EventState) (c : Z * event) : EventState :=
  add_event c.1 (ev_type c.2) (ev_user c.2) (ev_session_id c.2) (ev_detail c.2) st.

Definition event_state (calls : list (Z * event)) : EventState :=
  foldl add_call event_state_init calls.

(** Reading the static variables. *)
Definition read_events : C EventState := λ w, Ret (event_state (w_events w)) w.

(** ["{\"time\":\"%s\",...}"] *)
Definition pair_text (key value : string) : string := dquoted key +:+ ":" +:+ dquoted value.
Definition event_text (e : Event) : string :=
  "{" +:+ pair_text "time" (e_time e) +:+ "," +:+ pair_text "type" (e_type e) +:+ "," +:+
  pair_text "user" (e_user e) +:+ "," +:+ pair_text "session" (e_session e) +:+ "," +:+
  pair_text "detail" (e_detail e) +:+ "}".

Fixpoint events_size (events : list Event) (size : nat) : nat :=
  match events with
  | [] => size
  | e :: events' =>
      events_size events'
        (size + (String.length (e_time e) + String.length (e_type e) + String.length (e_user e) +
                 String.length (e_session e) + String.length (e_detail e) + 128))%nat
  end.

(** [i] is the loop's counter. *)
Fixpoint write_events (i : nat) (events : list Event) (w : cbuf) : C cbuf :=
  match events with
  | [] => mret w
  | e :: events' =>
      w ← (if decide (0 < i)%nat then sprintf w "," else mret w);
      w ← sprintf w (event_text e);
      write_events (S i) events' w
  end.

Definition total_text (total : nat) : string :=
  "{" +:+ dquoted "total" +:+ ":" +:+ pretty (Z.of_nat total) +:+ "," +:+ dquoted "events" +:+ ":[".

(** The part of GET /api/events that builds the document. *)
Definition events_json (st : EventState) : C cstr :=
  let count := if decide (event_count st < MAX_EVENTS)%nat then event_count st else MAX_EVENTS in
  let total := event_count st in
  let events := take count (event_log st) in
  json ← malloc_buf (events_size events 128);
  match json with
  | None => mret None
  | Some w =>
      w ← sprintf w (total_text total);
      w ← write_events 0 events w;
      w ← sprintf w "]}";
      text ← buf_cstr w;
      mret (Some text)
  end.

End log.

(** ** Forms *)

Definition form_stop (c : ascii) : bool := negb (Ascii.eqb c "=") && negb (Ascii.eqb c "&").
Definition not_amp (c : ascii) : bool := negb (Ascii.eqb c "&").

(** [p] runs over the body, to its NUL. *)
Fixpoint form_loop (fuel : nat) (p name : string) : C cstr :=
  match fuel with
  | O => hang
  | S fuel' =>
      if decide (p = "") then mret None else
      let start := p in
      let p := skip_while form_stop p in
      if Ascii.eqb (cur p) "=" && Nat.eqb (pdiff p start) (String.length name) &&
         strncmp_eq start name (String.length name) then
        let p := next p in
        let value_start := p in
        let p := skip_while not_amp p in
        memcpy_str value_start (pdiff p value_start)
      else
        let p := if Ascii.eqb (cur p) "=" then skip_while not_amp p else p in
        let p := if Ascii.eqb (cur p) "&" then next p else p in
        form_loop fuel' p name
  end.

Definition get_form_value (body name : cstr) : C cstr :=
  match body, name with
  | Some body, Some name => form_loop (S (String.length body)) body name
  | _, _ => mret None
  end.

(** ** The route *)

Definition error_text (message : string) : string :=
  "{" +:+ dquoted "error" +:+ ":" +:+ dquoted message +:+ "}".
Definition login_text (id : string) : string :=
  "{" +:+ dquoted "message" +:+ ":" +:+ dquoted "login successful" +:+ "," +:+
  dquoted "session_id" +:+ ":" +:+ dquoted id +:+ "}".
Definition status_text : string :=
  "{" +:+ dquoted "service" +:+ ":" +:+ dquoted "opendbsc" +:+ "," +:+
  dquoted "mode" +:+ ":" +:+ dquoted "mongoose" +:+ "," +:+
  dquoted "status" +:+ ":" +:+ dquoted "running" +:+ "}".

Section route.
Context `{CJSON, OpenSSL, UUIDv7, LocalTime} {T : Type} `{Store T}.

(** [resp->status_code = status; resp->body = strdup(text); return 0;] *)
Definition answer (status : Z) (text : string) (mgr : OpenDBSC_Manager)
    (resp : OpenDBSC_ManagerResponse) (st : T)
    : C (Z * OpenDBSC_Manager * OpenDBSC_ManagerResponse * T) :=
  b ← strdup text; mret (0, mgr, with_answer status b resp, st).

(** POST /login. *)
Definition login_route (body : cstr) (mgr : OpenDBSC_Manager) (resp : OpenDBSC_ManagerResponse)
    (st : T) : C (Z * OpenDBSC_Manager * OpenDBSC_ManagerResponse * T) :=
  username ← get_form_value body (Some "username");
  password ← get_form_value body (Some "password");
  if bool_decide (username = None) || bool_decide (password = None) ||
     (validate_login username password =? 0) then
    call_on_event (CLib.Event "LOGIN_FAIL" (or_default username "") (Some "")
                     (Some "invalid credentials"));;
    answer 401 (error_text "invalid credentials") mgr resp st
  else
    '(rc, session, r, st) ← opendbsc_manager_initiate (Some mgr) username (Some session_default)
                              (Some resp) st;
    resp ← deref r;
    if negb (rc =? 0) then answer 500 (error_text "failed to initiate session") mgr resp st else
    session ← deref session;
    id ← need_str (s_id session);
    answer (status_code resp) (snprintf 512 (login_text id)) mgr resp st.

(** GET /api/events. *)
Definition events_route (mgr : OpenDBSC_Manager) (resp : OpenDBSC_ManagerResponse) (st : T)
    : C (Z * OpenDBSC_Manager * OpenDBSC_ManagerResponse * T) :=
  log ← read_events;
  json ← events_json log;
  match json with
  | None => answer 500 (error_text "out of memory") mgr resp st
  | Some json => mret (0, mgr, with_answer 200 (Some json) resp, st)
  end.

Definition app_route : OpenDBSC_HTTPRoute := λ method uri body body_len mgr resp st,
  if String.eqb method "POST" && String.eqb uri "/login" then login_route body mgr resp st
  else if String.eqb method "GET" && String.eqb uri "/api/events" then events_route mgr resp st
  else if String.eqb method "GET" && String.eqb uri "/api/status" then
    answer 200 status_text mgr resp st
  else if String.eqb method "GET" && String.eqb uri "/api/me" then mret (-1, mgr, resp, st)
  else mret (-1, mgr, resp, st).

End route.

(** ** The program *)

(** The environment of the process, and whether it was built with ODBC. *)
Class Process := {
  getenv : string → cstr;
  OPENDBSC_HAVE_ODBC : bool
}.

Section main.
Context `{CJSON, !CJSONNumber, OpenSSL, UUIDv7, Mongoose, LocalTime}.
Context `{Sqlite, Odbc, Hiredis, CallStack, Process}.

(** The table of functions that [create_store] returns, with its [impl]. *)
Inductive OpenDBSC_Store :=
| MemoryTable (impl : OpenDBSC_MemoryStore)
| SqliteTable (impl : opendbsc_sqlite_ctx)
| RedisTable (impl : OpenDBSC_RedisCtx)
| OdbcTable (impl : opendbsc_odbc_ctx).

(** A call through the table: [f] is the table's function, for each table. *)
Definition through (st : OpenDBSC_Store) {A} (f : ∀ T (_ : Store T), T → C (A * T))
    : C (A * OpenDBSC_Store) :=
  match st with
  | MemoryTable impl => '(a, impl) ← f _ _ impl; mret (a, MemoryTable impl)
  | SqliteTable impl => '(a, impl) ← f _ _ impl; mret (a, SqliteTable impl)
  | RedisTable impl => '(a, impl) ← f _ _ impl; mret (a, RedisTable impl)
  | OdbcTable impl => '(a, impl) ← f _ _ impl; mret (a, OdbcTable impl)
  end.

#[export] Instance table_Store : Store OpenDBSC_Store := {
  st_create st s := through st (λ T _ impl, st_create impl s);
  st_get st id out := through st (λ T _ impl, st_get impl id out);
  st_update st s := through st (λ T _ impl, st_update impl s);
  st_delete st id := through st (λ T _ impl, st_delete impl id);
  st_get_by_user_id st u out n := through st (λ T _ impl, st_get_by_user_id impl u out n);
  st_delete_by_user_id st u := through st (λ T _ impl, st_delete_by_user_id impl u)
}.

Definition create_store (type odbc_conn : cstr) : C (option OpenDBSC_Store) :=
  match type with
  | None => ms ← opendbsc_memory_store_create; mret (MemoryTable <$> ms)
  | Some type =>
      if String.eqb type "memory" then
        ms ← opendbsc_memory_store_create; mret (MemoryTable <$> ms)
      else if String.eqb type "sqlite" then
        ctx ← opendbsc_sqlite_store_create (Some "dbsc_sessions.db"); mret (SqliteTable <$> ctx)
      else if String.eqb type "redis" then
        ctx ← opendbsc_redis_store_create None; mret (RedisTable <$> ctx)
      else if String.eqb type "odbc" then
        if negb OPENDBSC_HAVE_ODBC then mret None else
        let odbc_conn := match odbc_conn with
                         | None => getenv "DBSC_ODBC_CONN"
                         | Some _ => odbc_conn
                         end in
        match odbc_conn with
        | None => mret None
        | Some _ =>
            ctx ← opendbsc_odbc_store_create (Some (OdbcConfig odbc_conn None true 0));
            mret (OdbcTable <$> ctx)
        end
      else mret None
  end.

(** The configuration of the manager; [on_event] is [add_event]. *)
Definition example_config : OpenDBSC_ManagerConfig :=
  ManagerConfig true (Some "session_id") (Some "/") None true (Some "None") 600 0 None true.

Definition server_config (mgr : OpenDBSC_Manager) : OpenDBSC_HTTPServerConfig (T := OpenDBSC_Store) :=
  HTTPServerConfig (Some mgr) (Some "https://0.0.0.0:8447") (Some "cert/cert.pem")
    (Some "cert/key.pem") (Some "examples/static") (Some app_route).

(** The handler of SIGINT and SIGTERM; [MG_STOP] stands for its call. *)
Definition signal_handler (g_server : option (OpenDBSC_HTTPServer (T := OpenDBSC_Store)))
    : option (OpenDBSC_HTTPServer (T := OpenDBSC_Store)) :=
  opendbsc_http_server_request_stop g_server.

(** [argv] holds the arguments after the program's name, [polls] what the event
    loop will meet; the result is the exit code, with what was sent and the
    sessions that were left. *)
Definition main (polls : list (list mg_input)) (argv : list string)
    : C (Z * list (list mg_output) * option OpenDBSC_Store) :=
  let store_type := default "memory" (argv !! 0%nat) in
  let odbc_conn := argv !! 1%nat in
  store ← create_store (Some store_type) odbc_conn;
  match store with
  | None => mret (1, [], None)
  | Some store =>
      '(rc, mgr) ← opendbsc_manager_init (Some manager_zero) (Some example_config);
      if negb (rc =? 0) then mret (1, [], Some store) else
      mgr ← deref mgr;
      g_server ← opendbsc_http_server_start (Some (server_config mgr));
      match g_server with
      | None => mret (1, [], Some store)
      | Some _ =>
          '(outs, _, store) ← opendbsc_http_server_run polls g_server store;
          mret (0, outs, Some store)
      end
  end.

End main.
