(* ===== verification/ExampleProps.v ===== *)
(** The theorems about the example server: what a form holds, who may log in,
    what its log of events keeps and shows, and that the endpoints of the
    library work behind its route. *)

From S2P Require Import Rfc3339.
From S2P Require Export HttpProps ExampleServer.
From stdpp Require Import pretty.
From stdpp Require Import options.
#[local] Open Scope Z_scope.

(** ** Forms *)

(** A field of a form is what follows the "=" in a pair of that name, as it is
    written; the first pair counts. *)
Definition pair_value (name pair : string) : option string :=
  '(k, v) ← cut "=" pair; if String.eqb k name then Some v else None.
Definition form_field (body name : string) : option string :=
  head (omap (pair_value name) (split_on "&" body)).

Lemma form_field_cons name a r :
  head (omap (pair_value name) (a :: r)) =
    match pair_value name a with Some v => Some v | None => head (omap (pair_value name) r) end.
Proof. cbn. by destruct (pair_value name a). Qed.

Lemma stops_amp f r : f "&"%char = false → r = "" ∨ (∃ b, r = String "&" b) → stops f r.
Proof. intros Hf [->|[b ->]]; [by left|right; eauto]. Qed.

Lemma wp_form_loop name fuel : ∀ p w (Q : cstr → world → Prop),
  (String.length p < fuel)%nat →
  (∀ w', env_step w w' → Q (form_field p name) w') →
  (∀ w', env_step w w' → ¬ no_oom w → Q None w') →
  wp (form_loop fuel p name) w Q.
Proof.
  induction fuel as [|fuel IH]; intros p w Q Hfuel HS HN; [lia|]. cbn [form_loop].
  case_decide as Hp; [subst p; by apply wp_ret, HS|]. cbv zeta.
  destruct (segment_split "&" p) as (a & r & Hpa & Ha & _ & Hr & Hsplit).
  unfold form_field in HS. rewrite Hsplit, form_field_cons in HS.
  change form_stop with (λ c, negb (Ascii.eqb c "=") && negb (Ascii.eqb c "&")).
  change not_amp with (is_not "&").
  rewrite Hpa, skip_while_stops, (skip_both "&") by (done || by apply stops_amp).
  assert (pair_value name a = None →
    wp (form_loop fuel (if Ascii.eqb (cur r) "&" then next r else r) name) w Q) as Hnext.
  { intros Hn. rewrite Hn in HS. rewrite Hpa, str_length_app in Hfuel.
    assert (0 < String.length p)%nat as Hp0 by (destruct p; [done|cbn; lia]).
    rewrite Hpa, str_length_app in Hp0.
    destruct Hr as [->|[b ->]]; cbn [cur next] in *.
    - apply IH; [cbn in *; lia|intros w' ?; by apply HS|done].
    - apply IH; [cbn in *; lia|intros w' ?; by apply HS|done]. }
  unfold pair_value in HS, Hnext at 1.
  destruct (skip_while_split (is_not "=") a) as (k & Hk & Hkk).
  destruct (skip_while_head (is_not "=") a) as [E|(c & v & E & Hc)]; rewrite E in Hk |- *.
  { rewrite str_app_nil_r in Hk. subst k. rewrite (cut_none "=" a Hkk) in Hnext.
    rewrite str_app_nil_l.
    assert (Ascii.eqb (cur r) "=" = false) as -> by (by destruct Hr as [->|[b ->]]).
    by apply Hnext. }
  unfold is_not in Hc. apply negb_false_iff, Ascii.eqb_eq in Hc as ->.
  assert (cut "=" a = Some (k, v)) as Hcut by (rewrite Hk; by apply cut_app).
  rewrite Hcut in HS, Hnext. cbn [mbind option_bind] in HS, Hnext.
  rewrite Hk, !str_app_assoc, str_app_cons. cbn [cur next].
  rewrite pdiff_app. cbn [andb Ascii.eqb Bool.eqb]. rewrite key_matches.
  rewrite Hk, str_forall_app in Ha. apply andb_true_iff in Ha as [_ Hv]. cbn in Hv.
  assert (str_forall (is_not "&") (String "=" v) = true) as Hv2 by done.
  rewrite <-(str_app_cons "=" v r), !(skip_while_stops (is_not "&") _ r), (skip_while_all _ _ Hv2),
    (skip_while_all _ _ Hv), str_app_nil_l by by apply stops_amp.
  destruct (String.eqb k name); [|by apply Hnext].
  apply wp_memcpy_str; [unfold pdiff; lia| |done].
  intros w' ?. rewrite str_take_pdiff. by apply HS.
Qed.

Lemma wp_form_value body name w (Q : cstr → world → Prop) :
  (∀ w', env_step w w' → Q (form_field body name) w') →
  (∀ w', env_step w w' → ¬ no_oom w → Q None w') →
  wp (get_form_value (Some body) (Some name)) w Q.
Proof. intros. apply wp_form_loop; [lia|done..]. Qed.

Lemma form_value_run body name w :
  quiet w → get_form_value (Some body) (Some name) w = Ret (form_field body name) w.
Proof.
  intros Hw. apply quiet_run, wp_form_value.
  - intros w' Hst. split; [done|by apply step_quiet].
  - intros w' _ Ho. destruct Ho. by apply quiet_no_oom.
Qed.

(** ** Users *)

Definition credentials (u : User) : string * string := (username u, password u).

Lemma validate_login_spec name pass :
  validate_login (Some name) (Some pass) =
    if bool_decide ((name, pass) ∈ credentials <$> users) then 1 else 0.
Proof.
  unfold validate_login. induction users as [|[u p] us IH]; [done|].
  cbn [users_loop username password]. rewrite IH. clear IH.
  rewrite fmap_cons. change (credentials (mkUser u p)) with (u, p).
  destruct (decide ((name, pass) = (u, p))) as [[= <- <-]|Hne].
  - by rewrite !String.eqb_refl, (bool_decide_true (_ ∈ (name, pass) :: _)) by by left.
  - assert (String.eqb u name && String.eqb p pass = false) as ->.
    { destruct (String.eqb_spec u name), (String.eqb_spec p pass); subst; try done. }
    erewrite bool_decide_ext; [done|]. rewrite elem_of_cons. split; [by right|by intros [?|?]].
Qed.

Definition valid_login (body : string) : Prop :=
  ∃ u, u ∈ users ∧ form_field body "username" = Some (username u) ∧
       form_field body "password" = Some (password u).

Lemma validate_login_valid name pass :
  validate_login (Some name) (Some pass) ≠ 0 →
  ∃ u, u ∈ users ∧ name = username u ∧ pass = password u.
Proof.
  rewrite validate_login_spec. case_bool_decide as Hin; [|done]. intros _.
  apply list_elem_of_fmap in Hin as ([n p] & [= -> ->] & ?). by exists (mkUser n p).
Qed.

Lemma validate_login_complete u :
  u ∈ users → validate_login (Some (username u)) (Some (password u)) = 1.
Proof.
  intros Hu. rewrite validate_login_spec, bool_decide_true; [done|].
  apply list_elem_of_fmap. by exists u.
Qed.

(** ** The log of events *)

Section log.
Context `{LocalTime}.

(** The entry of a call. *)
Definition entry (c : Z * event) : Event :=
  LogEntry (clock_text (localtime_r c.1)) (array_copy 32 (Some (ev_type c.2)))
    (array_copy 64 (ev_user c.2)) (array_copy 64 (ev_session_id c.2)) (array_copy 256 (ev_detail c.2)).

(** The entries that are shown. *)
Definition shown (st : EventState) : list Event := take (event_count st) (event_log st).

Definition empty_entry : Event := LogEntry "" "" "" "" "".

Lemma event_state_snoc calls c : event_state (calls ++ [c]) = add_call (event_state calls) c.
Proof. unfold event_state. by rewrite foldl_app. Qed.

Lemma add_call_eq st c :
  add_call st c = mkEventState (<[(event_count st `mod` MAX_EVENTS)%nat := entry c]> (event_log st))
    (if decide (event_count st < MAX_EVENTS)%nat then S (event_count st) else event_count st).
Proof. done. Qed.

Lemma event_state_filling calls :
  (length calls ≤ MAX_EVENTS)%nat →
  event_state calls = mkEventState ((entry <$> calls) ++ replicate (MAX_EVENTS - length calls) empty_entry)
                        (length calls).
Proof.
  induction calls as [|c calls IH] using rev_ind; [done|].
  rewrite length_app, Nat.add_1_r. intros Hlen. rewrite event_state_snoc, IH by lia.
  rewrite add_call_eq. cbn [event_log event_count]. rewrite decide_True by lia.
  rewrite Nat.mod_small by lia. f_equal.
  replace (MAX_EVENTS - length calls)%nat with (S (MAX_EVENTS - S (length calls))) by lia.
  rewrite fmap_app, <-app_assoc. cbn [replicate].
  by rewrite insert_app_r_alt, length_fmap, Nat.sub_diag by (by rewrite length_fmap).
Qed.

Lemma event_state_full old later :
  length old = MAX_EVENTS → later ≠ [] →
  ∃ newest, last later = Some newest ∧
    event_state (old ++ later) = mkEventState (entry newest :: tail (entry <$> old)) MAX_EVENTS.
Proof.
  intros Hold. induction later as [|c later IH] using rev_ind; [done|]. intros _.
  exists c. split; [apply last_snoc|]. rewrite app_assoc, event_state_snoc, add_call_eq.
  destruct (decide (later = [])) as [->|Hne].
  - rewrite app_nil_r, event_state_filling, Hold, Nat.sub_diag by (by rewrite Hold).
    cbn [event_log event_count]. rewrite decide_False, Nat.Div0.mod_same by lia. cbn [replicate].
    rewrite app_nil_r. by destruct old.
  - destruct (IH Hne) as (n & _ & ->). cbn [event_log event_count].
    rewrite decide_False, Nat.Div0.mod_same by lia. done.
Qed.

(** The log keeps the oldest events.  Whatever calls of [add_event] there
    were, the first hundred are kept in their order, each as an entry with the
    local time and its strings cut to the arrays; after them every call
    overwrites the first entry and nothing else, and the count stays at a
    hundred, so that of all later events only the newest is there. *)
Theorem example_log_keeps_oldest (old later : list (Z * event)) :
  ((length old ≤ MAX_EVENTS)%nat → shown (event_state old) = entry <$> old) ∧
  (length old = MAX_EVENTS → later ≠ [] → ∃ newest, last later = Some newest ∧
     shown (event_state (old ++ later)) = entry newest :: tail (entry <$> old)).
Proof.
  unfold shown. split.
  - intros Hlen. rewrite event_state_filling by done. cbn [event_log event_count].
    by rewrite take_app_le, take_ge by (by rewrite length_fmap).
  - intros Hold Hlater. destruct (event_state_full old later Hold Hlater) as (n & Hn & ->).
    exists n. split; [done|]. cbn [event_log event_count]. apply take_ge.
    destruct old as [|c old]; [done|]. cbn in *. rewrite length_fmap. lia.
Qed.

Lemma event_count_le calls : (event_count (event_state calls) ≤ MAX_EVENTS)%nat.
Proof.
  induction calls as [|c calls IH] using rev_ind; [cbn; unfold MAX_EVENTS; lia|].
  rewrite event_state_snoc, add_call_eq. cbn [event_count]. case_decide; lia.
Qed.

(** The document of GET /api/events. *)
Definition events_document (st : EventState) : string :=
  total_text (event_count st) +:+ String.concat "," (event_text <$> shown st) +:+ "]}".

Definition event_length (e : Event) : nat :=
  (String.length (e_time e) + String.length (e_type e) + String.length (e_user e) +
   String.length (e_session e) + String.length (e_detail e))%nat.

Lemma events_size_eq events : ∀ n,
  events_size events n = (n + sum_list_with (λ e, event_length e + 128) events)%nat.
Proof. induction events as [|e l IH]; intros n; cbn; [lia|]. rewrite IH. unfold event_length. lia. Qed.

Lemma event_text_length e : (String.length (event_text e) + 1 ≤ event_length e + 128)%nat.
Proof.
  unfold event_text, pair_text, dquoted, event_length.
  rewrite ?str_length_app. cbn [String.length]. rewrite ?str_length_app. cbn [String.length]. lia.
Qed.

Lemma total_text_length n :
  (n ≤ MAX_EVENTS)%nat → (String.length (total_text n) ≤ 40)%nat.
Proof.
  intros Hn. assert (Forall (λ k, String.length (total_text k) ≤ 40)%nat (seq 0 101)) as Hall.
  { apply (bool_decide_unpack _). vm_compute. exact I. }
  rewrite Forall_forall in Hall. apply Hall, elem_of_seq. unfold MAX_EVENTS in Hn. lia.
Qed.

Lemma concat_cons_sep (x : string) (l : list string) :
  String.concat "" (x :: l) = x +:+ String.concat "" l.
Proof. destruct l; cbn; by rewrite ?str_app_nil_r, ?str_app_nil_l. Qed.

Lemma concat_comma {A} (f : A → string) x (l : list A) :
  String.concat "," (f <$> x :: l) = f x +:+ String.concat "" ((λ y, "," +:+ f y) <$> l).
Proof.
  revert x. induction l as [|y l IH]; intros x; [cbn; by rewrite str_app_nil_r|].
  rewrite fmap_cons. change (String.concat "," (f x :: (f <$> y :: l))) with
    (f x +:+ "," +:+ String.concat "," (f <$> y :: l)).
  rewrite IH, fmap_cons, concat_cons_sep. by rewrite str_app_assoc.
Qed.

(** The entries fit what is left of a buffer that has room for them. *)
Lemma wp_write_events events : ∀ i b w (Q : cbuf → world → Prop),
  (String.length (default "" (b_text b)) + sum_list_with (λ e, event_length e + 128) events + 1
     ≤ b_size b)%nat →
  (∀ b', b_size b' = b_size b →
     default "" (b_text b') = default "" (b_text b) +:+
       (if decide (0 < i)%nat then String.concat "" ((λ e, "," +:+ event_text e) <$> events)
        else String.concat "," (event_text <$> events)) →
     (String.length (default "" (b_text b')) ≤
        String.length (default "" (b_text b)) + sum_list_with (λ e, event_length e + 128) events)%nat →
     Q b' w) →
  wp (write_events i events b) w Q.
Proof.
  induction events as [|e events IH]; intros i b w Q Hlen HQ; cbn [write_events].
  { apply wp_ret, HQ; [done| |cbn; lia]. by case_decide; rewrite str_app_nil_r. }
  pose proof (event_text_length e) as He. cbn [sum_list_with] in *.
  assert (∀ b1, b_size b1 = b_size b →
    default "" (b_text b1) = default "" (b_text b) +:+ (if decide (0 < i)%nat then "," else "") →
    wp (w ← sprintf b1 (event_text e); write_events (S i) events w) w Q) as Hrest.
  { intros b1 Hs1 Ht1.
    assert (String.length (default "" (b_text b1)) ≤ String.length (default "" (b_text b)) + 1)%nat.
    { rewrite Ht1, str_length_app. case_decide; cbn; lia. }
    apply wp_bind, wp_sprintf; [lia|]. apply IH; cbn [b_size b_text from_option id].
    - rewrite str_length_app. lia.
    - intros b' Hs Ht Hl. rewrite str_length_app in Hl. apply HQ; [congruence| |lia].
      rewrite Ht, decide_True, Ht1 by lia. rewrite !str_app_assoc. f_equal.
      destruct (decide (0 < i)%nat); rewrite ?str_app_nil_l.
      + by rewrite fmap_cons, concat_cons_sep, !str_app_assoc.
      + by rewrite concat_comma. }
  apply wp_bind. case_decide as Hi.
  - apply wp_sprintf; [cbn; lia|]. by apply Hrest.
  - apply wp_ret, Hrest; [done|]. by rewrite str_app_nil_r.
Qed.

Lemma wp_events_json st w (Q : cstr → world → Prop) :
  (event_count st ≤ MAX_EVENTS)%nat →
  (∀ w', env_step w w' → Q (Some (events_document st)) w') →
  (∀ w', env_step w w' → ¬ no_oom w → Q None w') →
  wp (events_json st) w Q.
Proof.
  intros Hn HS HN. unfold events_json.
  replace (if decide (event_count st < MAX_EVENTS)%nat then event_count st else MAX_EVENTS)
    with (event_count st) by (case_decide; lia).
  fold (shown st). pose proof (total_text_length _ Hn) as Ht.
  rewrite events_size_eq.
  apply wp_bind, wp_alloc; intros w' Hw; [|intros ?; by apply wp_ret, HN].
  apply wp_bind, wp_sprintf; cbn [b_size b_text from_option id]; [cbn [String.length]; lia|].
  rewrite str_app_nil_l. apply wp_bind, wp_write_events; cbn [b_size b_text from_option id]; [lia|].
  intros b Hs Hb Hl. apply wp_bind, wp_sprintf; [rewrite Hs; cbn [String.length]; lia|].
  apply wp_bind, wp_deref, wp_ret. rewrite Hb, str_app_assoc. by apply HS.
Qed.

End log.

(** ** The route *)

Section login.
Context `{CJSON, OpenSSL, UUIDv7, LocalTime} {T : Type} `{Store T}.
Implicit Types (mgr : OpenDBSC_Manager).

Lemma answer_run status text mgr resp (st : T) w :
  quiet w → answer status text mgr resp st w = Ret (0, mgr, with_answer status (Some text) resp, st) w.
Proof. intros Hw. unfold answer. by run_by ltac:(by apply strdup_run, quiet_no_oom). Qed.

Lemma wp_answer status text mgr resp (st : T) w :
  wp (answer status text mgr resp st) w (λ '(rc, mgr', r, st') w',
    rc = 0 ∧ mgr' = mgr ∧ status_code r = status ∧ st' = st).
Proof. apply wp_bind, wp_alloc; intros; by apply wp_ret. Qed.

(** What a field was found to be is what the form says. *)
Lemma form_value_found body name w r w' :
  get_form_value body (Some name) w = Ret (Some r) w' → ∃ b, body = Some b ∧ form_field b name = Some r.
Proof.
  destruct body as [b|]; [|done]. intros Hrun. exists b. split; [done|].
  assert (wp (get_form_value (Some b) (Some name)) w (λ r' _, ∀ v, r' = Some v → form_field b name = Some v))
    as Hwp by (by apply wp_form_value).
  unfold wp in Hwp. rewrite Hrun in Hwp. by apply Hwp.
Qed.

(** C39. Nobody logs in without a password.  Over any store, in any state and
    whatever the allocator and the clock do: when a request to the login path
    returns, either the form holds the name and the password of one of the
    users, or the answer is 401 and the store, the manager and the sessions are
    untouched. *)
Theorem example_login_needs_credentials body len mgr resp (st : T) w rc mgr' resp' st' w' :
  app_route "POST" "/login" body len mgr resp st w = Ret (rc, mgr', resp', st') w' →
  (∃ b, body = Some b ∧ valid_login b) ∨
  (rc = 0 ∧ mgr' = mgr ∧ status_code resp' = 401 ∧ st' = st).
Proof.
  change (app_route "POST" "/login" body len mgr resp st) with (login_route body mgr resp st).
  unfold login_route. rewrite bind_unfold.
  destruct (get_form_value body (Some "username") w) as [name w1| |] eqn:Hname; [|done..].
  rewrite bind_unfold.
  destruct (get_form_value body (Some "password") w1) as [pass w2| |] eqn:Hpass; [|done..].
  destruct (_ || _) eqn:Htest; intros Hrun.
  - right. rewrite bind_unfold in Hrun. cbn [call_on_event] in Hrun. unfold call_on_event in Hrun.
    match type of Hrun with answer ?c ?t _ _ _ ?w0 = _ =>
      pose proof (wp_answer c t mgr resp st w0) as Hwp end.
    unfold wp in Hwp. rewrite Hrun in Hwp. naive_solver.
  - left. apply orb_false_iff in Htest as [[Hn Hp]%orb_false_iff Hv%Z.eqb_neq].
    destruct name as [name|]; [|by rewrite bool_decide_true in Hn].
    destruct pass as [pass|]; [|by rewrite bool_decide_true in Hp].
    apply form_value_found in Hname as (b & -> & Hb), Hpass as (b' & [= <-] & Hb').
    apply validate_login_valid in Hv as (u & Hu & -> & ->). exists b. split; [done|]. by exists u.
Qed.

Lemma wp_events_route mgr resp (st : T) w :
  wp (events_route mgr resp st) w (λ '(rc, mgr', resp', st') w',
    rc = 0 ∧ mgr' = mgr ∧ st' = st ∧ env_step w w' ∧
    (resp' = with_answer 200 (Some (events_document (event_state (w_events w)))) resp ∨
     status_code resp' = 500 ∧ ¬ no_oom w)).
Proof.
  apply wp_bind. eapply wp_run; [reflexivity|]. apply wp_bind, wp_events_json.
  - apply event_count_le.
  - intros w' Hw. apply wp_ret. split_and!; [done..|by left].
  - intros w' Hw Ho. apply wp_bind, wp_alloc; intros w2 Hw2; [|intros ?]; apply wp_ret;
      (split_and!; [done..|by etrans|by right]).
Qed.

(** The document of the log fits its buffer.  Whatever calls of
    [add_event] there were and whatever the allocator does, GET /api/events
    writes inside the bytes it has counted, and answers 200 with the total and
    the entries that are shown, separated by commas, or, only if an allocation
    failed, 500; the sessions and the log stay as they are. *)
Theorem example_events_document body len mgr resp (st : T) w :
  wp (app_route "GET" "/api/events" body len mgr resp st) w (λ '(rc, mgr', resp', st') w',
    rc = 0 ∧ mgr' = mgr ∧ st' = st ∧ env_step w w' ∧
    (resp' = with_answer 200 (Some (events_document (event_state (w_events w)))) resp ∨
     status_code resp' = 500 ∧ ¬ no_oom w)).
Proof. apply wp_events_route. Qed.

End login.

Section route.
Context `{CJSON, OpenSSL, UUIDv7, LocalTime} {T : Type} `{StoreLaws T}.
Implicit Types (mgr : OpenDBSC_Manager).

(** The environment after a call of [add_event] by the route. *)
Definition noted (e : event) (w : world) : world :=
  World (w_alloc w) (w_now w) (w_ticks w) (w_entropy w) (w_realtime w) (w_events w ++ [(w_now w, e)]).

Definition refused_event (body : string) : event :=
  CLib.Event "LOGIN_FAIL" (or_default (form_field body "username") "") (Some "")
    (Some "invalid credentials").

Lemma noted_up mgr (st : T) e w : server_up mgr st w → server_up mgr st (noted e w).
Proof. by intros []; split. Qed.

(** An identifier fits the 37 bytes that are there for it. *)
Lemma new_id_length id w w1 :
  opendbsc_session_new_id (Some (CBuf 37 None)) w = Ret (0, Some (CBuf 37 (Some id))) w1 →
  (String.length id ≤ 36)%nat.
Proof.
  unfold opendbsc_session_new_id. case_decide; [done|].
  rewrite bind_unfold. destruct (clock_gettime w) as [[[sec nsec]|] w2| |]; try done.
  rewrite bind_unfold. destruct (getentropy _ w2) as [[bs|] w3| |]; try done.
  destruct (uuidv7_generate _ _) as [status u]. destruct (status <? 0); [done|].
  rewrite bind_unfold. unfold sprintf. case_decide as Hlen; [|done].
  cbn in *. intros [= <- <-]. lia.
Qed.

(** Logging in.  On a server that is up: when the form does not hold the
    name and the password of a user, the answer is 401, the refusal is noted in
    the log under the given name, and the sessions stay as they are; when it
    does, the manager opens a session for that user under a fresh identifier,
    and the answer is that of the manager, cookie and registration header
    included, with the identifier, uncut, in its body. *)
Theorem example_login_exact mgr body len (st : T) w :
  server_up mgr st w →
  (¬ valid_login body →
   app_route "POST" "/login" (Some body) len mgr response_default st w
     = Ret (0, mgr, with_answer 401 (Some (error_text "invalid credentials")) response_default, st)
           (noted (refused_event body) w)) ∧
  (∀ u id w1, u ∈ users →
   form_field body "username" = Some (username u) → form_field body "password" = Some (password u) →
   opendbsc_session_new_id (Some (CBuf 37 None)) w = Ret (0, Some (CBuf 37 (Some id))) w1 →
   store_view st !! id = None → store_room 1 st →
   let s := login_session mgr (w_now w) (challenge_of w1) id (username u) in
   ∃ st', app_route "POST" "/login" (Some body) len mgr response_default st w
       = Ret (0, mgr, with_answer 200 (Some (login_text id)) (login_response mgr (challenge_of w1) id), st')
             (told mgr (login_event id (username u)) (drawn w1)) ∧
     store_inv st' ∧ store_view st' = <[id := s]> (store_view st)).
Proof.
  intros Hup. pose proof Hup as [Hw Hm Hc Hi Hs].
  change (app_route "POST" "/login" (Some body) len mgr response_default st)
    with (login_route (Some body) mgr response_default st). unfold login_route.
  rewrite (bind_run _ _ _ _ _ (form_value_run body "username" w Hw)).
  rewrite (bind_run _ _ _ _ _ (form_value_run body "password" w Hw)). split.
  - intros Hv.
    assert (bool_decide (form_field body "username" = None) || bool_decide (form_field body "password" = None)
      || (validate_login (form_field body "username") (form_field body "password") =? 0) = true) as ->.
    { destruct (form_field body "username") as [name|] eqn:Hn; [|done].
      destruct (form_field body "password") as [pass|] eqn:Hp; [|done].
      cbn [bool_decide orb]. apply Z.eqb_eq. destruct (decide (validate_login (Some name) (Some pass) = 0))
        as [|Hval]; [done|]. destruct Hv. apply validate_login_valid in Hval as (u & ? & -> & ->).
      by exists u. }
    run_by ltac:(reflexivity). by apply (answer_run _ _ _ _ _ (noted (refused_event body) w)).
  - intros u id w1 Hu Hn Hp Hid Hfresh Hroom. cbv zeta. rewrite Hn, Hp, validate_login_complete by done.
    rewrite !(bool_decide_false (Some _ = None)) by done. cbn [orb Z.eqb].
    pose proof (initiate_refines 0 mgr (username u) id (Some session_default) response_default st w w1) as Hinit.
    cbv zeta in Hinit. destruct Hinit
      as (st' & Hrun & Hi' & Hv' & _); [done..|].
    exists st'. split; [|done]. run_by ltac:(apply Hrun). run_by ltac:(reflexivity).
    cbn [negb Z.eqb fmap option_fmap option_map]. run_by ltac:(reflexivity).
    assert (s_id (login_session mgr (w_now w) (challenge_of w1) id (username u)) = Some id) as ->
      by by apply login_session_ok.
    run_by ltac:(reflexivity). pose proof (new_id_length _ _ _ Hid).
    assert (snprintf 512 (login_text id) = login_text id) as ->.
    { apply str_take_ge. unfold login_text, dquoted. rewrite ?str_length_app. cbn [String.length].
      rewrite ?str_length_app. cbn [String.length]. lia. }
    apply answer_run. destruct (new_id_world _ _ _ _ _ Hid) as (Ha & _ & Ht & _), Hw.
    apply quiet_told. split; cbn; congruence.
Qed.

(** A message for a path the route does not know is left to the library. *)
Lemma app_route_declines (server : OpenDBSC_HTTPServer (T := T)) hm st :
  hs_route server = Some app_route →
  (∀ method uri, header_text (Some (hm_method hm)) = Some method →
     header_text (Some (hm_uri hm)) = Some uri →
     (method, uri) ∉ [("POST", "/login"); ("GET", "/api/events"); ("GET", "/api/status")]) →
  declined server hm st.
Proof.
  intros Hroute Hpath. unfold declined. rewrite Hroute. intros method uri w Hm Hu _.
  specialize (Hpath method uri Hm Hu). exists (-1). split; [done|]. unfold app_route.
  rewrite !not_elem_of_cons in Hpath. destruct Hpath as (Hp1 & Hp2 & Hp3 & _).
  assert (∀ a b, (method, uri) ≠ (a, b) → String.eqb method a && String.eqb uri b = false) as Hne.
  { intros a b Hab. destruct (String.eqb_spec method a), (String.eqb_spec uri b); subst; try done. }
  rewrite !Hne by done. by destruct (_ && _).
Qed.

(** The library works behind the example's route.  On the example's server,
    a message that is not for one of the three paths of the application, and in
    particular every message for [/dbsc/register], [/dbsc/refresh] and
    [/api/me], is answered as the abstract manager does. *)
Theorem example_serves_dbsc (server : OpenDBSC_HTTPServer (T := T)) hm st w :
  server_up (hs_manager server) st w → hs_route server = Some app_route →
  hm_uri hm ∈ ["/dbsc/register"; "/dbsc/refresh"; "/api/me"] →
  ∃ es, skipped_of hm w es ∧
    let w1 := reported (hs_manager server) es w in
    let '(outs, m, e) := http_spec server (w_now w) (challenge_of w) hm (store_view st) in
    ∃ st', dbsc_event_handler (Some server) (MG_EV_HTTP_MSG hm) st w
        = Ret (outs, Some server, st') (after (hs_manager server) w1 e) ∧
      server_up (hs_manager server) st' (after (hs_manager server) w1 e) ∧ store_view st' = m.
Proof.
  intros Hup Hroute Hin. apply handler_run; [done|]. apply app_route_declines; [done|].
  intros method uri _. unfold header_text. rewrite !elem_of_cons in Hin.
  destruct Hin as [->|[->|[->|[]%elem_of_nil]]]; intros [= <-];
    rewrite !elem_of_cons, elem_of_nil; by intros [|[|[|]]].
Qed.

(** *** The route is lawful *)

Context `{!UUIDv7Laws}.
#[local] Set Default Proof Using "Type*".

(** A login always returns. *)
Lemma login_total mgr u out n (st : T) w :
  server_up mgr st w → roomy (S n) st →
  ∃ rc out' r st' w',
    opendbsc_manager_initiate (Some mgr) (Some u) (Some out) (Some response_default) st w
      = Ret (rc, out', Some r, st') w' ∧
    (rc = 0 → ∃ s id, out' = Some s ∧ s_id s = Some id) ∧
    server_up mgr st' w' ∧ roomy n st' ∧ w_now w' = w_now w.
Proof.
  intros Hup ([|k] & Hk & Hroom); [lia|].
  destruct (initiate_total mgr u (Some out) k st w Hup Hroom)
    as (rc & out' & r & st' & w' & Hrun & Hout & Hup' & Hr & Hn).
  exists rc, out', r, st', w'.
  split_and!; [done| |done|destruct Hr; eexists; (split; [|eassumption]); lia|done].
  intros Hrc. destruct (Hout Hrc) as (s & id & -> & ?). by exists s, id.
Qed.

Lemma app_route_lawful (server : OpenDBSC_HTTPServer (T := T)) :
  hs_route server = Some app_route → route_lawful server.
Proof.
  intros Hroute. unfold route_lawful. rewrite Hroute. intros method uri body len n st w Hup Hroom.
  set (mgr := hs_manager server) in *. pose proof (up_quiet _ _ _ Hup) as Hw.
  assert (roomy n st) as Hn by by eapply roomy_kept.
  assert (∀ status text r st1 w1, server_up mgr st1 w1 → roomy n st1 → w_now w1 = w_now w →
    ∃ rc r' st' w', answer status text mgr r st1 w1 = Ret (rc, mgr, r', st') w' ∧
      server_up mgr st' w' ∧ w_now w' = w_now w ∧
      if rc =? 0 then roomy n st' else r' = response_default ∧ roomy (S n) st') as Hanswer.
  { intros status text r st1 w1 Hup1 Hr1 Hn1. do 4 eexists. split; [apply answer_run, Hup1|]. done. }
  assert (∀ e status text, ∃ rc r' st' w',
    answer status text mgr response_default st (noted e w) = Ret (rc, mgr, r', st') w' ∧
      server_up mgr st' w' ∧ w_now w' = w_now w ∧
      if rc =? 0 then roomy n st' else r' = response_default ∧ roomy (S n) st') as Hrefused.
  { intros e status text. apply Hanswer; [by apply noted_up|done|done]. }
  unfold app_route. destruct (_ && _); [|destruct (_ && _)].
  - unfold login_route. destruct body as [body|]; [|apply Hrefused].
    run_by ltac:(by apply form_value_run). run_by ltac:(by apply form_value_run).
    destruct (form_field body "username") as [name|]; [|apply Hrefused].
    destruct (_ || _); [apply Hrefused|].
    destruct (login_total mgr name session_default n st w Hup Hroom)
      as (rc & out & r & st1 & w1 & Hrun & Hout & Hup1 & Hr1 & Hn1).
    run_by ltac:(apply Hrun). run_by ltac:(reflexivity).
    destruct (Z.eqb_spec rc 0) as [->|]; [|by apply Hanswer]. destruct Hout as (s & id & -> & Hsid); [done|].
    cbn [negb]. run_by ltac:(reflexivity). rewrite Hsid. run_by ltac:(reflexivity). by apply Hanswer.
  - destruct (wp_elim _ _ _ (wp_events_route mgr response_default st w))
      as ([[[rc mgr'] r] st'] & w' & Hrun & -> & -> & -> & Hst & _).
    apply step_quiet in Hst as ->; [|done]. exists 0, r, st, w. by split_and!.
  - destruct (_ && _); [by apply Hanswer|]. exists (-1), response_default, st, w.
    split; [by destruct (_ && _)|by split_and!].
Qed.

End route.

(** ** Witnesses *)

(** A process that runs in Greenwich. *)
#[local] Instance ref_LocalTime : LocalTime := λ t, default (Tm 0 0 0 1 0 70) (gmtime_r t).

Definition login_form : string := "remember=1&username=alice&password=password123&password=x".

Lemma demo_refusal_run :
  ∃ rc mgr' resp' st' w',
    app_route "POST" "/login" (Some "username=alice&password=hunter2") 31%nat demo_manager response_default
      demo_store demo_world = Ret (rc, mgr', resp', st') w'.
Proof. do 5 eexists. vm_compute. reflexivity. Qed.

Lemma example_login_needs_credentials_witness :
  ∃ rc mgr' resp' st' w',
    app_route "POST" "/login" (Some "username=alice&password=hunter2") 31%nat demo_manager response_default
      demo_store demo_world = Ret (rc, mgr', resp', st') w' ∧
    ((∃ b, Some "username=alice&password=hunter2" = Some b ∧ valid_login b) ∨
     (rc = 0 ∧ mgr' = demo_manager ∧ status_code resp' = 401 ∧ st' = demo_store)).
Proof.
  destruct demo_refusal_run as (rc & mgr' & resp' & st' & w' & Hrun).
  exists rc, mgr', resp', st', w'. split; [exact Hrun|].
  exact (example_login_needs_credentials _ _ _ _ _ _ _ _ _ _ _ Hrun).
Defined.

Lemma example_login_exact_witness :
  server_up demo_manager demo_store demo_world ∧
  ∃ w1 st', opendbsc_session_new_id (Some (CBuf 37 None)) demo_world
      = Ret (0, Some (CBuf 37 (Some demo_id))) w1 ∧
    app_route "POST" "/login" (Some login_form) 57%nat demo_manager response_default demo_store demo_world
      = Ret (0, demo_manager, with_answer 200 (Some (login_text demo_id))
               (login_response demo_manager (challenge_of w1) demo_id), st')
            (told demo_manager (login_event demo_id "alice") (drawn w1)).
Proof.
  split; [exact demo_up|].
  assert (∃ w1, opendbsc_session_new_id (Some (CBuf 37 None)) demo_world
      = Ret (0, Some (CBuf 37 (Some demo_id))) w1) as [w1 Hid] by (eexists; vm_compute; reflexivity).
  destruct (proj2 (example_login_exact demo_manager login_form 57%nat demo_store demo_world demo_up)
    (mkUser "alice" "password123") demo_id w1) as (st' & Hrun & _);
    [by left|vm_compute; reflexivity|vm_compute; reflexivity|exact Hid|vm_compute; reflexivity
    |vm_compute; reflexivity|].
  exists w1, st'. split; [exact Hid|exact Hrun].
Defined.

Definition demo_example : OpenDBSC_HTTPServer (T := OpenDBSC_MemoryStore) :=
  HTTPServer demo_manager (Some app_route) (Some "examples/static") true None None.

Lemma example_serves_dbsc_witness :
  let server := demo_example in
  ∃ es, skipped_of (demo_message : mg_http_message) demo_world es ∧
    let w1 := reported (hs_manager server) es demo_world in
    let '(outs, m, e) := http_spec server (w_now demo_world) (challenge_of demo_world)
                           (demo_message : mg_http_message) (store_view demo_store) in
    ∃ st', dbsc_event_handler (Some server) (MG_EV_HTTP_MSG (demo_message : mg_http_message))
        demo_store demo_world = Ret (outs, Some server, st') (after (hs_manager server) w1 e) ∧
      server_up (hs_manager server) st' (after (hs_manager server) w1 e) ∧ store_view st' = m.
Proof.
  intros server. apply example_serves_dbsc; [exact demo_up|reflexivity|]. cbn. by right; left.
Defined.

(** A hundred and two refusals. *)
Definition demo_calls : list (Z * event) :=
  (λ n, (Z.of_nat n, refused_event ("username=u" +:+ pretty (Z.of_nat n)))) <$> seq 0 102.

Lemma example_log_keeps_oldest_witness :
  length (take 100 demo_calls) = MAX_EVENTS ∧ drop 100 demo_calls ≠ [] ∧
  ∃ newest, last (drop 100 demo_calls) = Some newest ∧
    shown (event_state (take 100 demo_calls ++ drop 100 demo_calls))
      = entry newest :: tail (entry <$> take 100 demo_calls).
Proof.
  split; [reflexivity|]. split; [done|].
  by apply example_log_keeps_oldest.
Defined.

(** A refused login can write entries of its own.  The name of a refused login
    is shown as it was sent, so that with a quote in it the document of the log
    holds an entry of a login that never was. *)
Lemma example_log_forged :
  events_document (event_state
    [(0, refused_event ("username=" +:+ (String DQ "") +:+ "},{" +:+ dquoted "type" +:+ ":" +:+ dquoted "LOGIN" +:+
       "," +:+ dquoted "user" +:+ ":" +:+ (String DQ "") +:+ "alice"))])
  = total_text 1 +:+
    "{" +:+ pair_text "time" "00:00:00" +:+ "," +:+ pair_text "type" "LOGIN_FAIL" +:+ "," +:+
      pair_text "user" "" +:+ "}," +:+
    "{" +:+ pair_text "type" "LOGIN" +:+ "," +:+ pair_text "user" "alice" +:+ "," +:+
      pair_text "session" "" +:+ "," +:+ pair_text "detail" "invalid credentials" +:+ "}]}".
Proof. vm_compute. reflexivity. Qed.
