(* ===== verification/ExampleMain.v ===== *)
(** The whole example program: the table of functions that [create_store]
    returns keeps the promise of a store, and [main] serves until it is told to
    stop. *)

From S2P Require Import Rfc3339 SqliteProps OdbcProps RefRedis.
From S2P Require Export Backends ExampleProps.
From stdpp Require Import options.
#[local] Open Scope Z_scope.

(** ** The table of functions *)

Section table.
Context `{CJSON, !CJSONNumber, Sqlite, !SqliteLaws, Odbc, !OdbcLaws, Hiredis, CallStack}.

(** The table of each of the three lawful stores is lawful, that of the ODBC
    store when its driver and database take texts of any length; the Redis
    store makes no promise to the manager. *)
Definition vt_inv (st : OpenDBSC_Store) : Prop :=
  match st with
  | MemoryTable impl => store_inv impl
  | SqliteTable impl => store_inv impl
  | OdbcTable impl => OdbcAnyLength ∧ odbc_inv impl ∧ table_ok (ctx_table impl)
  | RedisTable _ => False
  end.

Definition vt_room (n : nat) (st : OpenDBSC_Store) : Prop :=
  match st with
  | MemoryTable impl => store_room n impl
  | SqliteTable impl => store_room n impl
  | OdbcTable impl => True
  | RedisTable _ => False
  end.

Definition vt_view (st : OpenDBSC_Store) : view :=
  match st with
  | MemoryTable impl => store_view impl
  | SqliteTable impl => store_view impl
  | OdbcTable impl => table_view (ctx_table impl)
  | RedisTable _ => ∅
  end.

(** The call through the table is the call [Hrun] of the function in it. *)
Ltac through_table Hrun :=
  cbn [st_create st_get st_update st_delete st_get_by_user_id st_delete_by_user_id table_Store through];
  by run_by ltac:(exact Hrun).

(** What the call leaves, with what is known of the driver. *)
Ltac law_kept Hlaw := first [exact Hlaw|destruct Hlaw as [? ?]; split; [by split|done]].
Ltac odbc_case impl Hi :=
  destruct Hi as [Hany Hi]; change (store_inv impl) in Hi;
  repeat match goal with
    | H : context [vt_room ?n (OdbcTable impl)] |- _ =>
        change (vt_room n (OdbcTable impl)) with (store_room n impl) in H
    | H : context [vt_view (OdbcTable impl)] |- _ =>
        change (vt_view (OdbcTable impl)) with (store_view impl) in H
    end.
Ltac law_inv Hi := first [exact Hi|by split].

#[export] Program Instance table_StoreLaws : StoreLaws OpenDBSC_Store := {
  store_inv := vt_inv;
  store_room := vt_room;
  store_view := vt_view
}.
Next Obligation.
  intros [impl|impl|impl|impl] id s Hi Hs; [..|done|odbc_case impl Hi];
    exact (store_view_id impl id s Hi Hs).
Qed.
Next Obligation.
  intros n [impl|impl|impl|impl] s id w Hw Hi Hr Hs Hid; [..|done|odbc_case impl Hi];
    destruct (store_create n impl s id w Hw Hi Hr Hs Hid) as (rc & impl' & Hrun & Hlaw);
    [exists rc, (MemoryTable impl')|exists rc, (SqliteTable impl')|exists rc, (OdbcTable impl')];
    (split; [through_table Hrun|law_kept Hlaw]).
Qed.
Next Obligation.
  intros [impl|impl|impl|impl] id w Hw Hi; [..|done|odbc_case impl Hi];
    destruct (store_get impl id w Hw Hi) as (impl' & Hi' & Hr & Hget);
    [exists (MemoryTable impl')|exists (SqliteTable impl')|exists (OdbcTable impl')];
    (split; [law_inv Hi'|split; [exact Hr|]]); cbn [vt_view];
    destruct (lookup_live _ _ _); destruct Hget as [Hrun Hv]; (split; [through_table Hrun|exact Hv]).
Qed.
Next Obligation.
  intros [impl|impl|impl|impl] s id old w Hw Hi Hs Hid Hold Hc; [..|done|odbc_case impl Hi];
    destruct (store_update impl s id old w Hw Hi Hs Hid Hold Hc) as (impl' & Hrun & Hlaw);
    [exists (MemoryTable impl')|exists (SqliteTable impl')|exists (OdbcTable impl')];
    (split; [through_table Hrun|law_kept Hlaw]).
Qed.
Next Obligation.
  intros [impl|impl|impl|impl] s id w Hw Hi Hs Hid Hnone; [..|done|odbc_case impl Hi];
    destruct (store_update_missing impl s id w Hw Hi Hs Hid Hnone) as (impl' & Hrun & Hlaw);
    [exists (MemoryTable impl')|exists (SqliteTable impl')|exists (OdbcTable impl')];
    (split; [through_table Hrun|law_kept Hlaw]).
Qed.
Next Obligation.
  intros [impl|impl|impl|impl] id w Hw Hi; [..|done|odbc_case impl Hi];
    destruct (store_delete impl id w Hw Hi) as (rc & impl' & Hrun & Hlaw);
    [exists rc, (MemoryTable impl')|exists rc, (SqliteTable impl')|exists rc, (OdbcTable impl')];
    (split; [through_table Hrun|law_kept Hlaw]).
Qed.
Next Obligation.
  intros [impl|impl|impl|impl] u w Hw Hi; [..|done|odbc_case impl Hi];
    destruct (store_get_by_user_id impl u w Hw Hi) as (l & impl' & Hrun & Hlaw);
    [exists l, (MemoryTable impl')|exists l, (SqliteTable impl')|exists l, (OdbcTable impl')];
    (split; [through_table Hrun|law_kept Hlaw]).
Qed.
Next Obligation.
  intros [impl|impl|impl|impl] u w Hw Hi; [..|done|odbc_case impl Hi];
    destruct (store_delete_by_user_id impl u w Hw Hi) as (rc & impl' & Hrun & Hlaw);
    [exists rc, (MemoryTable impl')|exists rc, (SqliteTable impl')|exists rc, (OdbcTable impl')];
    (split; [through_table Hrun|law_kept Hlaw]).
Qed.

End table.

(** ** The program *)

Section program.
Context `{CJSON, !CJSONNumber, OpenSSL, UUIDv7, !UUIDv7Laws, Mongoose, LocalTime}.
Context `{Sqlite, !SqliteLaws, Odbc, !OdbcLaws, Hiredis, CallStack, Process}.

#[local] Set Default Proof Using "Type*".

Definition example_manager : OpenDBSC_Manager := configured example_config.

Lemma example_init_run w :
  no_oom w →
  opendbsc_manager_init (Some manager_zero) (Some example_config) w = Ret (0, Some example_manager) w.
Proof. intros Hw. by apply manager_init_exact. Qed.

Lemma server_start_run w mgr :
  no_oom w → mg_http_listen "https://0.0.0.0:8447" = true →
  ∃ cert key, opendbsc_http_server_start (Some (server_config mgr)) w
    = Ret (Some (HTTPServer mgr (Some app_route) (Some "examples/static") true cert key)) w.
Proof.
  intros Hw Hl. unfold opendbsc_http_server_start, server_config.
  cbn [hc_manager hc_listen_addr hc_cert_path hc_key_path hc_static_root hc_route].
  run_by ltac:(by apply malloc_run). cbn [negb]. rewrite Hl. cbn [negb].
  destruct (mg_file_read "cert/cert.pem") as [cert|], (mg_file_read "cert/key.pem") as [key|];
    try by do 2 eexists.
  run_by ltac:(by apply memcpy_str_run). run_by ltac:(by apply memcpy_str_run). by do 2 eexists.
Qed.

Lemma server_start_refused w mgr :
  no_oom w → mg_http_listen "https://0.0.0.0:8447" = false →
  opendbsc_http_server_start (Some (server_config mgr)) w = Ret None w.
Proof.
  intros Hw Hl. unfold opendbsc_http_server_start, server_config.
  cbn [hc_manager hc_listen_addr hc_cert_path hc_key_path hc_static_root hc_route].
  run_by ltac:(by apply malloc_run). cbn [negb]. by rewrite Hl.
Qed.

(** C40. The example program serves until it is told to stop.  Whatever store
    its arguments ask for, when that store is one of the lawful ones (for ODBC:
    over a database that takes texts of any length), in order, and with room
    for a session per event: the program exits with 1 if it
    cannot listen, and otherwise it answers every event that is met until the
    poll in which a signal arrives is over, whatever the requests are, and
    exits with 0, leaving a store whose sessions are in order; without a signal
    it does not exit.  Without a store it exits with 1. *)
Theorem example_runs_until_stopped argv polls last rest w store :
  let inputs := concat polls ++ last in
  create_store (Some (default "memory" (argv !! 0%nat))) (argv !! 1%nat) w = Ret store w →
  match store with
  | None => main (polls ++ last :: rest) argv w = Ret (1, [], None) w
  | Some store =>
      server_up example_manager store w → roomy (length (events inputs)) store →
      Forall (λ p, stopped p = false) polls →
      Forall (λ d, 0 ≤ d) (waits inputs) → clock_ok example_manager (w_now w + waited inputs) →
      if mg_http_listen "https://0.0.0.0:8447" then
        (stopped last = true →
         ∃ outs st' w', main (polls ++ last :: rest) argv w = Ret (0, outs, Some st') w' ∧
           length outs = length (events inputs) ∧ server_up example_manager st' w' ∧
           w_now w' = w_now w + waited inputs) ∧
        (stopped last = false → main (polls ++ [last]) argv w = Hang)
      else main (polls ++ last :: rest) argv w = Ret (1, [], Some store) w
  end.
Proof.
  intros inputs Hcreate. unfold main. destruct store as [store|];
    [|by run_by ltac:(apply Hcreate)].
  intros Hup Hroom Hns Hpos Hclk. pose proof (quiet_no_oom _ (up_quiet _ _ _ Hup)) as Ho.
  destruct (mg_http_listen _) eqn:Hl.
  2:{ run_by ltac:(apply Hcreate). step_by ltac:(by apply example_init_run). run_by ltac:(reflexivity).
      by run_by ltac:(by apply server_start_refused). }
  destruct (server_start_run w example_manager Ho Hl) as (cert & key & Hstart).
  set (server := HTTPServer _ _ _ _ _ _) in Hstart.
  assert (route_lawful server) as Hroute by by apply app_route_lawful.
  split; intros Hs.
  - destruct (loop_run polls last rest server store w) as (outs & st' & w' & Hrun & ?); [done..|].
    exists outs, st', w'. split; [|done].
    run_by ltac:(apply Hcreate). step_by ltac:(by apply example_init_run). run_by ltac:(reflexivity).
    run_by ltac:(apply Hstart).
    run_by ltac:(unfold opendbsc_http_server_run; by run_by ltac:(apply Hrun)). done.
  - run_by ltac:(apply Hcreate). step_by ltac:(by apply example_init_run). run_by ltac:(reflexivity).
    run_by ltac:(apply Hstart). rewrite bind_unfold. unfold opendbsc_http_server_run.
    rewrite bind_unfold. by rewrite unstopped_hangs.
Qed.

(** Without arguments the store is a new one in memory, and in order. *)
Lemma example_memory_store conn w :
  quiet w → clock_ok example_manager (w_now w) →
  create_store (Some "memory") conn w = Ret (Some (MemoryTable (MemoryStore [] 0 false))) w ∧
  server_up example_manager (MemoryTable (MemoryStore [] 0 false)) w ∧
  ∀ n, Z.of_nat n < 2 ^ 31 → roomy n (MemoryTable (MemoryStore [] 0 false)).
Proof.
  intros Hw Hc. pose proof (quiet_no_oom _ Hw) as Ho. split_and!.
  - cbn [create_store String.eqb Ascii.eqb Bool.eqb]. unfold opendbsc_memory_store_create.
    run_by ltac:(do 2 step_by ltac:(by apply malloc_run); by step_by ltac:(by apply malloc_run)). done.
  - split; [done|by split|done|apply new_store_wf|apply map_Forall_empty].
  - intros n Hn. by exists n.
Qed.

End program.

(** ** Witnesses *)

#[local] Instance demo_time : LocalTime := λ t, default (Tm 0 0 0 1 0 70) (gmtime_r t).
(** The program, started without arguments: alice logs in, five seconds
    later somebody looks at the log, and the process is told to stop. *)
#[local] Instance demo_stack : CallStack := 1%nat.
#[local] Instance demo_process : Process := {| getenv _ := None; OPENDBSC_HAVE_ODBC := false |}.

Definition demo_poll : list mg_input :=
  [MG_EVENT (MG_EV_HTTP_MSG (RefMessage "POST" "/login" login_form [] : mg_http_message)); MG_WAIT 5].
Definition demo_last : list mg_input :=
  [MG_EVENT (MG_EV_HTTP_MSG (RefMessage "GET" "/api/events" "" [] : mg_http_message)); MG_STOP].

Example demo_main_run :
  match main ([demo_poll] ++ [demo_last]) [] demo_world with
  | Ret (0, [[mg_http_reply 200 _ b1]; [mg_http_reply 200 _ b2]], Some (MemoryTable ms)) w' =>
      b1 = login_text demo_id ∧
      b2 = total_text 1 +:+ event_text (entry (1000, login_event demo_id "alice")) +:+ "]}" ∧
      s_user_id <$> ms_sessions ms = [Some "alice"] ∧ w_now w' = 1005
  | _ => False
  end.
Proof. vm_compute. by split_and!. Qed.

Lemma example_runs_until_stopped_witness :
  ∃ outs st' w', main ([demo_poll] ++ [demo_last]) [] demo_world = Ret (0, outs, Some st') w' ∧
    length outs = length (events (concat [demo_poll] ++ demo_last)) ∧
    server_up example_manager st' w' ∧
    w_now w' = w_now demo_world + waited (concat [demo_poll] ++ demo_last).
Proof.
  destruct (example_memory_store None demo_world) as (Hcreate & Hup & Hroom); [by split|by split|].
  assert (clock_ok example_manager (w_now demo_world + waited (concat [demo_poll] ++ demo_last)))
    as Hclk by (split; vm_compute; congruence).
  assert (roomy (length (events (concat [demo_poll] ++ demo_last))) (MemoryTable (MemoryStore [] 0 false)))
    as Hr by by apply Hroom.
  pose proof (example_runs_until_stopped [] [demo_poll] demo_last [] demo_world
    (Some (MemoryTable (MemoryStore [] 0 false))) Hcreate Hup Hr) as Hmain.
  exact (proj1 (Hmain ltac:(by repeat constructor) ltac:(by repeat constructor) Hclk) eq_refl).
Defined.
